(** * RFIDr MCU firmware: the reader orchestration core

    A shallow embedding of the operational state machine of the reader
    (rfidr_state.c), of the frequency agility code of the SX1257 driver
    (rfidr_sx1257.c) and of the helpers they call, followed by the
    properties of the natural-language specification that concern them.

    The firmware is single threaded.  It talks to three collaborators: the
    FPGA radio state machine and the SX1257 (over SPI), and the BTLE stack.
    Every call into a collaborator is recorded in a trace, and what the
    collaborator answers is taken from an environment [env], a function of
    the position in the trace and of the call.  Theorems that hold "for
    every hardware" quantify over [env]. *)

From Stdlib Require Import ZArith Bool String Ascii DecimalString List Lia.
From Stdlib Require Import RelationClasses.
Import ListNotations.
Open Scope Z_scope.

(** ** Machine integers *)

Definition u8 (x : Z) : Z := x mod 256.
Definition u16 (x : Z) : Z := x mod 65536.
Definition u32 (x : Z) : Z := x mod 4294967296.
(** (int32_t) of a 32-bit pattern. *)
Definition s32 (x : Z) : Z :=
  let r := u32 x in if r <? 2147483648 then r else r - 4294967296.

(** ** Enumerations (rfidr_state.h, rfidr_error.h, rfidr_rxradio.h,
       rfidr_txradio.h) *)

Inductive rfidr_state_t : Type :=
| IDLE_UNCONFIGURED
| IDLE_CONFIGURED
| INITIALIZING
| SEARCHING_APP_SPECD_TAG
| SEARCHING_LAST_INV_TAG
| INVENTORYING
| TESTING_DTC
| PROGRAMMING_APP_SPECD_TAG
| PROGRAMMING_LAST_INV_TAG
| RECOVERING_WAVEFORM_MEMORY
| RESET_SX1257_AND_FPGA
| KILL_TAG
| PROGRAMMING_KILL_PASSWD
| TRACK_APP_SPECD_TAG
| TRACK_LAST_INV_TAG.

(** The integer value the C compiler gives each enumerator. *)
Definition rfidr_state_value (s : rfidr_state_t) : Z :=
  match s with
  | IDLE_UNCONFIGURED => 0
  | IDLE_CONFIGURED => 1
  | INITIALIZING => 2
  | SEARCHING_APP_SPECD_TAG => 3
  | SEARCHING_LAST_INV_TAG => 4
  | INVENTORYING => 5
  | TESTING_DTC => 6
  | PROGRAMMING_APP_SPECD_TAG => 7
  | PROGRAMMING_LAST_INV_TAG => 8
  | RECOVERING_WAVEFORM_MEMORY => 9
  | RESET_SX1257_AND_FPGA => 10
  | KILL_TAG => 11
  | PROGRAMMING_KILL_PASSWD => 12
  | TRACK_APP_SPECD_TAG => 13
  | TRACK_LAST_INV_TAG => 14
  end.

(** [a == b] on two states. *)
Definition state_eq (a b : rfidr_state_t) : bool :=
  rfidr_state_value a =? rfidr_state_value b.

(** A C integer used as a condition. *)
Definition c_true (x : Z) : bool := negb (x =? 0).

Inductive rfidr_error_t : Type :=
| RFIDR_SUCCESS
| RFIDR_ERROR_SPI_WRITE_TX
| RFIDR_ERROR_SPI_WRITE_SX1257_1
| RFIDR_ERROR_SPI_WRITE_SX1257_2
| RFIDR_ERROR_SPI_WRITE_SX1257_3
| RFIDR_ERROR_SPI_WRITE_SX1257_4
| RFIDR_ERROR_SPI_WRITE_SX1257_5
| RFIDR_ERROR_BLE_PCKT1_SEND
| RFIDR_ERROR_BLE_PCKT2_SEND
| RFIDR_ERROR_READ_CHECK
| RFIDR_ERROR_WAVE_MEM_1
| RFIDR_ERROR_WAVE_MEM_2
| RFIDR_ERROR_USER_MEM
| RFIDR_ERROR_GENERAL.

Definition rfidr_error_value (e : rfidr_error_t) : Z :=
  match e with
  | RFIDR_SUCCESS => 0
  | RFIDR_ERROR_SPI_WRITE_TX => 1
  | RFIDR_ERROR_SPI_WRITE_SX1257_1 => 2
  | RFIDR_ERROR_SPI_WRITE_SX1257_2 => 3
  | RFIDR_ERROR_SPI_WRITE_SX1257_3 => 4
  | RFIDR_ERROR_SPI_WRITE_SX1257_4 => 5
  | RFIDR_ERROR_SPI_WRITE_SX1257_5 => 6
  | RFIDR_ERROR_BLE_PCKT1_SEND => 7
  | RFIDR_ERROR_BLE_PCKT2_SEND => 8
  | RFIDR_ERROR_READ_CHECK => 9
  | RFIDR_ERROR_WAVE_MEM_1 => 10
  | RFIDR_ERROR_WAVE_MEM_2 => 11
  | RFIDR_ERROR_USER_MEM => 12
  | RFIDR_ERROR_GENERAL => 13
  end.

(** The status a collaborator hands back, read off the environment's
    answer: 0 is success, 1..12 the matching error, anything else the
    general error. *)
Definition rfidr_error_of_Z (r : Z) : rfidr_error_t :=
  match r with
  | 0 => RFIDR_SUCCESS
  | 1 => RFIDR_ERROR_SPI_WRITE_TX
  | 2 => RFIDR_ERROR_SPI_WRITE_SX1257_1
  | 3 => RFIDR_ERROR_SPI_WRITE_SX1257_2
  | 4 => RFIDR_ERROR_SPI_WRITE_SX1257_3
  | 5 => RFIDR_ERROR_SPI_WRITE_SX1257_4
  | 6 => RFIDR_ERROR_SPI_WRITE_SX1257_5
  | 7 => RFIDR_ERROR_BLE_PCKT1_SEND
  | 8 => RFIDR_ERROR_BLE_PCKT2_SEND
  | 9 => RFIDR_ERROR_READ_CHECK
  | 10 => RFIDR_ERROR_WAVE_MEM_1
  | 11 => RFIDR_ERROR_WAVE_MEM_2
  | 12 => RFIDR_ERROR_USER_MEM
  | _ => RFIDR_ERROR_GENERAL
  end.

(** [rc != RFIDR_SUCCESS] *)
Definition failed (rc : rfidr_error_t) : bool :=
  match rc with RFIDR_SUCCESS => false | _ => true end.

Inductive return_epc_t : Type := RETURN_EPC_NO | RETURN_EPC_YES.
Inductive return_mag_t : Type := RETURN_MAG_NO | RETURN_MAG_YES.
Inductive return_lna_gain_t : Type := RETURN_LNA_GAIN_NO | RETURN_LNA_GAIN_YES.
Inductive rfidr_tracking_mode_t : Type := TRACK_APP_SPECD | TRACK_LAST_INV.
Inductive rfidr_program_content_t : Type :=
  PROGRAM_NEW_EPC | PROGRAM_KILL_PWD | KILL_COMMAND.
Inductive rfidr_target_epc_t : Type :=
  TARGET_APP_SPECD_EPC | TARGET_LAST_INV_EPC | TARGET_CAL_EPC | TARGET_PLL_EPC.
Inductive rfidr_ble_push_t : Type := BLE_PUSH_MINIMAL | BLE_PUSH_SUPPLEMENT.
Inductive rfidr_read_rxram_type_t : Type :=
  READ_RXRAM_PLLCHECK | READ_RXRAM_REGULAR.

Inductive rfidr_select_epc_type_t : Type :=
  APP_SPECD_EPC | FMW_SPECD_EPC | LAST_INV_EPC | DUMMYTAG_EPC | ZERO_EPC.
Inductive rfidr_select_packet_type_t : Type := SEL_PACKET_NO_1 | SEL_PACKET_NO_2.
Inductive rfidr_select_target_t : Type :=
  TARGET_S0 | TARGET_S1 | TARGET_S2 | TARGET_S3 | TARGET_SL.
Inductive rfidr_select_action_t : Type :=
  ACTION_A0 | ACTION_A1 | ACTION_A2 | ACTION_A3
| ACTION_A4 | ACTION_A5 | ACTION_A6 | ACTION_A7.
Inductive rfidr_query_sel_t : Type := SEL_ALL | SEL_NSL | SEL_PSL.
Inductive rfidr_query_session_t : Type :=
  SESSION_S0 | SESSION_S1 | SESSION_S2 | SESSION_S3.
Inductive rfidr_query_target_t : Type := TARGET_A | TARGET_B.
Inductive rfidr_query_flagswap_t : Type := FLAGSWAP_NO | FLAGSWAP_YES.

Definition MAX_EPC_LENGTH_IN_BYTES : Z := 12.

(** ** The result structure of a search (rfidr_rxradio.h) *)

Record rfidr_return_t : Type := mk_return {
  i_pass : bool;
  q_pass : bool;
  i_epc : list Z;
  q_epc : list Z;
  i_lna_gain : Z;
  q_lna_gain : Z;
  i_main_mag : Z;
  i_alt_mag : Z;
  q_main_mag : Z;
  q_alt_mag : Z
}.

(** Setters for one field of the result structure, as in
    [return_struct->field = v]. *)
Definition set_i_pass (v : bool) (r : rfidr_return_t) : rfidr_return_t :=
  mk_return v (q_pass r) (i_epc r) (q_epc r) (i_lna_gain r) (q_lna_gain r)
            (i_main_mag r) (i_alt_mag r) (q_main_mag r) (q_alt_mag r).
Definition set_q_pass (v : bool) (r : rfidr_return_t) : rfidr_return_t :=
  mk_return (i_pass r) v (i_epc r) (q_epc r) (i_lna_gain r) (q_lna_gain r)
            (i_main_mag r) (i_alt_mag r) (q_main_mag r) (q_alt_mag r).
Definition set_i_epc (v : list Z) (r : rfidr_return_t) : rfidr_return_t :=
  mk_return (i_pass r) (q_pass r) v (q_epc r) (i_lna_gain r) (q_lna_gain r)
            (i_main_mag r) (i_alt_mag r) (q_main_mag r) (q_alt_mag r).
Definition set_q_epc (v : list Z) (r : rfidr_return_t) : rfidr_return_t :=
  mk_return (i_pass r) (q_pass r) (i_epc r) v (i_lna_gain r) (q_lna_gain r)
            (i_main_mag r) (i_alt_mag r) (q_main_mag r) (q_alt_mag r).
Definition set_i_lna_gain (v : Z) (r : rfidr_return_t) : rfidr_return_t :=
  mk_return (i_pass r) (q_pass r) (i_epc r) (q_epc r) v (q_lna_gain r)
            (i_main_mag r) (i_alt_mag r) (q_main_mag r) (q_alt_mag r).
Definition set_q_lna_gain (v : Z) (r : rfidr_return_t) : rfidr_return_t :=
  mk_return (i_pass r) (q_pass r) (i_epc r) (q_epc r) (i_lna_gain r) v
            (i_main_mag r) (i_alt_mag r) (q_main_mag r) (q_alt_mag r).
Definition set_i_main_mag (v : Z) (r : rfidr_return_t) : rfidr_return_t :=
  mk_return (i_pass r) (q_pass r) (i_epc r) (q_epc r) (i_lna_gain r)
            (q_lna_gain r) v (i_alt_mag r) (q_main_mag r) (q_alt_mag r).
Definition set_i_alt_mag (v : Z) (r : rfidr_return_t) : rfidr_return_t :=
  mk_return (i_pass r) (q_pass r) (i_epc r) (q_epc r) (i_lna_gain r)
            (q_lna_gain r) (i_main_mag r) v (q_main_mag r) (q_alt_mag r).
Definition set_q_main_mag (v : Z) (r : rfidr_return_t) : rfidr_return_t :=
  mk_return (i_pass r) (q_pass r) (i_epc r) (q_epc r) (i_lna_gain r)
            (q_lna_gain r) (i_main_mag r) (i_alt_mag r) v (q_alt_mag r).
Definition set_q_alt_mag (v : Z) (r : rfidr_return_t) : rfidr_return_t :=
  mk_return (i_pass r) (q_pass r) (i_epc r) (q_epc r) (i_lna_gain r)
            (q_lna_gain r) (i_main_mag r) (i_alt_mag r) (q_main_mag r) v.

(** The defaults every core function loads before it fills the
    structure in: fail, zero EPC, gain 0xD4, zero magnitudes. *)
Definition zero_epc : list Z := repeat 0 (Z.to_nat MAX_EPC_LENGTH_IN_BYTES).
Definition default_return : rfidr_return_t :=
  mk_return false false zero_epc zero_epc 0xD4 0xD4 0 0 0 0.

(** The caller of the core functions owns two result structures and
    passes their addresses down; a core function is given one of them. *)
Inductive return_ptr : Type := P_return_struct_cal | P_return_struct_ant.

(** ** Collaborator calls *)

(** Output pins driven through nrf_drv_gpiote (rfidr_gpio.c). *)
Inductive pin_t : Type :=
| EN_VDD_PA_PIN | OPA_SPDT1_CTL_PIN | BAT_LED1_PIN
| ANT0_PIN | ANT1_PIN | FPGA_RST_N_PIN | RDIO_RST_P_PIN | XO_ENABLE_PIN.

Definition pin_eqb (a b : pin_t) : bool :=
  match a, b with
  | EN_VDD_PA_PIN, EN_VDD_PA_PIN | OPA_SPDT1_CTL_PIN, OPA_SPDT1_CTL_PIN
  | BAT_LED1_PIN, BAT_LED1_PIN | ANT0_PIN, ANT0_PIN | ANT1_PIN, ANT1_PIN
  | FPGA_RST_N_PIN, FPGA_RST_N_PIN | RDIO_RST_P_PIN, RDIO_RST_P_PIN
  | XO_ENABLE_PIN, XO_ENABLE_PIN => true
  | _, _ => false
  end.

(** One constructor per function of a collaborator that the state
    machine calls: GPIO and delays of the nRF SDK, the SPI bridge to the
    SX1257, the FPGA user-memory facade (rfidr_user.c), the TX RAM loader
    (rfidr_txradio.c), the RX RAM reads (rfidr_rxradio.c), the ADC, the
    BTLE service, and the three interrupt flags the firmware spins on. *)
Inductive hw_op : Type :=
(* nrf_drv_gpiote, nrf_delay *)
| Ev_gpiote_out_set (p : pin_t)
| Ev_gpiote_out_clear (p : pin_t)
| Ev_gpiote_out_toggle (p : pin_t)
| Ev_delay_us (n : Z)
| Ev_delay_ms (n : Z)
(* rfidr_spi.c *)
| Ev_spi_cntrlr_write_sx1257_robust (addr data : Z)
| Ev_spi_cntrlr_read_sx1257_robust (addr : Z)
| Ev_spi_rxram_read (addr : Z)
(* rfidr_user.c *)
| Ev_set_go_radio_oneshot
| Ev_set_irq_ack_oneshot
| Ev_set_clk_36_oneshot
| Ev_set_use_i
| Ev_set_use_q
| Ev_set_use_kill_pkt
| Ev_set_use_select_pkt
| Ev_set_alt_radio_fsm_loop
| Ev_set_end_radio_fsm_loop
| Ev_set_radio_mode_search
| Ev_set_radio_mode_inventory
| Ev_set_radio_mode_program
| Ev_set_sx1257_pll_chk_mode
| Ev_unset_sx1257_pll_chk_mode
| Ev_set_tx_sdm_offset (offset : Z)
| Ev_set_tx_zgn_offset (offset : Z)
| Ev_enter_dtc_test_mode
| Ev_exit_dtc_test_mode
| Ev_is_clk_36_valid
| Ev_is_clk_36_running
| Ev_read_user_mem (addr : Z)
(* rfidr_txradio.c *)
| Ev_rfidr_txradio_init
| Ev_set_app_specd_target_epc
| Ev_set_app_specd_program_epc
| Ev_set_last_inv_epc (epc : list Z)
| Ev_read_length_app_specd_target_epc
| Ev_set_select_target (t : rfidr_select_target_t)
| Ev_set_select_action (a : rfidr_select_action_t)
| Ev_set_query_sel (s : rfidr_query_sel_t)
| Ev_set_query_session (s : rfidr_query_session_t)
| Ev_set_query_target (t : rfidr_query_target_t)
| Ev_set_query_q (q : Z)
| Ev_load_select_packet_only (e : rfidr_select_epc_type_t) (len : Z)
                             (p : rfidr_select_packet_type_t)
| Ev_load_query_packet_only (f : rfidr_query_flagswap_t)
| Ev_load_query_rep_packet
| Ev_load_query_adj_packet (up : bool)
| Ev_load_write_packet_only_program_epc
| Ev_load_write_packet_only_kill_password
| Ev_load_write_packet_only_kill_command
| Ev_load_rfidr_txram_default
(* rfidr_rxradio.c, rfidr_waveform.c *)
| Ev_load_rfidr_rxram_default
| Ev_rfidr_pull_and_check_read_data (t : rfidr_target_epc_t)
| Ev_rfidr_push_waveform_data_over_ble
(* nrf_adc *)
| Ev_nrf_adc_start
(* ble_rfidrs.c *)
| Ev_ble_rfidrs_log_messge_send (segment : string) (len : Z)
| Ev_ble_rfidrs_read_state_send (code : Z)
| Ev_ble_rfidrs_pckt_data1_send (pckt_data1 : list Z)
| Ev_ble_rfidrs_pckt_data2_send (pckt_data2 : list Z)
(* a write on the "write state" characteristic, served by an interrupt *)
| Ev_ble_write_state_event
(* spin waits on a flag set by an interrupt handler *)
| Ev_wait_received_irq
| Ev_wait_received_hvc_read_state
| Ev_wait_received_hvc_pckt_data1
| Ev_wait_adc_returned
(* entry of a function of rfidr_state.c or rfidr_sx1257.c, kept for
   counting calls *)
| Ev_enter_end_inventory
| Ev_enter_handle_error (outer inner : string) (code : rfidr_error_t)
| Ev_enter_hop_sx1257_frequency
| Ev_enter_set_sx1257_frequency (slot : Z).

(** ** The state of the firmware *)

(** The local variables of tracking_core that its loops update. *)
Record tracking_locals : Type := mk_tracking_locals {
  num_track_loops : Z;
  loop_cal_fails_outer : Z;
  recover_frequency_slot : Z;
  skip_frequency_slot : Z;
  session_flag_flip_limit : Z;
  num_tracked_tags_found : Z;
  num_total_tags_found : Z;
  frequency_skip_flag : bool;
  query_a_flag : bool;
  query_q_vector : list Z
}.

Definition set_num_track_loops (v : Z) (l : tracking_locals) : tracking_locals :=
  mk_tracking_locals v (loop_cal_fails_outer l) (recover_frequency_slot l)
    (skip_frequency_slot l) (session_flag_flip_limit l)
    (num_tracked_tags_found l) (num_total_tags_found l)
    (frequency_skip_flag l) (query_a_flag l) (query_q_vector l).
Definition set_loop_cal_fails_outer (v : Z) (l : tracking_locals) : tracking_locals :=
  mk_tracking_locals (num_track_loops l) v (recover_frequency_slot l)
    (skip_frequency_slot l) (session_flag_flip_limit l)
    (num_tracked_tags_found l) (num_total_tags_found l)
    (frequency_skip_flag l) (query_a_flag l) (query_q_vector l).
Definition set_recover_frequency_slot (v : Z) (l : tracking_locals) : tracking_locals :=
  mk_tracking_locals (num_track_loops l) (loop_cal_fails_outer l) v
    (skip_frequency_slot l) (session_flag_flip_limit l)
    (num_tracked_tags_found l) (num_total_tags_found l)
    (frequency_skip_flag l) (query_a_flag l) (query_q_vector l).
Definition set_skip_frequency_slot (v : Z) (l : tracking_locals) : tracking_locals :=
  mk_tracking_locals (num_track_loops l) (loop_cal_fails_outer l)
    (recover_frequency_slot l) v (session_flag_flip_limit l)
    (num_tracked_tags_found l) (num_total_tags_found l)
    (frequency_skip_flag l) (query_a_flag l) (query_q_vector l).
Definition set_session_flag_flip_limit (v : Z) (l : tracking_locals) : tracking_locals :=
  mk_tracking_locals (num_track_loops l) (loop_cal_fails_outer l)
    (recover_frequency_slot l) (skip_frequency_slot l) v
    (num_tracked_tags_found l) (num_total_tags_found l)
    (frequency_skip_flag l) (query_a_flag l) (query_q_vector l).
Definition set_num_tracked_tags_found (v : Z) (l : tracking_locals) : tracking_locals :=
  mk_tracking_locals (num_track_loops l) (loop_cal_fails_outer l)
    (recover_frequency_slot l) (skip_frequency_slot l)
    (session_flag_flip_limit l) v (num_total_tags_found l)
    (frequency_skip_flag l) (query_a_flag l) (query_q_vector l).
Definition set_num_total_tags_found (v : Z) (l : tracking_locals) : tracking_locals :=
  mk_tracking_locals (num_track_loops l) (loop_cal_fails_outer l)
    (recover_frequency_slot l) (skip_frequency_slot l)
    (session_flag_flip_limit l) (num_tracked_tags_found l) v
    (frequency_skip_flag l) (query_a_flag l) (query_q_vector l).
Definition set_frequency_skip_flag (v : bool) (l : tracking_locals) : tracking_locals :=
  mk_tracking_locals (num_track_loops l) (loop_cal_fails_outer l)
    (recover_frequency_slot l) (skip_frequency_slot l)
    (session_flag_flip_limit l) (num_tracked_tags_found l)
    (num_total_tags_found l) v (query_a_flag l) (query_q_vector l).
Definition set_query_a_flag (v : bool) (l : tracking_locals) : tracking_locals :=
  mk_tracking_locals (num_track_loops l) (loop_cal_fails_outer l)
    (recover_frequency_slot l) (skip_frequency_slot l)
    (session_flag_flip_limit l) (num_tracked_tags_found l)
    (num_total_tags_found l) (frequency_skip_flag l) v (query_q_vector l).
Definition set_query_q_vector (v : list Z) (l : tracking_locals) : tracking_locals :=
  mk_tracking_locals (num_track_loops l) (loop_cal_fails_outer l)
    (recover_frequency_slot l) (skip_frequency_slot l)
    (session_flag_flip_limit l) (num_tracked_tags_found l)
    (num_total_tags_found l) (frequency_skip_flag l) (query_a_flag l) v.

(** The file-scope variables of rfidr_state.c ([m_rfidr_state] to
    [m_last_adc_sample]), of rfidr_sx1257.c ([m_sx1257_frequency_slot]), of
    rfidr_error.c ([m_num_failed_attempts], [m_failed_attempt_flag]), the
    function-static [data_id] of rfidr_push_data_over_ble, the level of the
    output pins, the two result structures that run_rfidr_state_machine
    hands to the core functions by address, the local [query_adj_burn_flag]
    of inventory_core and the locals of tracking_core, and the trace of
    collaborator calls made so far, latest first. *)
Record world : Type := mk_world {
  w_trace : list hw_op;
  m_rfidr_state : rfidr_state_t;
  m_rfidr_state_next : rfidr_state_t;
  m_received_irq_flag : bool;
  m_received_hvc_read_state_flag : bool;
  m_received_hvc_pckt_data1_flag : bool;
  m_dtc_state_flag : bool;
  m_track_tag_state_flag : bool;
  m_adc_returned_flag : bool;
  m_num_inv_tags_found : Z;
  m_return_state_code : Z;
  m_hopskip_nonce : Z;
  m_last_adc_sample : Z;
  m_sx1257_frequency_slot : Z;
  m_num_failed_attempts : Z;
  m_failed_attempt_flag : bool;
  data_id : Z;
  pins : pin_t -> bool;
  return_struct_cal : rfidr_return_t;
  return_struct_ant : rfidr_return_t;
  query_adj_burn_flag : bool;
  tracking : tracking_locals
}.

Definition set_w_trace (v : list hw_op) (w : world) : world :=
  mk_world v (m_rfidr_state w) (m_rfidr_state_next w)
    (m_received_irq_flag w) (m_received_hvc_read_state_flag w)
    (m_received_hvc_pckt_data1_flag w) (m_dtc_state_flag w)
    (m_track_tag_state_flag w) (m_adc_returned_flag w)
    (m_num_inv_tags_found w) (m_return_state_code w) (m_hopskip_nonce w)
    (m_last_adc_sample w) (m_sx1257_frequency_slot w)
    (m_num_failed_attempts w) (m_failed_attempt_flag w) (data_id w) (pins w)
    (return_struct_cal w) (return_struct_ant w) (query_adj_burn_flag w)
    (tracking w).
Definition set_m_rfidr_state (v : rfidr_state_t) (w : world) : world :=
  mk_world (w_trace w) v (m_rfidr_state_next w) (m_received_irq_flag w)
    (m_received_hvc_read_state_flag w) (m_received_hvc_pckt_data1_flag w)
    (m_dtc_state_flag w) (m_track_tag_state_flag w) (m_adc_returned_flag w)
    (m_num_inv_tags_found w) (m_return_state_code w) (m_hopskip_nonce w)
    (m_last_adc_sample w) (m_sx1257_frequency_slot w)
    (m_num_failed_attempts w) (m_failed_attempt_flag w) (data_id w) (pins w)
    (return_struct_cal w) (return_struct_ant w) (query_adj_burn_flag w)
    (tracking w).
Definition set_m_rfidr_state_next (v : rfidr_state_t) (w : world) : world :=
  mk_world (w_trace w) (m_rfidr_state w) v (m_received_irq_flag w)
    (m_received_hvc_read_state_flag w) (m_received_hvc_pckt_data1_flag w)
    (m_dtc_state_flag w) (m_track_tag_state_flag w) (m_adc_returned_flag w)
    (m_num_inv_tags_found w) (m_return_state_code w) (m_hopskip_nonce w)
    (m_last_adc_sample w) (m_sx1257_frequency_slot w)
    (m_num_failed_attempts w) (m_failed_attempt_flag w) (data_id w) (pins w)
    (return_struct_cal w) (return_struct_ant w) (query_adj_burn_flag w)
    (tracking w).
Definition set_m_received_irq_flag (v : bool) (w : world) : world :=
  mk_world (w_trace w) (m_rfidr_state w) (m_rfidr_state_next w) v
    (m_received_hvc_read_state_flag w) (m_received_hvc_pckt_data1_flag w)
    (m_dtc_state_flag w) (m_track_tag_state_flag w) (m_adc_returned_flag w)
    (m_num_inv_tags_found w) (m_return_state_code w) (m_hopskip_nonce w)
    (m_last_adc_sample w) (m_sx1257_frequency_slot w)
    (m_num_failed_attempts w) (m_failed_attempt_flag w) (data_id w) (pins w)
    (return_struct_cal w) (return_struct_ant w) (query_adj_burn_flag w)
    (tracking w).
Definition set_m_received_hvc_read_state_flag (v : bool) (w : world) : world :=
  mk_world (w_trace w) (m_rfidr_state w) (m_rfidr_state_next w)
    (m_received_irq_flag w) v (m_received_hvc_pckt_data1_flag w)
    (m_dtc_state_flag w) (m_track_tag_state_flag w) (m_adc_returned_flag w)
    (m_num_inv_tags_found w) (m_return_state_code w) (m_hopskip_nonce w)
    (m_last_adc_sample w) (m_sx1257_frequency_slot w)
    (m_num_failed_attempts w) (m_failed_attempt_flag w) (data_id w) (pins w)
    (return_struct_cal w) (return_struct_ant w) (query_adj_burn_flag w)
    (tracking w).
Definition set_m_received_hvc_pckt_data1_flag (v : bool) (w : world) : world :=
  mk_world (w_trace w) (m_rfidr_state w) (m_rfidr_state_next w)
    (m_received_irq_flag w) (m_received_hvc_read_state_flag w) v
    (m_dtc_state_flag w) (m_track_tag_state_flag w) (m_adc_returned_flag w)
    (m_num_inv_tags_found w) (m_return_state_code w) (m_hopskip_nonce w)
    (m_last_adc_sample w) (m_sx1257_frequency_slot w)
    (m_num_failed_attempts w) (m_failed_attempt_flag w) (data_id w) (pins w)
    (return_struct_cal w) (return_struct_ant w) (query_adj_burn_flag w)
    (tracking w).
Definition set_m_dtc_state_flag (v : bool) (w : world) : world :=
  mk_world (w_trace w) (m_rfidr_state w) (m_rfidr_state_next w)
    (m_received_irq_flag w) (m_received_hvc_read_state_flag w)
    (m_received_hvc_pckt_data1_flag w) v (m_track_tag_state_flag w)
    (m_adc_returned_flag w) (m_num_inv_tags_found w) (m_return_state_code w)
    (m_hopskip_nonce w) (m_last_adc_sample w) (m_sx1257_frequency_slot w)
    (m_num_failed_attempts w) (m_failed_attempt_flag w) (data_id w) (pins w)
    (return_struct_cal w) (return_struct_ant w) (query_adj_burn_flag w)
    (tracking w).
Definition set_m_track_tag_state_flag (v : bool) (w : world) : world :=
  mk_world (w_trace w) (m_rfidr_state w) (m_rfidr_state_next w)
    (m_received_irq_flag w) (m_received_hvc_read_state_flag w)
    (m_received_hvc_pckt_data1_flag w) (m_dtc_state_flag w) v
    (m_adc_returned_flag w) (m_num_inv_tags_found w) (m_return_state_code w)
    (m_hopskip_nonce w) (m_last_adc_sample w) (m_sx1257_frequency_slot w)
    (m_num_failed_attempts w) (m_failed_attempt_flag w) (data_id w) (pins w)
    (return_struct_cal w) (return_struct_ant w) (query_adj_burn_flag w)
    (tracking w).
Definition set_m_adc_returned_flag (v : bool) (w : world) : world :=
  mk_world (w_trace w) (m_rfidr_state w) (m_rfidr_state_next w)
    (m_received_irq_flag w) (m_received_hvc_read_state_flag w)
    (m_received_hvc_pckt_data1_flag w) (m_dtc_state_flag w)
    (m_track_tag_state_flag w) v (m_num_inv_tags_found w)
    (m_return_state_code w) (m_hopskip_nonce w) (m_last_adc_sample w)
    (m_sx1257_frequency_slot w) (m_num_failed_attempts w)
    (m_failed_attempt_flag w) (data_id w) (pins w) (return_struct_cal w)
    (return_struct_ant w) (query_adj_burn_flag w) (tracking w).
Definition set_m_num_inv_tags_found (v : Z) (w : world) : world :=
  mk_world (w_trace w) (m_rfidr_state w) (m_rfidr_state_next w)
    (m_received_irq_flag w) (m_received_hvc_read_state_flag w)
    (m_received_hvc_pckt_data1_flag w) (m_dtc_state_flag w)
    (m_track_tag_state_flag w) (m_adc_returned_flag w) v
    (m_return_state_code w) (m_hopskip_nonce w) (m_last_adc_sample w)
    (m_sx1257_frequency_slot w) (m_num_failed_attempts w)
    (m_failed_attempt_flag w) (data_id w) (pins w) (return_struct_cal w)
    (return_struct_ant w) (query_adj_burn_flag w) (tracking w).
Definition set_m_return_state_code (v : Z) (w : world) : world :=
  mk_world (w_trace w) (m_rfidr_state w) (m_rfidr_state_next w)
    (m_received_irq_flag w) (m_received_hvc_read_state_flag w)
    (m_received_hvc_pckt_data1_flag w) (m_dtc_state_flag w)
    (m_track_tag_state_flag w) (m_adc_returned_flag w)
    (m_num_inv_tags_found w) v (m_hopskip_nonce w) (m_last_adc_sample w)
    (m_sx1257_frequency_slot w) (m_num_failed_attempts w)
    (m_failed_attempt_flag w) (data_id w) (pins w) (return_struct_cal w)
    (return_struct_ant w) (query_adj_burn_flag w) (tracking w).
Definition set_m_hopskip_nonce (v : Z) (w : world) : world :=
  mk_world (w_trace w) (m_rfidr_state w) (m_rfidr_state_next w)
    (m_received_irq_flag w) (m_received_hvc_read_state_flag w)
    (m_received_hvc_pckt_data1_flag w) (m_dtc_state_flag w)
    (m_track_tag_state_flag w) (m_adc_returned_flag w)
    (m_num_inv_tags_found w) (m_return_state_code w) v (m_last_adc_sample w)
    (m_sx1257_frequency_slot w) (m_num_failed_attempts w)
    (m_failed_attempt_flag w) (data_id w) (pins w) (return_struct_cal w)
    (return_struct_ant w) (query_adj_burn_flag w) (tracking w).
Definition set_m_last_adc_sample (v : Z) (w : world) : world :=
  mk_world (w_trace w) (m_rfidr_state w) (m_rfidr_state_next w)
    (m_received_irq_flag w) (m_received_hvc_read_state_flag w)
    (m_received_hvc_pckt_data1_flag w) (m_dtc_state_flag w)
    (m_track_tag_state_flag w) (m_adc_returned_flag w)
    (m_num_inv_tags_found w) (m_return_state_code w) (m_hopskip_nonce w) v
    (m_sx1257_frequency_slot w) (m_num_failed_attempts w)
    (m_failed_attempt_flag w) (data_id w) (pins w) (return_struct_cal w)
    (return_struct_ant w) (query_adj_burn_flag w) (tracking w).
Definition set_m_sx1257_frequency_slot (v : Z) (w : world) : world :=
  mk_world (w_trace w) (m_rfidr_state w) (m_rfidr_state_next w)
    (m_received_irq_flag w) (m_received_hvc_read_state_flag w)
    (m_received_hvc_pckt_data1_flag w) (m_dtc_state_flag w)
    (m_track_tag_state_flag w) (m_adc_returned_flag w)
    (m_num_inv_tags_found w) (m_return_state_code w) (m_hopskip_nonce w)
    (m_last_adc_sample w) v (m_num_failed_attempts w)
    (m_failed_attempt_flag w) (data_id w) (pins w) (return_struct_cal w)
    (return_struct_ant w) (query_adj_burn_flag w) (tracking w).
Definition set_m_num_failed_attempts (v : Z) (w : world) : world :=
  mk_world (w_trace w) (m_rfidr_state w) (m_rfidr_state_next w)
    (m_received_irq_flag w) (m_received_hvc_read_state_flag w)
    (m_received_hvc_pckt_data1_flag w) (m_dtc_state_flag w)
    (m_track_tag_state_flag w) (m_adc_returned_flag w)
    (m_num_inv_tags_found w) (m_return_state_code w) (m_hopskip_nonce w)
    (m_last_adc_sample w) (m_sx1257_frequency_slot w) v
    (m_failed_attempt_flag w) (data_id w) (pins w) (return_struct_cal w)
    (return_struct_ant w) (query_adj_burn_flag w) (tracking w).
Definition set_m_failed_attempt_flag (v : bool) (w : world) : world :=
  mk_world (w_trace w) (m_rfidr_state w) (m_rfidr_state_next w)
    (m_received_irq_flag w) (m_received_hvc_read_state_flag w)
    (m_received_hvc_pckt_data1_flag w) (m_dtc_state_flag w)
    (m_track_tag_state_flag w) (m_adc_returned_flag w)
    (m_num_inv_tags_found w) (m_return_state_code w) (m_hopskip_nonce w)
    (m_last_adc_sample w) (m_sx1257_frequency_slot w)
    (m_num_failed_attempts w) v (data_id w) (pins w) (return_struct_cal w)
    (return_struct_ant w) (query_adj_burn_flag w) (tracking w).
Definition set_data_id (v : Z) (w : world) : world :=
  mk_world (w_trace w) (m_rfidr_state w) (m_rfidr_state_next w)
    (m_received_irq_flag w) (m_received_hvc_read_state_flag w)
    (m_received_hvc_pckt_data1_flag w) (m_dtc_state_flag w)
    (m_track_tag_state_flag w) (m_adc_returned_flag w)
    (m_num_inv_tags_found w) (m_return_state_code w) (m_hopskip_nonce w)
    (m_last_adc_sample w) (m_sx1257_frequency_slot w)
    (m_num_failed_attempts w) (m_failed_attempt_flag w) v (pins w)
    (return_struct_cal w) (return_struct_ant w) (query_adj_burn_flag w)
    (tracking w).
Definition set_pins (v : pin_t -> bool) (w : world) : world :=
  mk_world (w_trace w) (m_rfidr_state w) (m_rfidr_state_next w)
    (m_received_irq_flag w) (m_received_hvc_read_state_flag w)
    (m_received_hvc_pckt_data1_flag w) (m_dtc_state_flag w)
    (m_track_tag_state_flag w) (m_adc_returned_flag w)
    (m_num_inv_tags_found w) (m_return_state_code w) (m_hopskip_nonce w)
    (m_last_adc_sample w) (m_sx1257_frequency_slot w)
    (m_num_failed_attempts w) (m_failed_attempt_flag w) (data_id w) v
    (return_struct_cal w) (return_struct_ant w) (query_adj_burn_flag w)
    (tracking w).
Definition set_return_struct_cal (v : rfidr_return_t) (w : world) : world :=
  mk_world (w_trace w) (m_rfidr_state w) (m_rfidr_state_next w)
    (m_received_irq_flag w) (m_received_hvc_read_state_flag w)
    (m_received_hvc_pckt_data1_flag w) (m_dtc_state_flag w)
    (m_track_tag_state_flag w) (m_adc_returned_flag w)
    (m_num_inv_tags_found w) (m_return_state_code w) (m_hopskip_nonce w)
    (m_last_adc_sample w) (m_sx1257_frequency_slot w)
    (m_num_failed_attempts w) (m_failed_attempt_flag w) (data_id w) (pins w)
    v (return_struct_ant w) (query_adj_burn_flag w) (tracking w).
Definition set_return_struct_ant (v : rfidr_return_t) (w : world) : world :=
  mk_world (w_trace w) (m_rfidr_state w) (m_rfidr_state_next w)
    (m_received_irq_flag w) (m_received_hvc_read_state_flag w)
    (m_received_hvc_pckt_data1_flag w) (m_dtc_state_flag w)
    (m_track_tag_state_flag w) (m_adc_returned_flag w)
    (m_num_inv_tags_found w) (m_return_state_code w) (m_hopskip_nonce w)
    (m_last_adc_sample w) (m_sx1257_frequency_slot w)
    (m_num_failed_attempts w) (m_failed_attempt_flag w) (data_id w) (pins w)
    (return_struct_cal w) v (query_adj_burn_flag w) (tracking w).
Definition set_query_adj_burn_flag (v : bool) (w : world) : world :=
  mk_world (w_trace w) (m_rfidr_state w) (m_rfidr_state_next w)
    (m_received_irq_flag w) (m_received_hvc_read_state_flag w)
    (m_received_hvc_pckt_data1_flag w) (m_dtc_state_flag w)
    (m_track_tag_state_flag w) (m_adc_returned_flag w)
    (m_num_inv_tags_found w) (m_return_state_code w) (m_hopskip_nonce w)
    (m_last_adc_sample w) (m_sx1257_frequency_slot w)
    (m_num_failed_attempts w) (m_failed_attempt_flag w) (data_id w) (pins w)
    (return_struct_cal w) (return_struct_ant w) v (tracking w).
Definition set_tracking (v : tracking_locals) (w : world) : world :=
  mk_world (w_trace w) (m_rfidr_state w) (m_rfidr_state_next w)
    (m_received_irq_flag w) (m_received_hvc_read_state_flag w)
    (m_received_hvc_pckt_data1_flag w) (m_dtc_state_flag w)
    (m_track_tag_state_flag w) (m_adc_returned_flag w)
    (m_num_inv_tags_found w) (m_return_state_code w) (m_hopskip_nonce w)
    (m_last_adc_sample w) (m_sx1257_frequency_slot w)
    (m_num_failed_attempts w) (m_failed_attempt_flag w) (data_id w) (pins w)
    (return_struct_cal w) (return_struct_ant w) (query_adj_burn_flag w) v.

(** Access to a result structure through its address. *)
Definition load_return (p : return_ptr) (w : world) : rfidr_return_t :=
  match p with
  | P_return_struct_cal => return_struct_cal w
  | P_return_struct_ant => return_struct_ant w
  end.

Definition store_return (p : return_ptr) (r : rfidr_return_t) (w : world)
  : world :=
  match p with
  | P_return_struct_cal => set_return_struct_cal r w
  | P_return_struct_ant => set_return_struct_ant r w
  end.

(** ** Control

    A statement either falls through with a value, executes a C [return]
    with a status, ends in app_error_handler (which resets the system, see
    main.c), or spins for ever on a flag that is never raised. *)

Inductive outcome (A : Type) : Type :=
| Normal (a : A)
| Return (rc : rfidr_error_t)
| Reset
| Hang.
Arguments Normal {A} a.
Arguments Return {A} rc.
Arguments Reset {A}.
Arguments Hang {A}.

Definition M (A : Type) : Type := world -> outcome A * world.

Definition ret {A : Type} (a : A) : M A := fun w => (Normal a, w).

Definition bind {A B : Type} (c : M A) (f : A -> M B) : M B :=
  fun w =>
    match c w with
    | (Normal a, w') => f a w'
    | (Return rc, w') => (Return rc, w')
    | (Reset, w') => (Reset, w')
    | (Hang, w') => (Hang, w')
    end.

Notation "x <- c1 ;; c2" := (bind c1 (fun x => c2))
  (at level 61, c1 at next level, right associativity).
Notation "c1 ;; c2" := (bind c1 (fun _ => c2))
  (at level 61, right associativity).

(** [return rc;] *)
Definition return_ {A : Type} (rc : rfidr_error_t) : M A :=
  fun w => (Return rc, w).

Definition system_reset {A : Type} : M A := fun w => (Reset, w).
Definition hang {A : Type} : M A := fun w => (Hang, w).

Definition get : M world := fun w => (Normal w, w).
Definition modify (f : world -> world) : M unit := fun w => (Normal tt, f w).

(** The body of a C function that returns a status: a [return] inside it
    ends the function, not its caller. *)
Definition fn (body : M rfidr_error_t) : M rfidr_error_t :=
  fun w =>
    match body w with
    | (Return rc, w') => (Normal rc, w')
    | r => r
    end.

(** [for (i = first; n iterations; i++) body], where the body answers
    [true] to [break]. *)
Fixpoint for_loop (n : nat) (i : Z) (body : Z -> M bool) : M unit :=
  match n with
  | O => ret tt
  | S n' => b <- body i ;; if b then ret tt else for_loop n' (i + 1) body
  end.

Definition NRF_SUCCESS : Z := 0.
Definition NRF_ERROR_INVALID_STATE : Z := 8.
Definition BLE_ERROR_NO_TX_BUFFERS : Z := 0x3004.

(** APP_ERROR_CHECK: app_error_handler resets the system on any code
    other than NRF_SUCCESS (main.c). *)
Definition APP_ERROR_CHECK (code : Z) : M unit :=
  if code =? NRF_SUCCESS then ret tt else system_reset.

(** A call goes on record. *)
Definition record (e : hw_op) (w : world) : world :=
  set_w_trace (e :: w_trace w) w.

Section Firmware.

(** What collaborators answer: [env t e] is the answer to call [e] made
    when [t] calls have been made before it. *)
Variable env : nat -> hw_op -> Z.

(** The bytes that follow in memory the null of the Query-Q literal that
    the firmware passes to inventory_core. *)
Variable beyond_literal : Z -> Z.

(** The number of turns of the tracking loop that the model follows. *)
Variable track_fuel : nat.

Definition emit (e : hw_op) : M unit := modify (record e).

Definition ask (e : hw_op) : M Z :=
  fun w => (Normal (env (length (w_trace w)) e), record e w).

(** [while (flag == false) {}]: the answer 0 stands for the interrupt
    handler raising the flag, any other for a flag that never comes. *)
Definition spin_until (e : hw_op) (raise : bool -> world -> world) : M unit :=
  r <- ask e ;;
  if r =? 0 then modify (raise true) else hang.

(** [do { code = send(...); } while (code == BLE_ERROR_NO_TX_BUFFERS);]
    The answer is the first code that is not BLE_ERROR_NO_TX_BUFFERS; the
    answer BLE_ERROR_NO_TX_BUFFERS itself stands for a stack whose buffers
    never free up. *)
Definition send_until_buffered (e : hw_op) : M Z :=
  r <- ask e ;;
  if r =? BLE_ERROR_NO_TX_BUFFERS then hang else ret r.

(** *** rfidr_gpio.c *)

Definition nrf_drv_gpiote_out_set (p : pin_t) : M unit :=
  emit (Ev_gpiote_out_set p) ;;
  modify (fun w => set_pins (fun q => if pin_eqb q p then true else pins w q) w).

Definition nrf_drv_gpiote_out_clear (p : pin_t) : M unit :=
  emit (Ev_gpiote_out_clear p) ;;
  modify (fun w => set_pins (fun q => if pin_eqb q p then false else pins w q) w).

Definition nrf_drv_gpiote_out_toggle (p : pin_t) : M unit :=
  emit (Ev_gpiote_out_toggle p) ;;
  modify (fun w =>
            set_pins (fun q => if pin_eqb q p then negb (pins w q) else pins w q) w).

Definition nrf_delay_us (n : Z) : M unit := emit (Ev_delay_us n).
Definition nrf_delay_ms (n : Z) : M unit := emit (Ev_delay_ms n).

Definition rfidr_sel_ant0 : M rfidr_error_t :=
  nrf_drv_gpiote_out_set ANT0_PIN ;;
  nrf_drv_gpiote_out_clear ANT1_PIN ;;
  ret RFIDR_SUCCESS.

Definition rfidr_enable_pa : M rfidr_error_t :=
  nrf_drv_gpiote_out_set OPA_SPDT1_CTL_PIN ;;
  nrf_drv_gpiote_out_set EN_VDD_PA_PIN ;;
  nrf_delay_us 250 ;;
  ret RFIDR_SUCCESS.

Definition rfidr_disable_pa : M rfidr_error_t :=
  nrf_drv_gpiote_out_clear EN_VDD_PA_PIN ;;
  nrf_drv_gpiote_out_clear OPA_SPDT1_CTL_PIN ;;
  nrf_delay_us 250 ;;
  ret RFIDR_SUCCESS.

Definition rfidr_reset_fpga : M rfidr_error_t :=
  nrf_delay_ms 100 ;;
  nrf_drv_gpiote_out_clear FPGA_RST_N_PIN ;;
  nrf_delay_ms 100 ;;
  nrf_drv_gpiote_out_set FPGA_RST_N_PIN ;;
  ret RFIDR_SUCCESS.

Definition rfidr_reset_radio : M rfidr_error_t :=
  nrf_delay_ms 20 ;;
  nrf_drv_gpiote_out_set RDIO_RST_P_PIN ;;
  nrf_delay_ms 20 ;;
  nrf_drv_gpiote_out_clear RDIO_RST_P_PIN ;;
  nrf_delay_ms 20 ;;
  ret RFIDR_SUCCESS.

Definition rfidr_enable_xo : M rfidr_error_t :=
  nrf_drv_gpiote_out_set XO_ENABLE_PIN ;; ret RFIDR_SUCCESS.

Definition rfidr_enable_led1 : M rfidr_error_t :=
  nrf_drv_gpiote_out_set BAT_LED1_PIN ;; ret RFIDR_SUCCESS.

Definition rfidr_disable_led1 : M rfidr_error_t :=
  nrf_drv_gpiote_out_clear BAT_LED1_PIN ;; ret RFIDR_SUCCESS.

Definition rfidr_toggle_led1 : M rfidr_error_t :=
  nrf_drv_gpiote_out_toggle BAT_LED1_PIN ;; ret RFIDR_SUCCESS.

(** The power amplifier is off when its supply and its bias are. *)
Definition pa_disabled (w : world) : Prop :=
  pins w EN_VDD_PA_PIN = false /\ pins w OPA_SPDT1_CTL_PIN = false.

(** *** rfidr_user.c: the FPGA user-memory facade

    A setter reads the register, ors its bits in, writes it back and reads
    it again; it answers RFIDR_SUCCESS when the bits read back as written
    and RFIDR_ERROR_USER_MEM otherwise.  The answer 0 of the environment
    stands for a good read-back. *)

Definition user_mem_setter (e : hw_op) : M rfidr_error_t :=
  r <- ask e ;;
  ret (if r =? 0 then RFIDR_SUCCESS else RFIDR_ERROR_USER_MEM).

Definition set_use_i := user_mem_setter Ev_set_use_i.
Definition set_use_q := user_mem_setter Ev_set_use_q.
Definition set_use_kill_pkt := user_mem_setter Ev_set_use_kill_pkt.
Definition set_use_select_pkt := user_mem_setter Ev_set_use_select_pkt.
Definition set_alt_radio_fsm_loop := user_mem_setter Ev_set_alt_radio_fsm_loop.
Definition set_end_radio_fsm_loop := user_mem_setter Ev_set_end_radio_fsm_loop.
Definition set_radio_mode_search := user_mem_setter Ev_set_radio_mode_search.
Definition set_radio_mode_inventory :=
  user_mem_setter Ev_set_radio_mode_inventory.
Definition set_radio_mode_program := user_mem_setter Ev_set_radio_mode_program.
Definition set_sx1257_pll_chk_mode := user_mem_setter Ev_set_sx1257_pll_chk_mode.
Definition unset_sx1257_pll_chk_mode :=
  user_mem_setter Ev_unset_sx1257_pll_chk_mode.
Definition set_tx_sdm_offset (offset : Z) :=
  user_mem_setter (Ev_set_tx_sdm_offset offset).
Definition set_tx_zgn_offset (offset : Z) :=
  user_mem_setter (Ev_set_tx_zgn_offset offset).

(** The one-shot writes have no read-back: they always answer success. *)
Definition set_go_radio_oneshot : M rfidr_error_t :=
  emit Ev_set_go_radio_oneshot ;; ret RFIDR_SUCCESS.
Definition set_irq_ack_oneshot : M rfidr_error_t :=
  emit Ev_set_irq_ack_oneshot ;; ret RFIDR_SUCCESS.
Definition set_clk_36_oneshot : M rfidr_error_t :=
  emit Ev_set_clk_36_oneshot ;; ret RFIDR_SUCCESS.
Definition enter_dtc_test_mode : M rfidr_error_t :=
  emit Ev_enter_dtc_test_mode ;; ret RFIDR_SUCCESS.
Definition exit_dtc_test_mode : M rfidr_error_t :=
  emit Ev_exit_dtc_test_mode ;; ret RFIDR_SUCCESS.

(** Bits 5..7 of user-memory byte 0: the exit code of the last radio run. *)
Definition radio_exit_code (recovery_byte : Z) : Z :=
  Z.land (Z.shiftr (u8 recovery_byte) 5) 7.

Definition read_radio_exit_code : M Z :=
  recovery_byte <- ask (Ev_read_user_mem 0) ;;
  ret (radio_exit_code recovery_byte).

Definition read_radio_write_cntr : M Z :=
  recovery_byte <- ask (Ev_read_user_mem 2) ;;
  ret (Z.land (Z.shiftr (u8 recovery_byte) 0) 7).

Definition is_clk_36_valid : M bool :=
  r <- ask Ev_is_clk_36_valid ;; ret (c_true r).
Definition is_clk_36_running : M bool :=
  r <- ask Ev_is_clk_36_running ;; ret (c_true r).

(** *** rfidr_txradio.c: the TX RAM loader

    The status of these calls is the environment's answer. *)

Definition txradio (e : hw_op) : M rfidr_error_t :=
  r <- ask e ;; ret (rfidr_error_of_Z r).

Definition set_select_target t := txradio (Ev_set_select_target t).
Definition set_select_action a := txradio (Ev_set_select_action a).
Definition set_query_sel s := txradio (Ev_set_query_sel s).
Definition set_query_session s := txradio (Ev_set_query_session s).
Definition set_query_target t := txradio (Ev_set_query_target t).
Definition set_query_q (q : Z) := txradio (Ev_set_query_q q).
Definition load_select_packet_only e len p :=
  txradio (Ev_load_select_packet_only e len p).
Definition load_query_packet_only f := txradio (Ev_load_query_packet_only f).
Definition load_query_rep_packet := txradio Ev_load_query_rep_packet.
Definition load_query_adj_packet up := txradio (Ev_load_query_adj_packet up).
Definition load_write_packet_only_program_epc :=
  txradio Ev_load_write_packet_only_program_epc.
Definition load_write_packet_only_kill_password :=
  txradio Ev_load_write_packet_only_kill_password.
Definition load_write_packet_only_kill_command :=
  txradio Ev_load_write_packet_only_kill_command.
Definition load_rfidr_txram_default := txradio Ev_load_rfidr_txram_default.
Definition set_last_inv_epc (epc : list Z) := txradio (Ev_set_last_inv_epc epc).
Definition rfidr_txradio_init := txradio Ev_rfidr_txradio_init.
Definition set_app_specd_target_epc := txradio Ev_set_app_specd_target_epc.
Definition set_app_specd_program_epc := txradio Ev_set_app_specd_program_epc.
(** The length comes back through a pointer to a uint8_t. *)
Definition read_length_app_specd_target_epc : M Z :=
  r <- ask Ev_read_length_app_specd_target_epc ;; ret (u8 r).

(** *** rfidr_spi.c, rfidr_rxradio.c, rfidr_waveform.c *)

Definition spi_cntrlr_write_sx1257_robust (addr data : Z) : M rfidr_error_t :=
  r <- ask (Ev_spi_cntrlr_write_sx1257_robust addr data) ;;
  ret (rfidr_error_of_Z r).

(** A read through the SPI bridge stores the byte through the pointer
    and answers success, or times out on the bridge and answers
    RFIDR_ERROR_SPI_WRITE_SX1257_3 with the pointer left alone.  An answer
    in 0..255 stands for the byte read, any other for the time-out. *)
Definition spi_cntrlr_read_sx1257_robust (addr : Z)
  : M (rfidr_error_t * option Z) :=
  r <- ask (Ev_spi_cntrlr_read_sx1257_robust addr) ;;
  ret (if (0 <=? r) && (r <? 256) then (RFIDR_SUCCESS, Some r)
       else (RFIDR_ERROR_SPI_WRITE_SX1257_3, None)).

(** One byte of the FPGA RX RAM. *)
Definition rxram_read (addr : Z) : M Z :=
  r <- ask (Ev_spi_rxram_read addr) ;; ret (u8 r).

Definition load_rfidr_rxram_default := txradio Ev_load_rfidr_rxram_default.

Definition RX_RAM_ADDR_OFFSET_PCEPC : Z := 7.

Fixpoint read_bytes (n : nat) (addr : Z) : M (list Z) :=
  match n with
  | O => ret []
  | S n' => b <- rxram_read addr ;;
            bs <- read_bytes n' (addr + 1) ;;
            ret (b :: bs)
  end.

(** The four bytes are stored least significant first. *)
Definition magnitude_of_bytes (bs : list Z) : Z :=
  s32 (nth 0 bs 0 + Z.shiftl (nth 1 bs 0) 8 + Z.shiftl (nth 2 bs 0) 16
       + Z.shiftl (nth 3 bs 0) 24).

Definition rfidr_read_main_magnitude (read_type : rfidr_read_rxram_type_t)
  : M (rfidr_error_t * Z) :=
  bs <- read_bytes 4 (Z.shiftl RX_RAM_ADDR_OFFSET_PCEPC 4 + 18) ;;
  ret (RFIDR_SUCCESS, magnitude_of_bytes bs).

Definition rfidr_read_alt_magnitude (read_type : rfidr_read_rxram_type_t)
  : M (rfidr_error_t * Z) :=
  bs <- read_bytes 4 (Z.shiftl RX_RAM_ADDR_OFFSET_PCEPC 4 + 22) ;;
  ret (RFIDR_SUCCESS, magnitude_of_bytes bs).

Definition rfidr_read_epc (read_type : rfidr_read_rxram_type_t)
  : M (rfidr_error_t * list Z) :=
  match read_type with
  | READ_RXRAM_REGULAR =>
      bs <- read_bytes (Z.to_nat MAX_EPC_LENGTH_IN_BYTES)
                       (Z.shiftl RX_RAM_ADDR_OFFSET_PCEPC 4 + 3) ;;
      ret (RFIDR_SUCCESS, bs)
  | READ_RXRAM_PLLCHECK => ret (RFIDR_SUCCESS, zero_epc)
  end.

(** Reads the EPC back from the tag and compares it with the one that was
    to be written: success or RFIDR_ERROR_READ_CHECK. *)
Definition rfidr_pull_and_check_read_data (target : rfidr_target_epc_t)
  : M rfidr_error_t :=
  r <- ask (Ev_rfidr_pull_and_check_read_data target) ;;
  ret (if r =? 0 then RFIDR_SUCCESS else RFIDR_ERROR_READ_CHECK).

(** Streams the waveform memory over BTLE; a send the stack refuses with
    anything but NRF_ERROR_INVALID_STATE goes to APP_ERROR_CHECK. *)
Definition rfidr_push_waveform_data_over_ble : M rfidr_error_t :=
  code <- send_until_buffered Ev_rfidr_push_waveform_data_over_ble ;;
  (if negb (code =? NRF_ERROR_INVALID_STATE) then APP_ERROR_CHECK code
   else ret tt) ;;
  ret RFIDR_SUCCESS.

(** *** rfidr_sx1257.c *)

Definition FREQUENCY_CODE_BASE : Z := 0x00CB5555.

(** Slot to synthesizer tuning word; about 1 MHz per slot. *)
Definition sx1257_frequency_decode (slot : Z) : Z :=
  match slot with
  | 0 => FREQUENCY_CODE_BASE - 0x0002AAAA
  | 1 => FREQUENCY_CODE_BASE - 0x000271C7
  | 2 => FREQUENCY_CODE_BASE - 0x000238E3
  | 3 => FREQUENCY_CODE_BASE - 0x00020000
  | 4 => FREQUENCY_CODE_BASE - 0x0001C71C
  | 5 => FREQUENCY_CODE_BASE - 0x00018E38
  | 6 => FREQUENCY_CODE_BASE - 0x00015555
  | 7 => FREQUENCY_CODE_BASE - 0x00011C71
  | 8 => FREQUENCY_CODE_BASE - 0x0000E38E
  | 9 => FREQUENCY_CODE_BASE - 0x0000AAAA
  | 10 => FREQUENCY_CODE_BASE - 0x000071C7
  | 11 => FREQUENCY_CODE_BASE - 0x000038E3
  | 12 => FREQUENCY_CODE_BASE + 0x00000000
  | 13 => FREQUENCY_CODE_BASE + 0x000038E3
  | 14 => FREQUENCY_CODE_BASE + 0x000071C7
  | 15 => FREQUENCY_CODE_BASE + 0x0000AAAA
  | 16 => FREQUENCY_CODE_BASE + 0x0000E38E
  | 17 => FREQUENCY_CODE_BASE + 0x00011C71
  | 18 => FREQUENCY_CODE_BASE + 0x00015555
  | 19 => FREQUENCY_CODE_BASE + 0x00018E38
  | 20 => FREQUENCY_CODE_BASE + 0x0001C71C
  | 21 => FREQUENCY_CODE_BASE + 0x00020000
  | 22 => FREQUENCY_CODE_BASE + 0x000238E3
  | 23 => FREQUENCY_CODE_BASE + 0x000271C7
  | 24 => FREQUENCY_CODE_BASE + 0x0002AAAA
  | _ => FREQUENCY_CODE_BASE + 0x00000000
  end.

(** [if (error_code != RFIDR_SUCCESS) { return error_code; }] *)
Definition return_on_error (rc : rfidr_error_t) : M unit :=
  if failed rc then return_ rc else ret tt.

(** Rewrites the RX and TX frequency registers of the SX1257, giving up
    at the first write that fails. *)
Definition write_sx1257_frequency_registers (sx1257_freq_code : Z) : M unit :=
  rc <- spi_cntrlr_write_sx1257_robust 0x01
          (u8 (Z.land (Z.shiftr sx1257_freq_code 16) 255)) ;;
  return_on_error rc ;;
  rc <- spi_cntrlr_write_sx1257_robust 0x02
          (u8 (Z.land (Z.shiftr sx1257_freq_code 8) 255)) ;;
  return_on_error rc ;;
  rc <- spi_cntrlr_write_sx1257_robust 0x03
          (u8 (Z.land (Z.shiftr sx1257_freq_code 0) 255)) ;;
  return_on_error rc ;;
  rc <- spi_cntrlr_write_sx1257_robust 0x04
          (u8 (Z.land (Z.shiftr sx1257_freq_code 16) 255)) ;;
  return_on_error rc ;;
  rc <- spi_cntrlr_write_sx1257_robust 0x05
          (u8 (Z.land (Z.shiftr sx1257_freq_code 8) 255)) ;;
  return_on_error rc ;;
  rc <- spi_cntrlr_write_sx1257_robust 0x06
          (u8 (Z.land (Z.shiftr sx1257_freq_code 0) 255)) ;;
  return_on_error rc.

(** The slot a hop moves to. *)
Definition hop_slot (slot : Z) : Z := u8 ((slot + 7) mod 25).

(** Pseudo-random hop.  The new slot is stored in the driver and handed
    back through the pointer before any register is written, so the
    caller gets it whatever the status. *)
Definition hop_sx1257_frequency : M (rfidr_error_t * Z) :=
  emit Ev_enter_hop_sx1257_frequency ;;
  w <- get ;;
  let slot := hop_slot (m_sx1257_frequency_slot w) in
  modify (set_m_sx1257_frequency_slot slot) ;;
  rc <- fn (write_sx1257_frequency_registers (sx1257_frequency_decode slot) ;;
            nrf_delay_us 250 ;;
            ret RFIDR_SUCCESS) ;;
  ret (rc, slot).

(** Direct tune; the slot stored in the driver is left alone. *)
Definition set_sx1257_frequency (sx1257_frequency_slot : Z) : M rfidr_error_t :=
  emit (Ev_enter_set_sx1257_frequency sx1257_frequency_slot) ;;
  fn (write_sx1257_frequency_registers
        (sx1257_frequency_decode sx1257_frequency_slot) ;;
      nrf_delay_us 250 ;;
      ret RFIDR_SUCCESS).

Definition set_sx1257_lna_gain (lna_gain : Z) : M rfidr_error_t :=
  fn (rc <- spi_cntrlr_write_sx1257_robust 0x0C lna_gain ;;
      return_on_error rc ;;
      ret RFIDR_SUCCESS).

Definition get_sx1257_lna_gain : M (rfidr_error_t * option Z) :=
  r <- spi_cntrlr_read_sx1257_robust 0x0C ;;
  ret (if failed (fst r) then fst r else RFIDR_SUCCESS, snd r).

Definition set_sx1257_tx_power_high : M rfidr_error_t :=
  fn (rc <- spi_cntrlr_write_sx1257_robust 0x08 0x36 ;;
      return_on_error rc ;;
      ret RFIDR_SUCCESS).

Definition load_sx1257_default : M rfidr_error_t :=
  modify (set_m_sx1257_frequency_slot 12) ;;
  let sx1257_freq_code := sx1257_frequency_decode 12 in
  let sx1257_freq_code_rx := 0x00CB5555 in
  let wr addr data :=
    (rc <- spi_cntrlr_write_sx1257_robust addr data ;; return_on_error rc) in
  fn (wr 0x00 0x00 ;;
      wr 0x00 0x01 ;;
      wr 0x08 0x28 ;;
      wr 0x0A 0x00 ;;
      wr 0x0B 0x05 ;;
      wr 0x0C 0xD4 ;;
      wr 0x0D 0xF5 ;;
      wr 0x0E 0x06 ;;
      wr 0x10 0x00 ;;
      wr 0x01 (u8 (Z.land (Z.shiftr sx1257_freq_code_rx 16) 255)) ;;
      wr 0x02 (u8 (Z.land (Z.shiftr sx1257_freq_code_rx 8) 255)) ;;
      wr 0x03 (u8 (Z.land (Z.shiftr sx1257_freq_code_rx 0) 255)) ;;
      wr 0x04 (u8 (Z.land (Z.shiftr sx1257_freq_code 16) 255)) ;;
      wr 0x05 (u8 (Z.land (Z.shiftr sx1257_freq_code 8) 255)) ;;
      wr 0x06 (u8 (Z.land (Z.shiftr sx1257_freq_code 0) 255)) ;;
      wr 0x00 0x03 ;;
      nrf_delay_ms 100 ;;
      wr 0x00 0x07 ;;
      nrf_delay_ms 100 ;;
      wr 0x10 0x02 ;;
      nrf_delay_ms 100 ;;
      wr 0x00 0x0F ;;
      ret RFIDR_SUCCESS).

(** *** Messages to the application (rfidr_error.c, rfidr_state.c) *)

Definition BLE_RFIDRS_LOG_MESSGE_CHAR_LEN : Z := 20.

(** [%d] with a minimum width, padded with zeros or blanks. *)
Fixpoint pad_left (n : nat) (c : ascii) (s : string) : string :=
  match n with O => s | S n' => String c (pad_left n' c s) end.

Definition sprintf_d (width : nat) (zero : bool) (n : Z) : string :=
  let s := NilZero.string_of_int (Z.to_int n) in
  pad_left (width - String.length s) (if zero then "0"%char else " "%char) s.

(** [%02x] of a byte. *)
Definition hex_digit (d : Z) : string :=
  match d with
  | 0 => "0" | 1 => "1" | 2 => "2" | 3 => "3" | 4 => "4" | 5 => "5"
  | 6 => "6" | 7 => "7" | 8 => "8" | 9 => "9" | 10 => "a" | 11 => "b"
  | 12 => "c" | 13 => "d" | 14 => "e" | _ => "f"
  end.
Definition sprintf_02x (n : Z) : string :=
  (hex_digit (u8 n / 16) ++ hex_digit (u8 n mod 16))%string.

(** The first [n] characters of a C string. *)
Definition truncate (n : nat) (s : string) : string := substring 0 n s.

(** rfidr_error.c keeps score of the sends that did not answer
    NRF_ERROR_INVALID_STATE. *)
Definition note_attempt (error_code : Z) : M unit :=
  if negb (error_code =? NRF_ERROR_INVALID_STATE) then
    modify (fun w => set_m_num_failed_attempts (u32 (m_num_failed_attempts w + 1))
                       (set_m_failed_attempt_flag true w))
  else ret tt.

Definition ble_rfidrs_log_messge_send (segment : string) (len : Z) : M Z :=
  r <- ask (Ev_ble_rfidrs_log_messge_send segment len) ;; ret (u8 r).

(** The loop of rfidr_error_complete_message_send: every full segment of
    20 characters is sent as soon as it is filled. *)
Fixpoint send_full_segments (p_string segment : string) (counter : Z)
  : M (string * Z) :=
  match p_string with
  | EmptyString => ret (segment, counter)
  | String c rest =>
      let segment := (segment ++ String c EmptyString)%string in
      let counter := counter + 1 in
      if counter =? BLE_RFIDRS_LOG_MESSGE_CHAR_LEN then
        error_code <- ble_rfidrs_log_messge_send segment counter ;;
        note_attempt error_code ;;
        send_full_segments rest EmptyString 0
      else send_full_segments rest segment counter
  end.

(** Sends a string of any length in segments; the last segment carries
    the terminating null character and is always sent. *)
Definition rfidr_error_complete_message_send (p_string : string) : M Z :=
  sc <- send_full_segments p_string EmptyString 0 ;;
  let segment := (fst sc ++ String zero EmptyString)%string in
  let counter := snd sc + 1 in
  error_code <- ble_rfidrs_log_messge_send segment counter ;;
  if negb (error_code =? NRF_ERROR_INVALID_STATE) then
    note_attempt error_code ;; ret error_code
  else
    w <- get ;;
    if m_failed_attempt_flag w then
      error_code <- ble_rfidrs_log_messge_send "Rcvrd. BT ops after" 20 ;;
      if negb (error_code =? NRF_ERROR_INVALID_STATE) then
        note_attempt error_code ;; ret error_code
      else
        error_code <- ble_rfidrs_log_messge_send
                        (sprintf_d 10 true (m_num_failed_attempts w) ++ " tries")
                        17 ;;
        if negb (error_code =? NRF_ERROR_INVALID_STATE) then
          note_attempt error_code ;; ret error_code
        else
          modify (fun w => set_m_num_failed_attempts 0
                             (set_m_failed_attempt_flag false w)) ;;
          ret error_code
    else ret error_code.

Definition send_log_message (inputString : string) : M unit :=
  rfidr_error_complete_message_send (truncate 240 inputString) ;; ret tt.

Definition send_short_message (inputString : string) : M unit :=
  rfidr_error_complete_message_send (truncate 20 inputString) ;; ret tt.

(** *** rfidr_state.c: state read-back and the shared error handler *)

Definition decode_rfidr_state (rfidr_state : rfidr_state_t) : M Z :=
  modify (set_m_return_state_code (rfidr_state_value rfidr_state)) ;;
  w <- get ;; ret (m_return_state_code w).

(** Tells the application the current state and blocks until the
    indication is acknowledged.  A write of the "write state"
    characteristic that the BTLE stack delivers during this wait is taken
    to be handled once the run has returned (see serve_write_state_event):
    the wait itself reads m_received_hvc_read_state_flag only. *)
Definition rfidr_state_bookend_function : M unit :=
  modify (set_m_received_hvc_read_state_flag false) ;;
  w <- get ;;
  code <- decode_rfidr_state (m_rfidr_state w) ;;
  nrf_error_code <- ask (Ev_ble_rfidrs_read_state_send code) ;;
  (if negb (nrf_error_code =? NRF_ERROR_INVALID_STATE)
   then APP_ERROR_CHECK nrf_error_code else ret tt) ;;
  spin_until Ev_wait_received_hvc_read_state set_m_received_hvc_read_state_flag.

Definition handle_error (input_string_outer input_string_inner : string)
                        (rfidr_error_code : rfidr_error_t) : M unit :=
  emit (Ev_enter_handle_error input_string_outer input_string_inner
                              rfidr_error_code) ;;
  let rfidr_outer_sanitize := truncate 116 input_string_outer in
  let rfidr_inner_sanitize := truncate 116 input_string_inner in
  rfidr_disable_pa ;;
  let rfidr_error_message :=
    ("Error at " ++ rfidr_outer_sanitize ++ ": " ++ rfidr_inner_sanitize
     ++ ": " ++ sprintf_d 2 true (u8 (rfidr_error_value rfidr_error_code)))%string in
  rfidr_error_complete_message_send rfidr_error_message ;;
  modify (set_m_track_tag_state_flag false) ;;
  modify (set_m_dtc_state_flag false) ;;
  w <- get ;;
  (if state_eq (m_rfidr_state w) IDLE_UNCONFIGURED
      || state_eq (m_rfidr_state w) INITIALIZING
   then
     rfidr_disable_led1 ;;
     modify (set_m_rfidr_state_next IDLE_UNCONFIGURED) ;;
     modify (set_m_rfidr_state IDLE_UNCONFIGURED)
   else
     rfidr_enable_led1 ;;
     modify (set_m_rfidr_state_next IDLE_CONFIGURED) ;;
     modify (set_m_rfidr_state IDLE_CONFIGURED)) ;;
  rfidr_state_bookend_function.

(** *** rfidr_state.c: requests from the application

    write_rfidr_state_next is called from the handler of the BTLE "write
    state" characteristic (main.c) before the state machine runs.  It
    filters the request against the current state. *)

Definition write_rfidr_state_next (l_rfidr_state_next : rfidr_state_t)
                                  (w : world) : Z * world :=
  let nrf_error_code := NRF_SUCCESS in
  let w' :=
    match l_rfidr_state_next with
    | INITIALIZING =>
        if state_eq (m_rfidr_state w) IDLE_UNCONFIGURED then
          set_m_rfidr_state_next INITIALIZING w
        else if state_eq (m_rfidr_state w) IDLE_CONFIGURED then
          set_m_rfidr_state_next (m_rfidr_state w) w
        else
          set_m_rfidr_state_next (m_rfidr_state w) w
    | SEARCHING_APP_SPECD_TAG
    | SEARCHING_LAST_INV_TAG
    | INVENTORYING
    | PROGRAMMING_APP_SPECD_TAG
    | PROGRAMMING_LAST_INV_TAG
    | KILL_TAG
    | PROGRAMMING_KILL_PASSWD
    | RECOVERING_WAVEFORM_MEMORY
    | TESTING_DTC =>
        if state_eq (m_rfidr_state w) IDLE_CONFIGURED then
          set_m_rfidr_state_next l_rfidr_state_next w
        else
          set_m_rfidr_state_next (m_rfidr_state w) w
    | TRACK_APP_SPECD_TAG =>
        if state_eq (m_rfidr_state w) IDLE_CONFIGURED then
          set_m_rfidr_state_next l_rfidr_state_next
            (set_m_track_tag_state_flag true w)
        else if state_eq (m_rfidr_state w) TRACK_APP_SPECD_TAG then
          set_m_rfidr_state_next (m_rfidr_state w)
            (set_m_track_tag_state_flag false w)
        else
          set_m_rfidr_state_next (m_rfidr_state w) w
    | TRACK_LAST_INV_TAG =>
        if state_eq (m_rfidr_state w) IDLE_CONFIGURED then
          set_m_rfidr_state_next l_rfidr_state_next
            (set_m_track_tag_state_flag true w)
        else if state_eq (m_rfidr_state w) TRACK_LAST_INV_TAG then
          set_m_rfidr_state_next (m_rfidr_state w)
            (set_m_track_tag_state_flag false w)
        else
          set_m_rfidr_state_next (m_rfidr_state w) w
    | RESET_SX1257_AND_FPGA =>
        (* the last operand of the || chain is the enumerator itself *)
        if state_eq (m_rfidr_state w) IDLE_CONFIGURED
           || state_eq (m_rfidr_state w) IDLE_UNCONFIGURED
           || state_eq (m_rfidr_state w) TESTING_DTC
           || state_eq (m_rfidr_state w) TRACK_APP_SPECD_TAG
           || c_true (rfidr_state_value TRACK_LAST_INV_TAG)
        then
          set_m_rfidr_state_next l_rfidr_state_next w
        else
          set_m_rfidr_state_next (m_rfidr_state w) w
    | IDLE_UNCONFIGURED | IDLE_CONFIGURED => w
    end in
  (nrf_error_code, w').

Definition read_rfidr_state (w : world) : rfidr_state_t := m_rfidr_state w.

(** main.c: the handler of the "write state" characteristic decodes the
    first byte written and files the request. *)
Definition rfidrs_wrte_state_handler (p_data0 : Z) (w : world) : world :=
  let request_rfidr_state_t :=
    match p_data0 with
    | 0 => IDLE_UNCONFIGURED
    | 1 => IDLE_CONFIGURED
    | 2 => INITIALIZING
    | 3 => SEARCHING_APP_SPECD_TAG
    | 4 => SEARCHING_LAST_INV_TAG
    | 5 => INVENTORYING
    | 6 => TESTING_DTC
    | 7 => PROGRAMMING_APP_SPECD_TAG
    | 8 => PROGRAMMING_LAST_INV_TAG
    | 9 => RECOVERING_WAVEFORM_MEMORY
    | 10 => RESET_SX1257_AND_FPGA
    | 11 => KILL_TAG
    | 12 => PROGRAMMING_KILL_PASSWD
    | 13 => TRACK_APP_SPECD_TAG
    | 14 => TRACK_LAST_INV_TAG
    | _ => IDLE_UNCONFIGURED
    end in
  snd (write_rfidr_state_next request_rfidr_state_t w).

(** The set of states from which the comments and the visible tests of
    write_rfidr_state_next mean a request to be accepted. *)
Definition legal_source (request current : rfidr_state_t) : bool :=
  match request with
  | INITIALIZING => state_eq current IDLE_UNCONFIGURED
  | SEARCHING_APP_SPECD_TAG | SEARCHING_LAST_INV_TAG | INVENTORYING
  | PROGRAMMING_APP_SPECD_TAG | PROGRAMMING_LAST_INV_TAG | KILL_TAG
  | PROGRAMMING_KILL_PASSWD | RECOVERING_WAVEFORM_MEMORY | TESTING_DTC
  | TRACK_APP_SPECD_TAG | TRACK_LAST_INV_TAG =>
      state_eq current IDLE_CONFIGURED
  | RESET_SX1257_AND_FPGA =>
      state_eq current IDLE_CONFIGURED || state_eq current IDLE_UNCONFIGURED
      || state_eq current TESTING_DTC || state_eq current TRACK_APP_SPECD_TAG
      || state_eq current TRACK_LAST_INV_TAG
  | IDLE_UNCONFIGURED | IDLE_CONFIGURED => false
  end.

(** *** rfidr_rxradio.c: results to the application *)

(** Which path's data to send: 1 for I, 0 for Q, 255 when neither
    passed.  When both passed, the one with the larger main magnitude. *)
Definition choose_i (r : rfidr_return_t) : Z :=
  if i_pass r && q_pass r then
    (if i_main_mag r >? q_main_mag r then 1 else 0)
  else if i_pass r && negb (q_pass r) then 1
  else if negb (i_pass r) && q_pass r then 0
  else 255.

(** Byte [k] (0 is least significant) of a magnitude. *)
Definition mag_byte (m : Z) (k : Z) : Z :=
  Z.land (Z.shiftr (u32 m) (Z.shiftl k 3)) 255.

Definition bool_bit (b : bool) : Z := if b then 1 else 0.

Definition pckt_data1_of (ant : rfidr_return_t) (frequency_slot : Z)
                         (ble_push : rfidr_ble_push_t) (data_id : Z)
  : list Z :=
  let choose_i_ant := choose_i ant in
  let epc :=
    map (fun k => if choose_i_ant =? 1 then nth k (i_epc ant) 0
                  else if choose_i_ant =? 0 then nth k (q_epc ant) 0
                  else 0)
        (seq 0 (Z.to_nat MAX_EPC_LENGTH_IN_BYTES)) in
  let supplement :=
    match ble_push with BLE_PUSH_SUPPLEMENT => 1 | BLE_PUSH_MINIMAL => 0 end in
  let slot_byte := Z.lor (Z.land frequency_slot 127) (Z.shiftl supplement 7) in
  let mags (m : Z) := [mag_byte m 3; mag_byte m 2; mag_byte m 1] in
  let i_mags :=
    if choose_i_ant =? 1 then mags (i_main_mag ant)
    else if choose_i_ant =? 0 then mags (q_alt_mag ant) else [0; 0; 0] in
  let q_mags :=
    if choose_i_ant =? 1 then mags (i_alt_mag ant)
    else if choose_i_ant =? 0 then mags (q_main_mag ant) else [0; 0; 0] in
  epc ++ [slot_byte] ++ i_mags ++ q_mags ++ [data_id].

Definition pckt_data2_of (ant cal : rfidr_return_t)
                         (num_failed_runs hopskip_nonce data_id : Z)
  : list Z :=
  let choose_i_ant := choose_i ant in
  let choose_i_cal := choose_i cal in
  let pass_bits :=
    Z.lor (Z.lor (Z.lor (Z.shiftl (bool_bit (i_pass cal)) 3)
                        (Z.shiftl (bool_bit (q_pass cal)) 2))
                 (Z.shiftl (bool_bit (i_pass ant)) 1))
          (Z.shiftl (bool_bit (q_pass ant)) 0) in
  let ant_i :=
    if choose_i_ant =? 1 then mag_byte (i_main_mag ant) 0
    else if choose_i_ant =? 0 then mag_byte (q_alt_mag ant) 0 else 0 in
  let ant_q :=
    if choose_i_ant =? 1 then mag_byte (i_alt_mag ant) 0
    else if choose_i_ant =? 0 then mag_byte (q_main_mag ant) 0 else 0 in
  let mags (m : Z) := [mag_byte m 3; mag_byte m 2; mag_byte m 1; mag_byte m 0] in
  let cal_i :=
    if choose_i_cal =? 1 then mags (i_main_mag cal)
    else if choose_i_cal =? 0 then mags (q_alt_mag cal) else [0; 0; 0; 0] in
  let cal_q :=
    if choose_i_cal =? 1 then mags (i_alt_mag cal)
    else if choose_i_cal =? 0 then mags (q_main_mag cal) else [0; 0; 0; 0] in
  [choose_i_ant; ant_i; ant_q; choose_i_cal] ++ cal_i ++ cal_q
  ++ [num_failed_runs; pass_bits; hopskip_nonce; data_id].

(** Byte 14 of the second packet is the hop/skip nonce. *)
Definition pckt_data2_nonce (pckt_data2 : list Z) : Z := nth 14 pckt_data2 0.

Definition rfidr_push_data_over_ble
    (search_return_ant search_return_cal : return_ptr)
    (frequency_slot num_failed_runs hopskip_nonce : Z)
    (ble_push : rfidr_ble_push_t) : M rfidr_error_t :=
  w <- get ;;
  let ant := load_return search_return_ant w in
  let cal := load_return search_return_cal w in
  error_code <- send_until_buffered
                  (Ev_ble_rfidrs_pckt_data1_send
                     (pckt_data1_of ant frequency_slot ble_push (data_id w))) ;;
  (if negb (error_code =? NRF_ERROR_INVALID_STATE)
   then APP_ERROR_CHECK error_code else ret tt) ;;
  modify (fun w => set_data_id (u8 (data_id w + 1)) w) ;;
  match ble_push with
  | BLE_PUSH_SUPPLEMENT =>
      w <- get ;;
      error_code <- send_until_buffered
                      (Ev_ble_rfidrs_pckt_data2_send
                         (pckt_data2_of ant cal num_failed_runs hopskip_nonce
                                        (data_id w))) ;;
      (if negb (error_code =? NRF_ERROR_INVALID_STATE)
       then APP_ERROR_CHECK error_code else ret tt) ;;
      modify (fun w => set_data_id (u8 (data_id w + 1)) w) ;;
      ret RFIDR_SUCCESS
  | BLE_PUSH_MINIMAL => ret RFIDR_SUCCESS
  end.

(** *** rfidr_state.c: the core functions *)

(** [return_struct->field = v] *)
Definition modify_return (p : return_ptr)
                         (f : rfidr_return_t -> rfidr_return_t) : M unit :=
  modify (fun w => store_return p (f (load_return p w)) w).

(** The block that opens search_core, and that inventory_core and
    tracking_core repeat before they record a tag: every field of the
    result structure is put back to its default. *)
Definition reset_return_struct (p : return_ptr) : M unit :=
  modify_return p (set_i_pass false) ;;
  modify_return p (set_q_pass false) ;;
  modify_return p (set_i_epc zero_epc) ;;
  modify_return p (set_q_epc zero_epc) ;;
  modify_return p (set_i_lna_gain 0xD4) ;;
  modify_return p (set_q_lna_gain 0xD4) ;;
  modify_return p (set_i_main_mag 0) ;;
  modify_return p (set_i_alt_mag 0) ;;
  modify_return p (set_q_main_mag 0) ;;
  modify_return p (set_q_alt_mag 0).

(** [if (rc != RFIDR_SUCCESS) { handle_error(p_rfidrs, outer, inner, rc);
     return RFIDR_ERROR_GENERAL; }] *)
Definition bail (outer inner : string) (rc : rfidr_error_t) : M unit :=
  if failed rc then
    handle_error outer inner rc ;; return_ RFIDR_ERROR_GENERAL
  else ret tt.

Definition is_pll (target_epc : rfidr_target_epc_t) : bool :=
  match target_epc with TARGET_PLL_EPC => true | _ => false end.

Definition read_type_of (target_epc : rfidr_target_epc_t)
  : rfidr_read_rxram_type_t :=
  if is_pll target_epc then READ_RXRAM_PLLCHECK else READ_RXRAM_REGULAR.

(** What search_core reads back into the I fields once the I path has
    passed, as the caller asked for. *)
Definition search_record_i (error_info : string)
    (target_epc : rfidr_target_epc_t) (return_epc : return_epc_t)
    (return_mag : return_mag_t) (return_lna_gain : return_lna_gain_t)
    (return_struct : return_ptr) : M unit :=
  match return_epc with
  | RETURN_EPC_YES =>
      r <- rfidr_read_epc (read_type_of target_epc) ;;
      modify_return return_struct (set_i_epc (snd r)) ;;
      bail error_info "checking I EPC" (fst r)
  | RETURN_EPC_NO => ret tt
  end ;;
  match return_mag with
  | RETURN_MAG_YES =>
      r <- rfidr_read_main_magnitude (read_type_of target_epc) ;;
      modify_return return_struct (set_i_main_mag (snd r)) ;;
      bail error_info "checking I - Main Mag" (fst r) ;;
      r <- rfidr_read_alt_magnitude (read_type_of target_epc) ;;
      modify_return return_struct (set_i_alt_mag (snd r)) ;;
      bail error_info "checking I - Alt Mag" (fst r) ;;
      w <- get ;;
      send_short_message
        ("MI(I): " ++ sprintf_d 10 false
                        (i_main_mag (load_return return_struct w))) ;;
      send_short_message
        ("MQ(I): " ++ sprintf_d 10 false
                        (i_alt_mag (load_return return_struct w)))
  | RETURN_MAG_NO => ret tt
  end ;;
  match return_lna_gain with
  | RETURN_LNA_GAIN_YES =>
      r <- get_sx1257_lna_gain ;;
      match snd r with
      | Some g => modify_return return_struct (set_i_lna_gain g)
      | None => ret tt
      end ;;
      bail error_info "getting I LNA gain" (fst r)
  | RETURN_LNA_GAIN_NO => ret tt
  end.

(** The same for the Q fields. *)
Definition search_record_q (error_info : string)
    (target_epc : rfidr_target_epc_t) (return_epc : return_epc_t)
    (return_mag : return_mag_t) (return_lna_gain : return_lna_gain_t)
    (return_struct : return_ptr) : M unit :=
  match return_epc with
  | RETURN_EPC_YES =>
      r <- rfidr_read_epc (read_type_of target_epc) ;;
      modify_return return_struct (set_q_epc (snd r)) ;;
      bail error_info "checking Q EPC" (fst r)
  | RETURN_EPC_NO => ret tt
  end ;;
  match return_mag with
  | RETURN_MAG_YES =>
      r <- rfidr_read_main_magnitude (read_type_of target_epc) ;;
      modify_return return_struct (set_q_main_mag (snd r)) ;;
      bail error_info "checking Q - Main Mag" (fst r) ;;
      r <- rfidr_read_alt_magnitude (read_type_of target_epc) ;;
      modify_return return_struct (set_q_alt_mag (snd r)) ;;
      bail error_info "checking Q - Alt Mag" (fst r) ;;
      w <- get ;;
      send_short_message
        ("MI(Q): " ++ sprintf_d 10 false
                        (q_alt_mag (load_return return_struct w))) ;;
      send_short_message
        ("MQ(Q): " ++ sprintf_d 10 false
                        (q_main_mag (load_return return_struct w)))
  | RETURN_MAG_NO => ret tt
  end ;;
  match return_lna_gain with
  | RETURN_LNA_GAIN_YES =>
      r <- get_sx1257_lna_gain ;;
      match snd r with
      | Some g => modify_return return_struct (set_q_lna_gain g)
      | None => ret tt
      end ;;
      bail error_info "getting Q LNA gain" (fst r)
  | RETURN_LNA_GAIN_NO => ret tt
  end.

(** The exchange of one path up to the verdict: PA on, path and select
    flag, go, wait for the FPGA, acknowledge, PA off, and the test
    [target_epc==TARGET_PLL_EPC || read_radio_exit_code()==0]. *)
Definition search_exchange (error_info : string)
    (target_epc : rfidr_target_epc_t) (loop_iq : Z) : M bool :=
  rc <- rfidr_enable_pa ;;
  bail error_info "enabling pa" rc ;;
  rc <- (if loop_iq mod 2 =? 0 then set_use_i else set_use_q) ;;
  bail error_info "set_use_i/q" rc ;;
  rc <- set_use_select_pkt ;;
  bail error_info "setting select packet" rc ;;
  set_sx1257_lna_gain 0xD4 ;;
  modify (set_m_received_irq_flag false) ;;
  rc <- set_go_radio_oneshot ;;
  bail error_info "set go radio" rc ;;
  spin_until Ev_wait_received_irq set_m_received_irq_flag ;;
  rc <- set_irq_ack_oneshot ;;
  bail error_info "acking irq" rc ;;
  rc <- rfidr_disable_pa ;;
  bail error_info "disabling pa" rc ;;
  if is_pll target_epc then ret true
  else (code <- read_radio_exit_code ;; ret (code =? 0)).

(** One turn of the I/Q loop of search_core: [loop_iq] is 0 for the I
    path and 1 for the Q path. *)
Definition search_core_path (error_info : string)
    (target_epc : rfidr_target_epc_t) (return_epc : return_epc_t)
    (return_mag : return_mag_t) (return_lna_gain : return_lna_gain_t)
    (return_struct : return_ptr) (loop_iq : Z) : M bool :=
  success <- search_exchange error_info target_epc loop_iq ;;
  (if success then
     if loop_iq =? 0 then
       send_short_message "Search I Pass" ;;
       modify_return return_struct (set_i_pass true) ;;
       search_record_i error_info target_epc return_epc return_mag
                       return_lna_gain return_struct
     else
       send_short_message "Search Q Pass" ;;
       modify_return return_struct (set_q_pass true) ;;
       search_record_q error_info target_epc return_epc return_mag
                       return_lna_gain return_struct
   else
     send_short_message
       ("Search " ++ (if loop_iq =? 0 then "I" else "Q") ++ " Fail")) ;;
  ret false.

(** search_core after it has put the result structure back to its
    defaults: the packets are loaded, then the I and the Q path are
    tried. *)
Definition search_core_exchanges (error_info : string)
    (session : rfidr_query_session_t) (target_epc : rfidr_target_epc_t)
    (return_epc : return_epc_t) (return_mag : return_mag_t)
    (return_lna_gain : return_lna_gain_t) (return_struct : return_ptr)
  : M rfidr_error_t :=
  set_select_target TARGET_SL ;;
  set_select_action ACTION_A0 ;;
  set_query_sel SEL_PSL ;;
  set_query_session session ;;
  set_query_target TARGET_A ;;
  set_query_q 0 ;;
  rc <- (if is_pll target_epc then set_sx1257_pll_chk_mode
         else unset_sx1257_pll_chk_mode) ;;
  bail error_info "setting PLL check mode" rc ;;
  rc <- match target_epc with
        | TARGET_APP_SPECD_EPC =>
            load_select_packet_only APP_SPECD_EPC MAX_EPC_LENGTH_IN_BYTES
                                    SEL_PACKET_NO_1
        | TARGET_LAST_INV_EPC =>
            load_select_packet_only LAST_INV_EPC MAX_EPC_LENGTH_IN_BYTES
                                    SEL_PACKET_NO_1
        | TARGET_CAL_EPC =>
            load_select_packet_only DUMMYTAG_EPC MAX_EPC_LENGTH_IN_BYTES
                                    SEL_PACKET_NO_1
        | TARGET_PLL_EPC =>
            load_select_packet_only ZERO_EPC MAX_EPC_LENGTH_IN_BYTES
                                    SEL_PACKET_NO_1
        end ;;
  bail error_info "loading select packet 1" rc ;;
  set_select_action ACTION_A1 ;;
  rc <- load_select_packet_only ZERO_EPC MAX_EPC_LENGTH_IN_BYTES
                                SEL_PACKET_NO_2 ;;
  bail error_info "loading select packet 2" rc ;;
  rc <- load_query_packet_only FLAGSWAP_NO ;;
  bail error_info "loading query" rc ;;
  rc <- set_radio_mode_search ;;
  bail error_info "set radio mode to search" rc ;;
  for_loop 2 0 (search_core_path error_info target_epc return_epc
                                 return_mag return_lna_gain return_struct) ;;
  (if is_pll target_epc then
     rc <- unset_sx1257_pll_chk_mode ;;
     bail error_info "unsetting PLL check mode" rc
   else ret tt) ;;
  (* every assignment to rfidr_error_code is followed by a test that
     returns when it is not RFIDR_SUCCESS *)
  ret RFIDR_SUCCESS.

Definition search_core (error_info : string)
    (session : rfidr_query_session_t) (target_epc : rfidr_target_epc_t)
    (return_epc : return_epc_t) (return_mag : return_mag_t)
    (return_lna_gain : return_lna_gain_t) (return_struct : return_ptr)
  : M rfidr_error_t :=
  fn (reset_return_struct return_struct ;;
      search_core_exchanges error_info session target_epc return_epc
                            return_mag return_lna_gain return_struct).

(** Leaves the inventory mode of the FPGA radio state machine: PA off,
    "end loop" bit, one more go/ack so that the FPGA returns to idle. *)
Definition end_inventory (error_info : string) : M rfidr_error_t :=
  emit Ev_enter_end_inventory ;;
  fn (rc <- rfidr_disable_pa ;;
      bail error_info "disabling PA" rc ;;
      rfidr_enable_led1 ;;
      rc <- set_end_radio_fsm_loop ;;
      bail error_info "setting inventory end" rc ;;
      modify (set_m_received_irq_flag false) ;;
      rc <- set_go_radio_oneshot ;;
      bail error_info "set go radio for inv. end" rc ;;
      spin_until Ev_wait_received_irq set_m_received_irq_flag ;;
      rc <- set_irq_ack_oneshot ;;
      bail error_info "acking irq for inv. end" rc ;;
      ret RFIDR_SUCCESS).

(** [if (rc != RFIDR_SUCCESS) { end_inventory(p_rfidrs, "End Inv.");
     handle_error(p_rfidrs, outer, inner, rc); return RFIDR_ERROR_GENERAL; }] *)
Definition bail_inv (outer inner : string) (rc : rfidr_error_t) : M unit :=
  if failed rc then
    end_inventory "End Inv." ;;
    handle_error outer inner rc ;;
    return_ RFIDR_ERROR_GENERAL
  else ret tt.

Definition QUERY_ROUND_LIMIT : Z := 36.
Definition MAX_QUERY_Q : Z := 6.

Definition target_of_session (session : rfidr_query_session_t)
  : rfidr_select_target_t :=
  match session with
  | SESSION_S0 => TARGET_S0
  | SESSION_S1 => TARGET_S1
  | SESSION_S2 => TARGET_S2
  | SESSION_S3 => TARGET_S3
  end.

(** One slot of a query round of inventory_core: go, wait for the FPGA,
    acknowledge, and when the exit code is 0 count the tag, read it back
    and push it to the application. *)
Definition inventory_slot (error_info : string) (max_tags : Z)
    (return_struct : return_ptr) (recover_frequency_slot loop_iq : Z)
    (loop_q_iter : Z) : M bool :=
  modify (set_m_received_irq_flag false) ;;
  rc <- set_go_radio_oneshot ;;
  bail_inv error_info "set go radio" rc ;;
  spin_until Ev_wait_received_irq set_m_received_irq_flag ;;
  rc <- set_irq_ack_oneshot ;;
  bail_inv error_info "acking irq" rc ;;
  code <- read_radio_exit_code ;;
  (if code =? 0 then
     modify (fun w => set_m_num_inv_tags_found
                        (u16 (m_num_inv_tags_found w + 1)) w) ;;
     w <- get ;;
     (if m_num_inv_tags_found w >=? max_tags then
        end_inventory "End Inv." ;;
        handle_error error_info "inventoried more than max # tags" rc ;;
        return_ RFIDR_ERROR_GENERAL
      else ret tt) ;;
     reset_return_struct return_struct ;;
     (if loop_iq =? 0 then
        modify_return return_struct (set_i_pass true) ;;
        r <- rfidr_read_epc READ_RXRAM_REGULAR ;;
        modify_return return_struct (set_i_epc (snd r)) ;;
        bail_inv error_info "checking I EPC" (fst r) ;;
        set_last_inv_epc (snd r) ;;
        r <- rfidr_read_main_magnitude READ_RXRAM_REGULAR ;;
        modify_return return_struct (set_i_main_mag (snd r)) ;;
        bail_inv error_info "checking I - Main Mag" (fst r) ;;
        r <- rfidr_read_alt_magnitude READ_RXRAM_REGULAR ;;
        modify_return return_struct (set_i_alt_mag (snd r)) ;;
        bail_inv error_info "checking I - Alt Mag" (fst r)
      else
        modify_return return_struct (set_q_pass true) ;;
        r <- rfidr_read_epc READ_RXRAM_REGULAR ;;
        modify_return return_struct (set_q_epc (snd r)) ;;
        bail_inv error_info "checking Q EPC" (fst r) ;;
        set_last_inv_epc (snd r) ;;
        r <- rfidr_read_main_magnitude READ_RXRAM_REGULAR ;;
        modify_return return_struct (set_q_main_mag (snd r)) ;;
        bail_inv error_info "checking Q - Main Mag" (fst r) ;;
        r <- rfidr_read_alt_magnitude READ_RXRAM_REGULAR ;;
        modify_return return_struct (set_q_alt_mag (snd r)) ;;
        bail_inv error_info "checking Q - Alt Mag" (fst r)) ;;
     modify (set_m_received_hvc_pckt_data1_flag false) ;;
     w <- get ;;
     rc <- rfidr_push_data_over_ble return_struct return_struct
             recover_frequency_slot 255 (m_hopskip_nonce w) BLE_PUSH_MINIMAL ;;
     bail_inv error_info "pushing pckt data over ble" rc ;;
     spin_until Ev_wait_received_hvc_pckt_data1
                set_m_received_hvc_pckt_data1_flag
   else ret tt) ;;
  w <- get ;;
  (if query_adj_burn_flag w && (loop_q_iter >? 0) then
     load_query_rep_packet ;;
     modify (set_query_adj_burn_flag false)
   else ret tt) ;;
  ret false.

(** The slots of one path: [2^Q + 1] of them. *)
Definition inventory_path (error_info : string) (max_tags : Z)
    (return_struct : return_ptr) (recover_frequency_slot q_value : Z)
    (loop_iq : Z) : M bool :=
  rc <- (if loop_iq mod 2 =? 0 then set_use_i else set_use_q) ;;
  bail_inv error_info "set_use_i/q" rc ;;
  rc <- set_alt_radio_fsm_loop ;;
  bail_inv error_info "setting new query flag" rc ;;
  for_loop (Z.to_nat (Z.shiftl 1 q_value + 1)) 0
           (inventory_slot error_info max_tags return_struct
                           recover_frequency_slot loop_iq) ;;
  ret false.

(** The body of the loop over the Query-Q vector: one query round. *)
Definition inventory_round (error_info : string) (query_q_vector : Z -> Z)
    (max_tags : Z) (return_struct : return_ptr) (loop_query_q : Z) : M unit :=
  rfidr_toggle_led1 ;;
  let q_value := u8 (query_q_vector loop_query_q - 48) in
  let q_value := if q_value >? MAX_QUERY_Q then MAX_QUERY_Q else q_value in
  set_query_q q_value ;;
  r <- hop_sx1257_frequency ;;
  modify (fun w => set_m_hopskip_nonce (u8 (m_hopskip_nonce w + 1)) w) ;;
  bail_inv error_info "hopping frequency" (fst r) ;;
  rc <- load_query_packet_only FLAGSWAP_NO ;;
  bail_inv error_info "loading query" rc ;;
  rc <- rfidr_enable_pa ;;
  bail_inv error_info "enabling pa" rc ;;
  for_loop 2 0 (inventory_path error_info max_tags return_struct (snd r)
                               q_value) ;;
  rc <- rfidr_disable_pa ;;
  bail_inv error_info "disabling pa: " rc.

(** [for (loop_query_q = 0;
         query_q_vector[loop_query_q] != 0 || loop_query_q < limit;
         loop_query_q++)]
    The counter is a uint8_t.  The test depends on the counter alone, so
    a loop that has gone through [fuel] = 256 rounds without leaving never
    leaves. *)
Fixpoint query_rounds (fuel : nat) (limit : Z) (query_q_vector : Z -> Z)
    (round : Z -> M unit) (loop_query_q : Z) : M unit :=
  match fuel with
  | O => hang
  | S fuel' =>
      if negb (query_q_vector loop_query_q =? 0) || (loop_query_q <? limit)
      then
        round loop_query_q ;;
        query_rounds fuel' limit query_q_vector round (u8 (loop_query_q + 1))
      else ret tt
  end.

(** inventory_core up to its loop over the Query-Q vector: the tag count
    is cleared and the select and query packets are loaded.  A call that
    fails here ends the function through handle_error alone. *)
Definition inventory_setup (error_info : string)
    (session : rfidr_query_session_t) : M unit :=
  modify (set_m_num_inv_tags_found 0) ;;
  set_select_target (target_of_session session) ;;
  set_select_action ACTION_A0 ;;
  set_query_sel SEL_PSL ;;
  set_query_session session ;;
  set_query_target TARGET_A ;;
  epc1_length_in_bytes <- read_length_app_specd_target_epc ;;
  rc <- load_select_packet_only APP_SPECD_EPC epc1_length_in_bytes
                                SEL_PACKET_NO_1 ;;
  bail error_info "loading arbitrary select packet" rc ;;
  set_select_target TARGET_SL ;;
  rc <- load_select_packet_only APP_SPECD_EPC epc1_length_in_bytes
                                SEL_PACKET_NO_2 ;;
  bail error_info "loading arbitrary select packet no 2" rc ;;
  rc <- set_radio_mode_inventory ;;
  bail error_info "set radio mode to inventory" rc ;;
  rc <- load_query_adj_packet true ;;
  modify (set_query_adj_burn_flag true) ;;
  bail error_info "loading query rep" rc ;;
  rc <- set_use_select_pkt ;;
  bail error_info "setting select packet" rc ;;
  set_sx1257_lna_gain 0xD4 ;;
  ret tt.

Definition inventory_core (error_info : string)
    (session : rfidr_query_session_t) (query_q_vector : Z -> Z)
    (max_tags : Z) (epc2 : string) (return_struct : return_ptr)
  : M rfidr_error_t :=
  fn (inventory_setup error_info session ;;
      query_rounds 256 QUERY_ROUND_LIMIT query_q_vector
                   (inventory_round error_info query_q_vector max_tags
                                    return_struct) 0 ;;
      rc <- end_inventory "End Inv." ;;
      bail error_info "ending inventory" rc ;;
      rfidr_enable_led1 ;;
      w <- get ;;
      send_short_message
        ("InventryFnd " ++ sprintf_d 3 true (u8 (Z.land (m_num_inv_tags_found w) 255))
         ++ "Tags") ;;
      ret RFIDR_SUCCESS).

Definition MAX_PROG_RETRIES : Z := 5.

(** Which path program_core programs on, from the result of the search
    that precedes it: 0 for I, 1 for Q, nothing when neither passed. *)
Definition select_program_q (return_struct : rfidr_return_t) : option Z :=
  if i_pass return_struct then
    Some (if i_main_mag return_struct >? i_alt_mag return_struct then 0 else 1)
  else if q_pass return_struct then
    Some (if q_main_mag return_struct >? q_alt_mag return_struct then 1 else 0)
  else None.

(** One turn of the retry loop of program_core. *)
Definition program_attempt (error_info : string)
    (target : rfidr_target_epc_t) (content : rfidr_program_content_t)
    (loop_prog_retry : Z) : M bool :=
  modify (set_m_received_irq_flag false) ;;
  rc <- set_go_radio_oneshot ;;
  bail error_info "set go radio" rc ;;
  spin_until Ev_wait_received_irq set_m_received_irq_flag ;;
  rc <- set_irq_ack_oneshot ;;
  bail error_info "acking irq" rc ;;
  code <- read_radio_exit_code ;;
  if negb (code =? 0) && (loop_prog_retry <? MAX_PROG_RETRIES) then
    write_cntr <- read_radio_write_cntr ;;
    send_short_message ("Prg.FailAt" ++ sprintf_d 1 true write_cntr ++ "-Retry") ;;
    ret false
  else
    code <- read_radio_exit_code ;;
    if negb (code =? 0) && (loop_prog_retry =? MAX_PROG_RETRIES) then
      write_cntr <- read_radio_write_cntr ;;
      send_short_message ("Prg.FailAt" ++ sprintf_d 3 true write_cntr ++ "-End") ;;
      set_end_radio_fsm_loop ;;
      ret false
    else
      code <- read_radio_exit_code ;;
      if negb (code =? 0) && (loop_prog_retry >=? MAX_PROG_RETRIES) then
        handle_error error_info "prog. undef'd condt'n" rc ;;
        return_ RFIDR_ERROR_GENERAL
      else
        code <- read_radio_exit_code ;;
        if (code =? 0) && (loop_prog_retry >=? MAX_PROG_RETRIES) then
          write_cntr <- read_radio_write_cntr ;;
          send_short_message
            ("Prg.FailAt" ++ sprintf_d 3 true write_cntr ++ "-Exit") ;;
          ret true
        else
          send_short_message "Prog.Pass!!!" ;;
          match content with
          | PROGRAM_NEW_EPC =>
              rc <- rfidr_pull_and_check_read_data target ;;
              bail error_info "actual readback epc check failed" rc
          | _ => ret tt
          end ;;
          ret true.

Definition program_core (error_info : string)
    (session : rfidr_query_session_t) (target : rfidr_target_epc_t)
    (content : rfidr_program_content_t) (return_struct : return_ptr)
  : M rfidr_error_t :=
  fn (set_select_target TARGET_SL ;;
      set_select_action ACTION_A0 ;;
      set_query_sel SEL_PSL ;;
      set_query_session session ;;
      set_query_target TARGET_A ;;
      set_query_q 0 ;;
      w <- get ;;
      program_q <- match select_program_q (load_return return_struct w) with
                   | Some q => ret q
                   | None =>
                       handle_error error_info
                         "determining which of I and Q channel to receive on"
                         RFIDR_ERROR_GENERAL ;;
                       return_ RFIDR_ERROR_GENERAL
                   end ;;
      rc <- (if program_q =? 0 then set_use_i else set_use_q) ;;
      bail error_info "set which of I or Q to use during programming" rc ;;
      rc <- match target with
            | TARGET_APP_SPECD_EPC =>
                load_select_packet_only APP_SPECD_EPC MAX_EPC_LENGTH_IN_BYTES
                                        SEL_PACKET_NO_1
            | TARGET_LAST_INV_EPC =>
                load_select_packet_only LAST_INV_EPC MAX_EPC_LENGTH_IN_BYTES
                                        SEL_PACKET_NO_1
            | _ =>
                load_select_packet_only APP_SPECD_EPC MAX_EPC_LENGTH_IN_BYTES
                                        SEL_PACKET_NO_1
            end ;;
      bail error_info "loading select packet 1" rc ;;
      set_select_action ACTION_A1 ;;
      rc <- load_select_packet_only ZERO_EPC MAX_EPC_LENGTH_IN_BYTES
                                    SEL_PACKET_NO_2 ;;
      bail error_info "loading select packet 2" rc ;;
      rc <- load_query_packet_only FLAGSWAP_NO ;;
      bail error_info "loading query" rc ;;
      rc <- set_radio_mode_program ;;
      bail error_info "set radio mode to program" rc ;;
      rc <- set_use_select_pkt ;;
      bail error_info "setting select packet" rc ;;
      rc <- match content with
            | PROGRAM_NEW_EPC => load_write_packet_only_program_epc
            | PROGRAM_KILL_PWD => load_write_packet_only_kill_password
            | KILL_COMMAND => load_write_packet_only_kill_command
            end ;;
      bail error_info "loading write packet: " rc ;;
      rc <- match content with
            | KILL_COMMAND => set_use_kill_pkt
            | _ => ret rc
            end ;;
      bail error_info "setting kill packet bit: " rc ;;
      rc <- rfidr_enable_pa ;;
      bail error_info "enabling pa: " rc ;;
      set_sx1257_lna_gain 0xD4 ;;
      (* for (loop_prog_retry = 0; loop_prog_retry <= MAX_PROG_RETRIES+1; ...) *)
      for_loop (Z.to_nat (MAX_PROG_RETRIES + 1 + 1)) 0
               (program_attempt error_info target content) ;;
      rc <- rfidr_disable_pa ;;
      bail error_info "disabling pa" rc ;;
      ret RFIDR_SUCCESS).

(** *** tracking_core *)

Definition TRACK_MAX_QUERY_Q : Z := 5.
Definition TRACK_QUERY_ROUND_LIMIT : Z := 16.
Definition TRACK_MAX_INV_TAGS : Z := 32.
Definition NUM_ALLOWED_OUTER_CAL_FAILS : Z := 3.
Definition NUM_ALLOWED_INNER_CAL_FAILS : Z := 5.

(** '0' *)
Definition ch0 : Z := 48.

Definition q_q_vector_def0 : list Z := repeat ch0 16 ++ [0].
Definition q_q_vector_def1 : list Z := [ch0 + 3; ch0 + 2] ++ repeat (ch0 + 1) 14 ++ [0].
Definition q_q_vector_def2 : list Z :=
  [ch0 + 3; ch0 + 3] ++ repeat (ch0 + 2) 6 ++ repeat 0 9.
Definition q_q_vector_def3 : list Z :=
  [ch0 + 4; ch0 + 4; ch0 + 3; ch0 + 3] ++ repeat 0 13.
Definition q_q_vector_def4 : list Z := [ch0 + 5; ch0 + 5] ++ repeat 0 15.
Definition q_q_vector_def5 : list Z := [ch0 + 6] ++ repeat 0 16.

(** The bytes of a char array, read by index. *)
Definition chars_at (v : list Z) (i : Z) : Z := nth (Z.to_nat i) v 0.

(** The bytes of the literal "6666655555444444433333333322" and its
    terminating null; [beyond k] is the byte that the linker happened to
    place [k] bytes after that null. *)
Definition inventory_q_literal : list Z :=
  repeat (ch0 + 6) 5 ++ repeat (ch0 + 5) 5 ++ repeat (ch0 + 4) 7
  ++ repeat (ch0 + 3) 9 ++ repeat (ch0 + 2) 2.

Definition literal_at (s : list Z) (beyond : Z -> Z) (i : Z) : Z :=
  if i <? Z.of_nat (length s) then chars_at s i
  else if i =? Z.of_nat (length s) then 0
  else beyond (i - Z.of_nat (length s)).

Definition trk {A : Type} (f : tracking_locals -> A) : M A :=
  w <- get ;; ret (f (tracking w)).
Definition set_trk (f : tracking_locals -> tracking_locals) : M unit :=
  modify (fun w => set_tracking (f (tracking w)) w).

(** The slot a skip tunes to: 3 channels from the slot of the last hop,
    one channel less at each failed calibration attempt; downwards from
    slot 22 on. *)
Definition skip_slot (recover_frequency_slot loop_cal_fails_outer : Z) : Z :=
  if recover_frequency_slot >=? 22 then
    u8 (recover_frequency_slot - (3 - loop_cal_fails_outer))
  else
    u8 (recover_frequency_slot + (3 - loop_cal_fails_outer)).

Definition cal_passed (w : world) : bool :=
  i_pass (return_struct_cal w) || q_pass (return_struct_cal w).

(** One turn of the inner calibration loop: search the calibration tag. *)
Definition tracking_cal_inner (error_info : string)
    (loop_cal_fails_inner : Z) : M bool :=
  rc <- search_core "track-searching" SESSION_S0 TARGET_CAL_EPC RETURN_EPC_NO
                    RETURN_MAG_YES RETURN_LNA_GAIN_NO P_return_struct_cal ;;
  bail_inv error_info "PDOA cal" rc ;;
  w <- get ;;
  if cal_passed w then ret true
  else
    send_short_message
      ("TrackCalFailInner" ++ sprintf_d 1 true loop_cal_fails_inner) ;;
    ret false.

(** One turn of the outer calibration loop: hop or skip, then up to five
    searches of the calibration tag. *)
Definition tracking_cal_outer (error_info : string)
    (loop_cal_fails_outer : Z) : M bool :=
  set_trk (set_loop_cal_fails_outer loop_cal_fails_outer) ;;
  skip <- trk frequency_skip_flag ;;
  (if negb skip then
     r <- hop_sx1257_frequency ;;
     set_trk (set_recover_frequency_slot (snd r)) ;;
     modify (fun w => set_m_hopskip_nonce (u8 (m_hopskip_nonce w + 1)) w) ;;
     bail_inv error_info "hopping frequency" (fst r)
   else
     recover <- trk recover_frequency_slot ;;
     set_trk (set_skip_frequency_slot (skip_slot recover loop_cal_fails_outer)) ;;
     slot <- trk skip_frequency_slot ;;
     rc <- set_sx1257_frequency slot ;;
     bail_inv error_info "skipping frequency" rc) ;;
  for_loop (Z.to_nat NUM_ALLOWED_INNER_CAL_FAILS) 0
           (tracking_cal_inner error_info) ;;
  w <- get ;;
  if cal_passed w then ret true
  else
    send_short_message
      ("TrackCalFailOuter" ++ sprintf_d 1 true loop_cal_fails_outer) ;;
    set_trk (set_loop_cal_fails_outer (u8 (loop_cal_fails_outer + 1))) ;;
    ret false.

(** Hop or skip with calibration, as it opens every turn of the tracking
    loop; gives up when the calibration tag was not found. *)
Definition tracking_calibrate (error_info : string) : M unit :=
  for_loop (Z.to_nat NUM_ALLOWED_OUTER_CAL_FAILS) 0
           (tracking_cal_outer error_info) ;;
  w <- get ;;
  (if negb (i_pass (return_struct_cal w)) && negb (q_pass (return_struct_cal w))
   then
     end_inventory "End Inv." ;;
     (* rfidr_error_code is the status of the last search_core, which
        was RFIDR_SUCCESS or the function had returned *)
     handle_error error_info "tracking calibration" RFIDR_SUCCESS ;;
     return_ RFIDR_ERROR_GENERAL
   else ret tt) ;;
  skip <- trk frequency_skip_flag ;;
  set_trk (set_frequency_skip_flag (negb skip)).

(** One slot of a query round of tracking_core. *)
Definition tracking_slot (error_info : string) (loop_iq : Z)
    (loop_q_iter : Z) : M bool :=
  modify (set_m_received_irq_flag false) ;;
  rc <- set_go_radio_oneshot ;;
  bail_inv error_info "set go radio" rc ;;
  spin_until Ev_wait_received_irq set_m_received_irq_flag ;;
  rc <- set_irq_ack_oneshot ;;
  bail_inv error_info "acking irq" rc ;;
  code <- read_radio_exit_code ;;
  (if code =? 0 then
     set_trk (fun l => set_num_tracked_tags_found
                         (u8 (num_tracked_tags_found l + 1)) l) ;;
     set_trk (fun l => set_num_total_tags_found
                         (u32 (num_total_tags_found l + 1)) l) ;;
     reset_return_struct P_return_struct_ant ;;
     (if loop_iq =? 0 then
        modify_return P_return_struct_ant (set_i_pass true) ;;
        r <- rfidr_read_epc READ_RXRAM_REGULAR ;;
        modify_return P_return_struct_ant (set_i_epc (snd r)) ;;
        bail_inv error_info "checking I EPC" (fst r) ;;
        r <- rfidr_read_main_magnitude READ_RXRAM_REGULAR ;;
        modify_return P_return_struct_ant (set_i_main_mag (snd r)) ;;
        bail_inv error_info "checking I - Main Mag" (fst r) ;;
        r <- rfidr_read_alt_magnitude READ_RXRAM_REGULAR ;;
        modify_return P_return_struct_ant (set_i_alt_mag (snd r)) ;;
        bail_inv error_info "checking I - Alt Mag" (fst r)
      else
        modify_return P_return_struct_ant (set_q_pass true) ;;
        r <- rfidr_read_epc READ_RXRAM_REGULAR ;;
        modify_return P_return_struct_ant (set_q_epc (snd r)) ;;
        bail_inv error_info "checking Q EPC" (fst r) ;;
        r <- rfidr_read_main_magnitude READ_RXRAM_REGULAR ;;
        modify_return P_return_struct_ant (set_q_main_mag (snd r)) ;;
        bail_inv error_info "checking Q - Main Mag" (fst r) ;;
        r <- rfidr_read_alt_magnitude READ_RXRAM_REGULAR ;;
        modify_return P_return_struct_ant (set_q_alt_mag (snd r)) ;;
        bail_inv error_info "checking Q - Alt Mag" (fst r)) ;;
     modify (set_m_received_hvc_pckt_data1_flag false) ;;
     w <- get ;;
     (* the flag was flipped after the hop or skip: true means that this
        measurement belongs to a hop *)
     rc <- (if frequency_skip_flag (tracking w) then
              rfidr_push_data_over_ble P_return_struct_ant P_return_struct_cal
                (recover_frequency_slot (tracking w)) 255 (m_hopskip_nonce w)
                BLE_PUSH_SUPPLEMENT
            else
              rfidr_push_data_over_ble P_return_struct_ant P_return_struct_cal
                (skip_frequency_slot (tracking w))
                (loop_cal_fails_outer (tracking w)) (m_hopskip_nonce w)
                BLE_PUSH_SUPPLEMENT) ;;
     bail_inv error_info "pushing pckt data over ble" rc ;;
     spin_until Ev_wait_received_hvc_pckt_data1
                set_m_received_hvc_pckt_data1_flag
   else ret tt) ;;
  ret false.

Definition tracking_path (error_info : string) (q_value : Z) (loop_iq : Z)
  : M bool :=
  rc <- (if loop_iq mod 2 =? 0 then set_use_i else set_use_q) ;;
  bail_inv error_info "set_use_i/q" rc ;;
  rc <- load_query_packet_only FLAGSWAP_YES ;;
  bail_inv error_info "loading query a/b flagswap" rc ;;
  rc <- set_alt_radio_fsm_loop ;;
  bail_inv error_info "setting new query flag" rc ;;
  for_loop (Z.to_nat (Z.shiftl 1 q_value + 1)) 0
           (tracking_slot error_info loop_iq) ;;
  l <- trk (fun l => l) ;;
  (if num_tracked_tags_found l >=? session_flag_flip_limit l then
     set_trk (set_num_tracked_tags_found 0) ;;
     if query_a_flag l then
       set_query_target TARGET_B ;; set_trk (set_query_a_flag false)
     else
       set_query_target TARGET_A ;; set_trk (set_query_a_flag true)
   else ret tt) ;;
  ret false.

Definition tracking_round (error_info : string) (query_q_vector : Z -> Z)
    (loop_query_q : Z) : M unit :=
  let q_value := u8 (query_q_vector loop_query_q - 48) in
  let q_value :=
    if q_value >? TRACK_MAX_QUERY_Q then TRACK_MAX_QUERY_Q else q_value in
  set_query_q q_value ;;
  rc <- rfidr_enable_pa ;;
  bail_inv error_info "enabling pa" rc ;;
  for_loop 2 0 (tracking_path error_info q_value) ;;
  rc <- rfidr_disable_pa ;;
  bail_inv error_info "disabling pa: " rc.

(** The select packets of a turn of the tracking loop. *)
Definition tracking_load_select (error_info : string)
    (mode : rfidr_tracking_mode_t) : M unit :=
  epc_length_in_bytes <-
    match mode with
    | TRACK_APP_SPECD =>
        len <- read_length_app_specd_target_epc ;;
        rc <- load_select_packet_only APP_SPECD_EPC len SEL_PACKET_NO_1 ;;
        bail error_info "loading app specd epc no 1" rc ;;
        ret len
    | TRACK_LAST_INV =>
        rc <- load_select_packet_only LAST_INV_EPC MAX_EPC_LENGTH_IN_BYTES
                                      SEL_PACKET_NO_1 ;;
        bail error_info "loading last inv epc no 1" rc ;;
        ret 0
    end ;;
  set_select_target TARGET_SL ;;
  match mode with
  | TRACK_APP_SPECD =>
      rc <- load_select_packet_only APP_SPECD_EPC epc_length_in_bytes
                                    SEL_PACKET_NO_2 ;;
      bail error_info "loading app specd epc no 2" rc
  | TRACK_LAST_INV =>
      rc <- load_select_packet_only LAST_INV_EPC MAX_EPC_LENGTH_IN_BYTES
                                    SEL_PACKET_NO_2 ;;
      bail error_info "loading last inv epc no 2" rc
  end.

(** The body of [while (m_track_tag_state_flag == true)]. *)
Definition tracking_iteration (error_info : string)
    (session : rfidr_query_session_t) (mode : rfidr_tracking_mode_t)
  : M unit :=
  n <- trk num_track_loops ;;
  set_trk (set_num_track_loops (u8 (n + 1))) ;;
  send_short_message ("NumTrackLoop-" ++ sprintf_d 3 true n) ;;
  tracking_calibrate error_info ;;
  rfidr_toggle_led1 ;;
  set_select_target (target_of_session session) ;;
  set_select_action ACTION_A0 ;;
  set_query_sel SEL_PSL ;;
  set_query_session session ;;
  set_query_target TARGET_A ;;
  set_query_q 0 ;;
  set_trk (set_query_a_flag true) ;;
  rc <- load_query_packet_only FLAGSWAP_NO ;;
  bail_inv error_info "loading full query" rc ;;
  tracking_load_select error_info mode ;;
  rc <- set_radio_mode_inventory ;;
  bail error_info "set radio mode to inventory" rc ;;
  rc <- load_query_rep_packet ;;
  bail error_info "loading query rep" rc ;;
  rc <- set_use_select_pkt ;;
  bail error_info "setting select packet" rc ;;
  set_sx1257_lna_gain 0xD4 ;;
  v <- trk query_q_vector ;;
  query_rounds 256 TRACK_QUERY_ROUND_LIMIT (chars_at v)
               (tracking_round error_info (chars_at v)) 0 ;;
  rc <- end_inventory "End Inv." ;;
  bail error_info "ending tracking" rc.

(** An interrupt of the BTLE stack that writes the "write state"
    characteristic while tracking runs.  Its only effect that tracking
    observes is on m_track_tag_state_flag, which is read at the head of
    the tracking loop: the model serves the interrupt there.  An answer in
    0..255 is the byte written since the last turn, any other stands for no
    write.

    In the firmware rfidrs_wrte_state_handler runs in interrupt context
    and can run at any point of a run; of the state of this file it
    writes m_rfidr_state_next and m_track_tag_state_flag and nothing
    else.  A run reads these at two places only: the copy of the pending
    state at the head of run_rfidr_state_machine and the test of the
    tracking loop.  A write that arrives elsewhere is taken to be handled
    at the next turn of the tracking loop or, outside tracking, once the
    run has returned.  What is stated of a whole run therefore speaks of
    what the handler never writes (the pins, m_rfidr_state, the nonce,
    the result structures and the calls made), not of the pending state
    at the return. *)
Definition serve_write_state_event : M unit :=
  r <- ask Ev_ble_write_state_event ;;
  if (0 <=? r) && (r <? 256) then modify (rfidrs_wrte_state_handler r)
  else ret tt.

(** [while (m_track_tag_state_flag == true) body].  The loop runs for as
    long as the application leaves tracking on; the model follows [fuel]
    turns of it and ends in [Hang] if the loop is still running then. *)
Fixpoint tracking_loop (fuel : nat) (body : M unit) : M unit :=
  match fuel with
  | O => hang
  | S fuel' =>
      serve_write_state_event ;;
      w <- get ;;
      if m_track_tag_state_flag w then body ;; tracking_loop fuel' body
      else ret tt
  end.

Definition tracking_core (error_info : string)
    (session : rfidr_query_session_t) (mode : rfidr_tracking_mode_t)
  : M rfidr_error_t :=
  fn (set_trk (fun _ => mk_tracking_locals 0 0 0 0 1 0 0 false true
                                           (repeat 0 17)) ;;
      rfidr_sel_ant0 ;;
      match mode with
      | TRACK_APP_SPECD =>
          rc <- inventory_core "track-inv-internal" SESSION_S3
                  (literal_at inventory_q_literal beyond_literal)
                  TRACK_MAX_INV_TAGS "000000000000000000000000"
                  P_return_struct_ant ;;
          bail error_info "tracking-inventory" rc ;;
          w <- get ;;
          let found := m_num_inv_tags_found w in
          if found =? 0 then
            handle_error error_info "No tags inv'd for tracking: " rc ;;
            return_ RFIDR_ERROR_GENERAL
          else if found <=? 1 then
            set_trk (set_query_q_vector q_q_vector_def0) ;;
            set_trk (set_session_flag_flip_limit 1)
          else if found <=? 2 then
            set_trk (set_query_q_vector q_q_vector_def1) ;;
            set_trk (set_session_flag_flip_limit 2)
          else if found <=? 4 then
            set_trk (set_query_q_vector q_q_vector_def2) ;;
            set_trk (set_session_flag_flip_limit 3)
          else if found <=? 8 then
            set_trk (set_query_q_vector q_q_vector_def3) ;;
            set_trk (set_session_flag_flip_limit 7)
          else if found <=? 16 then
            set_trk (set_query_q_vector q_q_vector_def4) ;;
            set_trk (set_session_flag_flip_limit 14)
          else
            set_trk (set_query_q_vector q_q_vector_def5) ;;
            set_trk (set_session_flag_flip_limit 30)
      | TRACK_LAST_INV =>
          set_trk (set_query_q_vector q_q_vector_def0) ;;
          set_trk (set_session_flag_flip_limit 1)
      end ;;
      tracking_loop track_fuel (tracking_iteration error_info session mode) ;;
      rfidr_enable_led1 ;;
      n <- trk num_total_tags_found ;;
      send_short_message
        ("Fnd " ++ sprintf_d 8 true (Z.land n (Z.shiftl 1 24 - 1)) ++ " Tags") ;;
      ret RFIDR_SUCCESS).

(** *** TX offset calibration and initialization *)

Definition tx_offset_calibration_core (loop_tx_cal_sdm loop_tx_cal_zgn : Z)
  : M rfidr_error_t :=
  fn (rc <- set_tx_sdm_offset loop_tx_cal_sdm ;;
      (if failed rc then
         handle_error "tx cal, set sdm offset" "" rc ;; return_ rc
       else ret tt) ;;
      rc <- set_tx_zgn_offset loop_tx_cal_zgn ;;
      (if failed rc then
         handle_error "tx cal, set zgn offset" "" rc ;; return_ rc
       else ret tt) ;;
      nrf_delay_us 100 ;;
      rfidr_enable_pa ;;
      nrf_delay_us 800 ;;
      modify (set_m_adc_returned_flag false) ;;
      emit Ev_nrf_adc_start ;;
      (* ADC_IRQHandler -> update_adc_sample *)
      sample <- ask Ev_wait_adc_returned ;;
      (if (0 <=? sample) && (sample <? 65536) then
         modify (fun w => set_m_last_adc_sample (Z.land sample 0xFFFF)
                            (set_m_adc_returned_flag true w))
       else hang) ;;
      rfidr_disable_pa ;;
      ret RFIDR_SUCCESS).

(** What the scan of the 16 x 16 grid has found so far. *)
Record cal_best : Type := mk_cal_best {
  sdm_offset_best : Z;
  zgn_offset_best : Z;
  meas_power_best : Z
}.

Fixpoint tx_cal_scan (cells : list (Z * Z)) (best : cal_best) : M cal_best :=
  match cells with
  | [] => ret best
  | (loop_tx_cal_sdm, loop_tx_cal_zgn) :: rest =>
      rc <- tx_offset_calibration_core loop_tx_cal_sdm loop_tx_cal_zgn ;;
      (if failed rc then
         handle_error "tx cal, tx cal core" "" rc ;; return_ rc
       else ret tt) ;;
      w <- get ;;
      tx_cal_scan rest
        (if m_last_adc_sample w <? meas_power_best best then
           mk_cal_best loop_tx_cal_sdm loop_tx_cal_zgn (m_last_adc_sample w)
         else best)
  end.

(** The cells in scan order: sdm outermost, zgn innermost. *)
Definition tx_cal_grid : list (Z * Z) :=
  flat_map (fun s => map (fun z => (Z.of_nat s, Z.of_nat z)) (seq 0 16))
           (seq 0 16).

Definition tx_offset_calibration_brute_force : M rfidr_error_t :=
  fn (r <- hop_sx1257_frequency ;;
      modify (fun w => set_m_hopskip_nonce (u8 (m_hopskip_nonce w + 1)) w) ;;
      (if failed (fst r) then
         handle_error "tx cal, freq. hop." "" (fst r) ;; return_ (fst r)
       else ret tt) ;;
      rfidr_disable_pa ;;
      best <- tx_cal_scan tx_cal_grid (mk_cal_best 8 8 9999) ;;
      rfidr_disable_pa ;;
      rc <- set_tx_sdm_offset (sdm_offset_best best) ;;
      (if failed rc then
         handle_error "tx cal, final set sdm offset" "" rc ;; return_ rc
       else ret tt) ;;
      rc <- set_tx_zgn_offset (zgn_offset_best best) ;;
      (if failed rc then
         handle_error "tx cal, final set zgn offset" "" rc ;; return_ rc
       else ret tt) ;;
      send_short_message
        ("CAL S:" ++ sprintf_d 2 true (sdm_offset_best best) ++ " Z:"
         ++ sprintf_d 2 true (zgn_offset_best best) ++ " O:"
         ++ sprintf_d 4 true (meas_power_best best)) ;;
      ret rc).

Definition initialization_core (error_info : string) : M rfidr_error_t :=
  fn (rfidr_disable_pa ;;
      rfidr_enable_xo ;;
      nrf_delay_ms 100 ;;
      rfidr_reset_fpga ;;
      rfidr_reset_radio ;;
      nrf_delay_ms 100 ;;
      rfidr_txradio_init ;;
      set_app_specd_target_epc ;;
      set_app_specd_program_epc ;;
      rc <- load_sx1257_default ;;
      bail error_info "load sx1257 default" rc ;;
      rfidr_sel_ant0 ;;
      rc <- load_rfidr_rxram_default ;;
      bail error_info "load rfidr_rxram_default" rc ;;
      rc <- load_rfidr_txram_default ;;
      bail error_info "load_rfidr_txram_default" rc ;;
      rc <- set_sx1257_frequency 12 ;;
      bail error_info "set frequency" rc ;;
      valid <- is_clk_36_valid ;;
      (if negb valid then
         handle_error error_info "clk 36 not valid: " rc ;;
         return_ RFIDR_ERROR_GENERAL
       else ret tt) ;;
      rc <- set_clk_36_oneshot ;;
      bail error_info "set_clk_36_oneshot" rc ;;
      running <- is_clk_36_running ;;
      (if negb running then
         handle_error error_info "clk 36 not running" rc ;;
         return_ RFIDR_ERROR_GENERAL
       else ret tt) ;;
      rc <- tx_offset_calibration_brute_force ;;
      bail error_info "tx offset cal" rc ;;
      rfidr_enable_led1 ;;
      send_log_message "Initialization function complete!" ;;
      ret rc).

(** *** run_rfidr_state_machine *)

Definition MAX_INV_TAGS : Z := 51.

(** [if (rc != RFIDR_SUCCESS) { handle_error(p_rfidrs, outer, "", rc); break; }]
    in a case of the state machine: answers [true] to leave the case. *)
Definition break_on_error (outer : string) (rc : rfidr_error_t) : M bool :=
  if failed rc then handle_error outer "" rc ;; ret true else ret false.

(** Runs [rest] unless [stop]. *)
Definition unless (stop : bool) (rest : M unit) : M unit :=
  if stop then ret tt else rest.

Definition enter_idle_configured : M unit :=
  modify (set_m_rfidr_state_next IDLE_CONFIGURED) ;;
  modify (set_m_rfidr_state IDLE_CONFIGURED).

Definition enter_idle_unconfigured : M unit :=
  modify (set_m_rfidr_state_next IDLE_UNCONFIGURED) ;;
  modify (set_m_rfidr_state IDLE_UNCONFIGURED).

Definition both_failed (r : rfidr_return_t) : bool :=
  negb (i_pass r) && negb (q_pass r).

Definition search_target (state : rfidr_state_t) : rfidr_target_epc_t :=
  if state_eq state SEARCHING_APP_SPECD_TAG then TARGET_APP_SPECD_EPC
  else TARGET_LAST_INV_EPC.

(** The loop of the SEARCHING case over the adjacent frequencies of
    search_hop_vector, whose end is marked by an entry of 25 or more.  It
    answers the index it stopped at and the status it stopped with. *)
Fixpoint search_second_runs (fuel : nat) (state : rfidr_state_t)
    (search_hop_vector : list Z) (loop_hop : Z) : M (Z * rfidr_error_t) :=
  match fuel with
  | O => ret (loop_hop, RFIDR_SUCCESS)
  | S fuel' =>
      let slot := nth (Z.to_nat loop_hop) search_hop_vector 255 in
      if slot <? 25 then
        modify_return P_return_struct_cal (set_i_pass false) ;;
        modify_return P_return_struct_cal (set_q_pass false) ;;
        modify_return P_return_struct_ant (set_i_pass false) ;;
        modify_return P_return_struct_ant (set_q_pass false) ;;
        rc <- set_sx1257_frequency slot ;;
        if failed rc then
          handle_error "searching, error at second frequency hop" "" rc ;;
          ret (loop_hop, rc)
        else
          send_short_message ("Cal2Srch: " ++ sprintf_d 3 false slot) ;;
          rc <- search_core "searching" SESSION_S0 TARGET_CAL_EPC RETURN_EPC_NO
                            RETURN_MAG_YES RETURN_LNA_GAIN_NO
                            P_return_struct_cal ;;
          if failed rc then
            handle_error "searching, error at second calibration search" "" rc ;;
            ret (loop_hop, rc)
          else
            w <- get ;;
            if both_failed (return_struct_cal w) then
              search_second_runs fuel' state search_hop_vector
                                 (u8 (loop_hop + 1))
            else
              send_short_message ("Ant2Srch: " ++ sprintf_d 3 false slot) ;;
              rc <- search_core "searching" SESSION_S0 (search_target state)
                                RETURN_EPC_YES RETURN_MAG_YES
                                RETURN_LNA_GAIN_NO P_return_struct_ant ;;
              if failed rc then
                handle_error "searching, error at second antenna search" "" rc ;;
                ret (loop_hop, rc)
              else
                w <- get ;;
                if both_failed (return_struct_ant w) then
                  search_second_runs fuel' state search_hop_vector
                                     (u8 (loop_hop + 1))
                else ret (loop_hop, rc)
      else ret (loop_hop, RFIDR_SUCCESS)
  end.

(** The SEARCHING_APP_SPECD_TAG and SEARCHING_LAST_INV_TAG cases. *)
Definition state_searching (state : rfidr_state_t) : M unit :=
  rfidr_state_bookend_function ;;
  r <- hop_sx1257_frequency ;;
  modify (fun w => set_m_hopskip_nonce (u8 (m_hopskip_nonce w + 1)) w) ;;
  let recover_frequency_slot := snd r in
  stop <- break_on_error "searching, randomly hopping frequency" (fst r) ;;
  unless stop (
  rc <- search_core "searching" SESSION_S0 TARGET_CAL_EPC RETURN_EPC_NO
                    RETURN_MAG_YES RETURN_LNA_GAIN_NO P_return_struct_cal ;;
  stop <- break_on_error "searching, error at first calibration search" rc ;;
  unless stop (
  w <- get ;;
  if both_failed (return_struct_cal w) then
    handle_error "searching, failure at first calibration search" "" rc
  else
  rc <- search_core "searching" SESSION_S0 (search_target state) RETURN_EPC_YES
                    RETURN_MAG_YES RETURN_LNA_GAIN_NO P_return_struct_ant ;;
  stop <- break_on_error "searching, error at first antenna search" rc ;;
  unless stop (
  w <- get ;;
  if both_failed (return_struct_ant w) then
    handle_error "searching, failure at first antenna search:" "" rc
  else
  send_short_message ("FreqSlot1: " ++ sprintf_d 3 false recover_frequency_slot) ;;
  modify (set_m_received_hvc_pckt_data1_flag false) ;;
  w <- get ;;
  rc <- rfidr_push_data_over_ble P_return_struct_ant P_return_struct_cal
          recover_frequency_slot 255 (m_hopskip_nonce w) BLE_PUSH_SUPPLEMENT ;;
  stop <- break_on_error "searching, pushing first run pckt data over ble" rc ;;
  unless stop (
  spin_until Ev_wait_received_hvc_pckt_data1
             set_m_received_hvc_pckt_data1_flag ;;
  let search_hop_vector :=
    if recover_frequency_slot <? 3 then
      [u8 (recover_frequency_slot + 3); 255; 255; 255; 255; 255]
    else if recover_frequency_slot >? 21 then
      [u8 (recover_frequency_slot - 3); 255; 255; 255; 255; 255]
    else
      [u8 (recover_frequency_slot + 3); u8 (recover_frequency_slot - 3);
       255; 255; 255; 255] in
  lr <- search_second_runs 6 state search_hop_vector 0 ;;
  let loop_hop := fst lr in
  unless (failed (snd lr)) (
  w <- get ;;
  stop <-
    (if both_failed (return_struct_ant w) then
       send_short_message "PDOA srch2 fail" ;; ret false
     else
       let slot := nth (Z.to_nat loop_hop) search_hop_vector 255 in
       send_short_message ("FreqSlot2: " ++ sprintf_d 3 false slot) ;;
       modify (set_m_received_hvc_pckt_data1_flag false) ;;
       rc <- rfidr_push_data_over_ble P_return_struct_ant P_return_struct_cal
               slot loop_hop (m_hopskip_nonce w) BLE_PUSH_SUPPLEMENT ;;
       stop <- break_on_error
                 "searching, pushing second run pckt data over ble" rc ;;
       unless stop
         (spin_until Ev_wait_received_hvc_pckt_data1
                     set_m_received_hvc_pckt_data1_flag) ;;
       ret stop) ;;
  unless stop (
  enter_idle_configured ;;
  rfidr_state_bookend_function)))))).

Definition state_initializing : M unit :=
  rfidr_state_bookend_function ;;
  rc <- initialization_core "initializing-core" ;;
  stop <- break_on_error "initializing, error within initialization_core" rc ;;
  unless stop (
  enter_idle_configured ;;
  rfidr_state_bookend_function).

Definition state_inventorying : M unit :=
  rfidr_state_bookend_function ;;
  rc <- inventory_core "inventorying" SESSION_S2
          (literal_at inventory_q_literal beyond_literal) MAX_INV_TAGS
          "A0B1C2D3E4F5A6B7C8D9E0F1" P_return_struct_ant ;;
  stop <- break_on_error "inventorying, error within inventory_core" rc ;;
  unless stop (
  enter_idle_configured ;;
  rfidr_state_bookend_function).

Definition state_tracking (state : rfidr_state_t) : M unit :=
  let tracking_mode :=
    match state with
    | TRACK_APP_SPECD_TAG => TRACK_APP_SPECD
    | _ => TRACK_LAST_INV
    end in
  rfidr_state_bookend_function ;;
  rc <- tracking_core "tracking" SESSION_S2 tracking_mode ;;
  stop <- break_on_error "tracking state, error within tracking_core" rc ;;
  unless stop (
  enter_idle_configured ;;
  rfidr_state_bookend_function).

Definition state_testing_dtc : M unit :=
  rfidr_state_bookend_function ;;
  w <- get ;;
  stop <-
    (if negb (m_dtc_state_flag w) then
       modify (set_m_dtc_state_flag true) ;;
       send_short_message "Enter Test DTC State" ;;
       rc <- set_sx1257_tx_power_high ;;
       stop <- break_on_error "DTC, setting tx power high" rc ;;
       if stop then ret true else
       rc <- enter_dtc_test_mode ;;
       stop <- break_on_error "DTC, enter_dtc_test_mode" rc ;;
       if stop then ret true else
       rc <- rfidr_disable_pa ;;
       stop <- break_on_error "DTC, disabling pa" rc ;;
       if stop then ret true else
       modify (set_m_rfidr_state_next TESTING_DTC) ;;
       modify (set_m_rfidr_state TESTING_DTC) ;;
       ret false
     else
       modify (set_m_dtc_state_flag false) ;;
       send_short_message "Exit Test DTC State" ;;
       rc <- exit_dtc_test_mode ;;
       stop <- break_on_error "DTC, exit_dtc_test_mode" rc ;;
       if stop then ret true else
       rc <- rfidr_disable_pa ;;
       stop <- break_on_error "DTC, disabling pa" rc ;;
       if stop then ret true else
       enter_idle_configured ;;
       ret false) ;;
  unless stop rfidr_state_bookend_function.

Definition program_target (state : rfidr_state_t) : rfidr_target_epc_t :=
  if state_eq state PROGRAMMING_LAST_INV_TAG then TARGET_LAST_INV_EPC
  else TARGET_APP_SPECD_EPC.

(** The PROGRAMMING_APP_SPECD_TAG, PROGRAMMING_LAST_INV_TAG, KILL_TAG and
    PROGRAMMING_KILL_PASSWD cases. *)
Definition state_programming (state : rfidr_state_t) : M unit :=
  let content :=
    match state with
    | PROGRAMMING_APP_SPECD_TAG => PROGRAM_NEW_EPC
    | PROGRAMMING_LAST_INV_TAG => PROGRAM_NEW_EPC
    | KILL_TAG => KILL_COMMAND
    | PROGRAMMING_KILL_PASSWD => PROGRAM_KILL_PWD
    | _ => PROGRAM_NEW_EPC
    end in
  rfidr_state_bookend_function ;;
  r <- hop_sx1257_frequency ;;
  modify (fun w => set_m_hopskip_nonce (u8 (m_hopskip_nonce w + 1)) w) ;;
  stop <- break_on_error "programming, randomly hopping frequency" (fst r) ;;
  unless stop (
  rc <- search_core "programming" SESSION_S0 (program_target state)
                    RETURN_EPC_NO RETURN_MAG_YES RETURN_LNA_GAIN_NO
                    P_return_struct_ant ;;
  stop <- break_on_error "programming, error at first search" rc ;;
  unless stop (
  w <- get ;;
  if both_failed (return_struct_ant w) then
    handle_error "programming, failure at first search" "" rc
  else
  rc <- program_core "programming" SESSION_S0 (program_target state) content
                     P_return_struct_ant ;;
  stop <- break_on_error "programming, error at programming" rc ;;
  unless stop (
  enter_idle_configured ;;
  rfidr_state_bookend_function))).

Definition state_recovering_waveform_memory : M unit :=
  rfidr_state_bookend_function ;;
  rc <- rfidr_push_waveform_data_over_ble ;;
  stop <- break_on_error "recovering waveform memory" rc ;;
  unless stop (
  enter_idle_configured ;;
  rfidr_state_bookend_function).

Definition state_reset_sx1257_and_fpga : M unit :=
  rfidr_state_bookend_function ;;
  rfidr_reset_fpga ;;
  rfidr_reset_radio ;;
  r <- spi_cntrlr_read_sx1257_robust 0x11 ;;
  (match r with
   | (RFIDR_SUCCESS, Some spi_return_byte) =>
       send_short_message
         ("PLL Lock Status: " ++ sprintf_02x spi_return_byte)
   | _ => send_short_message "PLL Lock Status: Er"
   end) ;;
  rfidr_disable_led1 ;;
  enter_idle_unconfigured ;;
  rfidr_state_bookend_function ;;
  modify (set_m_dtc_state_flag false).

(** Takes up the pending state and runs its case to the end. *)
Definition run_rfidr_state_machine : M unit :=
  modify (fun w => set_m_rfidr_state (m_rfidr_state_next w) w) ;;
  w <- get ;;
  match m_rfidr_state w with
  | IDLE_UNCONFIGURED =>
      rfidr_disable_led1 ;;
      rfidr_state_bookend_function
  | IDLE_CONFIGURED =>
      rfidr_enable_led1 ;;
      send_short_message "Got here" ;;
      rfidr_state_bookend_function
  | INITIALIZING => state_initializing
  | SEARCHING_APP_SPECD_TAG | SEARCHING_LAST_INV_TAG =>
      state_searching (m_rfidr_state w)
  | INVENTORYING => state_inventorying
  | TRACK_APP_SPECD_TAG | TRACK_LAST_INV_TAG =>
      state_tracking (m_rfidr_state w)
  | TESTING_DTC => state_testing_dtc
  | PROGRAMMING_APP_SPECD_TAG | PROGRAMMING_LAST_INV_TAG | KILL_TAG
  | PROGRAMMING_KILL_PASSWD =>
      state_programming (m_rfidr_state w)
  | RECOVERING_WAVEFORM_MEMORY => state_recovering_waveform_memory
  | RESET_SX1257_AND_FPGA => state_reset_sx1257_and_fpga
  end.

End Firmware.

(** * Vocabulary of the properties *)

Definition tracking_locals_init : tracking_locals :=
  mk_tracking_locals 0 0 0 0 1 0 0 false true (repeat 0 17).

(** The state after rfidr_state_init and before any collaborator call:
    slot 12 (915 MHz), every pin low, nothing sent. *)
Definition world_init : world :=
  mk_world [] IDLE_UNCONFIGURED IDLE_UNCONFIGURED false false false false
           false false 0 0 0 0 12 0 false 0 (fun _ => false)
           default_return default_return false tracking_locals_init.

(** The state machine sitting in state [s] with no request pending. *)
Definition world_in (s : rfidr_state_t) : world :=
  set_m_rfidr_state s (set_m_rfidr_state_next s world_init).

(** The world a statement leaves, and how it ends. *)
Definition exec {A : Type} (c : M A) (w : world) : world := snd (c w).
Definition result {A : Type} (c : M A) (w : world) : outcome A := fst (c w).

(** The calls made since [w], latest first. *)
Definition new_events (w w' : world) : list hw_op :=
  firstn (length (w_trace w') - length (w_trace w)) (w_trace w').

(** [n] hops in a row. *)
Fixpoint hops (env : nat -> hw_op -> Z) (n : nat) (w : world) : world :=
  match n with
  | O => w
  | S n' => exec (hop_sx1257_frequency env) (hops env n' w)
  end.

(** A relation between the world before and after that a statement
    maintains whatever it does and however it ends. *)
Definition preserves {A : Type} (R : world -> world -> Prop) (c : M A) : Prop :=
  forall w, R w (exec c w).

(** The statement leaves a component of the world alone. *)
Definition keeps {B : Type} (proj : world -> B) : world -> world -> Prop :=
  fun w w' => proj w' = proj w.

(** A property of the world that, once true, a statement keeps true. *)
Definition stable (I : world -> Prop) : world -> world -> Prop :=
  fun w w' => I w -> I w'.

(** A hardware on which every call succeeds, every awaited interrupt
    comes, every register reads 0. *)
Definition env_ok : nat -> hw_op -> Z := fun _ _ => 0.

(** A statement that always falls through: no [return], no reset, no
    endless wait. *)
Definition total {A : Type} (c : M A) : Prop :=
  forall w, exists a, result c w = Normal a.

Definition is_read_state_send (e : hw_op) : bool :=
  match e with Ev_ble_rfidrs_read_state_send _ => true | _ => false end.
Definition is_go_radio (e : hw_op) : bool :=
  match e with Ev_set_go_radio_oneshot => true | _ => false end.
Definition is_irq_ack (e : hw_op) : bool :=
  match e with Ev_set_irq_ack_oneshot => true | _ => false end.
Definition is_end_radio_fsm_loop (e : hw_op) : bool :=
  match e with Ev_set_end_radio_fsm_loop => true | _ => false end.
Definition is_enter_end_inventory (e : hw_op) : bool :=
  match e with Ev_enter_end_inventory => true | _ => false end.
Definition is_enter_handle_error (e : hw_op) : bool :=
  match e with Ev_enter_handle_error _ _ _ => true | _ => false end.

(** How many calls of a kind the trace holds. *)
Definition count_events (p : hw_op -> bool) (w : world) : nat :=
  length (filter p (w_trace w)).

(** The trace only ever grows. *)
Definition extends (w w' : world) : Prop :=
  exists evs, w_trace w' = evs ++ w_trace w.

(** The application accepts the state indication and acknowledges it. *)
Definition state_indication_served (env : nat -> hw_op -> Z) : Prop :=
  forall t,
    env t Ev_wait_received_hvc_read_state = 0
    /\ forall code,
         env t (Ev_ble_rfidrs_read_state_send code) = NRF_SUCCESS
         \/ env t (Ev_ble_rfidrs_read_state_send code) = NRF_ERROR_INVALID_STATE.

(** The number of calls of a kind never goes down. *)
Definition count_le (p : hw_op -> bool) : world -> world -> Prop :=
  fun w w' => (count_events p w <= count_events p w')%nat.

(** The text handle_error sends. *)
Definition error_message (outer inner : string) (rc : rfidr_error_t) : string :=
  ("Error at " ++ truncate 116 outer ++ ": " ++ truncate 116 inner
     ++ ": " ++ sprintf_d 2 true (u8 (rfidr_error_value rc)))%string.


(** What a statement guarantees at its end, by the way it ends. *)
Definition wp {A : Type} (c : M A) (Q : outcome A -> world -> Prop)
    (w : world) : Prop :=
  Q (result c w) (exec c w).

Definition post {A : Type} (Qn : A -> world -> Prop)
    (Qr : rfidr_error_t -> world -> Prop) (Qd : world -> Prop)
  : outcome A -> world -> Prop :=
  fun o w =>
    match o with
    | Normal a => Qn a w
    | Return rc => Qr rc w
    | Reset | Hang => Qd w
    end.

(** The continuation of a statement, for [bind]. *)
Definition then_ {A B : Type} (f : A -> M B) (Q : outcome B -> world -> Prop)
  : outcome A -> world -> Prop :=
  fun o w =>
    match o with
    | Normal a => wp (f a) Q w
    | Return rc => Q (Return rc) w
    | Reset => Q Reset w
    | Hang => Q Hang w
    end.

(** The continuation of a function body: [return] ends the function. *)
Definition returning (Q : outcome rfidr_error_t -> world -> Prop)
  : outcome rfidr_error_t -> world -> Prop :=
  fun o w =>
    match o with
    | Normal rc | Return rc => Q (Normal rc) w
    | Reset => Q Reset w
    | Hang => Q Hang w
    end.


(** The calls by which the properties below tell a run apart: the
    handshake with the FPGA, the loop-end signal, the results pushed to the
    application, the hops and the direct tunings, the inventory
    clean-ups. *)
Definition noteworthy (e : hw_op) : bool :=
  match e with
  | Ev_set_go_radio_oneshot | Ev_set_irq_ack_oneshot
  | Ev_set_end_radio_fsm_loop
  | Ev_ble_rfidrs_pckt_data1_send _ | Ev_ble_rfidrs_pckt_data2_send _
  | Ev_enter_end_inventory
  | Ev_enter_hop_sx1257_frequency | Ev_enter_set_sx1257_frequency _ => true
  | _ => false
  end.

(** Those calls of the trace, latest first. *)
Definition landmarks (w : world) : list hw_op := filter noteworthy (w_trace w).

(** What the messaging, the error handler and the drivers of the pins,
    of the FPGA and of the SX1257 never write, and the landmarks. *)
Definition core_view (w : world) :=
  (return_struct_cal w, return_struct_ant w, tracking w,
   (m_hopskip_nonce w, m_sx1257_frequency_slot w, m_num_inv_tags_found w),
   (query_adj_burn_flag w, data_id w), landmarks w).

(** A statement that leaves all of that alone. *)
Definition quiet : world -> world -> Prop := keeps core_view.


(** Reads of the FPGA user memory. *)
Definition reads_user_mem (e : hw_op) : bool :=
  match e with Ev_read_user_mem _ => true | _ => false end.

(** A peer on which every call succeeds and every awaited interrupt
    comes, but whose radio never reports the exit code 0. *)
Definition never_succeeds (env : nat -> hw_op -> Z) : Prop :=
  forall t,
    (forall e, reads_user_mem e = false -> env t e = 0)
    /\ radio_exit_code (env t (Ev_read_user_mem 0)) <> 0.

(** One pass through the radio: go, then the acknowledgement of its
    interrupt (latest first, as in the trace). *)
Definition handshake : list hw_op :=
  [Ev_set_irq_ack_oneshot; Ev_set_go_radio_oneshot].

(** Such a peer: the exit code it reports is always 7. *)
Definition env_fails : nat -> hw_op -> Z :=
  fun _ e => match e with Ev_read_user_mem _ => 255 | _ => 0 end.


(** The calls that select the demodulation path, latest first. *)
Definition is_path_select (e : hw_op) : bool :=
  match e with Ev_set_use_i | Ev_set_use_q => true | _ => false end.
Definition path_selects (w : world) : list hw_op :=
  filter is_path_select (w_trace w).

(** A search result in which only the I path passed, with the larger
    magnitude on the alternate reading, and one in which both paths
    passed, the main magnitude of Q being the largest of all. *)
Definition only_i_passed : rfidr_return_t :=
  set_i_alt_mag 2 (set_i_main_mag 1 (set_i_pass true default_return)).
Definition both_passed_q_stronger : rfidr_return_t :=
  set_q_alt_mag 1 (set_q_main_mag 100
    (set_i_alt_mag 1 (set_i_main_mag 5
       (set_q_pass true (set_i_pass true default_return))))).


(** tracking_core about to skip from slot [s]: the last turn hopped
    there. *)
Definition world_skipping_from (s : Z) : world :=
  set_tracking
    (set_frequency_skip_flag true
       (set_recover_frequency_slot s tracking_locals_init))
    (world_in TRACK_APP_SPECD_TAG).

(** The skip slot is left alone and no landmark is lost. *)
Definition keeps_skip_slot : world -> world -> Prop :=
  fun w w' =>
    skip_frequency_slot (tracking w') = skip_frequency_slot (tracking w)
    /\ forall e, In e (landmarks w) -> In e (landmarks w').


(** Entries of hop_sx1257_frequency. *)
Definition is_hop (e : hw_op) : bool :=
  match e with Ev_enter_hop_sx1257_frequency => true | _ => false end.

(** The Query-Q vector "321": three rounds, then the null sentinel; the
    buffer holds zero bytes after it. *)
Definition q_vector_321 : Z -> Z := chars_at [ch0 + 3; ch0 + 2; ch0 + 1].


(** A property of the result structure behind a pointer. *)
Definition on_result (p : return_ptr) (J : rfidr_return_t -> Prop)
  : world -> Prop :=
  fun w => J (load_return p w).

(** The fields of a path hold their defaults. *)
Definition i_fields_default (r : rfidr_return_t) : Prop :=
  i_epc r = zero_epc /\ i_lna_gain r = 0xD4
  /\ i_main_mag r = 0 /\ i_alt_mag r = 0.
Definition q_fields_default (r : rfidr_return_t) : Prop :=
  q_epc r = zero_epc /\ q_lna_gain r = 0xD4
  /\ q_main_mag r = 0 /\ q_alt_mag r = 0.

(** A path that has not passed holds defaults only. *)
Definition no_stale_data (r : rfidr_return_t) : Prop :=
  (i_pass r = false -> i_fields_default r)
  /\ (q_pass r = false -> q_fields_default r).

(** The I path has passed; the Q path holds defaults unless it passed. *)
Definition i_passed (r : rfidr_return_t) : Prop :=
  i_pass r = true /\ (q_pass r = false -> q_fields_default r).
Definition q_passed (r : rfidr_return_t) : Prop :=
  q_pass r = true /\ (i_pass r = false -> i_fields_default r).

(** The radio never reports the exit code 0. *)
Definition every_exchange_fails (env : nat -> hw_op -> Z) : Prop :=
  forall t, radio_exit_code (env t (Ev_read_user_mem 0)) <> 0.

(** A peer whose exit code is always 7 and whose RX RAM reads 1 in every
    byte. *)
Definition env_fails_with_data : nat -> hw_op -> Z :=
  fun _ e =>
    match e with
    | Ev_read_user_mem _ => 255
    | Ev_spi_rxram_read _ => 1
    | _ => 0
    end.


(** The nonce after a trace (latest call first) that began with the nonce
    [n0]: every hop adds one to it (it is a uint8_t), a direct tuning and
    every other call leave it as it is.  The answer is [None] when a
    second packet of results does not carry the nonce of its time. *)
Fixpoint replay_nonce (tr : list hw_op) (n0 : Z) : option Z :=
  match tr with
  | [] => Some n0
  | e :: older =>
      match replay_nonce older n0 with
      | None => None
      | Some n =>
          match e with
          | Ev_enter_hop_sx1257_frequency => Some (u8 (n + 1))
          | Ev_ble_rfidrs_pckt_data2_send pckt_data2 =>
              if pckt_data2_nonce pckt_data2 =? n then Some n else None
          | _ => Some n
          end
      end
  end.

(** m_hopskip_nonce is the nonce of the trace. *)
Definition nonce_in_step (n0 : Z) (w : world) : Prop :=
  replay_nonce (w_trace w) n0 = Some (m_hopskip_nonce w).

(** The same, m_hopskip_nonce being [m]. *)
Definition nonce_is (n0 m : Z) (w : world) : Prop :=
  nonce_in_step n0 w /\ m_hopskip_nonce w = m.

(** A hop has been made that m_hopskip_nonce has not counted yet. *)
Definition nonce_behind (n0 : Z) (w : world) : Prop :=
  replay_nonce (w_trace w) n0 = Some (u8 (m_hopskip_nonce w + 1)).

(** What every statement other than a hop, the addition that follows it
    and a second packet leaves alone. *)
Definition nonce_view (n0 : Z) (w : world) : Z * option Z :=
  (m_hopskip_nonce w, replay_nonce (w_trace w) n0).

(** The hops in a trace. *)
Definition hops_in (tr : list hw_op) : nat := length (filter is_hop tr).

(** The searching state about to run. *)
Definition world_pending (s : rfidr_state_t) : world :=
  set_m_rfidr_state_next s (world_in IDLE_CONFIGURED).


(** The entries of end_inventory so far. *)
Definition ends (w : world) : nat := count_events is_enter_end_inventory w.

(** A property of the entries of end_inventory and of the tag count. *)
Definition on_view (P : nat -> Z -> Prop) : world -> Prop :=
  fun w => P (ends w) (m_num_inv_tags_found w).

(** From a state in [I] the statement keeps [I] up to its last step, which
    ends in [Qn]; it leaves the function in [Qr] and stops for good in
    [Qd]. *)
Definition triple {A : Type} (I : world -> Prop) (Qn : A -> world -> Prop)
    (Qr : rfidr_error_t -> world -> Prop) (Qd : world -> Prop) (c : M A)
  : Prop :=
  forall w, I w -> wp c (post Qn Qr Qd) w.








(** * Further definitions: the data on the wire *)


(** The byte the RX RAM answers to the read of [addr + k] that is the
    [k]-th read made from the state [w] on. *)
Definition rxram_byte (env : nat -> hw_op -> Z) (w : world) (addr : Z)
    (k : nat) : Z :=
  u8 (env (length (w_trace w) + k)%nat (Ev_spi_rxram_read (addr + Z.of_nat k))).


(** The 32-bit number whose bytes are [b3] (most significant) to [b0]. *)
Definition be32 (b3 b2 b1 b0 : Z) : Z :=
  ((b3 * 256 + b2) * 256 + b1) * 256 + b0.

(** The EPC and the two magnitudes of the path that rfidr_push_data_over_ble
    sends for a result: those of the I run when it chooses I, of the Q run
    when it chooses Q (the magnitude of the I channel is then the alternate
    one), zeros when neither path passed. *)
Definition sent_epc (r : rfidr_return_t) : list Z :=
  if choose_i r =? 1 then i_epc r
  else if choose_i r =? 0 then q_epc r else zero_epc.
Definition sent_i_mag (r : rfidr_return_t) : Z :=
  if choose_i r =? 1 then u32 (i_main_mag r)
  else if choose_i r =? 0 then u32 (q_alt_mag r) else 0.
Definition sent_q_mag (r : rfidr_return_t) : Z :=
  if choose_i r =? 1 then u32 (i_alt_mag r)
  else if choose_i r =? 0 then u32 (q_main_mag r) else 0.

(** All the numbers below [n] pass the test. *)
Definition all_below (n : nat) (P : Z -> bool) : bool :=
  forallb P (map Z.of_nat (seq 0 n)).


(** ** The frequency plan of the SX1257 *)

(** The synthesizer of the SX1257 runs from a 36 MHz crystal and steps
    by 36 MHz / 2^19, the 68.66455 Hz of the comment on
    sx1257_frequency_decode.  [tuning_error code hz] is how far the tuning
    word [code] is from [hz] hertz, in units of 1/2^19 Hz. *)
Definition XTAL_HZ : Z := 36000000.

Definition tuning_error (code hz : Z) : Z := XTAL_HZ * code - hz * 2 ^ 19.

(** The carrier of a slot: 903 MHz for slot 0, one more for each slot up
    to 927 MHz for slot 24, and the centre for what is not a slot. *)
Definition slot_hz (slot : Z) : Z :=
  if (0 <=? slot) && (slot <=? 24) then (903 + slot) * 1000000
  else 915 * 1000000.

(** Three bytes, most significant first, as one word. *)
Definition be24 (b2 b1 b0 : Z) : Z := (b2 * 256 + b1) * 256 + b0.

(** The register writes of a tuning, in the order of the code: the
    receive triple 1,2,3 and the transmit triple 4,5,6. *)
Definition frequency_register_writes (b2 b1 b0 : Z) : list hw_op :=
  [Ev_spi_cntrlr_write_sx1257_robust 1 b2;
   Ev_spi_cntrlr_write_sx1257_robust 2 b1;
   Ev_spi_cntrlr_write_sx1257_robust 3 b0;
   Ev_spi_cntrlr_write_sx1257_robust 4 b2;
   Ev_spi_cntrlr_write_sx1257_robust 5 b1;
   Ev_spi_cntrlr_write_sx1257_robust 6 b0].

(** What a tuning that answered [rc] has added to the trace after its
    first [n] register writes: the settling delay follows the writes only
    when all went well. *)
Definition tuning_trace (rc : rfidr_error_t) (n : nat) (b2 b1 b0 : Z)
  : list hw_op :=
  (if failed rc then [] else [Ev_delay_us 250])
  ++ rev (firstn n (frequency_register_writes b2 b1 b0)).

(** The status that write number [k] of [writes] (counted from 0) is
    answered with, when the first of them is call number [t0] of the
    run. *)
Definition write_answer (env : nat -> hw_op -> Z) (t0 : nat)
           (writes : list hw_op) (k : nat) : rfidr_error_t :=
  rfidr_error_of_Z (env (k + t0)%nat (nth k writes Ev_nrf_adc_start)).

(** A tuning has made [n] of its writes and answered [rc]: the writes
    before the last one it made went well; if the last one failed, [rc]
    is the status it was answered with; if it went well too, it was the
    sixth, and [rc] is RFIDR_SUCCESS. *)
Definition stops_at_first_failure (answer : nat -> rfidr_error_t)
           (n : nat) (rc : rfidr_error_t) : Prop :=
  (1 <= n <= 6)%nat
  /\ (forall k, (k + 1 < n)%nat -> failed (answer k) = false)
  /\ (failed (answer (n - 1)%nat) = true -> rc = answer (n - 1)%nat)
  /\ (failed (answer (n - 1)%nat) = false ->
      n = 6%nat /\ rc = RFIDR_SUCCESS).


(** ** The power amplifier and the state at the end of a run *)

(** What the properties of the end of a run look at: the two pins that
    switch the power amplifier, the current and the pending state. *)
Definition on_hold
    (P : bool -> bool -> rfidr_state_t -> rfidr_state_t -> Prop)
  : world -> Prop :=
  fun w => P (pins w EN_VDD_PA_PIN) (pins w OPA_SPDT1_CTL_PIN)
             (m_rfidr_state w) (m_rfidr_state_next w).

(** The idle state handle_error falls back to from the state [s]. *)
Definition idle_after_error (s : rfidr_state_t) : rfidr_state_t :=
  if state_eq s IDLE_UNCONFIGURED || state_eq s INITIALIZING
  then IDLE_UNCONFIGURED else IDLE_CONFIGURED.

(** The states in which the case of the pending state [s] can end. *)
Definition ends_in (s : rfidr_state_t) : list rfidr_state_t :=
  match s with
  | IDLE_UNCONFIGURED | RESET_SX1257_AND_FPGA => [IDLE_UNCONFIGURED]
  | INITIALIZING => [IDLE_CONFIGURED; IDLE_UNCONFIGURED]
  | TESTING_DTC => [TESTING_DTC; IDLE_CONFIGURED]
  | _ => [IDLE_CONFIGURED]
  end.

(** While a case runs the current state is the one it was entered with,
    or the idle state an error has sent it to. *)
Definition in_case (s0 s : rfidr_state_t) : Prop :=
  s = s0 \/ s = idle_after_error s0.

(** Between two radio operations: the amplifier is off, if it was off
    when the run began ([G]), and the state is one of the case. *)
Definition pa_held (G : Prop) (s0 : rfidr_state_t) : world -> Prop :=
  on_hold (fun en opa s _ => (G -> en = false /\ opa = false) /\ in_case s0 s).

(** During a radio operation: the amplifier may be on. *)
Definition pa_free (s0 : rfidr_state_t) : world -> Prop :=
  on_hold (fun _ _ s _ => in_case s0 s).

(** At the end of the case of the pending state [s0]. *)
Definition at_rest (G : Prop) (s0 : rfidr_state_t) : world -> Prop :=
  on_hold (fun en opa s n =>
             (G -> en = false /\ opa = false) /\ n = s /\ In s (ends_in s0)).

(** At the head of the case of the pending state [s0]: the pending state
    has just become the current one. *)
Definition entered (G : Prop) (s0 : rfidr_state_t) : world -> Prop :=
  on_hold (fun en opa s n =>
             (G -> en = false /\ opa = false) /\ s = s0 /\ n = s0).

(** Between the two assignments that set the pending and the current
    state to [v]. *)
Definition entering (G : Prop) (v : rfidr_state_t) : world -> Prop :=
  on_hold (fun en opa _ n => (G -> en = false /\ opa = false) /\ n = v).


(** ** Messages in segments *)

(** A notification on the log characteristic. *)
Definition log_send (m : string * Z) : hw_op :=
  Ev_ble_rfidrs_log_messge_send (fst m) (snd m).

(** A segment that fills a notification: 20 characters, sent as 20. *)
Definition full_segment (m : string * Z) : Prop :=
  String.length (fst m) = 20%nat /\ snd m = 20.

(** What rfidr_error_complete_message_send adds after the message when
    the stack, having refused notifications before, takes them again:
    nothing, the notice, or the notice and the count of the refusals. *)
Definition recovery_notice (extra : list (string * Z)) : Prop :=
  extra = []
  \/ extra = [("Rcvrd. BT ops after"%string, 20)]
  \/ exists n, extra = [("Rcvrd. BT ops after"%string, 20);
                        ((sprintf_d 10 true n ++ " tries")%string, 17)].


(** ** The TX offset calibration *)

(** The samples the ADC has handed over, earliest first: a trace keeps
    the calls latest first, and the answer to a call is the one the
    environment gave at its position. *)
Fixpoint adc_samples (env : nat -> hw_op -> Z) (tr : list hw_op) : list Z :=
  match tr with
  | [] => []
  | e :: older =>
      match e with
      | Ev_wait_adc_returned =>
          adc_samples env older ++ [Z.land (env (length older) e) 0xFFFF]
      | _ => adc_samples env older
      end
  end.

(** The offsets last written to the FPGA, if any. *)
Fixpoint last_tx_sdm_offset (tr : list hw_op) : option Z :=
  match tr with
  | [] => None
  | Ev_set_tx_sdm_offset v :: _ => Some v
  | _ :: older => last_tx_sdm_offset older
  end.

Fixpoint last_tx_zgn_offset (tr : list hw_op) : option Z :=
  match tr with
  | [] => None
  | Ev_set_tx_zgn_offset v :: _ => Some v
  | _ :: older => last_tx_zgn_offset older
  end.

(** What the properties of the calibration look at. *)
Definition on_cal (env : nat -> hw_op -> Z)
    (P : list Z -> Z -> option Z -> option Z -> Prop) : world -> Prop :=
  fun w => P (adc_samples env (w_trace w)) (m_last_adc_sample w)
             (last_tx_sdm_offset (w_trace w)) (last_tx_zgn_offset (w_trace w)).

(** Sample [k] is the lowest of the samples, and the first that low. *)
Definition lowest_first (samples : list Z) (k : nat) : Prop :=
  (k < length samples)%nat
  /\ (forall j, (j < length samples)%nat -> nth k samples 0 <= nth j samples 0)
  /\ (forall j, (j < k)%nat -> nth k samples 0 < nth j samples 0).

(** What a scan that began with [best] has kept: [best] itself when no
    sample was below its power, else the cell and the power of the lowest
    sample, the first of them when several are as low. *)
Definition scan_picks (cells : list (Z * Z)) (samples : list Z)
    (best best' : cal_best) : Prop :=
  (best' = best
   /\ forall j, (j < length samples)%nat ->
                meas_power_best best <= nth j samples 0)
  \/ exists k,
      lowest_first samples k
      /\ nth k samples 0 < meas_power_best best
      /\ best' = mk_cal_best (fst (nth k cells (0, 0)))
                             (snd (nth k cells (0, 0))) (nth k samples 0).


(** ** The read-back check after programming (rfidr_rxradio.c) *)

Definition u64 (x : Z) : Z := x mod 2 ^ 64.

Definition RX_RAM_ADDR_OFFSET_READ : Z := 5.

(** [for (i = 0; i < n; i++) acc = body(i, acc);] *)
Fixpoint for_acc {A : Type} (n : nat) (i : Z) (body : Z -> A -> M A) (a : A)
  : M A :=
  match n with
  | O => ret a
  | S n' => a' <- body i a ;; for_acc n' (i + 1) body a'
  end.

(** memcmp over the first [n] bytes: [true] when they differ. *)
Definition memcmp (a b : list Z) (n : nat) : bool :=
  negb (forallb (fun k => nth k a 0 =? nth k b 0) (seq 0 n)).

Module Rxradio.

Section Read_check.

Variable env : nat -> hw_op -> Z.

(** The EPCs kept by rfidr_txradio.c, which read_app_specd_program_epc
    and read_last_inv_epc copy out. *)
Variable app_specd_program_epc : list Z.
Variable last_inv_epc : list Z.

(** Reads the 13 bytes of the tag's reply to the Read command and puts
    the 96 bits that follow its 1-bit header together again; the EPC they
    give is compared with the one that was to be written. *)
Definition rfidr_pull_and_check_read_data (target : rfidr_target_epc_t)
  : M rfidr_error_t :=
  let radio_sram_addr := Z.shiftl RX_RAM_ADDR_OFFSET_READ 4 + 1 in
  recovery_byte <- rxram_read env radio_sram_addr ;;
  let recovered_epc_bits_msb :=
    Z.lor 0 (u64 (Z.shiftl (Z.land recovery_byte 127) 57)) in
  recovered_epc_bits_msb <-
    for_acc 7 0
      (fun loop_bytes msb =>
         recovery_byte <- rxram_read env (radio_sram_addr + 1 + loop_bytes) ;;
         ret (Z.lor msb (u64 (Z.shiftl (Z.land recovery_byte 255)
                                       (49 - Z.shiftl loop_bytes 3)))))
      recovered_epc_bits_msb ;;
  recovery_byte <- rxram_read env (radio_sram_addr + 8) ;;
  let recovered_epc_bits_msb :=
    Z.lor recovered_epc_bits_msb (Z.land (Z.shiftr recovery_byte 7) 1) in
  let recovered_epc_bits_lsb :=
    Z.lor 0 (u32 (Z.shiftl (Z.land recovery_byte 127) 25)) in
  recovered_epc_bits_lsb <-
    for_acc 3 0
      (fun loop_bytes lsb =>
         recovery_byte <- rxram_read env (radio_sram_addr + 9 + loop_bytes) ;;
         ret (Z.lor lsb (u32 (Z.shiftl (Z.land recovery_byte 255)
                                       (17 - Z.shiftl loop_bytes 3)))))
      recovered_epc_bits_lsb ;;
  recovery_byte <- rxram_read env (radio_sram_addr + 12) ;;
  let recovered_epc_bits_lsb :=
    Z.lor recovered_epc_bits_lsb (Z.land (Z.shiftr recovery_byte 7) 1) in
  let recovered_epc_bytes :=
    map (fun loop_bytes =>
           u8 (Z.land (Z.shiftr recovered_epc_bits_msb
                                (Z.shiftl (7 - loop_bytes) 3)) 255))
        [0; 1; 2; 3; 4; 5; 6; 7]
    ++ map (fun loop_bytes =>
              u8 (Z.land (Z.shiftr recovered_epc_bits_lsb
                                   (Z.shiftl (11 - loop_bytes) 3)) 255))
           [8; 9; 10; 11] in
  let original_epc_bytes :=
    match target with
    | TARGET_APP_SPECD_EPC => app_specd_program_epc
    | TARGET_LAST_INV_EPC => last_inv_epc
    | _ => app_specd_program_epc
    end in
  if memcmp recovered_epc_bytes original_epc_bytes
            (Z.to_nat MAX_EPC_LENGTH_IN_BYTES)
  then ret RFIDR_ERROR_READ_CHECK
  else ret RFIDR_SUCCESS.

End Read_check.

End Rxradio.

(** What the code above makes of the thirteen bytes [b 0] .. [b 12] it
    reads: the two words, then the twelve bytes cut out of them. *)
Definition assembled_msb (b : nat -> Z) : Z :=
  let msb := Z.lor 0 (u64 (Z.shiftl (Z.land (b 0%nat) 127) 57)) in
  let msb :=
    fold_left (fun msb loop_bytes =>
                 Z.lor msb (u64 (Z.shiftl (Z.land (b (S loop_bytes)) 255)
                                          (49 - Z.shiftl (Z.of_nat loop_bytes)
                                                         3))))
              (seq 0 7) msb in
  Z.lor msb (Z.land (Z.shiftr (b 8%nat) 7) 1).

Definition assembled_lsb (b : nat -> Z) : Z :=
  let lsb := Z.lor 0 (u32 (Z.shiftl (Z.land (b 8%nat) 127) 25)) in
  let lsb :=
    fold_left (fun lsb loop_bytes =>
                 Z.lor lsb (u32 (Z.shiftl (Z.land (b (9 + loop_bytes)%nat) 255)
                                          (17 - Z.shiftl (Z.of_nat loop_bytes)
                                                         3))))
              (seq 0 3) lsb in
  Z.lor lsb (Z.land (Z.shiftr (b 12%nat) 7) 1).

Definition assembled_epc_bytes (b : nat -> Z) : list Z :=
  map (fun loop_bytes =>
         u8 (Z.land (Z.shiftr (assembled_msb b)
                              (Z.shiftl (7 - loop_bytes) 3)) 255))
      [0; 1; 2; 3; 4; 5; 6; 7]
  ++ map (fun loop_bytes =>
            u8 (Z.land (Z.shiftr (assembled_lsb b)
                                 (Z.shiftl (11 - loop_bytes) 3)) 255))
         [8; 9; 10; 11].

(** The bytes that follow the 1-bit header of a reply: each is made of
    the low seven bits of a byte read and the top bit of the next. *)
Definition realigned (b : nat -> Z) : list Z :=
  map (fun k => b k mod 128 * 2 + b (S k) / 128) (seq 0 12).

(** The EPC that the read-back is compared with. *)
Definition original_epc (app_specd_program_epc last_inv_epc : list Z)
           (target : rfidr_target_epc_t) : list Z :=
  match target with
  | TARGET_LAST_INV_EPC => last_inv_epc
  | _ => app_specd_program_epc
  end.

(** ** The SPI link to the FPGA (rfidr_spi.c) *)

Inductive spi_wr_t : Type := RFIDR_SPI_WRITE | RFIDR_SPI_READ.
Inductive spi_mem_t : Type :=
  RFIDR_WVFM_MEM | RFIDR_RDIO_MEM | RFIDR_TXCN_MEM | RFIDR_USER_MEM.
Inductive spi_rxntx_ram_t : Type := RFIDR_SPI_RXRAM | RFIDR_SPI_TXRAM.

(** [wr == RFIDR_SPI_WRITE] and [rxntx == RFIDR_SPI_RXRAM], as ints. *)
Definition is_write (wr : spi_wr_t) : Z :=
  match wr with RFIDR_SPI_WRITE => 1 | RFIDR_SPI_READ => 0 end.
Definition is_rxram (rxntx : spi_rxntx_ram_t) : Z :=
  match rxntx with RFIDR_SPI_RXRAM => 1 | RFIDR_SPI_TXRAM => 0 end.

Definition TX_RX_MSG_LENGTH : nat := 4.
Definition USER_MEM_SX1257_STAT_ADDR : Z := 2.
Definition USER_MEM_SX1257_ADDR_ADDR : Z := 4.
Definition USER_MEM_SX1257_DATA_ADDR : Z := 5.
Definition USER_MEM_SX1257_RTRN_ADDR : Z := 5.

(** The four bytes that spi_cntrlr_set_tx leaves in the TX buffer.  The
    [default] of its switch is the RFIDR_USER_MEM case over again. *)
Definition tx_packet (spi_mem : spi_mem_t) (wr : spi_wr_t)
           (rxntx : spi_rxntx_ram_t) (addr data : Z) : list Z :=
  let addr := u16 addr in
  let data := u8 data in
  let temp := 0 in
  let byte_mask := Z.shiftl 1 8 - 1 in
  let temp :=
    match spi_mem with
    | RFIDR_WVFM_MEM =>
        let addr_mask := Z.shiftl 1 13 - 1 in
        let temp := Z.lor temp (Z.shiftl 0 22) in
        let temp := Z.lor temp (Z.shiftl 1 21) in
        Z.lor temp (Z.shiftl (Z.land addr addr_mask) 8)
    | RFIDR_RDIO_MEM =>
        let addr_mask := Z.shiftl 1 9 - 1 in
        let temp := Z.lor temp (Z.shiftl (is_write wr) 22) in
        let temp := Z.lor temp (Z.shiftl 0 21) in
        let temp := Z.lor temp (Z.shiftl 1 20) in
        let temp := Z.lor temp (Z.shiftl (is_rxram rxntx) 17) in
        Z.lor temp (Z.shiftl (Z.land addr addr_mask) 8)
    | RFIDR_TXCN_MEM =>
        let addr_mask := Z.shiftl 1 10 - 1 in
        let temp := Z.lor temp (Z.shiftl (is_write wr) 22) in
        let temp := Z.lor temp (Z.shiftl 0 21) in
        let temp := Z.lor temp (Z.shiftl 0 20) in
        let temp := Z.lor temp (Z.shiftl 1 19) in
        Z.lor temp (Z.shiftl (Z.land addr addr_mask) 8)
    | RFIDR_USER_MEM =>
        let addr_mask := Z.shiftl 1 3 - 1 in
        let temp := Z.lor temp (Z.shiftl (is_write wr) 22) in
        let temp := Z.lor temp (Z.shiftl 0 21) in
        let temp := Z.lor temp (Z.shiftl 0 20) in
        let temp := Z.lor temp (Z.shiftl 0 19) in
        let temp := Z.lor temp (Z.shiftl 1 18) in
        Z.lor temp (Z.shiftl (Z.land addr addr_mask) 8)
    end in
  let temp := Z.lor temp (Z.land byte_mask data) in
  let temp := u32 (Z.shiftl temp 9) in
  [u8 (Z.land (Z.shiftr temp 24) byte_mask);
   u8 (Z.land (Z.shiftr temp 16) byte_mask);
   u8 (Z.land (Z.shiftr temp 8) byte_mask);
   u8 (Z.land (Z.shiftr temp 0) byte_mask)].

Module Spi.

(** The two buffers of the module, and the buffers clocked out so far,
    latest first. *)
Record bus : Type := mk_bus {
  m_tx_data_spi : list Z;
  m_rx_data_spi : list Z;
  transfers : list (list Z)
}.

Definition B (A : Type) : Type := bus -> outcome A * bus.

Definition ret {A : Type} (a : A) : B A := fun s => (Normal a, s).

Definition bind {A C : Type} (c : B A) (f : A -> B C) : B C :=
  fun s =>
    match c s with
    | (Normal a, s') => f a s'
    | (Return rc, s') => (Return rc, s')
    | (Reset, s') => (Reset, s')
    | (Hang, s') => (Hang, s')
    end.

Declare Scope spi_scope.
Notation "x <- c1 ;; c2" := (bind c1 (fun x => c2))
  (at level 61, c1 at next level, right associativity) : spi_scope.
Notation "c1 ;; c2" := (bind c1 (fun _ => c2))
  (at level 61, right associativity) : spi_scope.
Local Open Scope spi_scope.

Definition return_ {A : Type} (rc : rfidr_error_t) : B A :=
  fun s => (Return rc, s).
Definition system_reset {A : Type} : B A := fun s => (Reset, s).
Definition hang {A : Type} : B A := fun s => (Hang, s).
Definition get : B bus := fun s => (Normal s, s).

Definition fn (body : B rfidr_error_t) : B rfidr_error_t :=
  fun s =>
    match body s with
    | (Return rc, s') => (Normal rc, s')
    | r => r
    end.

Definition APP_ERROR_CHECK (code : Z) : B unit :=
  if code =? NRF_SUCCESS then ret tt else system_reset.

(** [while (cond) body], the locals of the loop in [a]. *)
Fixpoint while {A : Type} (fuel : nat) (cond : A -> bool) (body : A -> B A)
         (a : A) : B A :=
  match fuel with
  | O => hang
  | S fuel' =>
      if cond a then a' <- body a ;; while fuel' cond body a' else ret a
  end.

(** [while (1) body], where the body answers [inr] to [break]. *)
Fixpoint forever {A : Type} (fuel : nat) (body : A -> B (A + A)) (a : A)
  : B A :=
  match fuel with
  | O => hang
  | S fuel' =>
      r <- body a ;;
      match r with
      | inl a' => forever fuel' body a'
      | inr a' => ret a'
      end
  end.

Section Controller.

(** The transfer of spi_cntrlr_fast.c: what the FPGA clocks back when the
    TX buffer is clocked out, [n] transfers having been made before. *)
Variable spi_cntrlr_tx_rx : nat -> list Z -> list Z.

(** How many times a loop may go round before the model gives up. *)
Variable fuel : nat.

Definition spi_cntrlr_send_recv : B Z :=
  let err_code := NRF_SUCCESS in
  (fun s =>
     let rx := spi_cntrlr_tx_rx (length (transfers s)) (m_tx_data_spi s) in
     (Normal tt,
      mk_bus (m_tx_data_spi s)
             (map (fun k => u8 (nth k rx 0)) (seq 0 TX_RX_MSG_LENGTH))
             (m_tx_data_spi s :: transfers s))) ;;
  APP_ERROR_CHECK err_code ;;
  ret NRF_SUCCESS.

(** The byte comes back through the pointer. *)
Definition spi_cntrlr_read_rx : B (rfidr_error_t * Z) :=
  s <- get ;;
  ret (RFIDR_SUCCESS, nth 3 (m_rx_data_spi s) 0).

Definition spi_cntrlr_set_tx (spi_mem : spi_mem_t) (wr : spi_wr_t)
           (rxntx : spi_rxntx_ram_t) (addr data : Z) : B rfidr_error_t :=
  fun s =>
    (Normal RFIDR_SUCCESS,
     mk_bus (tx_packet spi_mem wr rxntx addr data) (m_rx_data_spi s)
            (transfers s)).

Definition spi_cntrlr_write_tx_robust (spi_mem : spi_mem_t)
           (rxntx : spi_rxntx_ram_t) (addr data : Z) : B rfidr_error_t :=
  fn (let data := u8 data in
      while fuel (fun loop_try => loop_try <? 3)
        (fun loop_try =>
           spi_cntrlr_set_tx spi_mem RFIDR_SPI_WRITE rxntx addr data ;;
           spi_cntrlr_send_recv ;;
           spi_cntrlr_set_tx spi_mem RFIDR_SPI_READ rxntx addr 0 ;;
           spi_cntrlr_send_recv ;;
           s <- get ;;
           if nth 3 (m_rx_data_spi s) 0 =? data
           then return_ RFIDR_SUCCESS
           else ret (u8 (loop_try + 1)))
        0 ;;
      ret RFIDR_ERROR_SPI_WRITE_TX).

(** The polling loop of the two bridge functions: reads the status
    register until its bit 5 is set, and gives up with [rc] at the fourth
    read that finds it clear. *)
Definition poll_done (rc : rfidr_error_t) : B Z :=
  forever fuel
    (fun loop_try_inner =>
       spi_cntrlr_set_tx RFIDR_USER_MEM RFIDR_SPI_READ RFIDR_SPI_TXRAM
                         USER_MEM_SX1257_STAT_ADDR 0 ;;
       spi_cntrlr_send_recv ;;
       s <- get ;;
       if Z.land (Z.shiftr (nth 3 (m_rx_data_spi s) 0) 5) 1 =? 1
       then ret (inr loop_try_inner)
       else
         let loop_try_inner := u8 (loop_try_inner + 1) in
         if loop_try_inner >? 3 then return_ rc
         else ret (inl loop_try_inner))
    0.

Definition spi_cntrlr_write_sx1257_robust (sx1257_addr sx1257_data : Z)
  : B rfidr_error_t :=
  fn (let sx1257_addr := u8 sx1257_addr in
      let sx1257_data := u8 sx1257_data in
      let sx1257_addr_masked_read := Z.land sx1257_addr 127 in
      let sx1257_addr_masked_write :=
        u8 (Z.lor sx1257_addr_masked_read 128) in
      while fuel (fun loop_try_outer => loop_try_outer <? 3)
        (fun loop_try_outer =>
           spi_cntrlr_set_tx RFIDR_USER_MEM RFIDR_SPI_READ RFIDR_SPI_TXRAM
                             USER_MEM_SX1257_STAT_ADDR 0 ;;
           spi_cntrlr_send_recv ;;
           s <- get ;;
           (if negb (Z.land (Z.shiftr (nth 3 (m_rx_data_spi s) 0) 5) 3 =? 0)
            then return_ RFIDR_ERROR_SPI_WRITE_SX1257_1
            else ret tt) ;;
           spi_cntrlr_set_tx RFIDR_USER_MEM RFIDR_SPI_WRITE RFIDR_SPI_TXRAM
                             USER_MEM_SX1257_ADDR_ADDR
                             sx1257_addr_masked_write ;;
           spi_cntrlr_send_recv ;;
           spi_cntrlr_set_tx RFIDR_USER_MEM RFIDR_SPI_WRITE RFIDR_SPI_TXRAM
                             USER_MEM_SX1257_DATA_ADDR sx1257_data ;;
           spi_cntrlr_send_recv ;;
           spi_cntrlr_set_tx RFIDR_USER_MEM RFIDR_SPI_WRITE RFIDR_SPI_TXRAM
                             USER_MEM_SX1257_STAT_ADDR 2 ;;
           spi_cntrlr_send_recv ;;
           poll_done RFIDR_ERROR_SPI_WRITE_SX1257_2 ;;
           spi_cntrlr_set_tx RFIDR_USER_MEM RFIDR_SPI_WRITE RFIDR_SPI_TXRAM
                             USER_MEM_SX1257_STAT_ADDR 0 ;;
           spi_cntrlr_send_recv ;;
           spi_cntrlr_set_tx RFIDR_USER_MEM RFIDR_SPI_WRITE RFIDR_SPI_TXRAM
                             USER_MEM_SX1257_ADDR_ADDR
                             sx1257_addr_masked_read ;;
           spi_cntrlr_send_recv ;;
           spi_cntrlr_set_tx RFIDR_USER_MEM RFIDR_SPI_WRITE RFIDR_SPI_TXRAM
                             USER_MEM_SX1257_DATA_ADDR sx1257_data ;;
           spi_cntrlr_send_recv ;;
           spi_cntrlr_set_tx RFIDR_USER_MEM RFIDR_SPI_WRITE RFIDR_SPI_TXRAM
                             USER_MEM_SX1257_STAT_ADDR 2 ;;
           spi_cntrlr_send_recv ;;
           poll_done RFIDR_ERROR_SPI_WRITE_SX1257_3 ;;
           spi_cntrlr_set_tx RFIDR_USER_MEM RFIDR_SPI_WRITE RFIDR_SPI_TXRAM
                             USER_MEM_SX1257_STAT_ADDR 0 ;;
           spi_cntrlr_send_recv ;;
           spi_cntrlr_set_tx RFIDR_USER_MEM RFIDR_SPI_READ RFIDR_SPI_TXRAM
                             USER_MEM_SX1257_RTRN_ADDR 0 ;;
           spi_cntrlr_send_recv ;;
           s <- get ;;
           (if negb (nth 3 (m_rx_data_spi s) 0 =? sx1257_data)
            then return_ (A := unit) RFIDR_ERROR_SPI_WRITE_SX1257_4
            else return_ RFIDR_SUCCESS) ;;
           ret (u8 (loop_try_outer + 1)))
        0 ;;
      ret RFIDR_ERROR_SPI_WRITE_SX1257_5).

(** The byte read comes back through the pointer, which is left alone
    when the bridge times out. *)
Definition spi_cntrlr_read_sx1257_robust (sx1257_addr : Z)
  : B (rfidr_error_t * option Z) :=
  fun s0 =>
    let sx1257_addr := u8 sx1257_addr in
    let sx1257_addr_masked_read := Z.land sx1257_addr 127 in
    match
      (spi_cntrlr_set_tx RFIDR_USER_MEM RFIDR_SPI_WRITE RFIDR_SPI_TXRAM
                         USER_MEM_SX1257_ADDR_ADDR sx1257_addr_masked_read ;;
       spi_cntrlr_send_recv ;;
       spi_cntrlr_set_tx RFIDR_USER_MEM RFIDR_SPI_WRITE RFIDR_SPI_TXRAM
                         USER_MEM_SX1257_DATA_ADDR 0 ;;
       spi_cntrlr_send_recv ;;
       spi_cntrlr_set_tx RFIDR_USER_MEM RFIDR_SPI_WRITE RFIDR_SPI_TXRAM
                         USER_MEM_SX1257_STAT_ADDR 2 ;;
       spi_cntrlr_send_recv ;;
       poll_done RFIDR_ERROR_SPI_WRITE_SX1257_3 ;;
       spi_cntrlr_set_tx RFIDR_USER_MEM RFIDR_SPI_WRITE RFIDR_SPI_TXRAM
                         USER_MEM_SX1257_STAT_ADDR 0 ;;
       spi_cntrlr_send_recv ;;
       spi_cntrlr_set_tx RFIDR_USER_MEM RFIDR_SPI_READ RFIDR_SPI_TXRAM
                         USER_MEM_SX1257_RTRN_ADDR 0 ;;
       spi_cntrlr_send_recv ;;
       s <- get ;;
       ret (RFIDR_SUCCESS, Some (nth 3 (m_rx_data_spi s) 0))) s0
    with
    | (Return rc, s') => (Normal (rc, None), s')
    | r => r
    end.

End Controller.

Definition exec {A : Type} (c : B A) (s : bus) : bus := snd (c s).
Definition result {A : Type} (c : B A) (s : bus) : outcome A := fst (c s).

(** The buffers clocked out between [s] and [s'], earliest first. *)
Definition sent (s s' : bus) : list (list Z) :=
  rev (firstn (length (transfers s') - length (transfers s)) (transfers s')).

End Spi.

(** What a packet carries of the request it was made for: the memory,
    the write flag (a waveform memory packet has none), the RX/TX flag (a
    radio memory packet alone has one), the address cut to the width of
    the memory, and the data byte. *)
Definition addr_bits (spi_mem : spi_mem_t) : Z :=
  match spi_mem with
  | RFIDR_WVFM_MEM => 13
  | RFIDR_RDIO_MEM => 9
  | RFIDR_TXCN_MEM => 10
  | RFIDR_USER_MEM => 3
  end.

Definition carried (spi_mem : spi_mem_t) (wr : spi_wr_t)
           (rxntx : spi_rxntx_ram_t) (addr data : Z)
  : spi_mem_t * Z * Z * Z * Z :=
  (spi_mem,
   match spi_mem with RFIDR_WVFM_MEM => 0 | _ => is_write wr end,
   match spi_mem with RFIDR_RDIO_MEM => is_rxram rxntx | _ => 0 end,
   addr mod 2 ^ addr_bits spi_mem,
   data mod 256).

(** The memory is one bit of four. *)
Definition mem_select (spi_mem : spi_mem_t) : Z :=
  match spi_mem with
  | RFIDR_WVFM_MEM => 8
  | RFIDR_RDIO_MEM => 4
  | RFIDR_TXCN_MEM => 2
  | RFIDR_USER_MEM => 1
  end.

(** The 32 bits on the wire, first byte highest: the write flag is bit
    31, the memory bits 30 to 27, the RX/TX flag bit 26, the address
    starts at bit 17 and the data at bit 9. *)
Definition packet_word (f : spi_mem_t * Z * Z * Z * Z) : Z :=
  let '(spi_mem, w, r, a, d) := f in
  w * 2 ^ 31 + mem_select spi_mem * 2 ^ 27 + r * 2 ^ 26 + a * 2 ^ 17
  + d * 2 ^ 9.

(** The packets of the bridge functions. *)
Definition user_write (addr data : Z) : list Z :=
  tx_packet RFIDR_USER_MEM RFIDR_SPI_WRITE RFIDR_SPI_TXRAM addr data.
Definition user_read (addr : Z) : list Z :=
  tx_packet RFIDR_USER_MEM RFIDR_SPI_READ RFIDR_SPI_TXRAM addr 0.

(** What spi_cntrlr_write_sx1257_robust clocks out when nothing stops it,
    the first poll taking [k1] reads of the status and the second [k2]. *)
Definition write_script (sx1257_addr sx1257_data : Z) (k1 k2 : nat)
  : list (list Z) :=
  [user_read 2; user_write 4 (Z.land (u8 sx1257_addr) 127 + 128);
   user_write 5 sx1257_data; user_write 2 2]
  ++ repeat (user_read 2) k1
  ++ [user_write 2 0; user_write 4 (Z.land (u8 sx1257_addr) 127);
      user_write 5 sx1257_data; user_write 2 2]
  ++ repeat (user_read 2) k2
  ++ [user_write 2 0; user_read 5].

(** And spi_cntrlr_read_sx1257_robust. *)
Definition read_script (sx1257_addr : Z) (k : nat) : list (list Z) :=
  [user_write 4 (Z.land (u8 sx1257_addr) 127); user_write 5 0; user_write 2 2]
  ++ repeat (user_read 2) k
  ++ [user_write 2 0; user_read 5].

(** Bit 5 of the byte that the [n]-th transfer brings back. *)
Definition done_bit (spi_cntrlr_tx_rx : nat -> list Z -> list Z) (n : nat)
           (tx : list Z) : bool :=
  Z.land (Z.shiftr (u8 (nth 3 (spi_cntrlr_tx_rx n tx) 0)) 5) 1 =? 1.

(** A poll ends at its [k]-th read: the reads before it find the bit
    clear and this one finds it set. *)
Definition ends_at (seen : nat -> bool) (k : nat) : Prop :=
  (forall j, (j + 1 < k)%nat -> seen j = false) /\ seen (k - 1)%nat = true.

(** A poll gives up: its four reads find the bit clear. *)
Definition gives_up (seen : nat -> bool) : Prop :=
  forall j, (j < 4)%nat -> seen j = false.


(** ** The TX offsets in the user memory of the FPGA (rfidr_user.c) *)

Module User.

Import Spi.
Local Open Scope spi_scope.

Section Offsets.

Variable spi_cntrlr_tx_rx : nat -> list Z -> list Z.

Definition set_tx_sdm_offset (offset : Z) : B rfidr_error_t :=
  fn (let offset := u8 offset in
      let recovery_byte := 0 in
      spi_cntrlr_set_tx RFIDR_USER_MEM RFIDR_SPI_READ RFIDR_SPI_TXRAM 7 0 ;;
      spi_cntrlr_send_recv spi_cntrlr_tx_rx ;;
      r <- spi_cntrlr_read_rx ;;
      let recovery_byte := snd r in
      let recovery_byte := u8 (Z.land recovery_byte 0x0F) in
      let recovery_byte :=
        u8 (Z.lor recovery_byte (Z.land (Z.shiftl offset 4) 0xF0)) in
      spi_cntrlr_set_tx RFIDR_USER_MEM RFIDR_SPI_WRITE RFIDR_SPI_TXRAM 7
                        recovery_byte ;;
      spi_cntrlr_send_recv spi_cntrlr_tx_rx ;;
      spi_cntrlr_set_tx RFIDR_USER_MEM RFIDR_SPI_READ RFIDR_SPI_TXRAM 7 0 ;;
      spi_cntrlr_send_recv spi_cntrlr_tx_rx ;;
      r <- spi_cntrlr_read_rx ;;
      let recovery_byte := snd r in
      (if Z.land (Z.shiftr recovery_byte 4) 0x0F =? offset
       then return_ (A := unit) RFIDR_SUCCESS
       else return_ RFIDR_ERROR_USER_MEM) ;;
      return_ RFIDR_SUCCESS).

Definition set_tx_zgn_offset (offset : Z) : B rfidr_error_t :=
  fn (let offset := u8 offset in
      let recovery_byte := 0 in
      spi_cntrlr_set_tx RFIDR_USER_MEM RFIDR_SPI_READ RFIDR_SPI_TXRAM 7 0 ;;
      spi_cntrlr_send_recv spi_cntrlr_tx_rx ;;
      r <- spi_cntrlr_read_rx ;;
      let recovery_byte := snd r in
      let recovery_byte := u8 (Z.land recovery_byte 0xF0) in
      let recovery_byte :=
        u8 (Z.lor recovery_byte (Z.land (Z.shiftl offset 0) 0x0F)) in
      spi_cntrlr_set_tx RFIDR_USER_MEM RFIDR_SPI_WRITE RFIDR_SPI_TXRAM 7
                        recovery_byte ;;
      spi_cntrlr_send_recv spi_cntrlr_tx_rx ;;
      spi_cntrlr_set_tx RFIDR_USER_MEM RFIDR_SPI_READ RFIDR_SPI_TXRAM 7 0 ;;
      spi_cntrlr_send_recv spi_cntrlr_tx_rx ;;
      r <- spi_cntrlr_read_rx ;;
      let recovery_byte := snd r in
      (if Z.land (Z.shiftr recovery_byte 0) 0x0F =? offset
       then return_ (A := unit) RFIDR_SUCCESS
       else return_ RFIDR_ERROR_USER_MEM) ;;
      return_ RFIDR_SUCCESS).

End Offsets.

End User.

(** The byte that the [n]-th transfer brings back. *)
Definition brought_back (spi_cntrlr_tx_rx : nat -> list Z -> list Z) (n : nat)
           (tx : list Z) : Z :=
  u8 (nth 3 (spi_cntrlr_tx_rx n tx) 0).


(** ** What the SX1257 has been told *)

(** The register writes of a trace, earliest first. *)
Definition sx1257_writes (tr : list hw_op) : list (Z * Z) :=
  flat_map (fun e =>
              match e with
              | Ev_spi_cntrlr_write_sx1257_robust addr data => [(addr, data)]
              | _ => []
              end)
           (rev tr).

(** The value written last to a register. *)
Definition last_write (addr : Z) (tr : list hw_op) : option Z :=
  match find (fun e =>
                match e with
                | Ev_spi_cntrlr_write_sx1257_robust a _ => a =? addr
                | _ => false
                end) tr with
  | Some (Ev_spi_cntrlr_write_sx1257_robust _ data) => Some data
  | _ => None
  end.

(** The receive registers 1, 2, 3 and the transmit registers 4, 5, 6 hold
    the tuning word of [slot]. *)
Definition tuned_to (slot : Z) (tr : list hw_op) : Prop :=
  exists b2 b1 b0,
    be24 b2 b1 b0 = sx1257_frequency_decode slot
    /\ last_write 1 tr = Some b2 /\ last_write 2 tr = Some b1
    /\ last_write 3 tr = Some b0 /\ last_write 4 tr = Some b2
    /\ last_write 5 tr = Some b1 /\ last_write 6 tr = Some b0.


(** ** The gain button (rfidr_gpio.c) *)

(** What rfidr_pwr_togl_event_handler does to the two gain state
    variables when the reader is not in TESTING_DTC, and the byte it hands
    to set_sx1257_lna_gain. *)
Definition pwr_togl_gain (state : Z * Z) : Z * Z * Z :=
  let '(m_sx1257_lna_gain_state, m_sx1257_bba_gain_state) := state in
  let m_sx1257_bba_gain_state := u8 (m_sx1257_bba_gain_state - 1) in
  let m_sx1257_bba_gain_state :=
    if m_sx1257_bba_gain_state =? 0 then 4 else m_sx1257_bba_gain_state in
  let m_sx1257_lna_gain_state :=
    if Z.land m_sx1257_bba_gain_state 1 =? 0 then
      let m_sx1257_lna_gain_state := u8 (m_sx1257_lna_gain_state - 1) in
      if m_sx1257_lna_gain_state =? 0 then 6 else m_sx1257_lna_gain_state
    else m_sx1257_lna_gain_state in
  let sx1257_lna_gain :=
    u8 (Z.land (Z.shiftl m_sx1257_lna_gain_state 5
                + Z.land m_sx1257_bba_gain_state 1 * 10 + 20) 255) in
  (m_sx1257_lna_gain_state, m_sx1257_bba_gain_state, sx1257_lna_gain).

(** The button pressed [n] times: the gain bytes in the order they were
    set, and the state variables left. *)
Fixpoint presses (n : nat) (state : Z * Z) : list Z * (Z * Z) :=
  match n with
  | O => ([], state)
  | S n' =>
      let '(lna, bba, gain) := pwr_togl_gain state in
      let '(gains, state') := presses n' (lna, bba) in
      (gain :: gains, state')
  end.

(** The check of one state, for all states at once. *)
Definition gain_cycle_ok (lna bba : Z) : bool :=
  let '(lna', bba', gain) := pwr_togl_gain (lna, bba) in
  let '(gains, state) := presses 12 (lna, bba) in
  (1 <=? lna') && (lna' <=? 6) && (1 <=? bba') && (bba' <=? 4)
  && (gain =? 32 * lna' + 10 * (bba' mod 2) + 20)
  && (fst state =? lna) && (snd state =? bba)
  && (length gains =? 12)%nat
  && forallb (fun l =>
                forallb (fun p => existsb (Z.eqb (32 * l + 10 * p + 20)) gains)
                        [0; 1])
             [1; 2; 3; 4; 5; 6].


(** ** The exchanges of search_core and their verdicts *)

(** The two paths of the clock and data recovery circuit. *)
Inductive iq_path : Type := USE_I | USE_Q.

(** The path the FPGA was last told to use, by set_use_i or set_use_q. *)
Fixpoint path_in_use (tr : list hw_op) : option iq_path :=
  match tr with
  | [] => None
  | Ev_set_use_i :: _ => Some USE_I
  | Ev_set_use_q :: _ => Some USE_Q
  | _ :: older => path_in_use older
  end.

(** The verdicts of the exchanges, earliest first: each time the exit
    code of the radio was read (read_radio_exit_code), the path that was
    in use and the code that was read.  A trace keeps the calls latest
    first, and the answer to a call is the one the environment gave at
    its position. *)
Fixpoint exchange_verdicts (env : nat -> hw_op -> Z) (tr : list hw_op)
  : list (option iq_path * Z) :=
  match tr with
  | [] => []
  | e :: older =>
      match e with
      | Ev_read_user_mem 0 =>
          exchange_verdicts env older
          ++ [(path_in_use older, radio_exit_code (env (length older) e))]
      | _ => exchange_verdicts env older
      end
  end.

(** The exchange of a path has succeeded among [verdicts]: the exit code
    0 was read while the path was in use. *)
Definition exchange_succeeded (path : iq_path)
           (verdicts : list (option iq_path * Z)) : Prop :=
  In (Some path, 0) verdicts.

(** What the verdict of a search looks at: the verdicts so far, the path
    in use and the two pass flags of the result structure. *)
Definition on_verdict (env : nat -> hw_op -> Z) (p : return_ptr)
    (P : list (option iq_path * Z) -> option iq_path -> bool -> bool -> Prop)
  : world -> Prop :=
  fun w => P (exchange_verdicts env (w_trace w)) (path_in_use (w_trace w))
             (i_pass (load_return p w)) (q_pass (load_return p w)).

(** In the course of a search that began with the verdicts [base]: the
    exchanges made since have given the verdicts [new], the path in use
    is [use] (when that matters) and the pass flags are [fi] and
    [fq]. *)
Definition search_stage (env : nat -> hw_op -> Z) (p : return_ptr)
    (base new : list (option iq_path * Z)) (use : option iq_path)
    (fi fq : bool) : world -> Prop :=
  on_verdict env p
    (fun vs u i q =>
       vs = base ++ new
       /\ match use with Some _ => u = use | None => True end
       /\ i = fi /\ q = fq).

(** The pass flags tell which exchanges of the search have succeeded. *)
Definition flags_follow_the_verdicts (env : nat -> hw_op -> Z)
    (p : return_ptr) (base : list (option iq_path * Z)) : world -> Prop :=
  on_verdict env p
    (fun vs _ i q =>
       exists new,
         vs = base ++ new
         /\ (i = true <-> exchange_succeeded USE_I new)
         /\ (q = true <-> exchange_succeeded USE_Q new)).

(** A peer whose radio reports the exit code 0 up to call number [t0]
    and the exit code 7 from then on, and whose RX RAM reads 1 in every
    byte. *)
Definition env_fails_from (t0 : nat) : nat -> hw_op -> Z :=
  fun t e =>
    match e with
    | Ev_read_user_mem _ => if (t <? t0)%nat then 0 else 255
    | Ev_spi_rxram_read _ => 1
    | _ => 0
    end.

(** * Properties *)

(** ** Frequency hopping (rfidr_sx1257.c) *)

Lemma hop_slot_range (s : Z) : 0 <= s < 25 -> 0 <= hop_slot s < 25.
Proof.
  intros H. unfold hop_slot, u8.
  assert (0 <= (s + 7) mod 25 < 25) by (apply Z.mod_pos_bound; lia).
  rewrite Z.mod_small by lia. lia.
Qed.

(** ** Reasoning about statements *)

Lemma exec_bind {A B : Type} (c : M A) (f : A -> M B) (w : world) :
  exec (bind c f) w =
  match result c w with
  | Normal a => exec (f a) (exec c w)
  | _ => exec c w
  end.
Proof.
  unfold exec, result, bind. destruct (c w) as [[a| rc | |] w']; reflexivity.
Qed.

Lemma result_bind {A B : Type} (c : M A) (f : A -> M B) (w : world) :
  result (bind c f) w =
  match result c w with
  | Normal a => result (f a) (exec c w)
  | Return rc => Return rc
  | Reset => Reset
  | Hang => Hang
  end.
Proof.
  unfold exec, result, bind. destruct (c w) as [[a| rc | |] w']; reflexivity.
Qed.

Lemma exec_fn (body : M rfidr_error_t) (w : world) :
  exec (fn body) w = exec body w.
Proof.
  unfold exec, fn. destruct (body w) as [[a| rc | |] w']; reflexivity.
Qed.

Section Preserves.

Context (R : world -> world -> Prop) {HR : PreOrder R}.

Lemma preserves_ret {A : Type} (a : A) : preserves R (ret a).
Proof. intro w. apply HR. Qed.

Lemma preserves_return {A : Type} (rc : rfidr_error_t) :
  preserves R (@return_ A rc).
Proof. intro w. apply HR. Qed.

Lemma preserves_reset {A : Type} : preserves R (@system_reset A).
Proof. intro w. apply HR. Qed.

Lemma preserves_hang {A : Type} : preserves R (@hang A).
Proof. intro w. apply HR. Qed.

Lemma preserves_get : preserves R get.
Proof. intro w. apply HR. Qed.

Lemma preserves_bind {A B : Type} (c : M A) (f : A -> M B) :
  preserves R c -> (forall a, preserves R (f a)) -> preserves R (bind c f).
Proof.
  intros Hc Hf w. rewrite exec_bind.
  destruct (result c w); try apply Hc.
  transitivity (exec c w); [apply Hc | apply Hf].
Qed.

Lemma preserves_fn (body : M rfidr_error_t) :
  preserves R body -> preserves R (fn body).
Proof. intros H w. rewrite exec_fn. apply H. Qed.

Lemma preserves_for_loop (n : nat) (body : Z -> M bool) :
  (forall i, preserves R (body i)) -> forall i, preserves R (for_loop n i body).
Proof.
  intros Hb. induction n as [| n IH]; intros i; simpl.
  - apply preserves_ret.
  - apply preserves_bind; [apply Hb |].
    intros [|]; [apply preserves_ret | apply IH].
Qed.

Lemma preserves_query_rounds (fuel : nat) (limit : Z) (v : Z -> Z)
      (round : Z -> M unit) :
  (forall i, preserves R (round i)) ->
  forall i, preserves R (query_rounds fuel limit v round i).
Proof.
  intros Hb. induction fuel as [| n IH]; intros i; simpl.
  - apply preserves_hang.
  - destruct (_ || _).
    + apply preserves_bind; [apply Hb | intros _; apply IH].
    + apply preserves_ret.
Qed.

Lemma preserves_APP_ERROR_CHECK (code : Z) : preserves R (APP_ERROR_CHECK code).
Proof.
  unfold APP_ERROR_CHECK. destruct (_ =? _);
    [apply preserves_ret | apply preserves_reset].
Qed.

End Preserves.

#[export] Instance keeps_preorder {B : Type} (proj : world -> B) :
  PreOrder (keeps proj).
Proof.
  split.
  - intro w. reflexivity.
  - intros a b c H1 H2. unfold keeps in *. congruence.
Qed.

#[export] Instance stable_preorder (I : world -> Prop) : PreOrder (stable I).
Proof.
  split.
  - intros w H. exact H.
  - intros a b c H1 H2 H. apply H2, H1, H.
Qed.

Create HintDb pres discriminated.

Ltac head_of t :=
  lazymatch t with
  | ?f _ => head_of f
  | _ => t
  end.

(** Walks a statement down to its calls, state updates and recursive
    calls; [leaf] closes the first two, the hint database and the
    hypotheses the last.  [site] is tried first on every statement: it
    takes the groups of statements that only keep the relation together. *)
Ltac pres_walk site leaf :=
  cbv zeta beta;
  first
    [ site
    | lazymatch goal with
      | |- preserves ?R (bind _ _) =>
          apply (preserves_bind R);
          [pres_walk site leaf | intro; pres_walk site leaf]
      | |- preserves ?R (ret _) => apply (preserves_ret R)
      | |- preserves ?R (return_ _) => apply (preserves_return R)
      | |- preserves ?R system_reset => apply (preserves_reset R)
      | |- preserves ?R hang => apply (preserves_hang R)
      | |- preserves ?R get => apply (preserves_get R)
      | |- preserves ?R (fn _) => apply (preserves_fn R); pres_walk site leaf
      | |- preserves ?R (for_loop _ _ _) =>
          apply (preserves_for_loop R); intro; pres_walk site leaf
      | |- preserves ?R (query_rounds _ _ _ _ _) =>
          apply (preserves_query_rounds R); intro; pres_walk site leaf
      | |- preserves ?R (APP_ERROR_CHECK _) =>
          apply (preserves_APP_ERROR_CHECK R)
      | |- preserves _ (if ?b then _ else _) =>
          destruct b; pres_walk site leaf
      | |- preserves _ (match ?x with _ => _ end) =>
          destruct x; pres_walk site leaf
      | |- preserves _ (modify _) => leaf
      | |- preserves _ (emit _) => leaf
      | |- preserves _ (ask _ _) => leaf
      | |- preserves _ ?c =>
          first [ solve [auto with pres]
                | let h := head_of c in unfold h; pres_walk site leaf ]
      end ].

(** No such group. *)
Ltac no_site := idtac; fail.

Ltac pres_with leaf := pres_walk no_site leaf.

(** Leaves of a statement that does not touch the component at all. *)
Ltac untouched := intro; reflexivity.

Lemma hop_sx1257_frequency_slot (env : nat -> hw_op -> Z) (w : world) :
  m_sx1257_frequency_slot (exec (hop_sx1257_frequency env) w)
  = hop_slot (m_sx1257_frequency_slot w).
Proof.
  unfold hop_sx1257_frequency.
  rewrite exec_bind; cbn [result exec emit modify fst snd].
  rewrite exec_bind; cbn [result exec get fst snd].
  rewrite exec_bind; cbn [result exec modify fst snd].
  match goal with
  | |- m_sx1257_frequency_slot (exec ?c ?w1) = _ =>
      assert (H : preserves (keeps m_sx1257_frequency_slot) c)
        by pres_with untouched;
      rewrite (H w1)
  end.
  reflexivity.
Qed.

Lemma hops_slot (env : nat -> hw_op -> Z) (n : nat) (w : world) :
  m_sx1257_frequency_slot (hops env n w)
  = Nat.iter n hop_slot (m_sx1257_frequency_slot w).
Proof.
  induction n as [| n IH]; simpl; [reflexivity |].
  rewrite hop_sx1257_frequency_slot, IH. reflexivity.
Qed.

Lemma in_band_cases (s : Z) :
  0 <= s < 25 -> In s (map Z.of_nat (seq 0 25)).
Proof.
  intros H. apply in_map_iff. exists (Z.to_nat s). split; [lia |].
  apply in_seq. lia.
Qed.

(** C8.  From every start slot of the band, 25 hops of
    hop_sx1257_frequency come back to the start slot and not earlier, the
    25 slots met on the way are pairwise different, and every slot of the
    band is met: the hop sequence has full period, whatever the SPI bridge
    answers. *)
Theorem hop_sequence_full_period :
  forall (env : nat -> hw_op -> Z) (w : world),
    0 <= m_sx1257_frequency_slot w < 25 ->
    m_sx1257_frequency_slot (hops env 25 w) = m_sx1257_frequency_slot w
    /\ (forall k, (0 < k < 25)%nat ->
          m_sx1257_frequency_slot (hops env k w) <> m_sx1257_frequency_slot w)
    /\ NoDup (map (fun k => m_sx1257_frequency_slot (hops env k w)) (seq 0 25))
    /\ (forall t, 0 <= t < 25 ->
          exists k, (k < 25)%nat /\ m_sx1257_frequency_slot (hops env k w) = t).
Proof.
  intros env w Hs.
  assert (Hmap : map (fun k => m_sx1257_frequency_slot (hops env k w)) (seq 0 25)
                 = map (fun k => Nat.iter k hop_slot (m_sx1257_frequency_slot w))
                       (seq 0 25))
    by (apply map_ext; intro; apply hops_slot).
  rewrite Hmap.
  assert (Hk : forall k, m_sx1257_frequency_slot (hops env k w)
                         = Nat.iter k hop_slot (m_sx1257_frequency_slot w))
    by (intro; apply hops_slot).
  apply in_band_cases in Hs.
  set (s := m_sx1257_frequency_slot w) in *. clearbody s. clear Hmap.
  assert (Hall :
            Nat.iter 25 hop_slot s = s
            /\ forallb (fun k => negb (Nat.iter k hop_slot s =? s)) (seq 1 24) = true
            /\ NoDup (map (fun k => Nat.iter k hop_slot s) (seq 0 25))
            /\ forallb (fun t => existsb (fun k => Nat.iter k hop_slot s =? Z.of_nat t)
                                         (seq 0 25)) (seq 0 25) = true).
  { simpl in Hs.
    repeat (destruct Hs as [<- | Hs];
            [ split; [reflexivity |]; split; [reflexivity |];
              split; [| reflexivity];
              vm_compute; repeat constructor; simpl; intuition discriminate |]).
    contradiction. }
  destruct Hall as (H25 & Hne & Hnd & Hcov).
  repeat split.
  - rewrite Hk. exact H25.
  - intros k Hlt. rewrite Hk. rewrite forallb_forall in Hne.
    specialize (Hne k). rewrite in_seq in Hne.
    assert (Hb : negb (Nat.iter k hop_slot s =? s) = true) by (apply Hne; lia).
    intros Heq. rewrite Heq, Z.eqb_refl in Hb. discriminate.
  - exact Hnd.
  - intros t Ht. rewrite forallb_forall in Hcov.
    specialize (Hcov (Z.to_nat t)). rewrite in_seq in Hcov.
    assert (Hex : existsb (fun k => Nat.iter k hop_slot s =? Z.of_nat (Z.to_nat t))
                          (seq 0 25) = true) by (apply Hcov; lia).
    apply existsb_exists in Hex. destruct Hex as (k & Hin & Hkeq).
    exists k. rewrite in_seq in Hin. split; [lia |].
    rewrite Hk. apply Z.eqb_eq in Hkeq. lia.
Qed.

Lemma hop_sequence_full_period_witness :
  m_sx1257_frequency_slot (hops env_ok 25 world_init)
  = m_sx1257_frequency_slot world_init.
Proof.
  apply (hop_sequence_full_period env_ok world_init).
  simpl. lia.
Defined.

(** ** Requests from the application (write_rfidr_state_next) *)

(** For every request but RESET_SX1257_AND_FPGA and the two idle states,
    the pending state becomes the request when the current state is a legal
    source for it and the current state otherwise. *)
Lemma write_rfidr_state_next_filters (request : rfidr_state_t) (w : world) :
  request <> RESET_SX1257_AND_FPGA ->
  request <> IDLE_UNCONFIGURED ->
  request <> IDLE_CONFIGURED ->
  m_rfidr_state_next (snd (write_rfidr_state_next request w))
  = if legal_source request (m_rfidr_state w) then request
    else m_rfidr_state w.
Proof.
  intros H1 H2 H3.
  destruct request; try congruence;
    unfold write_rfidr_state_next, legal_source; cbn [snd];
    destruct (m_rfidr_state w) eqn:E; reflexivity.
Qed.

(** C1.  A RESET_SX1257_AND_FPGA request is accepted from every current
    state: the last operand of the test of its case is the constant
    TRACK_LAST_INV_TAG, which is not zero.  In particular, while the
    current state is INVENTORYING, which is not a legal source state of the
    request, the pending state becomes RESET_SX1257_AND_FPGA instead of
    staying INVENTORYING. *)
Theorem reset_request_accepted_while_inventorying :
  legal_source RESET_SX1257_AND_FPGA INVENTORYING = false
  /\ m_rfidr_state (world_in INVENTORYING) = INVENTORYING
  /\ m_rfidr_state_next (world_in INVENTORYING) = INVENTORYING
  /\ m_rfidr_state_next
       (snd (write_rfidr_state_next RESET_SX1257_AND_FPGA
                                    (world_in INVENTORYING)))
     = RESET_SX1257_AND_FPGA
  /\ (forall w : world,
        m_rfidr_state_next
          (snd (write_rfidr_state_next RESET_SX1257_AND_FPGA w))
        = RESET_SX1257_AND_FPGA).
Proof.
  repeat split.
  intros w. unfold write_rfidr_state_next. cbn [snd].
  change (c_true (rfidr_state_value TRACK_LAST_INV_TAG)) with true.
  rewrite orb_true_r. reflexivity.
Qed.

(** ** Statements that always fall through *)

Lemma total_ret {A : Type} (a : A) : total (ret a).
Proof. intro w. exists a. reflexivity. Qed.

Lemma total_get : total get.
Proof. intro w. exists w. reflexivity. Qed.

Lemma total_modify (f : world -> world) : total (modify f).
Proof. intro w. exists tt. reflexivity. Qed.

Lemma total_emit (e : hw_op) : total (emit e).
Proof. intro w. exists tt. reflexivity. Qed.

Lemma total_ask (env : nat -> hw_op -> Z) (e : hw_op) : total (ask env e).
Proof. intro w. eexists. reflexivity. Qed.

Lemma total_bind {A B : Type} (c : M A) (f : A -> M B) :
  total c -> (forall a, total (f a)) -> total (bind c f).
Proof.
  intros Hc Hf w. destruct (Hc w) as [a Ha].
  rewrite result_bind, Ha. apply Hf.
Qed.

Lemma exec_bind_total {A B : Type} (c : M A) (f : A -> M B) (w : world) :
  total c ->
  exists a, result c w = Normal a
            /\ exec (bind c f) w = exec (f a) (exec c w)
            /\ result (bind c f) w = result (f a) (exec c w).
Proof.
  intros Hc. destruct (Hc w) as [a Ha]. exists a.
  rewrite exec_bind, result_bind, Ha. auto.
Qed.

Create HintDb total discriminated.

Ltac total_tac :=
  cbv zeta beta;
  lazymatch goal with
  | |- total (bind _ _) => apply total_bind; [total_tac | intro; total_tac]
  | |- total (ret _) => apply total_ret
  | |- total get => apply total_get
  | |- total (modify _) => apply total_modify
  | |- total (emit _) => apply total_emit
  | |- total (ask _ _) => apply total_ask
  | |- total (if ?b then _ else _) => destruct b; total_tac
  | |- total (match ?x with _ => _ end) => destruct x; total_tac
  | |- total ?c =>
      first [ solve [auto with total]
            | let h := head_of c in unfold h; total_tac ]
  end.


Lemma total_rfidr_disable_pa : total rfidr_disable_pa.
Proof. total_tac. Qed.

Lemma total_rfidr_enable_led1 : total rfidr_enable_led1.
Proof. total_tac. Qed.

Lemma total_rfidr_disable_led1 : total rfidr_disable_led1.
Proof. total_tac. Qed.

Lemma total_send_full_segments (env : nat -> hw_op -> Z) (s seg : string)
      (counter : Z) : total (send_full_segments env s seg counter).
Proof.
  revert seg counter. induction s as [| c s IH]; intros seg counter; simpl.
  - apply total_ret.
  - destruct (_ =? _); [| apply IH].
    apply total_bind; [total_tac | intro].
    apply total_bind; [total_tac | intro; apply IH].
Qed.
#[export] Hint Resolve total_send_full_segments : total.

Lemma total_rfidr_error_complete_message_send (env : nat -> hw_op -> Z)
      (s : string) : total (rfidr_error_complete_message_send env s).
Proof. total_tac. Qed.
#[export] Hint Resolve total_rfidr_disable_pa total_rfidr_enable_led1
  total_rfidr_disable_led1 total_rfidr_error_complete_message_send : total.

(** ** The shared error handler *)

#[export] Instance count_le_preorder (p : hw_op -> bool) : PreOrder (count_le p).
Proof.
  split.
  - intro w. unfold count_le. lia.
  - intros a b c H1 H2. unfold count_le in *. lia.
Qed.

(** Leaves under [count_le]: a call adds an event, an update of another
    component leaves the trace alone. *)
Ltac grows :=
  intro; unfold count_le, count_events, exec; cbn;
  repeat match goal with
         | |- context [if ?b then _ else _] => destruct b
         end;
  simpl; lia.

Section Error_handler.

Variable env : nat -> hw_op -> Z.

Lemma message_send_counts (p : hw_op -> bool) (s : string) :
  preserves (count_le p) (rfidr_error_complete_message_send env s).
Proof.
  assert (Hseg : forall s seg c,
             preserves (count_le p) (send_full_segments env s seg c)).
  { clear s. induction s as [| ch s IH]; intros seg c; simpl.
    - pres_with grows.
    - pres_with grows. }
  unfold rfidr_error_complete_message_send. pres_with grows.
Qed.


Lemma message_send_keeps {B : Type} (proj : world -> B) (s : string) :
  (forall e w, proj (set_w_trace e w) = proj w) ->
  (forall n b w,
      proj (set_m_num_failed_attempts n (set_m_failed_attempt_flag b w))
      = proj w) ->
  preserves (keeps proj) (rfidr_error_complete_message_send env s).
Proof.
  intros Ht Hf.
  assert (Hseg : forall s seg c,
             preserves (keeps proj) (send_full_segments env s seg c)).
  { clear s. induction s as [| ch s IH]; intros seg c; simpl.
    - pres_with ltac:(intro; unfold keeps, exec; cbn; cbv beta delta [record]; auto).
    - pres_with ltac:(intro; unfold keeps, exec; cbn; cbv beta delta [record]; auto). }
  unfold rfidr_error_complete_message_send.
  pres_with ltac:(intro; unfold keeps, exec; cbn; cbv beta delta [record]; auto).
Qed.


End Error_handler.

Lemma exec_emit (e : hw_op) (w : world) :
  exec (emit e) w = record e w.
Proof. reflexivity. Qed.

Lemma exec_modify (f : world -> world) (w : world) : exec (modify f) w = f w.
Proof. reflexivity. Qed.

Lemma exec_get (w : world) : exec get w = w.
Proof. reflexivity. Qed.

Lemma result_get_inv (w a : world) : result get w = Normal a -> a = w.
Proof. unfold result, get; simpl. congruence. Qed.

(** Steps over every leading statement that always falls through. *)
Ltac peel_all :=
  repeat match goal with
         | |- context [exec (bind ?c ?f) ?w0] =>
             let a := fresh "a" in
             let Hres := fresh "Hres" in
             let Hex := fresh "Hex" in
             let Hr := fresh "Hr" in
             destruct (exec_bind_total c f w0) as (a & Hres & Hex & Hr);
             [ solve [total_tac]
             | rewrite Hex; try rewrite Hr; clear Hex Hr; cbv beta;
               try (apply result_get_inv in Hres; rewrite ?exec_get in *;
                    subst a) ]
         end.

Section Error_handler_steps.

Variable env : nat -> hw_op -> Z.

(** handle_error, step by step: marker, PA off, message, flags, LED and
    idle state, state indication. *)
Lemma handle_error_steps (outer inner : string) (rc : rfidr_error_t)
      (w : world) :
  let w1 :=
    exec (rfidr_error_complete_message_send env (error_message outer inner rc))
         (exec rfidr_disable_pa
               (exec (emit (Ev_enter_handle_error outer inner rc)) w)) in
  let w2 := set_m_dtc_state_flag false (set_m_track_tag_state_flag false w1) in
  let w3 :=
    if state_eq (m_rfidr_state w2) IDLE_UNCONFIGURED
       || state_eq (m_rfidr_state w2) INITIALIZING
    then set_m_rfidr_state IDLE_UNCONFIGURED
           (set_m_rfidr_state_next IDLE_UNCONFIGURED
              (exec rfidr_disable_led1 w2))
    else set_m_rfidr_state IDLE_CONFIGURED
           (set_m_rfidr_state_next IDLE_CONFIGURED
              (exec rfidr_enable_led1 w2)) in
  exec (handle_error env outer inner rc) w
  = exec (rfidr_state_bookend_function env) w3
  /\ result (handle_error env outer inner rc) w
     = result (rfidr_state_bookend_function env) w3.
Proof.
  cbv zeta. unfold handle_error. cbv zeta.
  fold (error_message outer inner rc).
  peel_all. rewrite !exec_modify.
  match goal with |- context [if ?b then _ else _] => destruct b end;
    peel_all; rewrite !exec_modify; split; reflexivity.
Qed.


Lemma bookend_returns (w : world) :
  state_indication_served env ->
  result (rfidr_state_bookend_function env) w = Normal tt.
Proof.
  intros Hs. unfold rfidr_state_bookend_function, decode_rfidr_state.
  unfold result, bind, modify, get, ret, ask, spin_until. cbn.
  match goal with
  | |- context [env ?t (Ev_ble_rfidrs_read_state_send ?c)] =>
      destruct (Hs t) as [_ Hc]; destruct (Hc c) as [-> | ->]
  end; cbn;
    match goal with
    | |- context [env ?t Ev_wait_received_hvc_read_state] =>
        destruct (Hs t) as [-> _]
    end; reflexivity.
Qed.

End Error_handler_steps.



(** ** Following a statement to its end *)

Lemma wp_bind {A B : Type} (c : M A) (f : A -> M B)
      (Q : outcome B -> world -> Prop) (w : world) :
  wp c (then_ f Q) w -> wp (bind c f) Q w.
Proof.
  unfold wp, then_, result, exec, bind.
  destruct (c w) as [[a | rc | |] w']; auto.
Qed.

Lemma wp_fn (body : M rfidr_error_t)
      (Q : outcome rfidr_error_t -> world -> Prop) (w : world) :
  wp body (returning Q) w -> wp (fn body) Q w.
Proof.
  unfold wp, returning, result, exec, fn.
  destruct (body w) as [[a | rc | |] w']; auto.
Qed.

Lemma wp_conseq {A : Type} (c : M A) (Q' Q : outcome A -> world -> Prop)
      (w : world) :
  wp c Q' w -> (forall o w', Q' o w' -> Q o w') -> wp c Q w.
Proof. unfold wp. auto. Qed.

Lemma wp_ret {A : Type} (a : A) (Q : outcome A -> world -> Prop) (w : world) :
  Q (Normal a) w -> wp (ret a) Q w.
Proof. auto. Qed.

Lemma wp_return {A : Type} (rc : rfidr_error_t)
      (Q : outcome A -> world -> Prop) (w : world) :
  Q (Return rc) w -> wp (return_ rc) Q w.
Proof. auto. Qed.

Lemma wp_hang {A : Type} (Q : outcome A -> world -> Prop) (w : world) :
  Q Hang w -> wp hang Q w.
Proof. auto. Qed.

Lemma wp_reset {A : Type} (Q : outcome A -> world -> Prop) (w : world) :
  Q Reset w -> wp system_reset Q w.
Proof. auto. Qed.

Lemma wp_get (Q : outcome world -> world -> Prop) (w : world) :
  Q (Normal w) w -> wp get Q w.
Proof. auto. Qed.

Lemma wp_modify (g : world -> world) (Q : outcome unit -> world -> Prop)
      (w : world) :
  Q (Normal tt) (g w) -> wp (modify g) Q w.
Proof. auto. Qed.

Lemma wp_emit (e : hw_op) (Q : outcome unit -> world -> Prop) (w : world) :
  Q (Normal tt) (record e w) -> wp (emit e) Q w.
Proof. auto. Qed.

Lemma wp_ask (env : nat -> hw_op -> Z) (e : hw_op)
      (Q : outcome Z -> world -> Prop) (w : world) :
  Q (Normal (env (length (w_trace w)) e)) (record e w) -> wp (ask env e) Q w.
Proof. auto. Qed.

(** A loop whose every turn keeps [I]. *)
Lemma wp_for_loop (I : world -> Prop) (Qr : rfidr_error_t -> world -> Prop)
      (Qd : world -> Prop) (body : Z -> M bool) (n : nat) :
  (forall i w, I w -> wp (body i) (post (fun _ => I) Qr Qd) w) ->
  forall i w, I w -> wp (for_loop n i body) (post (fun _ => I) Qr Qd) w.
Proof.
  intros Hb. induction n as [| n IH]; intros i w HI; simpl.
  - exact HI.
  - apply wp_bind. eapply wp_conseq; [apply Hb, HI |].
    intros [[|] | rc | |] w' H; simpl in *; auto.
Qed.

Lemma wp_query_rounds (I : world -> Prop) (Qr : rfidr_error_t -> world -> Prop)
      (Qd : world -> Prop) (limit : Z) (v : Z -> Z) (round : Z -> M unit)
      (fuel : nat) :
  (forall w, I w -> Qd w) ->
  (forall i w, I w -> wp (round i) (post (fun _ => I) Qr Qd) w) ->
  forall i w, I w ->
    wp (query_rounds fuel limit v round i) (post (fun _ => I) Qr Qd) w.
Proof.
  intros Hd Hb. induction fuel as [| n IH]; intros i w HI; simpl.
  - apply Hd, HI.
  - destruct (_ || _); [| exact HI].
    apply wp_bind. eapply wp_conseq; [apply Hb, HI |].
    intros [[] | rc | |] w' H; simpl in *; auto.
Qed.

(** Puts the continuation in front once a statement has ended. *)
Ltac wp_next :=
  lazymatch goal with
  | |- then_ ?f ?Q (Normal ?a) ?w => change (wp (f a) Q w); cbv beta
  | |- then_ ?f ?Q (Return ?rc) ?w => change (Q (Return rc) w); wp_next
  | |- then_ ?f ?Q Reset ?w => change (Q Reset w); wp_next
  | |- then_ ?f ?Q Hang ?w => change (Q Hang w); wp_next
  | |- returning ?Q (Normal ?rc) ?w => change (Q (Normal rc) w); wp_next
  | |- returning ?Q (Return ?rc) ?w => change (Q (Normal rc) w); wp_next
  | |- returning ?Q Reset ?w => change (Q Reset w); wp_next
  | |- returning ?Q Hang ?w => change (Q Hang w); wp_next
  | |- post ?Qn ?Qr ?Qd (Normal ?a) ?w => change (Qn a w); cbv beta
  | |- post ?Qn ?Qr ?Qd (Return ?rc) ?w => change (Qr rc w); cbv beta
  | |- post ?Qn ?Qr ?Qd Reset ?w => change (Qd w); cbv beta
  | |- post ?Qn ?Qr ?Qd Hang ?w => change (Qd w); cbv beta
  | |- _ => idtac
  end.

Ltac closed_term t :=
  idtac;
  match t with
  | context [?v] => is_var v; fail 1
  | _ => idtac
  end.

(** Decides a test when its value is known. *)
Ltac wp_decide b :=
  closed_term b;
  let b' := eval vm_compute in b in
  change b with b'; cbv iota.

(** One step along a statement.  [on_ask] is run on the answer of a
    collaborator, [known] tries a statement whose behaviour is on record,
    [prune] closes the branches that the hypotheses exclude, [join] sums
    up a statement with several live branches before the run goes on. *)
Ltac wp_branch x prune join :=
  first [ wp_decide x
        | (destruct x eqn:?; try (exfalso; solve [prune])); [ idtac ]
        | join
        | destruct x eqn:? ].

Ltac wp_step on_ask known prune join :=
  cbv zeta;
  first
    [ known
    | lazymatch goal with
      | |- wp (bind _ _) _ _ => apply wp_bind
      | |- wp (ret _) _ _ => apply wp_ret; wp_next
      | |- wp (return_ _) _ _ => apply wp_return; wp_next
      | |- wp hang _ _ => apply wp_hang; wp_next
      | |- wp system_reset _ _ => apply wp_reset; wp_next
      | |- wp get _ _ => apply wp_get; wp_next
      | |- wp (modify _) _ _ => apply wp_modify; wp_next
      | |- wp (emit _) _ _ => apply wp_emit; wp_next
      | |- wp (ask _ _) _ _ => apply wp_ask; on_ask; wp_next
      | |- wp (fn _) _ _ => apply wp_fn
      | |- wp (if ?b then _ else _) _ _ => wp_branch b prune join
      | |- wp (match ?x with _ => _ end) _ _ => wp_branch x prune join
      | |- wp (for_loop ?n ?i ?body) _ _ =>
          let n' := eval cbv in n in
          lazymatch n' with
          | S ?m =>
              change (for_loop n i body)
                with (bind (body i)
                        (fun b => if b then ret tt
                                  else for_loop m (i + 1) body))
          | O => change (for_loop n i body) with (@ret unit tt)
          end
      | |- wp ?c _ _ => let h := head_of c in unfold h
      end ].

(** Simplification leaves the machine arithmetic folded. *)
Arguments u8 : simpl never.
Arguments u16 : simpl never.
Arguments u32 : simpl never.
Arguments s32 : simpl never.
Arguments radio_exit_code : simpl never.

(** Turns the tests met on the way into facts about the numbers. *)
Ltac bool_facts :=
  repeat match goal with
         | H : _ && _ = true |- _ => apply andb_true_iff in H; destruct H
         | H : _ && _ = false |- _ => apply andb_false_iff in H; destruct H
         | H : _ || _ = true |- _ => apply orb_true_iff in H; destruct H
         | H : _ || _ = false |- _ => apply orb_false_iff in H; destruct H
         | H : negb _ = true |- _ => apply negb_true_iff in H
         | H : negb _ = false |- _ => apply negb_false_iff in H
         | H : (_ =? _) = true |- _ => apply Z.eqb_eq in H
         | H : (_ =? _) = false |- _ => apply Z.eqb_neq in H
         | H : (_ <? _) = true |- _ => apply Z.ltb_lt in H
         | H : (_ <? _) = false |- _ => apply Z.ltb_ge in H
         | H : (_ >? _) = true |- _ => rewrite Z.gtb_ltb in H
         | H : (_ >? _) = false |- _ => rewrite Z.gtb_ltb in H
         | H : (_ >=? _) = true |- _ => rewrite Z.geb_leb in H
         | H : (_ >=? _) = false |- _ => rewrite Z.geb_leb in H
         | H : (_ <=? _) = true |- _ => apply Z.leb_le in H
         | H : (_ <=? _) = false |- _ => apply Z.leb_gt in H
         end.

(** ** Statements that leave the core of the state alone *)

Lemma wp_quiet {A : Type} (c : M A) (Q : outcome A -> world -> Prop)
      (w : world) :
  preserves quiet c ->
  (forall o w', core_view w' = core_view w -> Q o w') ->
  wp c Q w.
Proof. intros Hq H. apply H, Hq. Qed.

Lemma wp_quiet_total {A : Type} (c : M A) (Q : outcome A -> world -> Prop)
      (w : world) :
  total c -> preserves quiet c ->
  (forall a w', core_view w' = core_view w -> Q (Normal a) w') ->
  wp c Q w.
Proof.
  intros Ht Hq H. unfold wp. destruct (Ht w) as [a Ha]. rewrite Ha.
  apply H, Hq.
Qed.

Section Quiet.

Variable env : nat -> hw_op -> Z.

Lemma quiet_send_full_segments (s seg : string) (counter : Z) :
  preserves quiet (send_full_segments env s seg counter).
Proof.
  revert seg counter. induction s as [| ch s IH]; intros seg counter; simpl;
    pres_with untouched.
Qed.
Hint Resolve quiet_send_full_segments : pres.

Lemma quiet_rfidr_error_complete_message_send (s : string) :
  preserves quiet (rfidr_error_complete_message_send env s).
Proof. pres_with untouched. Qed.
Hint Resolve quiet_rfidr_error_complete_message_send : pres.

Lemma quiet_send_short_message (s : string) :
  preserves quiet (send_short_message env s).
Proof. pres_with untouched. Qed.

Lemma quiet_send_log_message (s : string) :
  preserves quiet (send_log_message env s).
Proof. pres_with untouched. Qed.

Lemma quiet_handle_error (outer inner : string) (rc : rfidr_error_t) :
  preserves quiet (handle_error env outer inner rc).
Proof. pres_with untouched. Qed.

Lemma total_send_short_message (s : string) : total (send_short_message env s).
Proof. total_tac. Qed.

Lemma handle_error_returns (outer inner : string) (rc : rfidr_error_t) :
  state_indication_served env -> total (handle_error env outer inner rc).
Proof.
  intros Hs w. exists tt.
  destruct (handle_error_steps env outer inner rc w) as [_ Hres].
  cbv zeta in Hres. rewrite Hres. apply bookend_returns, Hs.
Qed.

End Quiet.

#[export] Hint Resolve quiet_send_full_segments
  quiet_rfidr_error_complete_message_send quiet_send_short_message
  quiet_send_log_message quiet_handle_error : pres.
#[export] Hint Resolve total_send_short_message : total.

(** ** program_core against a tag that never answers *)

Lemma landmarks_of_view (w w' : world) :
  core_view w' = core_view w -> landmarks w' = landmarks w.
Proof. unfold core_view. intros H. injection H. auto. Qed.

Lemma count_landmarks (p : hw_op -> bool) (w : world) :
  (forall e, p e = true -> noteworthy e = true) ->
  count_events p w = length (filter p (landmarks w)).
Proof.
  intros Hp. unfold count_events, landmarks. f_equal.
  induction (w_trace w) as [| e l IH]; simpl; [reflexivity |].
  destruct (noteworthy e) eqn:En, (p e) eqn:Ep; simpl;
    rewrite ?Ep, ?IH; try reflexivity.
  apply Hp in Ep. congruence.
Qed.

(** Reads the landmarks of the last world off the facts gathered on
    the way. *)
Ltac chase :=
  unfold landmarks in *;
  repeat match goal with
         | H : filter noteworthy (w_trace _) = _ |- _ =>
             cbn in H; rewrite H; clear H
         end.

Section Program_fails.

Variable env : nat -> hw_op -> Z.
Hypothesis Hpeer : never_succeeds env.

Lemma peer_serves_indications : state_indication_served env.
Proof.
  intro t. destruct (Hpeer t) as [Hok _]. split; [apply Hok; reflexivity |].
  intro code. left. apply Hok. reflexivity.
Qed.

Ltac answer :=
  idtac;
  lazymatch goal with
  | |- _ _ _ (Normal (env ?t ?e)) _ =>
      lazymatch e with
      | Ev_read_user_mem 0 =>
          let H := fresh "Hcode" in
          pose proof (proj2 (Hpeer t)) as H; revert H;
          generalize (env t e); intros ? H
      | Ev_read_user_mem _ => generalize (env t e); intro
      | _ => rewrite (proj1 (Hpeer t) e eq_refl)
      end
  end.

Ltac known :=
  idtac;
  lazymatch goal with
  | |- wp (send_short_message _ _) _ ?w =>
      apply wp_quiet_total;
      [ apply total_send_short_message | apply quiet_send_short_message
      | let a := fresh "a" in let w' := fresh "w" in let H := fresh "Hq" in
        intros a w' H; apply landmarks_of_view in H; wp_next ]
  | |- wp (handle_error _ _ _ _) _ ?w =>
      apply wp_quiet_total;
      [ apply handle_error_returns, peer_serves_indications
      | apply quiet_handle_error
      | let a := fresh "a" in let w' := fresh "w" in let H := fresh "Hq" in
        intros a w' H; apply landmarks_of_view in H; wp_next ]
  end.

Ltac prune :=
  idtac; bool_facts; cbv delta [MAX_PROG_RETRIES] in *;
  first [ congruence | lia ].

Ltac step := wp_step answer known prune join
with join :=
  idtac;
  lazymatch goal with
  | |- wp ?c (then_ ?f ?Q) ?W =>
      apply (wp_conseq c
               (post (fun a w' => a = RFIDR_SUCCESS
                                  /\ landmarks w' = landmarks W)
                     (fun _ _ => False) (fun _ => False)));
      [ repeat step; split; reflexivity
      | let a := fresh "a" in let w' := fresh "w" in let H := fresh "Hq" in
        intros [a | ? | | ] w' H; cbn [post] in H; try contradiction;
        destruct H as [-> H]; wp_next ]
  end.

Lemma program_core_gives_up (error_info : string)
      (session : rfidr_query_session_t) (target : rfidr_target_epc_t)
      (content : rfidr_program_content_t) (return_struct : return_ptr)
      (w : world) :
  i_pass (load_return return_struct w) = true
  \/ q_pass (load_return return_struct w) = true ->
  wp (program_core env error_info session target content return_struct)
     (fun o w' =>
        o = Normal RFIDR_ERROR_GENERAL
        /\ landmarks w'
           = handshake ++ Ev_set_end_radio_fsm_loop
               :: concat (repeat handshake (Z.to_nat (MAX_PROG_RETRIES + 1)))
               ++ landmarks w)
     w.
Proof.
  intros Hpass. unfold program_core. repeat step.
  - split; [reflexivity |].
    chase. reflexivity.
  - exfalso.
    match goal with
    | H : select_program_q _ = None |- _ =>
        unfold select_program_q in H;
        destruct return_struct; cbn in H, Hpass;
        destruct (i_pass _), (q_pass _), Hpass; discriminate
    end.
Qed.

End Program_fails.

(** C3.  Against a peer that works but never reports the exit code 0,
    and with a search result in which a path passed, program_core makes
    MAX_PROG_RETRIES + 1 programming attempts (one go/acknowledge handshake
    each), then raises the end-of-loop flag of the radio FSM, once, then
    makes one more handshake, and returns RFIDR_ERROR_GENERAL: the
    handshakes, the flag and their order are read off the trace, and the
    whole trace holds MAX_PROG_RETRIES + 2 go signals and one end-of-loop
    signal more than before. *)
Theorem program_gives_up_after_retries :
  forall (env : nat -> hw_op -> Z) (error_info : string)
         (session : rfidr_query_session_t) (target : rfidr_target_epc_t)
         (content : rfidr_program_content_t) (return_struct : return_ptr)
         (w : world),
    never_succeeds env ->
    i_pass (load_return return_struct w) = true
    \/ q_pass (load_return return_struct w) = true ->
    let run := program_core env error_info session target content
                            return_struct in
    result run w = Normal RFIDR_ERROR_GENERAL
    /\ landmarks (exec run w)
       = handshake ++ Ev_set_end_radio_fsm_loop
           :: concat (repeat handshake (Z.to_nat (MAX_PROG_RETRIES + 1)))
           ++ landmarks w
    /\ count_events is_go_radio (exec run w)
       = (Z.to_nat (MAX_PROG_RETRIES + 2) + count_events is_go_radio w)%nat
    /\ count_events is_irq_ack (exec run w)
       = (Z.to_nat (MAX_PROG_RETRIES + 2) + count_events is_irq_ack w)%nat
    /\ count_events is_end_radio_fsm_loop (exec run w)
       = S (count_events is_end_radio_fsm_loop w).
Proof.
  intros env error_info session target content return_struct w Hpeer Hpass run.
  destruct (program_core_gives_up env Hpeer error_info session target content
              return_struct w Hpass) as [Hres Hl].
  fold run in Hres, Hl.
  split; [exact Hres |]. split; [exact Hl |].
  rewrite !(count_landmarks is_go_radio), !(count_landmarks is_irq_ack),
    !(count_landmarks is_end_radio_fsm_loop)
    by (intros [] He; (reflexivity || discriminate)).
  rewrite Hl. change (Z.to_nat (MAX_PROG_RETRIES + 1)) with 6%nat.
  change (Z.to_nat (MAX_PROG_RETRIES + 2)) with 7%nat.
  cbn [handshake concat repeat app filter is_go_radio is_irq_ack
       is_end_radio_fsm_loop length].
  auto.
Qed.

Lemma program_gives_up_after_retries_witness :
  result (program_core env_fails "programming" SESSION_S0 TARGET_APP_SPECD_EPC
            PROGRAM_NEW_EPC P_return_struct_ant)
         (store_return P_return_struct_ant (set_i_pass true default_return)
            (world_in PROGRAMMING_APP_SPECD_TAG))
  = Normal RFIDR_ERROR_GENERAL.
Proof.
  apply (program_gives_up_after_retries env_fails "programming" SESSION_S0
           TARGET_APP_SPECD_EPC PROGRAM_NEW_EPC P_return_struct_ant
           (store_return P_return_struct_ant (set_i_pass true default_return)
              (world_in PROGRAMMING_APP_SPECD_TAG))).
  - intro t. split.
    + intros e He. destruct e; (reflexivity || discriminate).
    + vm_compute. discriminate.
  - left. reflexivity.
Defined.

(** ** The path program_core programs on *)

Lemma wp_preserves {A : Type} (R : world -> world -> Prop) (c : M A)
      (Q : outcome A -> world -> Prop) (w : world) :
  preserves R c -> (forall o w', R w w' -> Q o w') -> wp c Q w.
Proof. intros Hc H. apply H, Hc. Qed.

Section Path_selection.

Variable env : nat -> hw_op -> Z.

Lemma send_full_segments_selects (s seg : string) (counter : Z) :
  preserves (keeps path_selects) (send_full_segments env s seg counter).
Proof.
  revert seg counter. induction s as [| ch s IH]; intros seg counter; simpl;
    pres_with untouched.
Qed.
Hint Resolve send_full_segments_selects : pres.

Lemma message_send_selects (s : string) :
  preserves (keeps path_selects) (rfidr_error_complete_message_send env s).
Proof. pres_with untouched. Qed.
Hint Resolve message_send_selects : pres.

Lemma handle_error_selects (outer inner : string) (rc : rfidr_error_t) :
  preserves (keeps path_selects) (handle_error env outer inner rc).
Proof. pres_with untouched. Qed.
Hint Resolve handle_error_selects : pres.

Lemma program_attempt_selects (error_info : string)
      (target : rfidr_target_epc_t) (content : rfidr_program_content_t)
      (i : Z) :
  preserves (keeps path_selects) (program_attempt env error_info target content i).
Proof. pres_with untouched. Qed.
Hint Resolve program_attempt_selects : pres.

Ltac forget_answer :=
  idtac;
  lazymatch goal with
  | |- _ _ _ (Normal (env ?t ?e)) _ => generalize (env t e); intro
  end.

Ltac step := wp_step forget_answer fail fail fail.

Lemma program_core_selects (error_info : string)
      (session : rfidr_query_session_t) (target : rfidr_target_epc_t)
      (content : rfidr_program_content_t) (return_struct : return_ptr)
      (w : world) :
  wp (program_core env error_info session target content return_struct)
     (fun o w' =>
        match select_program_q (load_return return_struct w) with
        | Some q =>
            path_selects w'
            = (if q =? 0 then Ev_set_use_i else Ev_set_use_q) :: path_selects w
        | None =>
            path_selects w' = path_selects w
            /\ landmarks w' = landmarks w
            /\ (state_indication_served env -> o = Normal RFIDR_ERROR_GENERAL)
        end)
     w.
Proof.
  unfold program_core. do 39 step.
  match goal with
  | |- wp (bind (match select_program_q (load_return _ ?W) with _ => _ end) _)
          _ _ =>
      replace (load_return return_struct W) with (load_return return_struct w)
        by (destruct return_struct; reflexivity)
  end.
  destruct (select_program_q (load_return return_struct w)) as [q |].
  - do 2 step.
    match goal with
    | |- wp (bind ?c ?f) ?Q ?W =>
        assert (Hsel : preserves
                         (fun w1 w2 =>
                            path_selects w2
                            = (if q =? 0 then Ev_set_use_i else Ev_set_use_q)
                                :: path_selects w1) c);
        [| assert (Hrest : forall rc, preserves (keeps path_selects) (f rc))
             by (intro; pres_with untouched) ]
    end.
    { intro w1. destruct (q =? 0); reflexivity. }
    apply wp_bind.
    apply (wp_preserves _ _ _ _ Hsel). intros o w1 H1. cbn in H1.
    destruct o as [rc | rc | |]; cbn [then_ returning]; try exact H1.
    apply (wp_preserves _ _ _ _ (Hrest rc)). intros o w2 H2.
    unfold keeps in H2. rewrite <- H2 in H1.
    destruct o; exact H1.
  - apply wp_bind. apply wp_bind.
    match goal with
    | |- wp ?c _ ?W =>
        pose proof (handle_error_selects error_info
                      "determining which of I and Q channel to receive on"
                      RFIDR_ERROR_GENERAL W) as Hs;
        pose proof (quiet_handle_error env error_info
                      "determining which of I and Q channel to receive on"
                      RFIDR_ERROR_GENERAL W) as Hq;
        pose proof (fun H => handle_error_returns env error_info
                      "determining which of I and Q channel to receive on"
                      RFIDR_ERROR_GENERAL H W) as Ht
    end.
    apply landmarks_of_view in Hq. unfold keeps in Hs. cbn in Hs, Hq.
    unfold wp.
    destruct (result _ _) as [[] | rc | |] eqn:Hr; cbn [then_ returning];
      (split; [exact Hs | split; [exact Hq |]]); intro Hserved;
      destruct (Ht Hserved) as [a Ha]; try discriminate.
    reflexivity.
Qed.

End Path_selection.

(** C6 as stated does not hold: with a search result in which only the I
    path passed, program_core selects the Q path when the alternate
    magnitude of the I run is the larger one; and with a result in which
    both paths passed and the main magnitude of Q is the largest reading,
    it selects the I path, because it compares the two readings of the I
    run and never reads the Q fields once I has passed. *)
Lemma program_core_selects_against_the_stated_policy :
  (i_pass only_i_passed = true /\ q_pass only_i_passed = false
   /\ path_selects
        (exec (program_core env_ok "programming" SESSION_S0
                 TARGET_APP_SPECD_EPC PROGRAM_NEW_EPC P_return_struct_ant)
              (store_return P_return_struct_ant only_i_passed
                 (world_in PROGRAMMING_APP_SPECD_TAG)))
      = [Ev_set_use_q])
  /\ (i_pass both_passed_q_stronger = true
      /\ q_pass both_passed_q_stronger = true
      /\ q_main_mag both_passed_q_stronger > i_main_mag both_passed_q_stronger
      /\ path_selects
           (exec (program_core env_ok "programming" SESSION_S0
                    TARGET_APP_SPECD_EPC PROGRAM_NEW_EPC P_return_struct_ant)
                 (store_return P_return_struct_ant both_passed_q_stronger
                    (world_in PROGRAMMING_APP_SPECD_TAG)))
         = [Ev_set_use_i]).
Proof. vm_compute. repeat split; reflexivity. Qed.

(** C6, amended.  program_core compares, for the first path that passed
    (I before Q), the two magnitudes of that path's own run: when the I
    path passed it selects I if the main magnitude of the I run exceeds
    its alternate magnitude and Q otherwise, whether or not Q passed; when
    only the Q path passed it selects Q if the main magnitude of the Q run
    exceeds its alternate magnitude and I otherwise; it selects exactly
    once.  When neither path passed it selects no path, starts no radio
    operation, and returns RFIDR_ERROR_GENERAL once the application has
    taken the state indication of handle_error. *)
Theorem program_path_selection :
  forall (env : nat -> hw_op -> Z) (error_info : string)
         (session : rfidr_query_session_t) (target : rfidr_target_epc_t)
         (content : rfidr_program_content_t) (return_struct : return_ptr)
         (w : world),
    let r := load_return return_struct w in
    let run := program_core env error_info session target content
                            return_struct in
    let selects e := path_selects (exec run w) = e :: path_selects w in
    (i_pass r = true ->
       (i_main_mag r > i_alt_mag r -> selects Ev_set_use_i)
       /\ (i_main_mag r <= i_alt_mag r -> selects Ev_set_use_q))
    /\ (i_pass r = false -> q_pass r = true ->
          (q_main_mag r > q_alt_mag r -> selects Ev_set_use_q)
          /\ (q_main_mag r <= q_alt_mag r -> selects Ev_set_use_i))
    /\ (i_pass r = false -> q_pass r = false ->
          path_selects (exec run w) = path_selects w
          /\ landmarks (exec run w) = landmarks w
          /\ (state_indication_served env ->
              result run w = Normal RFIDR_ERROR_GENERAL)).
Proof.
  intros env error_info session target content return_struct w r run selects.
  pose proof (program_core_selects env error_info session target content
                return_struct w) as H.
  unfold wp in H. fold run r in H. unfold select_program_q in H.
  subst selects. cbv beta.
  repeat split; intros;
    repeat match goal with
           | E : i_pass r = _ |- _ => rewrite E in H; clear E
           | E : q_pass r = _ |- _ => rewrite E in H; clear E
           end;
    try (destruct (i_main_mag r >? i_alt_mag r) eqn:E;
         destruct (q_main_mag r >? q_alt_mag r) eqn:E';
         cbn in H; bool_facts; first [exact H | lia]);
    try apply H; assumption.
Qed.

Lemma program_path_selection_witness :
  path_selects
    (exec (program_core env_ok "programming" SESSION_S0 TARGET_APP_SPECD_EPC
             PROGRAM_NEW_EPC P_return_struct_ant)
          (store_return P_return_struct_ant only_i_passed
             (world_in PROGRAMMING_APP_SPECD_TAG)))
  = Ev_set_use_q
      :: path_selects (store_return P_return_struct_ant only_i_passed
                         (world_in PROGRAMMING_APP_SPECD_TAG)).
Proof.
  destruct (program_path_selection env_ok "programming" SESSION_S0
              TARGET_APP_SPECD_EPC PROGRAM_NEW_EPC P_return_struct_ant
              (store_return P_return_struct_ant only_i_passed
                 (world_in PROGRAMMING_APP_SPECD_TAG))) as [H _].
  destruct (H eq_refl) as [_ H2]. apply H2. vm_compute. discriminate.
Defined.

(** ** The frequency skip of tracking_core *)

#[export] Instance keeps_skip_slot_preorder : PreOrder keeps_skip_slot.
Proof.
  split.
  - intro w. split; auto.
  - intros a b c [H1 H2] [H3 H4]. split; [congruence | auto].
Qed.

Lemma keeps_skip_slot_of_quiet {A : Type} (c : M A) :
  preserves quiet c -> preserves keeps_skip_slot c.
Proof.
  intros H w. specialize (H w). unfold quiet, keeps, core_view in H.
  assert (Ht : tracking (exec c w) = tracking w) by congruence.
  assert (Hl : landmarks (exec c w) = landmarks w) by congruence.
  split; [rewrite Ht | rewrite Hl]; auto.
Qed.

Lemma quiet_read_bytes (env : nat -> hw_op -> Z) (n : nat) (addr : Z) :
  preserves quiet (read_bytes env n addr).
Proof.
  revert addr. induction n as [| n IH]; intro addr; simpl; pres_with untouched.
Qed.
#[export] Hint Resolve quiet_read_bytes : pres.

(** Leaves under [keeps_skip_slot]. *)
Ltac skip_slot_leaf :=
  intro; split; [reflexivity | intros ? ?; cbn; auto].


Lemma wp_unbind {A B : Type} (c : M A) (f : A -> M B)
      (Q : outcome B -> world -> Prop) (w : world) :
  wp (bind c f) Q w -> wp c (then_ f Q) w.
Proof.
  unfold wp, then_, result, exec, bind.
  destruct (c w) as [[a | rc | |] w']; auto.
Qed.

Lemma wp_unfn (body : M rfidr_error_t)
      (Q : outcome rfidr_error_t -> world -> Prop) (w : world) :
  wp (fn body) Q w -> wp body (returning Q) w.
Proof.
  unfold wp, returning, result, exec, fn.
  destruct (body w) as [[a | rc | |] w']; auto.
Qed.

(** Nothing on record, no branch excluded. *)
Ltac wp_none := idtac; fail.

(** An answer of which nothing is known. *)
Ltac wp_forget :=
  idtac;
  lazymatch goal with
  | |- _ _ _ (Normal (?env ?t ?e)) _ => generalize (env t e); intro
  end.

(** Puts the statements that remain back in one piece. *)
Ltac wp_rest :=
  repeat first [ apply wp_unbind | apply wp_unfn ].

Arguments skip_slot : simpl never.

Section Skip.

Variable env : nat -> hw_op -> Z.

Hint Resolve keeps_skip_slot_of_quiet : pres.

Lemma search_core_keeps_skip_slot (error_info : string)
      (session : rfidr_query_session_t) (target : rfidr_target_epc_t)
      (re : return_epc_t) (rm : return_mag_t) (rl : return_lna_gain_t)
      (p : return_ptr) :
  preserves keeps_skip_slot (search_core env error_info session target re rm rl p).
Proof. destruct p; pres_with skip_slot_leaf. Qed.
Hint Resolve search_core_keeps_skip_slot : pres.


(** One step, with the branch excluded that contradicts [H]. *)
Ltac step H :=
  wp_step wp_forget wp_none
          ltac:(idtac; cbn in *; rewrite H in *; discriminate) wp_none.

Lemma tracking_cal_outer_skips (error_info : string) (k : Z) (w : world) :
  frequency_skip_flag (tracking w) = true ->
  wp (tracking_cal_outer env error_info k)
     (fun _ w' =>
        skip_frequency_slot (tracking w')
        = skip_slot (recover_frequency_slot (tracking w)) k
        /\ In (Ev_enter_set_sx1257_frequency
                 (skip_slot (recover_frequency_slot (tracking w)) k))
              (landmarks w'))
     w.
Proof.
  intros Hskip. unfold tracking_cal_outer, trk, set_trk.
  repeat lazymatch goal with
         | |- wp (set_sx1257_frequency _ _) _ _ => fail
         | |- _ => step Hskip
         end.
  unfold set_sx1257_frequency. do 2 step Hskip.
  wp_rest. apply (wp_preserves keeps_skip_slot).
  - pres_with skip_slot_leaf.
  - intros o w' [H1 H2]. split.
    + rewrite H1. cbn. reflexivity.
    + apply H2. cbn. left. reflexivity.
Qed.

End Skip.

Lemma skip_slot_in_band (s k : Z) :
  0 <= s < 25 -> 0 <= k < NUM_ALLOWED_OUTER_CAL_FAILS ->
  skip_slot s k = (if s >=? 22 then s - (3 - k) else s + (3 - k))
  /\ 0 <= skip_slot s k <= 24.
Proof.
  unfold skip_slot, NUM_ALLOWED_OUTER_CAL_FAILS, u8. intros Hs Hk.
  destruct (s >=? 22) eqn:E; bool_facts;
    rewrite Z.mod_small by lia; lia.
Qed.

(** C7 as stated does not hold: at the second calibration attempt the
    skip from slot 10 tunes to slot 12, two channels up and not three. *)
Lemma skip_of_second_attempt_is_two_channels :
  let w' := exec (tracking_cal_outer env_ok "tracking" 1)
                 (world_skipping_from 10) in
  skip_frequency_slot (tracking w') = 12
  /\ filter (fun e => match e with
                      | Ev_enter_set_sx1257_frequency _ => true
                      | _ => false
                      end) (w_trace w')
     = [Ev_enter_set_sx1257_frequency 12].
Proof. vm_compute. split; reflexivity. Qed.

(** C7, amended.  For every slot s in 0..24 that the last hop moved to and
    every calibration attempt k = 0, 1, 2 of a turn in which tracking_core
    skips, the skip tunes the SX1257 to the slot at 3 - k channels from s
    (three channels at the first attempt, two at the second, one at the
    third), downward when s >= 22 and upward otherwise; that slot lies
    within [0, 24], and it is the one kept as the skip slot of the turn,
    however the calibration that follows ends. *)
Theorem skip_offset_shrinks_with_the_attempts :
  forall (env : nat -> hw_op -> Z) (error_info : string) (k : Z) (w : world),
    frequency_skip_flag (tracking w) = true ->
    0 <= recover_frequency_slot (tracking w) < 25 ->
    0 <= k < NUM_ALLOWED_OUTER_CAL_FAILS ->
    let s := recover_frequency_slot (tracking w) in
    let w' := exec (tracking_cal_outer env error_info k) w in
    let target := if s >=? 22 then s - (3 - k) else s + (3 - k) in
    skip_frequency_slot (tracking w') = target
    /\ In (Ev_enter_set_sx1257_frequency target) (landmarks w')
    /\ 0 <= target <= 24.
Proof.
  intros env error_info k w Hskip Hs Hk s w' target.
  destruct (tracking_cal_outer_skips env error_info k w Hskip) as [H1 H2].
  destruct (skip_slot_in_band s k Hs Hk) as [E Hb].
  fold s in H1, H2. fold w' in H1, H2. subst target.
  rewrite <- E. auto.
Qed.

Lemma skip_offset_shrinks_with_the_attempts_witness :
  skip_frequency_slot
    (tracking (exec (tracking_cal_outer env_ok "tracking" 2)
                    (world_skipping_from 23)))
  = 22.
Proof.
  destruct (skip_offset_shrinks_with_the_attempts env_ok "tracking" 2
              (world_skipping_from 23)) as [H _].
  - reflexivity.
  - vm_compute. split; [discriminate | reflexivity].
  - vm_compute. split; [discriminate | reflexivity].
  - rewrite H. reflexivity.
Defined.

(** ** The rounds of inventory_core *)

(** Below the round limit the loop goes on whatever the vector holds, the
    null sentinel included. *)
Lemma query_rounds_below_limit (fuel : nat) (limit : Z) (v : Z -> Z)
      (round : Z -> M unit) (i : Z) :
  i < limit ->
  query_rounds (S fuel) limit v round i
  = bind (round i) (fun _ => query_rounds fuel limit v round (u8 (i + 1))).
Proof.
  intros Hi. simpl. apply Z.ltb_lt in Hi. rewrite Hi, orb_true_r. reflexivity.
Qed.

(** C2.  With the Query-Q vector "321" (three elements before the null
    sentinel) and a field without tags, inventory_core does not stop at
    the sentinel after three query rounds: it goes through
    QUERY_ROUND_LIMIT = 36 rounds, each with its hop, and then returns
    RFIDR_SUCCESS.  The test of its loop is
    [query_q_vector[loop_query_q] != 0 || loop_query_q < QUERY_ROUND_LIMIT]. *)
Theorem inventory_runs_past_the_null_sentinel :
  let run := inventory_core env_fails "inventorying" SESSION_S2 q_vector_321
                            51 "A0B1C2D3E4F5A6B7C8D9E0F1"
                            P_return_struct_ant in
  let w' := exec run (world_in INVENTORYING) in
  q_vector_321 3 = 0
  /\ result run (world_in INVENTORYING) = Normal RFIDR_SUCCESS
  /\ count_events is_hop w' = Z.to_nat QUERY_ROUND_LIMIT
  /\ m_hopskip_nonce w' = QUERY_ROUND_LIMIT
  /\ m_num_inv_tags_found w' = 0.
Proof. vm_compute. repeat split; reflexivity. Qed.

(** ** The result structure of search_core *)

Lemma reset_return_struct_run (p : return_ptr) (w : world) :
  reset_return_struct p w = (Normal tt, store_return p default_return w).
Proof. destruct p; reflexivity. Qed.

Lemma store_return_twice (p : return_ptr) (r r0 : rfidr_return_t) (w : world) :
  store_return p r (store_return p r0 w) = store_return p r w.
Proof. destruct p; reflexivity. Qed.

Lemma stable_of_quiet {A : Type} (p : return_ptr)
      (J : rfidr_return_t -> Prop) (c : M A) :
  preserves quiet c -> preserves (stable (on_result p J)) c.
Proof.
  intros H w. specialize (H w). unfold quiet, keeps, core_view in H.
  assert (E : load_return p (exec c w) = load_return p w)
    by (destruct p; cbn; congruence).
  unfold stable, on_result. rewrite E. auto.
Qed.

(** Leaves under a property of one result structure. *)
Ltac result_leaf :=
  intro; unfold stable, on_result, i_passed, q_passed, no_stale_data;
  cbn; tauto.

Section Search.

Variable env : nat -> hw_op -> Z.

Hint Resolve stable_of_quiet : pres.

Lemma search_record_i_keeps (error_info : string) (target : rfidr_target_epc_t)
      (re : return_epc_t) (rm : return_mag_t) (rl : return_lna_gain_t)
      (p : return_ptr) :
  preserves (stable (on_result p i_passed))
            (search_record_i env error_info target re rm rl p).
Proof. destruct p; pres_with result_leaf. Qed.

Lemma search_record_q_keeps (error_info : string) (target : rfidr_target_epc_t)
      (re : return_epc_t) (rm : return_mag_t) (rl : return_lna_gain_t)
      (p : return_ptr) :
  preserves (stable (on_result p q_passed))
            (search_record_q env error_info target re rm rl p).
Proof. destruct p; pres_with result_leaf. Qed.

Lemma search_exchange_keeps (error_info : string)
      (target : rfidr_target_epc_t) (loop_iq : Z) (p : return_ptr)
      (J : rfidr_return_t -> Prop) :
  preserves (stable (on_result p J))
            (search_exchange env error_info target loop_iq).
Proof.
  destruct p; pres_with ltac:(intro; unfold stable, on_result; cbn; tauto).
Qed.

Lemma i_passed_no_stale (r : rfidr_return_t) : i_passed r -> no_stale_data r.
Proof. unfold i_passed, no_stale_data. intros [H1 H2]. split; [congruence | exact H2]. Qed.

Lemma q_passed_no_stale (r : rfidr_return_t) : q_passed r -> no_stale_data r.
Proof. unfold q_passed, no_stale_data. intros [H1 H2]. split; [exact H2 | congruence]. Qed.

Lemma search_core_path_keeps (error_info : string)
      (target : rfidr_target_epc_t) (re : return_epc_t) (rm : return_mag_t)
      (rl : return_lna_gain_t) (p : return_ptr) (loop_iq : Z) :
  preserves (stable (on_result p no_stale_data))
            (search_core_path env error_info target re rm rl p loop_iq).
Proof.
  intros w H0.
  change (wp (search_core_path env error_info target re rm rl p loop_iq)
             (fun _ w' => on_result p no_stale_data w') w).
  unfold search_core_path. apply wp_bind.
  apply (wp_preserves _ _ _ _
           (search_exchange_keeps error_info target loop_iq p no_stale_data)).
  intros o w1 H1. specialize (H1 H0). clear H0 w.
  destruct o as [success | rc | |]; cbn [then_]; try exact H1.
  apply wp_bind.
  destruct success; [destruct (loop_iq =? 0) |].
  - apply wp_bind.
    apply (wp_preserves _ _ _ _
             (stable_of_quiet p no_stale_data _
                (quiet_send_short_message env "Search I Pass"))).
    intros o w2 H2. specialize (H2 H1). clear H1 w1.
    destruct o as [[] | rc | |]; cbn [then_]; try exact H2.
    apply wp_bind. unfold modify_return. apply wp_modify. wp_next.
    match goal with
    | |- wp _ _ ?W => assert (H3 : on_result p i_passed W)
    end.
    { destruct p; unfold on_result, i_passed, no_stale_data in *;
        cbn in *; tauto. }
    apply (wp_preserves _ _ _ _
             (search_record_i_keeps error_info target re rm rl p)).
    intros o w3 H4. specialize (H4 H3). apply i_passed_no_stale in H4.
    destruct o as [[] | rc | |]; cbn [then_]; exact H4.
  - apply wp_bind.
    apply (wp_preserves _ _ _ _
             (stable_of_quiet p no_stale_data _
                (quiet_send_short_message env "Search Q Pass"))).
    intros o w2 H2. specialize (H2 H1). clear H1 w1.
    destruct o as [[] | rc | |]; cbn [then_]; try exact H2.
    apply wp_bind. unfold modify_return. apply wp_modify. wp_next.
    match goal with
    | |- wp _ _ ?W => assert (H3 : on_result p q_passed W)
    end.
    { destruct p; unfold on_result, q_passed, no_stale_data in *;
        cbn in *; tauto. }
    apply (wp_preserves _ _ _ _
             (search_record_q_keeps error_info target re rm rl p)).
    intros o w3 H4. specialize (H4 H3). apply q_passed_no_stale in H4.
    destruct o as [[] | rc | |]; cbn [then_]; exact H4.
  - match goal with
    | |- wp (send_short_message _ ?s) _ _ =>
        apply (wp_preserves _ _ _ _
                 (stable_of_quiet p no_stale_data _
                    (quiet_send_short_message env s)))
    end.
    intros o w2 H2. specialize (H2 H1).
    destruct o as [[] | rc | |]; cbn [then_]; exact H2.
Qed.
Hint Resolve search_core_path_keeps : pres.

Lemma search_core_exchanges_keep (error_info : string)
      (session : rfidr_query_session_t) (target : rfidr_target_epc_t)
      (re : return_epc_t) (rm : return_mag_t) (rl : return_lna_gain_t)
      (p : return_ptr) :
  preserves (stable (on_result p no_stale_data))
            (search_core_exchanges env error_info session target re rm rl p).
Proof.
  unfold search_core_exchanges.
  pres_with ltac:(destruct p; result_leaf).
Qed.

Lemma search_core_run (error_info : string)
      (session : rfidr_query_session_t) (target : rfidr_target_epc_t)
      (re : return_epc_t) (rm : return_mag_t) (rl : return_lna_gain_t)
      (p : return_ptr) (w : world) :
  search_core env error_info session target re rm rl p w
  = fn (search_core_exchanges env error_info session target re rm rl p)
       (store_return p default_return w).
Proof.
  unfold search_core, fn, bind. rewrite reset_return_struct_run. reflexivity.
Qed.

(** What nothing is known of, to step over. *)
Lemma wp_any {A : Type} (c : M A) (Q : outcome A -> world -> Prop) (w : world) :
  (forall o w', Q o w') -> wp c Q w.
Proof. intros H. apply H. Qed.

Section Failing.

Hypothesis Hfail : every_exchange_fails env.
Variable target : rfidr_target_epc_t.
Hypothesis Htarget : target <> TARGET_PLL_EPC.

Ltac answer :=
  idtac;
  lazymatch goal with
  | |- _ _ _ (Normal (env ?t ?e)) _ =>
      lazymatch e with
      | Ev_read_user_mem 0 =>
          let H := fresh "Hcode" in
          pose proof (Hfail t) as H; revert H;
          generalize (env t e); intros ? H
      | _ => generalize (env t e); intro
      end
  end.

Ltac known :=
  idtac;
  lazymatch goal with
  | |- wp (handle_error _ _ _ _) _ _ =>
      apply wp_any; intros [[] | ? | |] ?; wp_next
  end.

Ltac step := wp_step answer known wp_none wp_none.

Lemma search_exchange_fails (error_info : string) (loop_iq : Z) (w : world) :
  result (search_exchange env error_info target loop_iq) w <> Normal true.
Proof.
  change (wp (search_exchange env error_info target loop_iq)
             (fun o _ => o <> Normal true) w).
  unfold search_exchange. repeat step; try discriminate.
  all: try (exfalso; apply Htarget; destruct target; (reflexivity || discriminate)).
  all: intro E; injection E as E; apply Z.eqb_eq in E; contradiction.
Qed.

Lemma search_core_path_fails (error_info : string) (re : return_epc_t)
      (rm : return_mag_t) (rl : return_lna_gain_t) (p : return_ptr)
      (J : rfidr_return_t -> Prop) (loop_iq : Z) :
  preserves (stable (on_result p J))
            (search_core_path env error_info target re rm rl p loop_iq).
Proof.
  intros w H0.
  change (wp (search_core_path env error_info target re rm rl p loop_iq)
             (fun _ w' => on_result p J w') w).
  unfold search_core_path. apply wp_bind.
  pose proof (search_exchange_keeps error_info target loop_iq p J w H0) as H1.
  pose proof (search_exchange_fails error_info loop_iq w) as Hf.
  unfold wp.
  destruct (result _ w) as [[|] | rc | |]; cbn [then_]; try exact H1;
    [congruence |].
  apply wp_bind.
  match goal with
  | |- wp (send_short_message _ ?s) _ _ =>
      apply (wp_preserves _ _ _ _
               (stable_of_quiet p J _ (quiet_send_short_message env s)))
  end.
  intros o w2 H2. specialize (H2 H1).
  destruct o as [[] | rc | |]; cbn [then_]; exact H2.
Qed.

Lemma search_core_exchanges_fail (error_info : string)
      (session : rfidr_query_session_t) (re : return_epc_t)
      (rm : return_mag_t) (rl : return_lna_gain_t) (p : return_ptr)
      (J : rfidr_return_t -> Prop) :
  preserves (stable (on_result p J))
            (search_core_exchanges env error_info session target re rm rl p).
Proof.
  pose proof search_core_path_fails as Hpath.
  unfold search_core_exchanges.
  pres_with ltac:(destruct p; intro; unfold stable, on_result; cbn; tauto).
Qed.

End Failing.

End Search.

(** In the PLL-check mode the pass branch of a path is taken whatever the
    exit code: with a radio that reports the exit code 7 at every exchange
    the I path comes back as passed, with the magnitudes that were read
    from the RX RAM.  No call of search_core that is compiled selects this
    mode (the one of run_rfidr_state_machine that passes TARGET_PLL_EPC
    stands between #if 0 and #endif, and search_core is static): what is
    stated of the exchanges of a search is stated for the other targets. *)
Lemma pll_check_fills_the_fields_of_a_failed_exchange :
  let r := load_return P_return_struct_cal
             (exec (search_core env_fails_with_data "searching" SESSION_S0
                      TARGET_PLL_EPC RETURN_EPC_NO RETURN_MAG_YES
                      RETURN_LNA_GAIN_NO P_return_struct_cal)
                   (world_in SEARCHING_APP_SPECD_TAG)) in
  every_exchange_fails env_fails_with_data
  /\ i_pass r = true
  /\ i_main_mag r = 0x01010101
  /\ ~ i_fields_default r.
Proof.
  split; [intro t; vm_compute; discriminate |].
  vm_compute. split; [reflexivity | split; [reflexivity |]].
  intros (_ & _ & H & _). discriminate H.
Qed.

(** ** The hop/skip nonce *)

Arguments pckt_data2_of : simpl never.
Arguments pckt_data2_nonce : simpl never.
Arguments pckt_data1_of : simpl never.

Lemma pckt_data2_nonce_of (ant cal : rfidr_return_t) (f n d : Z) :
  pckt_data2_nonce (pckt_data2_of ant cal f n d) = n.
Proof.
  unfold pckt_data2_nonce, pckt_data2_of.
  destruct (choose_i cal =? 1), (choose_i cal =? 0); reflexivity.
Qed.

Lemma replay_landmarks (tr : list hw_op) (n0 : Z) :
  replay_nonce (filter noteworthy tr) n0 = replay_nonce tr n0.
Proof.
  induction tr as [| e tr IH]; [reflexivity |].
  cbn [filter]. destruct (noteworthy e) eqn:E.
  - cbn. rewrite IH. reflexivity.
  - rewrite IH. cbn. destruct (replay_nonce tr n0); [| reflexivity].
    destruct e; (reflexivity || discriminate).
Qed.

Lemma nonce_is_of_view (n0 m : Z) (w w' : world) :
  core_view w' = core_view w -> nonce_is n0 m w -> nonce_is n0 m w'.
Proof.
  unfold core_view, nonce_is, nonce_in_step. intros H [H1 H2].
  assert (Hl : landmarks w' = landmarks w) by congruence.
  assert (Hn : m_hopskip_nonce w' = m_hopskip_nonce w) by congruence.
  unfold landmarks in Hl.
  rewrite <- replay_landmarks, Hl, replay_landmarks, Hn. auto.
Qed.

Lemma nonce_is_of_quiet {A : Type} (n0 m : Z) (c : M A) :
  preserves quiet c -> preserves (stable (nonce_is n0 m)) c.
Proof. intros H w HI. eapply nonce_is_of_view; [apply H | exact HI]. Qed.

Lemma in_step_of_is {A : Type} (n0 : Z) (c : M A) :
  (forall m, preserves (stable (nonce_is n0 m)) c) ->
  preserves (stable (nonce_in_step n0)) c.
Proof.
  intros H w HI.
  apply (H (m_hopskip_nonce w) w). split; [exact HI | reflexivity].
Qed.

(** Leaves under the two properties: a call that is neither a hop nor a
    second packet, an update of another component. *)
Lemma nonce_is_of_kept {A : Type} (n0 m : Z) (c : M A) :
  preserves (keeps (nonce_view n0)) c -> preserves (stable (nonce_is n0 m)) c.
Proof.
  intros H w [H1 H2]. specialize (H w).
  unfold keeps, nonce_view, nonce_is, nonce_in_step in *.
  injection H as Ha Hb. rewrite Ha, Hb. auto.
Qed.

Lemma kept_of_quiet {A : Type} (n0 : Z) (c : M A) :
  preserves quiet c -> preserves (keeps (nonce_view n0)) c.
Proof.
  intros H w. specialize (H w). unfold quiet, keeps, core_view, nonce_view in *.
  assert (Hl : landmarks (exec c w) = landmarks w) by congruence.
  assert (Hn : m_hopskip_nonce (exec c w) = m_hopskip_nonce w) by congruence.
  unfold landmarks in Hl.
  rewrite <- replay_landmarks, Hl, replay_landmarks, Hn. reflexivity.
Qed.

(** A leaf that is neither an addition to the nonce, nor a hop, nor a
    second packet. *)
Ltac view_leaf :=
  let w := fresh "w" in
  intro w; unfold keeps, nonce_view; cbn; cbv beta delta [record]; cbn;
  try destruct (replay_nonce (w_trace w) _); reflexivity.

Ltac nonce_leaf :=
  let w := fresh "w" in
  let H := fresh "H" in
  intros w H; unfold nonce_is, nonce_in_step in *;
  cbn; cbv beta delta [record]; cbn;
  lazymatch type of H with
  | _ /\ _ =>
      let H1 := fresh "H" in
      let H2 := fresh "H" in
      destruct H as [H1 H2];
      split; [first [exact H1 | rewrite H1; reflexivity] | exact H2]
  | _ => first [exact H | rewrite H; reflexivity]
  end.

Section Nonce.

Variable env : nat -> hw_op -> Z.
Variable n0 : Z.

Hint Resolve in_step_of_is : pres.
Hint Resolve nonce_is_of_kept | 2 : pres.
Hint Resolve kept_of_quiet | 3 : pres.

Lemma write_rfidr_state_next_keeps (req : rfidr_state_t) (w : world) :
  w_trace (snd (write_rfidr_state_next req w)) = w_trace w
  /\ m_hopskip_nonce (snd (write_rfidr_state_next req w)) = m_hopskip_nonce w.
Proof.
  unfold write_rfidr_state_next.
  destruct req; cbn;
    repeat match goal with
           | |- context [if ?b then _ else _] => destruct b
           end; split; reflexivity.
Qed.

Lemma serve_write_state_event_nonce (m : Z) :
  preserves (stable (nonce_is n0 m)) (serve_write_state_event env).
Proof.
  unfold serve_write_state_event.
  pres_walk no_site
    ltac:(first [ nonce_leaf
                | intros w H; unfold nonce_is, nonce_in_step in *;
                  unfold exec, modify, rfidrs_wrte_state_handler; cbn [snd];
                  match goal with
                  | |- context [write_rfidr_state_next ?r ?w0] =>
                      destruct (write_rfidr_state_next_keeps r w0) as [-> ->]
                  end; exact H ]).
Qed.
Hint Resolve serve_write_state_event_nonce : pres.

Lemma push_nonce (p1 p2 : return_ptr) (slot fails m : Z)
      (mode : rfidr_ble_push_t) :
  preserves (stable (nonce_is n0 m))
            (rfidr_push_data_over_ble env p1 p2 slot fails m mode).
Proof.
  pres_walk no_site
    ltac:(first [ nonce_leaf
                | let w := fresh "w" in
                  intros w [H1 H2]; unfold nonce_is, nonce_in_step in *;
                  cbn; cbv beta delta [record]; cbn;
                  rewrite H1; cbn;
                  rewrite pckt_data2_nonce_of, H2, Z.eqb_refl;
                  split; reflexivity ]).

Qed.
Hint Resolve push_nonce : pres.

Lemma push_minimal_nonce (p1 p2 : return_ptr) (slot fails h m : Z) :
  preserves (stable (nonce_is n0 m))
            (rfidr_push_data_over_ble env p1 p2 slot fails h BLE_PUSH_MINIMAL).
Proof. pres_walk no_site nonce_leaf. Qed.
Hint Resolve push_minimal_nonce : pres.

(** A hop ends, and shows in the trace only. *)
Lemma hop_sx1257_frequency_nonce
      (Q : outcome (rfidr_error_t * Z) -> world -> Prop) (w : world) :
  (forall r w',
      nonce_view n0 w' = nonce_view n0 (record Ev_enter_hop_sx1257_frequency w) ->
      Q (Normal r) w') ->
  wp (hop_sx1257_frequency env) Q w.
Proof.
  intros H. unfold hop_sx1257_frequency.
  repeat wp_step wp_forget wp_none wp_none wp_none;
    apply H; unfold nonce_view; cbn; cbv beta delta [record]; cbn;
    destruct (replay_nonce (w_trace w) n0); reflexivity.
Qed.

Lemma hop_then_count (w w' : world) (g : world -> world) :
  nonce_in_step n0 w ->
  nonce_view n0 w' = nonce_view n0 (record Ev_enter_hop_sx1257_frequency w) ->
  w_trace (g w') = w_trace w' ->
  m_hopskip_nonce (g w') = m_hopskip_nonce w' ->
  nonce_in_step n0
    (set_m_hopskip_nonce (u8 (m_hopskip_nonce (g w') + 1)) (g w')).
Proof.
  unfold nonce_in_step, nonce_view. cbn. cbv beta delta [record]. cbn.
  intros HI Hv Ht Hm. rewrite HI in Hv.
  injection Hv as Hv1 Hv2. rewrite Ht, Hm, Hv2, Hv1. reflexivity.
Qed.

(** The hop and the addition that follows it, taken together. *)
Lemma hop_site {B : Type} (K : rfidr_error_t * Z -> M B) :
  (forall r, preserves (stable (nonce_in_step n0)) (K r)) ->
  preserves (stable (nonce_in_step n0))
    (r <- hop_sx1257_frequency env ;;
     modify (fun w => set_m_hopskip_nonce (u8 (m_hopskip_nonce w + 1)) w) ;;
     K r).
Proof.
  intros HK w HI.
  change (wp (r <- hop_sx1257_frequency env ;;
              modify (fun w => set_m_hopskip_nonce (u8 (m_hopskip_nonce w + 1)) w) ;;
              K r)
             (fun _ w' => nonce_in_step n0 w') w).
  apply wp_bind, hop_sx1257_frequency_nonce. intros r w' Hv. wp_next.
  apply wp_bind, wp_modify. wp_next.
  apply (wp_preserves (stable (nonce_in_step n0))); [apply HK |].
  intros _ w'' H. apply H.
  apply (hop_then_count w w' (fun x => x)); auto.
Qed.

(** The same in tracking_core, which notes the slot in between. *)
Lemma hop_site_tracking {B : Type} (K : rfidr_error_t * Z -> M B)
      (g : rfidr_error_t * Z -> tracking_locals -> tracking_locals) :
  (forall r, preserves (stable (nonce_in_step n0)) (K r)) ->
  preserves (stable (nonce_in_step n0))
    (r <- hop_sx1257_frequency env ;;
     set_trk (g r) ;;
     modify (fun w => set_m_hopskip_nonce (u8 (m_hopskip_nonce w + 1)) w) ;;
     K r).
Proof.
  intros HK w HI.
  change (wp (r <- hop_sx1257_frequency env ;;
              set_trk (g r) ;;
              modify (fun w => set_m_hopskip_nonce (u8 (m_hopskip_nonce w + 1)) w) ;;
              K r)
             (fun _ w' => nonce_in_step n0 w') w).
  apply wp_bind, hop_sx1257_frequency_nonce. intros r w' Hv. wp_next.
  unfold set_trk. apply wp_bind, wp_modify. wp_next.
  apply wp_bind, wp_modify. wp_next.
  apply (wp_preserves (stable (nonce_in_step n0))); [apply HK |].
  intros _ w'' H. apply H.
  apply (hop_then_count w w'
           (fun x => set_tracking (g r (tracking x)) x)); auto.
Qed.

(** The nonce a statement reads is the one it then sends. *)
Lemma get_site_step {B : Type} (f : world -> M B) :
  (forall w0, preserves (stable (nonce_is n0 (m_hopskip_nonce w0))) (f w0)) ->
  preserves (stable (nonce_in_step n0)) (bind get f).
Proof.
  intros H w HI. rewrite exec_bind. cbn [result get fst exec snd].
  apply (H w w). split; [exact HI | reflexivity].
Qed.

Lemma get_site_is {B : Type} (m : Z) (f : world -> M B) :
  (forall w0, m_hopskip_nonce w0 = m ->
              preserves (stable (nonce_is n0 m)) (f w0)) ->
  preserves (stable (nonce_is n0 m)) (bind get f).
Proof.
  intros H w HI. rewrite exec_bind. cbn [result get fst exec snd].
  apply (H w (proj2 HI) w HI).
Qed.

Ltac nonce_site :=
  idtac;
  lazymatch goal with
  | |- preserves (stable (nonce_in_step _)) (bind (hop_sx1257_frequency _) _) =>
      first [ apply hop_site | apply hop_site_tracking ];
      intro; pres_walk nonce_site nonce_leaf
  | |- preserves (stable (nonce_in_step _)) (bind get ?f) =>
      lazymatch f with
      | context [m_hopskip_nonce] =>
          apply get_site_step; intro; pres_walk nonce_site nonce_leaf
      end
  | |- preserves (stable (nonce_is _ _)) (bind get ?f) =>
      lazymatch f with
      | context [m_hopskip_nonce] =>
          let E := fresh "E" in
          apply get_site_is; intros ? E; rewrite ?E;
          pres_walk nonce_site nonce_leaf
      end
  end.

Lemma search_core_nonce (error_info : string)
      (session : rfidr_query_session_t) (target : rfidr_target_epc_t)
      (re : return_epc_t) (rm : return_mag_t) (rl : return_lna_gain_t)
      (p : return_ptr) :
  preserves (keeps (nonce_view n0))
            (search_core env error_info session target re rm rl p).
Proof. destruct p; pres_with view_leaf. Qed.
Hint Resolve search_core_nonce : pres.

Lemma program_core_nonce (error_info : string)
      (session : rfidr_query_session_t) (target : rfidr_target_epc_t)
      (content : rfidr_program_content_t) (p : return_ptr) :
  preserves (keeps (nonce_view n0))
            (program_core env error_info session target content p).
Proof. destruct p; pres_with view_leaf. Qed.
Hint Resolve program_core_nonce : pres.

Lemma search_second_runs_nonce (fuel : nat) (state : rfidr_state_t)
      (v : list Z) (loop_hop : Z) :
  preserves (keeps (nonce_view n0)) (search_second_runs env fuel state v loop_hop).
Proof.
  revert loop_hop. induction fuel as [| fuel IH]; intro loop_hop; simpl.
  - pres_with view_leaf.
  - pres_walk ltac:(idtac; apply IH) view_leaf.
Qed.
Hint Resolve search_second_runs_nonce : pres.

Lemma inventory_core_nonce (error_info : string)
      (session : rfidr_query_session_t) (v : Z -> Z) (max_tags : Z)
      (epc2 : string) (p : return_ptr) :
  preserves (stable (nonce_in_step n0))
            (inventory_core env error_info session v max_tags epc2 p).
Proof. destruct p; pres_walk nonce_site nonce_leaf. Qed.
Hint Resolve inventory_core_nonce : pres.

Lemma tx_cal_scan_nonce (cells : list (Z * Z)) (best : cal_best) :
  preserves (keeps (nonce_view n0)) (tx_cal_scan env cells best).
Proof.
  revert best. induction cells as [| [s z] cells IH]; intro best; simpl.
  - pres_with view_leaf.
  - pres_walk ltac:(idtac; apply IH) view_leaf.
Qed.
Hint Resolve tx_cal_scan_nonce : pres.

Lemma initialization_core_nonce (error_info : string) :
  preserves (stable (nonce_in_step n0)) (initialization_core env error_info).
Proof. pres_walk nonce_site nonce_leaf. Qed.
Hint Resolve initialization_core_nonce : pres.

Lemma tracking_loop_nonce (fuel : nat) (body : M unit) :
  preserves (stable (nonce_in_step n0)) body ->
  preserves (stable (nonce_in_step n0)) (tracking_loop env fuel body).
Proof.
  intros Hb. induction fuel as [| fuel IH]; simpl.
  - pres_with nonce_leaf.
  - pres_walk ltac:(idtac; first [apply IH | apply Hb]) nonce_leaf.
Qed.

Variable beyond_literal : Z -> Z.
Variable track_fuel : nat.

Lemma tracking_iteration_nonce (error_info : string)
      (session : rfidr_query_session_t) (mode : rfidr_tracking_mode_t) :
  preserves (stable (nonce_in_step n0))
            (tracking_iteration env error_info session mode).
Proof. pres_walk nonce_site nonce_leaf. Qed.

Lemma tracking_core_nonce (error_info : string)
      (session : rfidr_query_session_t) (mode : rfidr_tracking_mode_t) :
  preserves (stable (nonce_in_step n0))
            (tracking_core env beyond_literal track_fuel error_info session mode).
Proof.
  unfold tracking_core.
  pres_walk ltac:(idtac; apply tracking_loop_nonce, tracking_iteration_nonce)
            nonce_leaf.
Qed.
Hint Resolve tracking_core_nonce : pres.

(** One turn of the outer calibration loop of tracking_core: a hop adds
    one to the nonce, a skip leaves it. *)
Lemma tracking_cal_outer_nonce (error_info : string) (k : Z) (w : world) :
  wp (tracking_cal_outer env error_info k)
     (fun _ w' =>
        m_hopskip_nonce w'
        = if frequency_skip_flag (tracking w) then m_hopskip_nonce w
          else u8 (m_hopskip_nonce w + 1))
     w.
Proof.
  unfold tracking_cal_outer, trk, set_trk.
  destruct (frequency_skip_flag (tracking w)) eqn:Hskip;
    repeat lazymatch goal with
           | |- wp (set_sx1257_frequency _ _) _ _ => fail
           | |- wp (hop_sx1257_frequency _) _ _ => fail
           | |- _ =>
               wp_step wp_forget wp_none
                       ltac:(idtac; cbn in *; rewrite Hskip in *; discriminate)
                       wp_none
           end.
  - wp_rest. apply (wp_preserves (keeps (nonce_view n0))).
    + pres_with view_leaf.
    + intros _ w' H. unfold keeps, nonce_view in H. cbn in H. congruence.
  - apply hop_sx1257_frequency_nonce. intros r w' Hv. wp_next.
    do 4 (wp_step wp_forget wp_none wp_none wp_none).
    wp_rest. apply (wp_preserves (keeps (nonce_view n0))).
    + pres_with view_leaf.
    + intros _ w'' H. unfold keeps, nonce_view in H, Hv. cbn in H, Hv.
      congruence.
Qed.

(** Whatever the pending state, running its case keeps the nonce in step
    with the hops. *)
Lemma run_rfidr_state_machine_nonce :
  preserves (stable (nonce_in_step n0))
            (run_rfidr_state_machine env beyond_literal track_fuel).
Proof. pres_walk nonce_site nonce_leaf. Qed.

End Nonce.

(** The nonce of a trace is the first nonce plus the hops, modulo 256. *)
Lemma replay_nonce_counts (tr : list hw_op) (n0 n : Z) :
  0 <= n0 < 256 ->
  replay_nonce tr n0 = Some n -> n = u8 (n0 + Z.of_nat (hops_in tr)).
Proof.
  intros Hn0. unfold hops_in, u8. revert n.
  induction tr as [| e tr IH]; intros n; cbn [replay_nonce].
  - intros H. injection H as H. subst n.
    cbn. rewrite Z.add_0_r, Z.mod_small; lia.
  - destruct (replay_nonce tr n0) as [m |]; [| discriminate].
    specialize (IH m eq_refl).
    destruct e; cbn [filter is_hop length];
      try (destruct (_ =? m); [| discriminate]);
      intros H; injection H as H; subst n;
      first [ exact IH
            | unfold u8; rewrite IH, Nat2Z.inj_succ, Z.add_mod_idemp_l by lia;
              f_equal; lia ].
Qed.

(** A packet in a trace that replays carries the nonce of its time. *)
Lemma replay_nonce_packet (newer older : list hw_op) (pk : list Z) (n0 n : Z) :
  replay_nonce (newer ++ Ev_ble_rfidrs_pckt_data2_send pk :: older) n0 = Some n ->
  replay_nonce older n0 = Some (pckt_data2_nonce pk).
Proof.
  revert n. induction newer as [| e newer IH]; intros n; cbn [app replay_nonce].
  - destruct (replay_nonce older n0) as [m |]; [| discriminate].
    destruct (_ =? m) eqn:E; [| discriminate].
    apply Z.eqb_eq in E. congruence.
  - destruct (replay_nonce (newer ++ _) n0) as [m |] eqn:E; [| discriminate].
    intros _. apply (IH m eq_refl).
Qed.

Lemma hops_in_app (a b : list hw_op) :
  hops_in (a ++ b) = (hops_in a + hops_in b)%nat.
Proof. unfold hops_in. rewrite filter_app, length_app. reflexivity. Qed.

(** C10.  Let the nonce be in step with the hops made so far, counted from
    a first value n0.  After the state machine has run the case of the
    pending state, whatever the state (initialization with its calibration,
    inventory, tracking, searching, programming or another) and however the
    case ends: m_hopskip_nonce is n0 plus the number of calls of
    hop_sx1257_frequency, modulo 256 as the nonce is a uint8_t; every
    second data packet sent to the application carries in its nonce byte
    the count of the hops made before it; hence two packets with no hop in
    between carry the same nonce, whatever skips were made in between.  In
    one turn of the calibration loop of tracking_core a hop adds one to the
    nonce and a skip leaves it as it is. *)
Theorem nonce_counts_hops_and_not_skips :
  forall (env : nat -> hw_op -> Z) (beyond_literal : Z -> Z)
         (track_fuel : nat) (n0 : Z) (w : world),
    0 <= n0 < 256 ->
    nonce_in_step n0 w ->
    let w' := exec (run_rfidr_state_machine env beyond_literal track_fuel) w in
    m_hopskip_nonce w' = u8 (n0 + Z.of_nat (hops_in (w_trace w')))
    /\ (forall newer pk older,
           w_trace w' = newer ++ Ev_ble_rfidrs_pckt_data2_send pk :: older ->
           pckt_data2_nonce pk = u8 (n0 + Z.of_nat (hops_in older)))
    /\ (forall newer pk2 between pk1 older,
           w_trace w' = newer ++ Ev_ble_rfidrs_pckt_data2_send pk2
                          :: between ++ Ev_ble_rfidrs_pckt_data2_send pk1
                          :: older ->
           hops_in between = 0%nat ->
           pckt_data2_nonce pk2 = pckt_data2_nonce pk1)
    /\ (forall error_info k w0,
           m_hopskip_nonce (exec (tracking_cal_outer env error_info k) w0)
           = if frequency_skip_flag (tracking w0) then m_hopskip_nonce w0
             else u8 (m_hopskip_nonce w0 + 1)).
Proof.
  intros env beyond_literal track_fuel n0 w Hn0 HI w'.
  assert (HI' : nonce_in_step n0 w')
    by (apply (run_rfidr_state_machine_nonce env n0 beyond_literal track_fuel w),
          HI).
  unfold nonce_in_step in HI'.
  assert (Hpk : forall newer pk older,
             w_trace w' = newer ++ Ev_ble_rfidrs_pckt_data2_send pk :: older ->
             pckt_data2_nonce pk = u8 (n0 + Z.of_nat (hops_in older))).
  { intros newer pk older E. rewrite E in HI'.
    apply replay_nonce_packet in HI'.
    apply (replay_nonce_counts older n0 _ Hn0 HI'). }
  split; [apply (replay_nonce_counts _ n0 _ Hn0 HI') |].
  split; [exact Hpk |].
  split.
  - intros newer pk2 between pk1 older E Hb.
    rewrite (Hpk newer pk2 _ E).
    rewrite (Hpk (newer ++ Ev_ble_rfidrs_pckt_data2_send pk2 :: between)
                 pk1 older)
      by (rewrite E, <- app_assoc; reflexivity).
    rewrite hops_in_app, Hb. cbn [hops_in filter is_hop].
    unfold hops_in. cbn [filter is_hop]. reflexivity.
  - intros error_info k w0.
    apply (tracking_cal_outer_nonce env n0 error_info k w0).
Qed.

Lemma nonce_counts_hops_and_not_skips_witness :
  m_hopskip_nonce
    (exec (run_rfidr_state_machine env_ok (fun _ => 0) 1)
          (world_pending SEARCHING_APP_SPECD_TAG))
  = 1.
Proof.
  assert (H0 : 0 <= 0 < 256) by lia.
  assert (H1 : nonce_in_step 0 (world_pending SEARCHING_APP_SPECD_TAG))
    by reflexivity.
  destruct (nonce_counts_hops_and_not_skips env_ok (fun _ => 0) 1 0
              (world_pending SEARCHING_APP_SPECD_TAG) H0 H1) as [H _].
  rewrite H. vm_compute. reflexivity.
Defined.

(** ** The bound and the cleanup of inventory_core *)

Section Triple.

Context {A : Type} (I : world -> Prop) (Qn : A -> world -> Prop)
        (Qr : rfidr_error_t -> world -> Prop) (Qd : world -> Prop).

Lemma triple_bind {B : Type} (c : M B) (f : B -> M A) :
  triple I (fun _ => I) Qr Qd c -> (forall b, triple I Qn Qr Qd (f b)) ->
  triple I Qn Qr Qd (bind c f).
Proof.
  intros Hc Hf w HI. apply wp_bind.
  eapply wp_conseq; [apply Hc, HI |].
  intros [b | rc | |] w' H; simpl in *; auto. apply Hf, H.
Qed.

Lemma triple_ret (a : A) :
  (forall w, I w -> Qn a w) -> triple I Qn Qr Qd (ret a).
Proof. intros H w HI. apply H, HI. Qed.

Lemma triple_return (rc : rfidr_error_t) :
  (forall w, I w -> Qr rc w) -> triple I Qn Qr Qd (return_ rc).
Proof. intros H w HI. apply H, HI. Qed.

Lemma triple_hang : (forall w, I w -> Qd w) -> triple I Qn Qr Qd hang.
Proof. intros H w HI. apply H, HI. Qed.

Lemma triple_reset : (forall w, I w -> Qd w) -> triple I Qn Qr Qd system_reset.
Proof. intros H w HI. apply H, HI. Qed.

Lemma triple_pre (I' : world -> Prop) (c : M A) :
  (forall w, I w -> I' w) -> triple I' Qn Qr Qd c -> triple I Qn Qr Qd c.
Proof. intros H Hc w HI. apply Hc, H, HI. Qed.

Lemma triple_last (c : M A) :
  triple I (fun _ => I) Qr Qd c -> (forall a w, I w -> Qn a w) ->
  triple I Qn Qr Qd c.
Proof.
  intros Hc H w HI. eapply wp_conseq; [apply Hc, HI |].
  intros [a | rc | |] w' H'; simpl in *; auto.
Qed.

End Triple.

Section Triple_steps.

Context (I : world -> Prop) (Qr : rfidr_error_t -> world -> Prop)
        (Qd : world -> Prop).

Lemma triple_get (Qn : world -> world -> Prop) :
  (forall w, I w -> Qn w w) -> triple I Qn Qr Qd get.
Proof. intros H w HI. apply H, HI. Qed.

Lemma triple_modify (Qn : unit -> world -> Prop) (g : world -> world) :
  (forall w, I w -> Qn tt (g w)) -> triple I Qn Qr Qd (modify g).
Proof. intros H w HI. apply H, HI. Qed.

Lemma triple_emit (Qn : unit -> world -> Prop) (e : hw_op) :
  (forall w, I w -> Qn tt (record e w)) -> triple I Qn Qr Qd (emit e).
Proof. intros H w HI. apply H, HI. Qed.

Lemma triple_ask (Qn : Z -> world -> Prop) (env : nat -> hw_op -> Z)
      (e : hw_op) :
  (forall w, I w -> forall r, Qn r (record e w)) ->
  triple I Qn Qr Qd (ask env e).
Proof. intros H w HI. apply H, HI. Qed.

Lemma triple_fn (Qn : rfidr_error_t -> world -> Prop)
      (body : M rfidr_error_t) :
  triple I Qn Qn Qd body -> triple I Qn Qr Qd (fn body).
Proof.
  intros Hb w HI. apply wp_fn.
  eapply wp_conseq; [apply Hb, HI |].
  intros [a | rc | |] w' H; simpl in *; auto.
Qed.

Lemma triple_for_loop (Qn : unit -> world -> Prop) (body : Z -> M bool)
      (n : nat) (i : Z) :
  (forall w, I w -> Qn tt w) ->
  (forall j, triple I (fun _ => I) Qr Qd (body j)) ->
  triple I Qn Qr Qd (for_loop n i body).
Proof.
  intros H Hb. apply triple_last; [| intros []; exact H].
  intros w HI. apply wp_for_loop; [| exact HI].
  intros j w' HI'. apply Hb, HI'.
Qed.

Lemma triple_query_rounds (Qn : unit -> world -> Prop) (limit : Z)
      (v : Z -> Z) (round : Z -> M unit) (fuel : nat) (i : Z) :
  (forall w, I w -> Qn tt w) ->
  (forall w, I w -> Qd w) ->
  (forall j, triple I (fun _ => I) Qr Qd (round j)) ->
  triple I Qn Qr Qd (query_rounds fuel limit v round i).
Proof.
  intros H Hd Hb. apply triple_last; [| intros []; exact H].
  intros w HI. apply wp_query_rounds; [exact Hd | | exact HI].
  intros j w' HI'. apply Hb, HI'.
Qed.

End Triple_steps.

Create HintDb triple.

(** Walks a statement as [pres_walk] does.  [leaf] closes what a call or
    an update of the state has to show, [site] takes the statements that
    break [I] for a while. *)
Ltac triple_walk site leaf :=
  cbv zeta beta;
  first
    [ site
    | lazymatch goal with
      | |- triple _ _ _ _ (bind _ _) =>
          apply triple_bind;
          [triple_walk site leaf | intro; triple_walk site leaf]
      | |- triple _ _ _ _ (ret _) => apply triple_ret; leaf
      | |- triple _ _ _ _ (return_ _) => apply triple_return; leaf
      | |- triple _ _ _ _ system_reset => apply triple_reset; leaf
      | |- triple _ _ _ _ hang => apply triple_hang; leaf
      | |- triple _ _ _ _ get => apply triple_get; leaf
      | |- triple _ _ _ _ (modify _) => apply triple_modify; leaf
      | |- triple _ _ _ _ (emit _) => apply triple_emit; leaf
      | |- triple _ _ _ _ (ask _ _) => apply triple_ask; leaf
      | |- triple _ _ _ _ (fn _) => apply triple_fn; triple_walk site leaf
      | |- triple _ _ _ _ (for_loop _ _ _) =>
          apply triple_for_loop; [leaf | intro; triple_walk site leaf]
      | |- triple _ _ _ _ (query_rounds _ _ _ _ _) =>
          apply triple_query_rounds;
          [leaf | leaf | intro; triple_walk site leaf]
      | |- triple _ _ _ _ (if ?b then _ else _) =>
          destruct b; triple_walk site leaf
      | |- triple _ _ _ _ (match ?x with _ => _ end) =>
          destruct x; triple_walk site leaf
      | |- triple _ _ _ _ ?c =>
          first [ solve [auto with triple]
                | apply triple_last; [solve [auto with triple] | leaf]
                | let h := head_of c in unfold h; triple_walk site leaf ]
      end ].

Lemma ends_of_view (w w' : world) :
  core_view w' = core_view w ->
  ends w' = ends w /\ m_num_inv_tags_found w' = m_num_inv_tags_found w.
Proof.
  intros H. unfold ends.
  rewrite !(count_landmarks is_enter_end_inventory)
    by (intros [] E; (discriminate E || reflexivity)).
  unfold core_view in H. split; [f_equal |]; congruence.
Qed.

(** A leaf that touches neither the count nor the entries. *)
Ltac same_view :=
  cbv beta;
  let H := fresh "H" in
  intros; 
  lazymatch goal with
  | H : ?I ?w |- _ => first [ exact H | cbn; cbv beta delta [record]; cbn; exact H ]
  end.

Section Messages.

Variable env : nat -> hw_op -> Z.
Context (P : nat -> Z -> Prop) (Qr : rfidr_error_t -> world -> Prop)
        (Qd : world -> Prop).
Hypothesis Hd : forall w, on_view P w -> Qd w.

Ltac leaf := first [ exact Hd | same_view ].

Lemma triple_send_full_segments (s seg : string) (counter : Z) :
  triple (on_view P) (fun _ => on_view P) Qr Qd
         (send_full_segments env s seg counter).
Proof.
  revert seg counter. induction s as [| ch s IH]; intros seg counter; simpl.
  - triple_walk no_site leaf.
  - triple_walk ltac:(idtac; apply IH) leaf.
Qed.
Hint Resolve triple_send_full_segments : triple.




End Messages.





Section Inventory.

Variable env : nat -> hw_op -> Z.
Variable c0 : nat.
Variable max_tags : Z.








End Inventory.


(** With a bound of one tag and a reader whose first slot answers, the run
    is given up when the count reaches the bound: one tag counted, an
    error returned, end_inventory entered once. *)
Lemma inventory_gives_up_on_reaching_the_bound :
  let run := inventory_core env_ok "inventorying" SESSION_S2
               q_vector_321 1 "A0B1C2D3E4F5A6B7C8D9E0F1"
               P_return_struct_ant in
  result run (world_in INVENTORYING) = Normal RFIDR_ERROR_GENERAL
  /\ m_num_inv_tags_found (exec run (world_in INVENTORYING)) = 1
  /\ ends (exec run (world_in INVENTORYING)) = 1%nat.
Proof. vm_compute. repeat split. Qed.



(** * Further properties of the code *)


(** ** The magnitudes, from the RX RAM to the packets *)

Lemma magnitude_byte_split (b0 b1 b2 b3 : Z) :
  0 <= b0 < 256 -> 0 <= b1 < 256 -> 0 <= b2 < 256 -> 0 <= b3 < 256 ->
  let m := magnitude_of_bytes [b0; b1; b2; b3] in
  mag_byte m 0 = b0 /\ mag_byte m 1 = b1 /\ mag_byte m 2 = b2
  /\ mag_byte m 3 = b3 /\ (m < 0 <-> 128 <= b3).
Proof.
  intros H0 H1 H2 H3 m.
  assert (Hu : u32 m = b0 + 256 * b1 + 65536 * b2 + 16777216 * b3).
  { unfold m, magnitude_of_bytes, s32, u32. cbn [nth].
    rewrite !Z.shiftl_mul_pow2 by lia.
    change (2 ^ 8) with 256. change (2 ^ 16) with 65536.
    change (2 ^ 24) with 16777216.
    rewrite (Z.mod_small (b0 + b1 * 256 + b2 * 65536 + b3 * 16777216)) by lia.
    destruct (_ <? 2147483648) eqn:E.
    - rewrite Z.mod_small by lia. lia.
    - apply Z.ltb_ge in E.
      replace (b0 + b1 * 256 + b2 * 65536 + b3 * 16777216 - 4294967296)
        with (b0 + b1 * 256 + b2 * 65536 + b3 * 16777216 + (-1) * 4294967296)
        by lia.
      rewrite Z.mod_add by lia. rewrite Z.mod_small by lia. lia. }
  assert (Hs : m < 0 <-> 128 <= b3).
  { unfold m, magnitude_of_bytes, s32, u32. cbn [nth].
    rewrite !Z.shiftl_mul_pow2 by lia.
    change (2 ^ 8) with 256. change (2 ^ 16) with 65536.
    change (2 ^ 24) with 16777216.
    rewrite (Z.mod_small (b0 + b1 * 256 + b2 * 65536 + b3 * 16777216)) by lia.
    destruct (_ <? 2147483648) eqn:E; [apply Z.ltb_lt in E | apply Z.ltb_ge in E];
      lia. }
  unfold mag_byte. rewrite Hu.
  change 255 with (Z.ones 8). rewrite !Z.land_ones by lia.
  rewrite !Z.shiftr_div_pow2 by (cbn; lia).
  change (2 ^ Z.shiftl 0 3) with 1. change (2 ^ Z.shiftl 1 3) with 256.
  change (2 ^ Z.shiftl 2 3) with 65536. change (2 ^ Z.shiftl 3 3) with 16777216.
  change (2 ^ 8) with 256.
  repeat split; try apply Hs.
  - rewrite Z.div_1_r.
    replace (b0 + 256 * b1 + 65536 * b2 + 16777216 * b3)
      with (b0 + (b1 + 256 * b2 + 65536 * b3) * 256) by lia.
    rewrite Z.mod_add by lia. apply Z.mod_small. lia.
  - replace (b0 + 256 * b1 + 65536 * b2 + 16777216 * b3)
      with (b0 + (b1 + 256 * b2 + 65536 * b3) * 256) by lia.
    rewrite Z.div_add by lia. rewrite (Z.div_small b0) by lia.
    replace (0 + (b1 + 256 * b2 + 65536 * b3))
      with (b1 + (b2 + 256 * b3) * 256) by lia.
    rewrite Z.mod_add by lia. apply Z.mod_small. lia.
  - replace (b0 + 256 * b1 + 65536 * b2 + 16777216 * b3)
      with (b0 + 256 * b1 + (b2 + 256 * b3) * 65536) by lia.
    rewrite Z.div_add by lia. rewrite (Z.div_small (b0 + 256 * b1)) by lia.
    replace (0 + (b2 + 256 * b3)) with (b2 + b3 * 256) by lia.
    rewrite Z.mod_add by lia. apply Z.mod_small. lia.
  - replace (b0 + 256 * b1 + 65536 * b2 + 16777216 * b3)
      with (b0 + 256 * b1 + 65536 * b2 + b3 * 16777216) by lia.
    rewrite Z.div_add by lia.
    rewrite (Z.div_small (b0 + 256 * b1 + 65536 * b2)) by lia.
    apply Z.mod_small. lia.
Qed.

Lemma rxram_byte_range (env : nat -> hw_op -> Z) (w : world) (addr : Z)
      (k : nat) :
  0 <= rxram_byte env w addr k < 256.
Proof. unfold rxram_byte, u8. apply Z.mod_pos_bound. lia. Qed.

Lemma read_four_bytes (env : nat -> hw_op -> Z) (addr : Z) (w : world) :
  result (read_bytes env 4 addr) w
  = Normal [rxram_byte env w addr 0; rxram_byte env w addr 1;
            rxram_byte env w addr 2; rxram_byte env w addr 3]
  /\ w_trace (exec (read_bytes env 4 addr) w)
     = [Ev_spi_rxram_read (addr + 3); Ev_spi_rxram_read (addr + 2);
        Ev_spi_rxram_read (addr + 1); Ev_spi_rxram_read addr] ++ w_trace w.
Proof.
  unfold rxram_byte, result, exec. cbn.
  rewrite !Nat.add_0_r, !Z.add_0_r.
  replace (addr + 1 + 1) with (addr + 2) by lia.
  replace (addr + 2 + 1) with (addr + 3) by lia.
  replace (length (w_trace w) + 1)%nat with (S (length (w_trace w))) by lia.
  replace (length (w_trace w) + 2)%nat with (S (S (length (w_trace w)))) by lia.
  replace (length (w_trace w) + 3)%nat
    with (S (S (S (length (w_trace w))))) by lia.
  split; reflexivity.
Qed.

(** The main magnitude that rfidr_read_main_magnitude hands back is made
    of the four bytes of the RX RAM at 7 * 16 + 18 and the three addresses
    that follow, least significant first, and the alternate magnitude of
    the four bytes at 7 * 16 + 22 and following, whatever the type of the
    read: byte k of the 32-bit pattern of the result is the byte read at
    the k-th address, the result is negative exactly when bit 7 of the
    last byte is set, and the function makes these four reads and nothing
    else and answers RFIDR_SUCCESS. *)
Theorem magnitudes_are_the_bytes_of_the_rx_ram :
  forall (env : nat -> hw_op -> Z) (read_type : rfidr_read_rxram_type_t)
         (w : world),
    (exists m,
        result (rfidr_read_main_magnitude env read_type) w
        = Normal (RFIDR_SUCCESS, m)
        /\ (forall k, (k < 4)%nat ->
                      mag_byte m (Z.of_nat k) = rxram_byte env w 130 k)
        /\ (m < 0 <-> 128 <= rxram_byte env w 130 3)
        /\ w_trace (exec (rfidr_read_main_magnitude env read_type) w)
           = [Ev_spi_rxram_read 133; Ev_spi_rxram_read 132;
              Ev_spi_rxram_read 131; Ev_spi_rxram_read 130] ++ w_trace w)
    /\ (exists m,
        result (rfidr_read_alt_magnitude env read_type) w
        = Normal (RFIDR_SUCCESS, m)
        /\ (forall k, (k < 4)%nat ->
                      mag_byte m (Z.of_nat k) = rxram_byte env w 134 k)
        /\ (m < 0 <-> 128 <= rxram_byte env w 134 3)
        /\ w_trace (exec (rfidr_read_alt_magnitude env read_type) w)
           = [Ev_spi_rxram_read 137; Ev_spi_rxram_read 136;
              Ev_spi_rxram_read 135; Ev_spi_rxram_read 134] ++ w_trace w).
Proof.
  intros env read_type w.
  assert (H : forall addr,
             exists m,
               result (bs <- read_bytes env 4 addr ;;
                       ret (RFIDR_SUCCESS, magnitude_of_bytes bs)) w
               = Normal (RFIDR_SUCCESS, m)
               /\ (forall k, (k < 4)%nat ->
                             mag_byte m (Z.of_nat k) = rxram_byte env w addr k)
               /\ (m < 0 <-> 128 <= rxram_byte env w addr 3)
               /\ w_trace (exec (bs <- read_bytes env 4 addr ;;
                                 ret (RFIDR_SUCCESS, magnitude_of_bytes bs)) w)
                  = [Ev_spi_rxram_read (addr + 3); Ev_spi_rxram_read (addr + 2);
                     Ev_spi_rxram_read (addr + 1); Ev_spi_rxram_read addr]
                    ++ w_trace w).
  { intros addr. destruct (read_four_bytes env addr w) as [Hr Ht].
    eexists. rewrite result_bind, exec_bind, Hr. cbn [result exec ret fst snd].
    split; [reflexivity |].
    destruct (magnitude_byte_split
                (rxram_byte env w addr 0) (rxram_byte env w addr 1)
                (rxram_byte env w addr 2) (rxram_byte env w addr 3))
      as (H0 & H1 & H2 & H3 & Hs); try apply rxram_byte_range.
    split; [| split; [exact Hs | exact Ht]].
    intros k Hk.
    destruct k as [| [| [| [| k]]]]; [exact H0 | exact H1 | exact H2 | exact H3 | lia]. }
  split; [apply (H 130) | apply (H 134)].
Qed.


(** ** The packets of rfidr_push_data_over_ble *)

Lemma all_below_spec (n : nat) (P : Z -> bool) :
  all_below n P = true -> forall z, 0 <= z < Z.of_nat n -> P z = true.
Proof.
  unfold all_below. rewrite forallb_forall. intros H z Hz.
  apply H. apply in_map_iff. exists (Z.to_nat z).
  split; [lia |]. apply in_seq. lia.
Qed.

Lemma mag_bytes_join (m : Z) :
  be32 (mag_byte m 3) (mag_byte m 2) (mag_byte m 1) (mag_byte m 0) = u32 m.
Proof.
  unfold be32, mag_byte.
  assert (Hx : 0 <= u32 m < 4294967296) by (apply Z.mod_pos_bound; lia).
  set (x := u32 m) in *.
  change 255 with (Z.ones 8). rewrite !Z.land_ones by lia.
  rewrite !Z.shiftr_div_pow2 by (cbn; lia).
  change (2 ^ Z.shiftl 0 3) with 1. change (2 ^ Z.shiftl 1 3) with 256.
  change (2 ^ Z.shiftl 2 3) with 65536. change (2 ^ Z.shiftl 3 3) with 16777216.
  change (2 ^ 8) with 256. rewrite Z.div_1_r.
  replace 16777216 with (256 * 65536) by reflexivity.
  replace 65536 with (256 * 256) by reflexivity.
  rewrite <- !Z.div_div by lia.
  pose proof (Z.div_mod x 256 ltac:(lia)) as E0.
  pose proof (Z.div_mod (x / 256) 256 ltac:(lia)) as E1.
  pose proof (Z.div_mod (x / 256 / 256) 256 ltac:(lia)) as E2.
  assert (E3 : x / 256 / 256 / 256 mod 256 = x / 256 / 256 / 256).
  { apply Z.mod_small. split.
    - repeat apply Z.div_pos; lia.
    - repeat (apply Z.div_lt_upper_bound; [lia |]). lia. }
  lia.
Qed.

Lemma slot_byte_decodes (slot : Z) (supplement : bool) :
  0 <= slot < 256 ->
  let b := Z.lor (Z.land slot 127) (Z.shiftl (if supplement then 1 else 0) 7) in
  Z.land b 127 = slot mod 128 /\ Z.testbit b 7 = supplement /\ 0 <= b < 256.
Proof.
  intros Hs.
  assert (H : all_below 256
                (fun s =>
                   forallb
                     (fun sup : bool =>
                        let b := Z.lor (Z.land s 127)
                                       (Z.shiftl (if sup then 1 else 0) 7) in
                        (Z.land b 127 =? s mod 128)
                        && Bool.eqb (Z.testbit b 7) sup
                        && (0 <=? b) && (b <? 256))
                     [true; false]) = true) by (vm_compute; reflexivity).
  pose proof (all_below_spec _ _ H slot Hs) as H'. cbv beta in H'.
  rewrite forallb_forall in H'.
  specialize (H' supplement ltac:(destruct supplement; cbn; auto)).
  cbv zeta in H' |- *.
  apply andb_true_iff in H'. destruct H' as [H' H4].
  apply andb_true_iff in H'. destruct H' as [H' H3].
  apply andb_true_iff in H'. destruct H' as [H1 H2].
  apply Z.eqb_eq in H1. apply Bool.eqb_prop in H2.
  apply Z.leb_le in H3. apply Z.ltb_lt in H4. auto.
Qed.

(** The layout of the two packets. *)
Lemma packets_layout (ant cal : rfidr_return_t) (slot fails nonce d d' : Z)
      (mode : rfidr_ble_push_t) :
  let pk1 := pckt_data1_of ant slot mode d in
  let pk2 := pckt_data2_of ant cal fails nonce d' in
  length pk1 = 20%nat /\ length pk2 = 16%nat
  /\ (forall k, (k < 12)%nat -> nth k pk1 0 = nth k (sent_epc ant) 0)
  /\ nth 12 pk1 0
     = Z.lor (Z.land slot 127)
             (Z.shiftl (match mode with
                        | BLE_PUSH_SUPPLEMENT => 1
                        | BLE_PUSH_MINIMAL => 0
                        end) 7)
  /\ nth 19 pk1 0 = d
  /\ be32 (nth 13 pk1 0) (nth 14 pk1 0) (nth 15 pk1 0) (nth 1 pk2 0)
     = sent_i_mag ant
  /\ be32 (nth 16 pk1 0) (nth 17 pk1 0) (nth 18 pk1 0) (nth 2 pk2 0)
     = sent_q_mag ant
  /\ nth 0 pk2 0 = choose_i ant /\ nth 3 pk2 0 = choose_i cal
  /\ be32 (nth 4 pk2 0) (nth 5 pk2 0) (nth 6 pk2 0) (nth 7 pk2 0)
     = sent_i_mag cal
  /\ be32 (nth 8 pk2 0) (nth 9 pk2 0) (nth 10 pk2 0) (nth 11 pk2 0)
     = sent_q_mag cal
  /\ nth 12 pk2 0 = fails /\ nth 14 pk2 0 = nonce /\ nth 15 pk2 0 = d'.
Proof.
  unfold pckt_data1_of, pckt_data2_of, sent_epc, sent_i_mag, sent_q_mag.
  cbv zeta.
  change (Z.to_nat MAX_EPC_LENGTH_IN_BYTES) with 12%nat.
  destruct (choose_i ant =? 1), (choose_i ant =? 0),
           (choose_i cal =? 1), (choose_i cal =? 0);
    cbn [seq map app length nth];
    (split; [reflexivity |]); (split; [reflexivity |]);
    (split;
     [intros k Hk;
      do 12 (destruct k as [| k]; [reflexivity |]); lia |]);
    rewrite ?mag_bytes_join; repeat split; reflexivity.
Qed.

Lemma upper_bytes (a b c x m : Z) :
  0 <= x < 256 -> be32 a b c x = m -> (a * 256 + b) * 256 + c = m / 256.
Proof.
  unfold be32. intros Hx <-.
  rewrite Z.div_add_l by lia. rewrite Z.div_small by lia. lia.
Qed.

Lemma mag_byte_range (m k : Z) : 0 <= mag_byte m k < 256.
Proof.
  unfold mag_byte. change 255 with (Z.ones 8). rewrite Z.land_ones by lia.
  apply Z.mod_pos_bound. reflexivity.
Qed.

Lemma low_byte_range (ant cal : rfidr_return_t) (fails nonce d : Z) :
  0 <= nth 1 (pckt_data2_of ant cal fails nonce d) 0 < 256
  /\ 0 <= nth 2 (pckt_data2_of ant cal fails nonce d) 0 < 256.
Proof.
  unfold pckt_data2_of. cbv zeta. cbn [app nth].
  destruct (choose_i ant =? 1), (choose_i ant =? 0);
    split; first [apply mag_byte_range | lia].
Qed.

(** What rfidr_push_data_over_ble has done when it returns.  It answers
    RFIDR_SUCCESS.  It has sent one packet of 20 bytes on the first data
    characteristic: bytes 0 to 11 are the EPC of the path it chose for the
    antenna result, the low seven bits of byte 12 are the frequency slot,
    bytes 13 to 15 and 16 to 18 are the upper three bytes of the two
    magnitudes of that path, most significant first, byte 19 is the data
    id.  With BLE_PUSH_MINIMAL that is all: bit 7 of byte 12 is clear and
    the data id has moved on by one.  With BLE_PUSH_SUPPLEMENT bit 7 of
    byte 12 is set and a packet of 16 bytes has followed on the second
    characteristic: its bytes 1 and 2 are the low bytes that complete the
    two antenna magnitudes, bytes 0 and 3 tell the paths chosen, bytes 4
    to 7 and 8 to 11 are the two magnitudes of the calibration result,
    byte 12 the number of failed runs, byte 14 the nonce, byte 15 the next
    data id, and the data id has moved on by two. *)
Theorem push_sends_one_or_two_packets :
  forall (env : nat -> hw_op -> Z) (p1 p2 : return_ptr)
         (slot fails nonce : Z) (mode : rfidr_ble_push_t) (w : world)
         (rc : rfidr_error_t),
    0 <= slot < 256 ->
    result (rfidr_push_data_over_ble env p1 p2 slot fails nonce mode) w
    = Normal rc ->
    let ant := load_return p1 w in
    let cal := load_return p2 w in
    let w' := exec (rfidr_push_data_over_ble env p1 p2 slot fails nonce mode)
                   w in
    rc = RFIDR_SUCCESS
    /\ exists pk1,
        length pk1 = 20%nat
        /\ (forall k, (k < 12)%nat -> nth k pk1 0 = nth k (sent_epc ant) 0)
        /\ Z.land (nth 12 pk1 0) 127 = slot mod 128
        /\ (nth 13 pk1 0 * 256 + nth 14 pk1 0) * 256 + nth 15 pk1 0
           = sent_i_mag ant / 256
        /\ (nth 16 pk1 0 * 256 + nth 17 pk1 0) * 256 + nth 18 pk1 0
           = sent_q_mag ant / 256
        /\ nth 19 pk1 0 = data_id w
        /\ match mode with
           | BLE_PUSH_MINIMAL =>
               w_trace w' = Ev_ble_rfidrs_pckt_data1_send pk1 :: w_trace w
               /\ Z.testbit (nth 12 pk1 0) 7 = false
               /\ data_id w' = u8 (data_id w + 1)
           | BLE_PUSH_SUPPLEMENT =>
               exists pk2,
               w_trace w' = Ev_ble_rfidrs_pckt_data2_send pk2
                            :: Ev_ble_rfidrs_pckt_data1_send pk1 :: w_trace w
               /\ Z.testbit (nth 12 pk1 0) 7 = true
               /\ length pk2 = 16%nat
               /\ be32 (nth 13 pk1 0) (nth 14 pk1 0) (nth 15 pk1 0)
                       (nth 1 pk2 0) = sent_i_mag ant
               /\ be32 (nth 16 pk1 0) (nth 17 pk1 0) (nth 18 pk1 0)
                       (nth 2 pk2 0) = sent_q_mag ant
               /\ nth 0 pk2 0 = choose_i ant /\ nth 3 pk2 0 = choose_i cal
               /\ be32 (nth 4 pk2 0) (nth 5 pk2 0) (nth 6 pk2 0) (nth 7 pk2 0)
                  = sent_i_mag cal
               /\ be32 (nth 8 pk2 0) (nth 9 pk2 0) (nth 10 pk2 0)
                       (nth 11 pk2 0) = sent_q_mag cal
               /\ nth 12 pk2 0 = fails /\ nth 14 pk2 0 = nonce
               /\ nth 15 pk2 0 = u8 (data_id w + 1)
               /\ data_id w' = u8 (data_id w + 2)
           end.
Proof.
  intros env p1 p2 slot fails nonce mode w rc Hslot Hres ant cal w'.
  destruct (packets_layout ant cal slot fails nonce (data_id w)
              (u8 (data_id w + 1)) mode)
    as (L1 & L2 & Lepc & Lslot & Lid & Li & Lq & Lc1 & Lc2 & Lci & Lcq
        & Lf & Ln & Ld).
  destruct (low_byte_range ant cal fails nonce (u8 (data_id w + 1)))
    as [R1 R2].
  destruct (slot_byte_decodes slot
              (match mode with
               | BLE_PUSH_SUPPLEMENT => true
               | BLE_PUSH_MINIMAL => false
               end) Hslot) as (S1 & S2 & _).
  cbv zeta in S1, S2.
  assert (Hb : Z.land (nth 12 (pckt_data1_of ant slot mode (data_id w)) 0) 127
               = slot mod 128
               /\ Z.testbit (nth 12 (pckt_data1_of ant slot mode (data_id w)) 0)
                            7
                  = match mode with
                    | BLE_PUSH_SUPPLEMENT => true
                    | BLE_PUSH_MINIMAL => false
                    end).
  { rewrite Lslot. destruct mode; auto. }
  destruct Hb as [Hb1 Hb2].
  unfold w'. clear w'.
  unfold rfidr_push_data_over_ble, send_until_buffered, APP_ERROR_CHECK,
    result, exec in *.
  fold ant cal in Hres |- *.
  unfold bind, get, ask, modify, ret, hang, system_reset in *.
  cbn [fst snd] in *.
  repeat match type of Hres with
         | context [if ?b then _ else _] => destruct b; cbn [fst snd negb] in *
         | context [match ?m with BLE_PUSH_MINIMAL => _ | _ => _ end] =>
             destruct m; cbn [fst snd] in *
         end;
    try discriminate;
    (injection Hres as <-; split; [reflexivity |]);
    eexists; (split; [exact L1 |]); (split; [exact Lepc |]);
    (split; [exact Hb1 |]);
    (split; [apply (upper_bytes _ _ _ _ _ R1 Li) |]);
    (split; [apply (upper_bytes _ _ _ _ _ R2 Lq) |]);
    (split; [exact Lid |]).
  all: try (split; [reflexivity | split; [exact Hb2 | reflexivity]]).
  all: eexists; split; [reflexivity |]; split; [exact Hb2 |];
    repeat (split; [eassumption |]);
    unfold u8; cbn; rewrite Z.add_mod_idemp_l by lia; f_equal; lia.
Qed.

Lemma push_sends_one_or_two_packets_witness :
  data_id (exec (rfidr_push_data_over_ble env_ok P_return_struct_ant
                   P_return_struct_cal 5 0 0 BLE_PUSH_SUPPLEMENT) world_init)
  = u8 (data_id world_init + 2).
Proof.
  assert (Hs : 0 <= 5 < 256) by lia.
  assert (Hr : result (rfidr_push_data_over_ble env_ok P_return_struct_ant
                         P_return_struct_cal 5 0 0 BLE_PUSH_SUPPLEMENT)
                      world_init = Normal RFIDR_SUCCESS)
    by (vm_compute; reflexivity).
  pose proof (push_sends_one_or_two_packets env_ok P_return_struct_ant
                P_return_struct_cal 5 0 0 BLE_PUSH_SUPPLEMENT world_init
                RFIDR_SUCCESS Hs Hr) as H.
  cbv zeta in H.
  destruct H as (_ & pk1 & _ & _ & _ & _ & _ & _ & pk2 & H).
  repeat lazymatch type of H with _ /\ _ => destruct H as [_ H] end.
  exact H.
Defined.


(** ** The frequency plan *)

Lemma sx1257_frequency_decode_cases (slot : Z) :
  (0 <= slot <= 24
   /\ In slot (map Z.of_nat (seq 0 25)))
  \/ (~ 0 <= slot <= 24
      /\ sx1257_frequency_decode slot = sx1257_frequency_decode 12).
Proof.
  destruct slot as [| p | p].
  - left. split; [lia | left; reflexivity].
  - do 5 (try destruct p as [p | p |]);
      first [ right; split; [lia | reflexivity]
            | left; split; [lia |];
              vm_compute; repeat first [left; reflexivity | right] ].
  - right. split; [lia | reflexivity].
Qed.

Lemma slots_are_24_bit (slot : Z) : 0 <= sx1257_frequency_decode slot < 2 ^ 24.
Proof.
  destruct (sx1257_frequency_decode_cases slot) as [[_ Hin] | [_ ->]].
  - vm_compute in Hin.
    repeat (destruct Hin as [<- | Hin]; [vm_compute; intuition congruence |]).
    destruct Hin.
  - vm_compute; intuition congruence.
Qed.

(** Every frequency slot is tuned to its carrier to within 100 Hz: slot 0
    to 903 MHz, each further slot 1 MHz higher, up to 927 MHz for slot 24,
    with slot 12 the 915 MHz centre; a slot number that is none of the 25
    is tuned to the centre.  The tuning word always fits the 24 bits of a
    register triple. *)
Theorem slots_are_one_megahertz_apart :
  forall slot : Z,
    Z.abs (tuning_error (sx1257_frequency_decode slot) (slot_hz slot))
    < 100 * 2 ^ 19
    /\ 0 <= sx1257_frequency_decode slot < 2 ^ 24.
Proof.
  intros slot.
  destruct (sx1257_frequency_decode_cases slot) as [[_ Hin] | [Hout ->]].
  - vm_compute in Hin.
    repeat (destruct Hin as [<- | Hin]; [vm_compute; intuition congruence |]).
    destruct Hin.
  - unfold slot_hz.
    replace ((0 <=? slot) && (slot <=? 24)) with false
      by (symmetry; apply andb_false_iff; lia).
    vm_compute; intuition congruence.
Qed.


(** ** Tuning the SX1257 *)

Lemma tuning_word_bytes (code : Z) :
  0 <= code < 2 ^ 24 ->
  let b k := u8 (Z.land (Z.shiftr code k) 255) in
  be24 (b 16) (b 8) (b 0) = code
  /\ 0 <= b 16 < 256 /\ 0 <= b 8 < 256 /\ 0 <= b 0 < 256.
Proof.
  intros H b. unfold b, be24, u8.
  change 255 with (Z.ones 8). rewrite !Z.land_ones, !Z.shiftr_div_pow2 by lia.
  rewrite !Z.mod_mod by lia.
  change (2 ^ 16) with (256 * 256). change (2 ^ 8) with 256.
  change (2 ^ 0) with 1. rewrite Z.div_1_r.
  rewrite <- Z.div_div by lia.
  pose proof (Z.div_mod code 256 ltac:(lia)).
  pose proof (Z.div_mod (code / 256) 256 ltac:(lia)).
  pose proof (Z.mod_pos_bound code 256 ltac:(lia)).
  pose proof (Z.mod_pos_bound (code / 256) 256 ltac:(lia)).
  pose proof (Z.mod_pos_bound (code / 256 / 256) 256 ltac:(lia)).
  assert (0 <= code / 256 / 256 < 256).
  { split; [apply Z.div_pos; [apply Z.div_pos |]; lia |].
    apply Z.div_lt_upper_bound; [lia |].
    apply Z.div_lt_upper_bound; lia. }
  rewrite (Z.mod_small (code / 256 / 256)) by lia.
  lia.
Qed.

Ltac tuning_case :=
  split; [reflexivity |]; split; [lia |];
  split; [first [intros _; reflexivity | intros HH; congruence] |];
  unfold tuning_trace, frequency_register_writes; cbn [firstn rev app];
  repeat match goal with
         | H : failed _ = true |- _ => rewrite H; clear H
         end;
  reflexivity.

Lemma tuning_writes (env : nat -> hw_op -> Z) (code : Z) (w : world) :
  let b k := u8 (Z.land (Z.shiftr code k) 255) in
  exists (rc : rfidr_error_t) (n : nat),
    result (fn (write_sx1257_frequency_registers env code ;;
                nrf_delay_us 250 ;; ret RFIDR_SUCCESS)) w = Normal rc
    /\ (1 <= n <= 6)%nat /\ (failed rc = false -> n = 6%nat)
    /\ exec (fn (write_sx1257_frequency_registers env code ;;
                 nrf_delay_us 250 ;; ret RFIDR_SUCCESS)) w
       = set_w_trace (tuning_trace rc n (b 16) (b 8) (b 0) ++ w_trace w) w.
Proof.
  intros b. unfold b. clear b.
  unfold write_sx1257_frequency_registers, spi_cntrlr_write_sx1257_robust,
    return_on_error, nrf_delay_us, emit, fn, result, exec.
  unfold bind, ask, modify, ret, return_, record. cbn [fst snd].
  repeat match goal with
         | |- context [failed ?rc] =>
             let E := fresh "E" in
             destruct (failed rc) eqn:E; cbn [fst snd]
         end.
  all: eexists;
    first [ exists 1%nat; tuning_case | exists 2%nat; tuning_case
          | exists 3%nat; tuning_case | exists 4%nat; tuning_case
          | exists 5%nat; tuning_case | exists 6%nat; tuning_case ].
Qed.

Ltac answers_case :=
  cbn [w_trace set_w_trace length] in *;
  split; [reflexivity |];
  split;
  [ split; [lia |];
    split;
    [ let k := fresh "k" in
      let Hk := fresh "Hk" in
      intros k Hk;
      do 5 (destruct k as [| k];
            [ first [ lia
                    | match goal with
                      | H : failed _ = false |- _ => exact H
                      end ] |]); lia
    | split;
      [ let H := fresh "H" in
        intros H; cbn [Nat.sub Nat.add nth frequency_register_writes] in H;
        first [reflexivity | congruence]
      | let H := fresh "H" in
        intros H; cbn [Nat.sub Nat.add nth frequency_register_writes] in H;
        first [split; reflexivity | congruence] ] ]
  | unfold tuning_trace, frequency_register_writes; cbn [firstn rev app];
    repeat match goal with
           | H : failed _ = true |- _ => rewrite H; clear H
           end;
    reflexivity ].

(** The six writes of a tuning, one after the other: each is made only
    when those before it went well, and the first that fails ends the
    tuning with its status. *)
Lemma tuning_writes_answers (env : nat -> hw_op -> Z) (code : Z) (w : world) :
  let b k := u8 (Z.land (Z.shiftr code k) 255) in
  let answer :=
    write_answer env (length (w_trace w))
                 (frequency_register_writes (b 16) (b 8) (b 0)) in
  exists (rc : rfidr_error_t) (n : nat),
    result (fn (write_sx1257_frequency_registers env code ;;
                nrf_delay_us 250 ;; ret RFIDR_SUCCESS)) w = Normal rc
    /\ stops_at_first_failure answer n rc
    /\ exec (fn (write_sx1257_frequency_registers env code ;;
                 nrf_delay_us 250 ;; ret RFIDR_SUCCESS)) w
       = set_w_trace (tuning_trace rc n (b 16) (b 8) (b 0) ++ w_trace w) w.
Proof.
  intros b answer. unfold answer, b, stops_at_first_failure, write_answer.
  clear b answer.
  unfold write_sx1257_frequency_registers, spi_cntrlr_write_sx1257_robust,
    return_on_error, nrf_delay_us, emit, fn, result, exec.
  unfold bind, ask, modify, ret, return_, record. cbn [fst snd].
  cbn [w_trace set_w_trace length frequency_register_writes].
  repeat match goal with
         | |- context [failed ?rc] =>
             let E := fresh "E" in
             destruct (failed rc) eqn:E; cbn [fst snd]
         end.
  all: eexists;
    first [ exists 1%nat; answers_case | exists 2%nat; answers_case
          | exists 3%nat; answers_case | exists 4%nat; answers_case
          | exists 5%nat; answers_case | exists 6%nat; answers_case ].
Qed.

Lemma hop_sx1257_frequency_run (env : nat -> hw_op -> Z) (w : world) :
  hop_sx1257_frequency env w
  = let slot := hop_slot (m_sx1257_frequency_slot w) in
    let r := fn (write_sx1257_frequency_registers env
                   (sx1257_frequency_decode slot) ;;
                 nrf_delay_us 250 ;; ret RFIDR_SUCCESS)
                (set_m_sx1257_frequency_slot slot
                   (record Ev_enter_hop_sx1257_frequency w)) in
    (match fst r with
     | Normal rc => Normal (rc, slot)
     | Return rc => Return rc
     | Reset => Reset
     | Hang => Hang
     end, snd r).
Proof.
  cbv zeta. unfold hop_sx1257_frequency.
  unfold bind at 1 2 3 4. unfold emit, modify, get, ret at 2.
  cbn [fst snd].
  change (m_sx1257_frequency_slot (record Ev_enter_hop_sx1257_frequency w))
    with (m_sx1257_frequency_slot w).
  destruct (fn _ _) as [[rc | rc | |] w1]; reflexivity.
Qed.

Lemma stops_with_success (answer : nat -> rfidr_error_t) (n : nat)
      (rc : rfidr_error_t) :
  stops_at_first_failure answer n rc -> failed rc = false -> n = 6%nat.
Proof.
  intros (_ & _ & Hbad & Hgood) Hrc.
  destruct (failed (answer (n - 1)%nat)) eqn:E.
  - rewrite (Hbad eq_refl), E in Hrc. discriminate.
  - apply Hgood. reflexivity.
Qed.

(** A tuning of the SX1257, by set_sx1257_frequency to a given slot or by
    hop_sx1257_frequency to the slot seven further (modulo 25), writes the
    three bytes of the slot's tuning word, most significant first, to the
    receive registers 1, 2, 3 and then the same three bytes to the transmit
    registers 4, 5, 6.  A write is made only when every write before it
    was answered with RFIDR_SUCCESS: the first write that is answered with
    another status is the last one made, and the tuning answers that very
    status; only when all six were answered with RFIDR_SUCCESS does it
    wait the 250 us and answer RFIDR_SUCCESS.  set_sx1257_frequency leaves
    the slot kept by the driver alone; hop_sx1257_frequency has stored the
    new slot and handed it to the caller whether the writes went well or
    not. *)
Theorem tuning_writes_both_register_triples :
  forall (env : nat -> hw_op -> Z) (w : world),
    (forall slot : Z,
        let w' := exec (set_sx1257_frequency env slot) w in
        exists rc n b2 b1 b0,
          result (set_sx1257_frequency env slot) w = Normal rc
          /\ be24 b2 b1 b0 = sx1257_frequency_decode slot
          /\ 0 <= b2 < 256 /\ 0 <= b1 < 256 /\ 0 <= b0 < 256
          /\ (1 <= n <= 6)%nat /\ (failed rc = false -> n = 6%nat)
          /\ stops_at_first_failure
               (write_answer env (S (length (w_trace w)))
                             (frequency_register_writes b2 b1 b0)) n rc
          /\ w_trace w'
             = tuning_trace rc n b2 b1 b0
               ++ Ev_enter_set_sx1257_frequency slot :: w_trace w
          /\ m_sx1257_frequency_slot w' = m_sx1257_frequency_slot w)
    /\ (let slot := hop_slot (m_sx1257_frequency_slot w) in
        let w' := exec (hop_sx1257_frequency env) w in
        exists rc n b2 b1 b0,
          result (hop_sx1257_frequency env) w = Normal (rc, slot)
          /\ be24 b2 b1 b0 = sx1257_frequency_decode slot
          /\ 0 <= b2 < 256 /\ 0 <= b1 < 256 /\ 0 <= b0 < 256
          /\ (1 <= n <= 6)%nat /\ (failed rc = false -> n = 6%nat)
          /\ stops_at_first_failure
               (write_answer env (S (length (w_trace w)))
                             (frequency_register_writes b2 b1 b0)) n rc
          /\ w_trace w'
             = tuning_trace rc n b2 b1 b0
               ++ Ev_enter_hop_sx1257_frequency :: w_trace w
          /\ m_sx1257_frequency_slot w' = slot).
Proof.
  intros env w. split.
  - intros slot w'. subst w'.
    destruct (slots_are_24_bit slot) as [Hlo Hhi].
    destruct (tuning_word_bytes (sx1257_frequency_decode slot)
                (conj Hlo Hhi)) as (Hw & H2 & H1 & H0).
    destruct (tuning_writes_answers env (sx1257_frequency_decode slot)
                (exec (emit (Ev_enter_set_sx1257_frequency slot)) w))
      as (rc & n & Hres & Hstop & Hex).
    exists rc, n. do 3 eexists.
    unfold set_sx1257_frequency.
    rewrite result_bind, exec_bind.
    change (result (emit (Ev_enter_set_sx1257_frequency slot)) w)
      with (@Normal unit tt).
    cbv iota. rewrite Hres, Hex.
    split; [reflexivity |]. split; [exact Hw |].
    repeat (split; [assumption |]).
    split; [apply Hstop |].
    split; [exact (stops_with_success _ _ _ Hstop) |].
    split; [exact Hstop |].
    split; reflexivity.
  - intros slot w'. subst w'.
    destruct (slots_are_24_bit slot) as [Hlo Hhi].
    destruct (tuning_word_bytes (sx1257_frequency_decode slot)
                (conj Hlo Hhi)) as (Hw & H2 & H1 & H0).
    destruct (tuning_writes_answers env (sx1257_frequency_decode slot)
                (set_m_sx1257_frequency_slot slot
                   (record Ev_enter_hop_sx1257_frequency w)))
      as (rc & n & Hres & Hstop & Hex).
    exists rc, n. do 3 eexists.
    unfold result, exec in *. rewrite hop_sx1257_frequency_run.
    fold slot. cbv zeta. destruct (fn _ _) as [o w1].
    cbn [fst snd] in *. subst o w1.
    split; [reflexivity |]. split; [exact Hw |].
    repeat (split; [assumption |]).
    split; [apply Hstop |].
    split; [exact (stops_with_success _ _ _ Hstop) |].
    split; [exact Hstop |].
    split; reflexivity.
Qed.


(** ** The power amplifier and the state at the end of a run *)

Lemma triple_seq {A B : Type} (I : world -> Prop) (Qm : B -> world -> Prop)
      (Qn : A -> world -> Prop) (Qr : rfidr_error_t -> world -> Prop)
      (Qd : world -> Prop) (c : M B) (f : B -> M A) :
  triple I Qm Qr Qd c -> (forall b, triple (Qm b) Qn Qr Qd (f b)) ->
  triple I Qn Qr Qd (bind c f).
Proof.
  intros Hc Hf w HI. apply wp_bind.
  eapply wp_conseq; [apply Hc, HI |].
  intros [b | rc | |] w' H; simpl in *; auto. apply Hf, H.
Qed.

Lemma triple_conseq {A : Type} (I I' : world -> Prop)
      (Qn Qn' : A -> world -> Prop) (Qr Qr' : rfidr_error_t -> world -> Prop)
      (Qd Qd' : world -> Prop) (c : M A) :
  triple I' Qn' Qr' Qd' c ->
  (forall w, I w -> I' w) -> (forall a w, Qn' a w -> Qn a w) ->
  (forall rc w, Qr' rc w -> Qr rc w) -> (forall w, Qd' w -> Qd w) ->
  triple I Qn Qr Qd c.
Proof.
  intros Hc HI Hn Hr Hd w Hw.
  eapply wp_conseq; [apply Hc, HI, Hw |].
  intros [a | rc | |] w' H; simpl in *; auto.
Qed.

Create HintDb hold.

(** Walks a statement as [triple_walk] does, but lets the condition
    change from a statement to the next: after each statement it holds
    [strong] if that can be shown, [weak] otherwise.  A call of a function
    that [sealed] names is closed by the lemmas on that function alone. *)
Ltac mid_walk strong weak sealed site leaf :=
  cbv zeta beta;
  lazymatch goal with
  | |- triple _ _ _ _ ?c =>
      tryif sealed c then solve [auto with hold] else
      first
        [ site
        | lazymatch goal with
          | |- triple _ _ _ _ (bind _ _) =>
              first
                [ apply (triple_seq _ (fun _ => strong));
                  [ mid_walk strong weak sealed site leaf
                  | intro; mid_walk strong weak sealed site leaf ]
                | apply (triple_seq _ (fun _ => weak));
                  [ mid_walk strong weak sealed site leaf
                  | intro; mid_walk strong weak sealed site leaf ] ]
          | |- triple _ _ _ _ (ret _) => apply triple_ret; leaf
          | |- triple _ _ _ _ (return_ _) => apply triple_return; leaf
          | |- triple _ _ _ _ system_reset => apply triple_reset; leaf
          | |- triple _ _ _ _ hang => apply triple_hang; leaf
          | |- triple _ _ _ _ get => apply triple_get; leaf
          | |- triple _ _ _ _ (modify _) => apply triple_modify; leaf
          | |- triple _ _ _ _ (emit _) => apply triple_emit; leaf
          | |- triple _ _ _ _ (ask _ _) => apply triple_ask; leaf
          | |- triple _ _ _ _ (fn _) =>
              apply triple_fn; mid_walk strong weak sealed site leaf
          | |- triple _ _ _ _ (for_loop _ _ _) =>
              apply triple_for_loop;
              [leaf | intro; mid_walk strong weak sealed site leaf]
          | |- triple _ _ _ _ (query_rounds _ _ _ _ _) =>
              apply triple_query_rounds;
              [leaf | leaf | intro; mid_walk strong weak sealed site leaf]
          | |- triple _ _ _ _ (if ?b then _ else _) =>
              destruct b; mid_walk strong weak sealed site leaf
          | |- triple _ _ _ _ (match ?x with _ => _ end) =>
              destruct x; mid_walk strong weak sealed site leaf
          | |- triple _ _ _ _ ?c =>
              let h := head_of c in
              unfold h; mid_walk strong weak sealed site leaf
          end ]
  end.

(** What an update of the state, a call of the hardware or the end of a
    statement has to show of the pins and the states. *)
Ltac hold_leaf :=
  intros; cbn [fst snd];
  try match goal with
      | E : failed ?rc = _ |- context [failed ?rc] => rewrite E
      end;
  unfold at_rest, entered, entering, pa_held, pa_free, on_hold, in_case in *;
  cbn in *; cbv beta delta [record] in *; cbn in *;
  first [ assumption | exact I | tauto | intuition (subst; auto; fail) ].

Lemma wrte_state_handler_holds (p_data0 : Z) (w : world) :
  pins (rfidrs_wrte_state_handler p_data0 w) = pins w
  /\ m_rfidr_state (rfidrs_wrte_state_handler p_data0 w) = m_rfidr_state w.
Proof.
  unfold rfidrs_wrte_state_handler, write_rfidr_state_next. cbv zeta.
  cbn [snd].
  repeat match goal with
         | |- context [match ?x with _ => _ end] => destruct x
         end; split; reflexivity.
Qed.

Section Hold.

Variable env : nat -> hw_op -> Z.

Section Neutral.

Context (P : bool -> bool -> rfidr_state_t -> rfidr_state_t -> Prop)
        (Qr : rfidr_error_t -> world -> Prop).

Let top : world -> Prop := fun _ => True.

Ltac never c := fail.
Ltac walk := mid_walk (on_hold P) (on_hold P) never no_site hold_leaf.

Lemma hold_send_full_segments (s seg : string) (counter : Z) :
  triple (on_hold P) (fun _ => on_hold P) Qr top
         (send_full_segments env s seg counter).
Proof.
  revert seg counter. induction s as [| ch s IH]; intros seg counter; simpl.
  - walk.
  - mid_walk (on_hold P) (on_hold P) never ltac:(idtac; apply IH) hold_leaf.
Qed.

Lemma hold_read_bytes (n : nat) (addr : Z) :
  triple (on_hold P) (fun _ => on_hold P) Qr top (read_bytes env n addr).
Proof.
  revert addr. induction n as [| n IH]; intros addr; simpl.
  - walk.
  - mid_walk (on_hold P) (on_hold P) never ltac:(idtac; apply IH) hold_leaf.
Qed.

Lemma hold_rfidr_state_bookend_function :
  triple (on_hold P) (fun _ => on_hold P) Qr top
         (rfidr_state_bookend_function env).
Proof. walk. Qed.

Lemma hold_rfidr_error_complete_message_send (s : string) :
  triple (on_hold P) (fun _ => on_hold P) Qr top
         (rfidr_error_complete_message_send env s).
Proof.
  unfold rfidr_error_complete_message_send.
  mid_walk (on_hold P) (on_hold P) never
           ltac:(idtac; apply hold_send_full_segments) hold_leaf.
Qed.

Lemma hold_rfidr_push_data_over_ble (p1 p2 : return_ptr)
      (slot fails nonce : Z) (mode : rfidr_ble_push_t) :
  triple (on_hold P) (fun _ => on_hold P) Qr top
         (rfidr_push_data_over_ble env p1 p2 slot fails nonce mode).
Proof. unfold rfidr_push_data_over_ble. walk. Qed.

End Neutral.

Lemma idle_after_error_twice (s : rfidr_state_t) :
  idle_after_error (idle_after_error s) = idle_after_error s.
Proof. destruct s; reflexivity. Qed.

Lemma in_case_after_error (s0 s : rfidr_state_t) :
  in_case s0 s -> in_case s0 (idle_after_error s).
Proof.
  intros [-> | ->]; right; [reflexivity | apply idle_after_error_twice].
Qed.

(** handle_error switches the amplifier off and falls back to the idle
    state of the state it was called in, whatever it was called with. *)
Lemma hold_handle_error
      (P Q : bool -> bool -> rfidr_state_t -> rfidr_state_t -> Prop)
      (Qr : rfidr_error_t -> world -> Prop) (outer inner : string)
      (rc : rfidr_error_t) :
  (forall en opa s n,
      P en opa s n -> Q false false (idle_after_error s) (idle_after_error s)) ->
  triple (on_hold P) (fun _ => on_hold Q) Qr (fun _ => True)
         (handle_error env outer inner rc).
Proof.
  intros HPQ w Hw. unfold wp.
  destruct (handle_error_steps env outer inner rc w) as [Hex Hres].
  cbv zeta in Hex, Hres. rewrite Hex, Hres. clear Hex Hres.
  apply (hold_rfidr_state_bookend_function Q Qr).
  set (w0 := exec (emit (Ev_enter_handle_error outer inner rc)) w).
  set (wpa := exec rfidr_disable_pa w0).
  set (w1 := exec (rfidr_error_complete_message_send env _) wpa).
  assert (Hst : m_rfidr_state w1 = m_rfidr_state w).
  { unfold w1. rewrite (message_send_keeps env m_rfidr_state); reflexivity. }
  assert (Hpa1 : pins w1 EN_VDD_PA_PIN = false).
  { unfold w1.
    rewrite (message_send_keeps env (fun w => pins w EN_VDD_PA_PIN));
      reflexivity. }
  assert (Hpa2 : pins w1 OPA_SPDT1_CTL_PIN = false).
  { unfold w1.
    rewrite (message_send_keeps env (fun w => pins w OPA_SPDT1_CTL_PIN));
      reflexivity. }
  clearbody w1. clear w0 wpa.
  unfold on_hold in *.
  specialize (HPQ _ _ _ _ Hw).
  change (m_rfidr_state
            (set_m_dtc_state_flag false (set_m_track_tag_state_flag false w1)))
    with (m_rfidr_state w1).
  rewrite Hst. unfold idle_after_error in HPQ.
  destruct (state_eq (m_rfidr_state w) IDLE_UNCONFIGURED
            || state_eq (m_rfidr_state w) INITIALIZING);
    cbn; rewrite Hpa1, Hpa2; exact HPQ.
Qed.

Lemma hold_rfidr_disable_pa
      (P Q : bool -> bool -> rfidr_state_t -> rfidr_state_t -> Prop)
      (Qr : rfidr_error_t -> world -> Prop) (Qd : world -> Prop) :
  (forall en opa s n, P en opa s n -> Q false false s n) ->
  triple (on_hold P) (fun _ => on_hold Q) Qr Qd rfidr_disable_pa.
Proof. intros H w Hw. apply (H _ _ _ _ Hw). Qed.

Lemma hold_rfidr_enable_pa
      (P Q : bool -> bool -> rfidr_state_t -> rfidr_state_t -> Prop)
      (Qr : rfidr_error_t -> world -> Prop) (Qd : world -> Prop) :
  (forall en opa s n, P en opa s n -> Q true true s n) ->
  triple (on_hold P) (fun _ => on_hold Q) Qr Qd rfidr_enable_pa.
Proof. intros H w Hw. apply (H _ _ _ _ Hw). Qed.

(** What handle_error has to be called in. *)
Ltac error_leaf :=
  let H := fresh "H" in
  intros ? ? ? ? H; cbv beta in *;
  first [ exact I
        | tauto
        | repeat split;
          first [ apply in_case_after_error, H | tauto | reflexivity
                | destruct H; auto with hold ] ].

Section Cores.

Variable G : Prop.
Variable s0 : rfidr_state_t.

Hint Extern 1 (triple _ _ _ _ (send_full_segments _ _ _ _)) =>
  unfold at_rest, pa_held, pa_free; apply hold_send_full_segments : hold.
Hint Extern 1 (triple _ _ _ _ (read_bytes _ _ _)) =>
  unfold at_rest, pa_held, pa_free; apply hold_read_bytes : hold.
Hint Extern 1 (triple _ _ _ _ (rfidr_state_bookend_function _)) =>
  unfold at_rest, pa_held, pa_free;
  apply hold_rfidr_state_bookend_function : hold.
Hint Extern 1 (triple _ _ _ _ (rfidr_error_complete_message_send _ _)) =>
  unfold at_rest, pa_held, pa_free;
  apply hold_rfidr_error_complete_message_send : hold.
Hint Extern 1 (triple _ _ _ _ (handle_error _ _ _ _)) =>
  apply hold_handle_error; error_leaf : hold.
Hint Extern 1 (triple _ _ _ _ rfidr_disable_pa) =>
  apply hold_rfidr_disable_pa; error_leaf : hold.
Hint Extern 1 (triple _ _ _ _ rfidr_enable_pa) =>
  apply hold_rfidr_enable_pa; error_leaf : hold.

Hint Extern 1 (triple _ _ _ _ (rfidr_push_data_over_ble _ _ _ _ _ _ _)) =>
  unfold at_rest, pa_held, pa_free; apply hold_rfidr_push_data_over_ble : hold.

(** The functions whose calls are closed by their own lemma. *)
Ltac sealed c :=
  let h := head_of c in
  lazymatch h with
  | send_full_segments => idtac
  | read_bytes => idtac
  | rfidr_state_bookend_function => idtac
  | rfidr_error_complete_message_send => idtac
  | rfidr_push_data_over_ble => idtac
  | handle_error => idtac
  | rfidr_disable_pa => idtac
  | rfidr_enable_pa => idtac
  | search_core => idtac
  | end_inventory => idtac
  | inventory_core => idtac
  | program_core => idtac
  | tx_offset_calibration_core => idtac
  | tx_cal_scan => idtac
  | tx_offset_calibration_brute_force => idtac
  | initialization_core => idtac
  | tracking_loop => idtac
  | tracking_core => idtac
  end.

Ltac walk := mid_walk (pa_held G s0) (pa_free s0) sealed no_site hold_leaf.

Lemma hold_search_core (error_info : string)
      (session : rfidr_query_session_t) (target : rfidr_target_epc_t)
      (re : return_epc_t) (rm : return_mag_t) (rl : return_lna_gain_t)
      (p : return_ptr) :
  forall Qr, triple (pa_held G s0) (fun _ => pa_held G s0) Qr (fun _ => True)
         (search_core env error_info session target re rm rl p).
Proof. intro Qr; destruct p; unfold search_core; walk. Qed.
Hint Resolve hold_search_core : hold.

Lemma hold_end_inventory (error_info : string) :
  forall Qr, triple (pa_free s0) (fun _ => pa_held G s0) Qr (fun _ => True)
         (end_inventory env error_info).
Proof. intro Qr; unfold end_inventory; walk. Qed.

Lemma held_is_free (w : world) : pa_held G s0 w -> pa_free s0 w.
Proof. unfold pa_held, pa_free, on_hold. tauto. Qed.

Lemma hold_end_inventory_held (error_info : string) :
  forall Qr, triple (pa_held G s0) (fun _ => pa_held G s0) Qr (fun _ => True)
         (end_inventory env error_info).
Proof.
  intro Qr. eapply triple_pre; [apply held_is_free | apply hold_end_inventory].
Qed.
Hint Resolve hold_end_inventory hold_end_inventory_held : hold.

Lemma hold_inventory_core (error_info : string)
      (session : rfidr_query_session_t) (v : Z -> Z) (max_tags : Z)
      (epc2 : string) (p : return_ptr) :
  forall Qr, triple (pa_held G s0) (fun _ => pa_held G s0) Qr (fun _ => True)
         (inventory_core env error_info session v max_tags epc2 p).
Proof. intro Qr; destruct p; unfold inventory_core; walk. Qed.
Hint Resolve hold_inventory_core : hold.

Lemma hold_program_core (error_info : string)
      (session : rfidr_query_session_t) (target : rfidr_target_epc_t)
      (content : rfidr_program_content_t) (p : return_ptr) :
  forall Qr, triple (pa_held G s0) (fun _ => pa_held G s0) Qr (fun _ => True)
         (program_core env error_info session target content p).
Proof. intro Qr; destruct p; unfold program_core; walk. Qed.
Hint Resolve hold_program_core : hold.

Lemma hold_tx_offset_calibration_core (sdm zgn : Z) :
  forall Qr, triple (pa_held G s0) (fun _ => pa_held G s0) Qr (fun _ => True)
         (tx_offset_calibration_core env sdm zgn).
Proof. intro Qr; unfold tx_offset_calibration_core; walk. Qed.
Hint Resolve hold_tx_offset_calibration_core : hold.

Lemma hold_tx_cal_scan (cells : list (Z * Z)) (best : cal_best) :
  triple (pa_held G s0) (fun _ => pa_held G s0) (fun _ => pa_held G s0)
         (fun _ => True) (tx_cal_scan env cells best).
Proof.
  revert best.
  induction cells as [| [s z] cells IH]; intro best; simpl.
  - walk.
  - mid_walk (pa_held G s0) (pa_free s0) sealed ltac:(idtac; apply IH)
             hold_leaf.
Qed.
Hint Resolve hold_tx_cal_scan : hold.

Lemma hold_tx_offset_calibration_brute_force :
  forall Qr, triple (pa_held G s0) (fun _ => pa_held G s0) Qr (fun _ => True)
         (tx_offset_calibration_brute_force env).
Proof. intro Qr; unfold tx_offset_calibration_brute_force; walk. Qed.
Hint Resolve hold_tx_offset_calibration_brute_force : hold.

Lemma hold_initialization_core (error_info : string) :
  forall Qr, triple (pa_held G s0) (fun _ => pa_held G s0) Qr (fun _ => True)
         (initialization_core env error_info).
Proof. intro Qr; unfold initialization_core; walk. Qed.
Hint Resolve hold_initialization_core : hold.

(** A write of the application while tracking runs changes the pending
    state at most. *)
Ltac event_site :=
  idtac;
  lazymatch goal with
  | |- triple _ _ _ _ (modify (rfidrs_wrte_state_handler ?r)) =>
      let w := fresh "w" in
      let H := fresh "H" in
      apply triple_modify; intros w H;
      unfold pa_held, pa_free, on_hold in *;
      destruct (wrte_state_handler_holds r w) as [-> ->]; exact H
  end.

Lemma hold_tracking_loop (fuel : nat) (body : M unit) :
  triple (pa_held G s0) (fun _ => pa_held G s0) (fun _ => pa_held G s0)
         (fun _ => True) body ->
  triple (pa_held G s0) (fun _ => pa_held G s0) (fun _ => pa_held G s0)
         (fun _ => True) (tracking_loop env fuel body).
Proof.
  intros Hb. induction fuel as [| fuel IH]; simpl.
  - walk.
  - mid_walk (pa_held G s0) (pa_free s0) sealed
             ltac:(idtac; first [apply IH | apply Hb | event_site]) hold_leaf.
Qed.

Variable beyond_literal : Z -> Z.
Variable track_fuel : nat.

Lemma hold_tracking_iteration (error_info : string)
      (session : rfidr_query_session_t) (mode : rfidr_tracking_mode_t) :
  triple (pa_held G s0) (fun _ => pa_held G s0) (fun _ => pa_held G s0)
         (fun _ => True) (tracking_iteration env error_info session mode).
Proof. unfold tracking_iteration; walk. Qed.

Hint Extern 1 (triple _ _ _ _ (tracking_loop _ _ _)) =>
  apply hold_tracking_loop; apply hold_tracking_iteration : hold.

Lemma hold_tracking_core (error_info : string)
      (session : rfidr_query_session_t) (mode : rfidr_tracking_mode_t) :
  forall Qr, triple (pa_held G s0) (fun _ => pa_held G s0) Qr (fun _ => True)
         (tracking_core env beyond_literal track_fuel error_info session mode).
Proof. intro Qr; unfold tracking_core; walk. Qed.
Hint Resolve hold_tracking_core : hold.

End Cores.

Section Cases.

Variable G : Prop.
Variable s0 : rfidr_state_t.

Hint Extern 1 (triple _ _ _ _ (send_full_segments _ _ _ _)) =>
  unfold at_rest, pa_held, pa_free; apply hold_send_full_segments : hold.
Hint Extern 1 (triple _ _ _ _ (read_bytes _ _ _)) =>
  unfold at_rest, pa_held, pa_free; apply hold_read_bytes : hold.
Hint Extern 1 (triple _ _ _ _ (rfidr_state_bookend_function _)) =>
  unfold at_rest, pa_held, pa_free;
  apply hold_rfidr_state_bookend_function : hold.
Hint Extern 1 (triple _ _ _ _ (rfidr_error_complete_message_send _ _)) =>
  unfold at_rest, pa_held, pa_free;
  apply hold_rfidr_error_complete_message_send : hold.
Hint Extern 1 (triple _ _ _ _ (rfidr_push_data_over_ble _ _ _ _ _ _ _)) =>
  unfold at_rest, pa_held, pa_free; apply hold_rfidr_push_data_over_ble : hold.
Hint Extern 1 (triple _ _ _ _ (handle_error _ _ _ _)) =>
  apply hold_handle_error; error_leaf : hold.
Hint Extern 1 (triple _ _ _ _ rfidr_disable_pa) =>
  apply hold_rfidr_disable_pa; error_leaf : hold.
Hint Extern 1 (triple _ _ _ _ rfidr_enable_pa) =>
  apply hold_rfidr_enable_pa; error_leaf : hold.
Hint Resolve hold_search_core hold_inventory_core hold_program_core
     hold_initialization_core hold_tracking_core : hold.

Ltac sealed c :=
  let h := head_of c in
  lazymatch h with
  | send_full_segments => idtac
  | read_bytes => idtac
  | rfidr_state_bookend_function => idtac
  | rfidr_error_complete_message_send => idtac
  | rfidr_push_data_over_ble => idtac
  | handle_error => idtac
  | rfidr_disable_pa => idtac
  | rfidr_enable_pa => idtac
  | search_core => idtac
  | inventory_core => idtac
  | program_core => idtac
  | initialization_core => idtac
  | tracking_core => idtac
  | search_second_runs => idtac
  end.

Lemma entered_is_held (w : world) : entered G s0 w -> pa_held G s0 w.
Proof. unfold entered, pa_held, on_hold, in_case. intuition. Qed.

Lemma hold_idle_unconfigured (Qr : rfidr_error_t -> world -> Prop) :
  triple (at_rest G s0) (fun _ => at_rest G s0) Qr (fun _ => True)
         (rfidr_disable_led1 ;; rfidr_state_bookend_function env).
Proof. mid_walk (at_rest G s0) (at_rest G s0) sealed no_site hold_leaf. Qed.

Lemma hold_idle_configured (Qr : rfidr_error_t -> world -> Prop) :
  triple (at_rest G s0) (fun _ => at_rest G s0) Qr (fun _ => True)
         (rfidr_enable_led1 ;;
          send_short_message env "Got here" ;;
          rfidr_state_bookend_function env).
Proof. mid_walk (at_rest G s0) (at_rest G s0) sealed no_site hold_leaf. Qed.

(** A case that can end in an error. *)
Section Fallible.

Hypothesis Herr : In (idle_after_error s0) (ends_in s0).
Hypothesis Hok : In IDLE_CONFIGURED (ends_in s0).

Lemma rest_after_error (s : rfidr_state_t) :
  in_case s0 s -> In (idle_after_error s) (ends_in s0).
Proof.
  intros [-> | ->]; [| rewrite idle_after_error_twice]; exact Herr.
Qed.
Hint Resolve rest_after_error : hold.

Ltac case_leaf := first [ hold_leaf | intros; exact Hok ].

(** The statements of a case after which the condition depends on the
    value they give: a test that tells whether the case is left, and the
    first of the two assignments to the states. *)
Ltac case_walk :=
  mid_walk (at_rest G s0) (pa_held G s0) sealed case_site hold_leaf
with case_site :=
  idtac;
  lazymatch goal with
  | |- triple _ _ _ _ (bind (modify (set_m_rfidr_state_next ?v)) _) =>
      apply (triple_seq _ (fun _ => entering G v));
      [ apply triple_modify; hold_leaf | intro; case_walk ]
  | |- triple _ _ _ _ (if failed ?rc then _ else _) =>
      let E := fresh "E" in
      destruct (failed rc) eqn:E; case_walk
  | |- triple _ _ _ _ (bind (search_second_runs _ _ _ _ _) _) =>
      apply (triple_seq _ (fun lr : Z * rfidr_error_t =>
                             if failed (snd lr) then at_rest G s0
                             else pa_held G s0));
      [ solve [auto with hold]
      | intros [? rc]; cbn [fst snd]; unfold unless;
        destruct (failed rc); case_walk ]
  | |- triple _ _ _ _ (bind ?c _) =>
      let T := type of c in
      lazymatch T with
      | M bool =>
          first
            [ apply (triple_seq _ (fun stop : bool =>
                                     if stop then at_rest G s0
                                     else pa_held G s0));
              [ case_walk
              | intros [|]; unfold unless; cbv iota; case_walk ]
            | apply (triple_seq _ (fun _ : bool => at_rest G s0));
              [ case_walk
              | intros [|]; unfold unless; cbv iota; case_walk ] ]
      end
  end.

Lemma hold_search_second_runs (Qr : rfidr_error_t -> world -> Prop)
      (fuel : nat) (state : rfidr_state_t) (v : list Z) (loop_hop : Z) :
  triple (pa_held G s0)
         (fun lr => if failed (snd lr) then at_rest G s0 else pa_held G s0)
         Qr (fun _ => True) (search_second_runs env fuel state v loop_hop).
Proof.
  revert loop_hop. induction fuel as [| fuel IH]; intro loop_hop; simpl.
  - apply triple_ret. hold_leaf.
  - case_walk.
Qed.
Hint Resolve hold_search_second_runs : hold.

Lemma hold_state_searching (Qr : rfidr_error_t -> world -> Prop)
      (state : rfidr_state_t) :
  triple (pa_held G s0) (fun _ => at_rest G s0) Qr (fun _ => True)
         (state_searching env state).
Proof. unfold state_searching. case_walk. Qed.

Lemma hold_state_initializing (Qr : rfidr_error_t -> world -> Prop) :
  triple (pa_held G s0) (fun _ => at_rest G s0) Qr (fun _ => True)
         (state_initializing env).
Proof. unfold state_initializing. case_walk. Qed.

Lemma hold_state_inventorying (Qr : rfidr_error_t -> world -> Prop)
      (beyond_literal : Z -> Z) :
  triple (pa_held G s0) (fun _ => at_rest G s0) Qr (fun _ => True)
         (state_inventorying env beyond_literal).
Proof. unfold state_inventorying. case_walk. Qed.

Lemma hold_state_tracking (Qr : rfidr_error_t -> world -> Prop)
      (beyond_literal : Z -> Z) (track_fuel : nat) (state : rfidr_state_t) :
  triple (pa_held G s0) (fun _ => at_rest G s0) Qr (fun _ => True)
         (state_tracking env beyond_literal track_fuel state).
Proof. unfold state_tracking. case_walk. Qed.

Lemma hold_state_programming (Qr : rfidr_error_t -> world -> Prop)
      (state : rfidr_state_t) :
  triple (pa_held G s0) (fun _ => at_rest G s0) Qr (fun _ => True)
         (state_programming env state).
Proof. unfold state_programming. case_walk. Qed.

Lemma hold_state_recovering_waveform_memory
      (Qr : rfidr_error_t -> world -> Prop) :
  triple (pa_held G s0) (fun _ => at_rest G s0) Qr (fun _ => True)
         (state_recovering_waveform_memory env).
Proof. unfold state_recovering_waveform_memory. case_walk. Qed.

Hypothesis Hdtc : In TESTING_DTC (ends_in s0).

Lemma hold_state_testing_dtc (Qr : rfidr_error_t -> world -> Prop) :
  triple (pa_held G s0) (fun _ => at_rest G s0) Qr (fun _ => True)
         (state_testing_dtc env).
Proof. unfold state_testing_dtc. case_walk. Qed.

End Fallible.

Lemma hold_state_reset_sx1257_and_fpga
      (Qr : rfidr_error_t -> world -> Prop) :
  In IDLE_UNCONFIGURED (ends_in s0) ->
  triple (pa_held G s0) (fun _ => at_rest G s0) Qr (fun _ => True)
         (state_reset_sx1257_and_fpga env).
Proof.
  intros Hun. unfold state_reset_sx1257_and_fpga.
  mid_walk (at_rest G s0) (pa_held G s0) sealed
           ltac:(idtac;
                 lazymatch goal with
                 | |- triple _ _ _ _
                        (bind (modify (set_m_rfidr_state_next ?v)) _) =>
                     apply (triple_seq _ (fun _ => entering G v));
                     [ apply triple_modify; hold_leaf
                     | intro; apply triple_modify; hold_leaf ]
                 end)
           hold_leaf.
Qed.

End Cases.

Variable beyond_literal : Z -> Z.
Variable track_fuel : nat.

Lemma entered_is_at_rest (G : Prop) (s0 : rfidr_state_t) (w : world) :
  In s0 (ends_in s0) -> entered G s0 w -> at_rest G s0 w.
Proof.
  unfold entered, at_rest, on_hold. intros Hin (Hpa & -> & ->). auto.
Qed.

(** The case of the pending state, from its head to its end. *)
Lemma hold_case (G : Prop) (s0 : rfidr_state_t) :
  triple (entered G s0) (fun _ => at_rest G s0) (fun _ _ => False)
         (fun _ => True)
         (match s0 with
          | IDLE_UNCONFIGURED =>
              rfidr_disable_led1 ;;
              rfidr_state_bookend_function env
          | IDLE_CONFIGURED =>
              rfidr_enable_led1 ;;
              send_short_message env "Got here" ;;
              rfidr_state_bookend_function env
          | INITIALIZING => state_initializing env
          | SEARCHING_APP_SPECD_TAG | SEARCHING_LAST_INV_TAG =>
              state_searching env s0
          | INVENTORYING => state_inventorying env beyond_literal
          | TRACK_APP_SPECD_TAG | TRACK_LAST_INV_TAG =>
              state_tracking env beyond_literal track_fuel s0
          | TESTING_DTC => state_testing_dtc env
          | PROGRAMMING_APP_SPECD_TAG | PROGRAMMING_LAST_INV_TAG | KILL_TAG
          | PROGRAMMING_KILL_PASSWD =>
              state_programming env s0
          | RECOVERING_WAVEFORM_MEMORY =>
              state_recovering_waveform_memory env
          | RESET_SX1257_AND_FPGA => state_reset_sx1257_and_fpga env
          end).
Proof.
  destruct s0;
    lazymatch goal with
    | |- triple _ _ _ _ (rfidr_disable_led1 ;; _) =>
        eapply triple_pre;
        [ intro; apply entered_is_at_rest; cbn; auto
        | apply hold_idle_unconfigured ]
    | |- triple _ _ _ _ (rfidr_enable_led1 ;; _) =>
        eapply triple_pre;
        [ intro; apply entered_is_at_rest; cbn; auto
        | apply hold_idle_configured ]
    | |- _ =>
        eapply triple_pre;
        [ apply entered_is_held
        | lazymatch goal with
          | |- triple _ _ _ _ (state_initializing _) =>
              apply hold_state_initializing
          | |- triple _ _ _ _ (state_searching _ _) =>
              apply hold_state_searching
          | |- triple _ _ _ _ (state_inventorying _ _) =>
              apply hold_state_inventorying
          | |- triple _ _ _ _ (state_tracking _ _ _ _) =>
              apply hold_state_tracking
          | |- triple _ _ _ _ (state_testing_dtc _) =>
              apply hold_state_testing_dtc
          | |- triple _ _ _ _ (state_programming _ _) =>
              apply hold_state_programming
          | |- triple _ _ _ _ (state_recovering_waveform_memory _) =>
              apply hold_state_recovering_waveform_memory
          | |- triple _ _ _ _ (state_reset_sx1257_and_fpga _) =>
              apply hold_state_reset_sx1257_and_fpga
          end; vm_compute; intuition ]
    end.
Qed.


(** A run of the state machine ends at rest. *)
Lemma run_rfidr_state_machine_holds (G : Prop) (w : world) :
  (G -> pa_disabled w) ->
  wp (run_rfidr_state_machine env beyond_literal track_fuel)
     (post (fun _ => at_rest G (m_rfidr_state_next w)) (fun _ _ => False)
           (fun _ => True))
     w.
Proof.
  intros Hpa. unfold run_rfidr_state_machine.
  apply wp_bind, wp_modify. cbn [then_].
  apply wp_bind, wp_get. cbn [then_].
  change (m_rfidr_state (set_m_rfidr_state (m_rfidr_state_next w) w))
    with (m_rfidr_state_next w).
  apply (hold_case G (m_rfidr_state_next w)).
  unfold entered, on_hold. cbn. auto.
Qed.


End Hold.




(** The power amplifier is never left on: when a run of the state
    machine that began with the amplifier switched off returns, the
    amplifier is switched off, whatever the pending state was, whatever
    the hardware and the application answered and whichever errors
    occurred. *)
Theorem state_machine_leaves_the_amplifier_off :
  forall (env : nat -> hw_op -> Z) (beyond_literal : Z -> Z)
         (track_fuel : nat) (w : world),
    pa_disabled w ->
    result (run_rfidr_state_machine env beyond_literal track_fuel) w
    = Normal tt ->
    pa_disabled
      (exec (run_rfidr_state_machine env beyond_literal track_fuel) w).
Proof.
  intros env beyond_literal track_fuel w Hpa Hres.
  pose proof (run_rfidr_state_machine_holds env beyond_literal track_fuel
                True w (fun _ => Hpa)) as H.
  unfold wp in H. rewrite Hres in H. cbn [post] in H.
  unfold at_rest, on_hold in H. exact (proj1 H I).
Qed.

Lemma state_machine_leaves_the_amplifier_off_witness :
  pa_disabled
    (exec (run_rfidr_state_machine env_ok (fun _ => 0) 1)
          (world_pending INVENTORYING)).
Proof.
  assert (Hp : pa_disabled (world_pending INVENTORYING))
    by (split; reflexivity).
  assert (Hr : result (run_rfidr_state_machine env_ok (fun _ => 0) 1)
                      (world_pending INVENTORYING) = Normal tt)
    by (vm_compute; reflexivity).
  exact (state_machine_leaves_the_amplifier_off env_ok (fun _ => 0) 1
           (world_pending INVENTORYING) Hp Hr).
Defined.


(** ** Messages in segments *)

Lemma string_length_app (a b : string) :
  String.length (a ++ b) = (String.length a + String.length b)%nat.
Proof. induction a as [| c a IH]; simpl; [reflexivity | rewrite IH; reflexivity]. Qed.

Lemma string_app_assoc (a b c : string) :
  ((a ++ b) ++ c)%string = (a ++ (b ++ c))%string.
Proof. induction a as [| x a IH]; simpl; [reflexivity | rewrite IH; reflexivity]. Qed.

Lemma string_app_nil_r (a : string) : (a ++ "")%string = a.
Proof. induction a as [| x a IH]; simpl; [reflexivity | rewrite IH; reflexivity]. Qed.

Lemma concat_segments_app (a b : list string) :
  String.concat "" (a ++ b)
  = (String.concat "" a ++ String.concat "" b)%string.
Proof.
  induction a as [| x a IH]; [reflexivity |].
  destruct a as [| y a].
  - simpl. destruct b; simpl; [rewrite string_app_nil_r |]; reflexivity.
  - change (String.concat "" ((x :: y :: a) ++ b))
      with (x ++ "" ++ String.concat "" ((y :: a) ++ b))%string.
    rewrite IH. simpl. rewrite string_app_assoc. reflexivity.
Qed.

Section Segments.

Variable env : nat -> hw_op -> Z.

Lemma send_full_segments_sends (s seg : string) (w : world) :
  (String.length seg < 20)%nat ->
  exists (chunks : list (string * Z)) (seg' : string),
    result (send_full_segments env s seg (Z.of_nat (String.length seg))) w
    = Normal (seg', Z.of_nat (String.length seg'))
    /\ w_trace (exec (send_full_segments env s seg
                        (Z.of_nat (String.length seg))) w)
       = rev (map log_send chunks) ++ w_trace w
    /\ (String.length seg' < 20)%nat
    /\ (String.concat "" (map fst chunks) ++ seg')%string = (seg ++ s)%string
    /\ Forall full_segment chunks
    /\ (20 * length chunks + String.length seg'
        = String.length seg + String.length s)%nat.
Proof.
  revert seg w. induction s as [| c s IH]; intros seg w Hlen.
  - exists [], seg. simpl. rewrite string_app_nil_r.
    repeat split; auto.
  - cbn [send_full_segments]. cbv zeta.
    assert (Hl : String.length (seg ++ String c "") = S (String.length seg)).
    { rewrite string_length_app. simpl. lia. }
    replace (Z.of_nat (String.length seg) + 1)
      with (Z.of_nat (String.length (seg ++ String c ""))) by lia.
    unfold BLE_RFIDRS_LOG_MESSGE_CHAR_LEN.
    destruct (Z.of_nat (String.length (seg ++ String c "")) =? 20) eqn:E.
    + apply Z.eqb_eq in E.
      set (full := (seg ++ String c "")%string) in *.
      match goal with
      | |- context [bind ?a _] => set (head := a)
      end.
      assert (Hh : exists r w1, head w = (Normal r, w1)
                                /\ w_trace w1
                                   = Ev_ble_rfidrs_log_messge_send full 20
                                     :: w_trace w).
      { unfold head, ble_rfidrs_log_messge_send, ask, bind, ret. rewrite E.
        do 2 eexists. split; reflexivity. }
      destruct Hh as (r & w1 & Hh & Ht1).
      assert (Hn : exists w2, note_attempt r w1 = (Normal tt, w2)
                              /\ w_trace w2 = w_trace w1).
      { unfold note_attempt. destruct (negb _); eexists; split; reflexivity. }
      destruct Hn as (w2 & Hn & Ht2).
      destruct (IH ""%string w2 ltac:(simpl; lia))
        as (chunks & seg' & Hres & Htr & Hlt & Hcat & Hfull & Hcount).
      exists ((full, 20) :: chunks), seg'.
      unfold result, exec in *.
      unfold bind at 1 3. rewrite Hh. cbn [fst snd].
      unfold bind at 1 2. rewrite Hn. cbn [fst snd].
      change (Z.of_nat (String.length "")) with 0 in Hres, Htr.
      rewrite Hres, Htr, Ht2, Ht1.
      split; [reflexivity |]. split.
      { cbn [map rev]. rewrite <- app_assoc. reflexivity. }
      split; [exact Hlt |]. split.
      { cbn [map fst].
        change (String.concat "" (full :: map fst chunks))
          with (String.concat "" ([full] ++ map fst chunks)).
        rewrite concat_segments_app. cbn [String.concat].
        rewrite string_app_assoc, Hcat. unfold full.
        rewrite string_app_assoc. reflexivity. }
      split.
      { constructor; [| exact Hfull]. split; [cbn [fst]; lia | reflexivity]. }
      cbn [length]. simpl String.length in *. lia.
    + apply Z.eqb_neq in E.
      destruct (IH (seg ++ String c "")%string w ltac:(lia))
        as (chunks & seg' & Hres & Htr & Hlt & Hcat & Hfull & Hcount).
      exists chunks, seg'.
      rewrite Hres, Htr.
      repeat split; auto.
      * rewrite Hcat, string_app_assoc. reflexivity.
      * rewrite Hcount, Hl. simpl. lia.
Qed.

End Segments.

(** rfidr_error_complete_message_send always returns, and it sends the
    message whole and in order: first every full segment of 20 characters,
    then a last segment with the characters that are left and the
    terminating null, whose length is sent with it; that last segment is
    sent even when it holds the null alone.  Putting the segments end to
    end gives the message back.  After the message it sends at most the
    two notifications that report refusals of the stack met before. *)
Theorem message_is_sent_in_segments :
  forall (env : nat -> hw_op -> Z) (s : string) (w : world),
    exists (rc : Z) (fulls : list (string * Z)) (tail : string)
           (extra : list (string * Z)),
      result (rfidr_error_complete_message_send env s) w = Normal rc
      /\ w_trace (exec (rfidr_error_complete_message_send env s) w)
         = rev (map log_send
                    (fulls
                     ++ [((tail ++ String zero "")%string,
                          Z.of_nat (String.length tail) + 1)]
                     ++ extra))
           ++ w_trace w
      /\ (String.concat "" (map fst fulls) ++ tail)%string = s
      /\ Forall full_segment fulls
      /\ length fulls = (String.length s / 20)%nat
      /\ String.length tail = (String.length s mod 20)%nat
      /\ recovery_notice extra.
Proof.
  intros env s w.
  destruct (send_full_segments_sends env s ""%string w ltac:(simpl; lia))
    as (fulls & tail & Hres & Htr & Hlt & Hcat & Hfull & Hcount).
  change (Z.of_nat (String.length "")) with 0 in Hres, Htr.
  simpl String.length in Hcount. simpl in Hcat.
  assert (Hdiv : length fulls = (String.length s / 20)%nat
                 /\ String.length tail = (String.length s mod 20)%nat).
  { assert (H : (String.length s = 20 * length fulls + String.length tail)%nat)
      by lia.
    rewrite H. split.
    - apply Nat.div_unique with (String.length tail); lia.
    - apply Nat.mod_unique with (length fulls); lia. }
  destruct Hdiv as [Hq Hr].
  set (last := ((tail ++ String zero "")%string,
                Z.of_nat (String.length tail) + 1)).
  enough (Hwp : wp (rfidr_error_complete_message_send env s)
                   (fun o w' =>
                      exists rc extra,
                        o = Normal rc
                        /\ w_trace w'
                           = rev (map log_send extra)
                             ++ log_send last
                             :: rev (map log_send fulls) ++ w_trace w
                        /\ recovery_notice extra) w).
  { destruct Hwp as (rc & extra & Ho & Ht & Hx).
    exists rc, fulls, tail, extra. fold last.
    split; [exact Ho |]. split.
    { rewrite Ht, !map_app, !rev_app_distr. cbn [map rev app].
      rewrite <- !app_assoc. reflexivity. }
    auto. }
  unfold rfidr_error_complete_message_send.
  apply wp_bind. unfold wp at 1. rewrite Hres. wp_next.
  revert Htr. generalize (exec (send_full_segments env s "" 0) w).
  intros w1 Htr. cbn [fst snd]. fold last.
  unfold ble_rfidrs_log_messge_send.
  apply wp_bind, wp_bind, wp_ask. wp_next. apply wp_ret. wp_next.
  set (r1 := u8 _).
  destruct (negb (r1 =? NRF_ERROR_INVALID_STATE)).
  - apply wp_bind. unfold note_attempt.
    destruct (negb _); [apply wp_modify | apply wp_ret]; wp_next;
      apply wp_ret; exists r1, []; (split; [reflexivity |]);
      (split; [| left; reflexivity]);
      cbn [w_trace record set_w_trace set_m_num_failed_attempts
             set_m_failed_attempt_flag map rev app];
      rewrite Htr; reflexivity.
  - apply wp_bind, wp_get. wp_next.
    destruct (m_failed_attempt_flag _).
    2:{ apply wp_ret. exists r1, []. split; [reflexivity |].
        split; [| left; reflexivity].
        cbn [w_trace record set_w_trace map rev app].
        rewrite Htr. reflexivity. }
    apply wp_bind, wp_bind, wp_ask. wp_next. apply wp_ret. wp_next.
    set (r2 := u8 _).
    destruct (negb (r2 =? NRF_ERROR_INVALID_STATE)).
    + apply wp_bind. unfold note_attempt.
      destruct (negb _); [apply wp_modify | apply wp_ret]; wp_next;
        apply wp_ret; exists r2, [("Rcvrd. BT ops after"%string, 20)];
        (split; [reflexivity |]);
        (split; [| right; left; reflexivity]);
        cbn [w_trace record set_w_trace set_m_num_failed_attempts
               set_m_failed_attempt_flag];
        rewrite Htr; reflexivity.
    + apply wp_bind, wp_bind, wp_ask. wp_next. apply wp_ret. wp_next.
      set (r3 := u8 _).
      destruct (negb (r3 =? NRF_ERROR_INVALID_STATE)).
      * apply wp_bind. unfold note_attempt.
        destruct (negb _); [apply wp_modify | apply wp_ret]; wp_next;
          apply wp_ret; exists r3; eexists;
          (split; [reflexivity |]);
          (split; [| right; right; eexists; reflexivity]);
          cbn [w_trace record set_w_trace set_m_num_failed_attempts
                 set_m_failed_attempt_flag];
          rewrite Htr; reflexivity.
      * apply wp_bind, wp_modify. wp_next. apply wp_ret.
        exists r3; eexists.
        split; [reflexivity |].
        split; [| right; right; eexists; reflexivity].
        cbn [w_trace record set_w_trace set_m_num_failed_attempts
               set_m_failed_attempt_flag].
        rewrite Htr. reflexivity.
Qed.


(** ** The TX offset calibration *)

Lemma scan_picks_nil (best : cal_best) : scan_picks [] [] best best.
Proof. left. split; [reflexivity |]. simpl. intros j Hj. lia. Qed.

Lemma scan_picks_cons (c : Z * Z) (cells : list (Z * Z)) (x : Z)
      (samples : list Z) (best best' : cal_best) :
  scan_picks cells samples
             (if x <? meas_power_best best
              then mk_cal_best (fst c) (snd c) x else best) best' ->
  scan_picks (c :: cells) (x :: samples) best best'.
Proof.
  unfold scan_picks, lowest_first.
  destruct (x <? meas_power_best best) eqn:E;
    [apply Z.ltb_lt in E | apply Z.ltb_ge in E]; cbn [meas_power_best].
  - intros [[-> Hall] | (k & (Hk & Hlow & Hfirst) & Hlt & ->)]; right.
    + exists 0%nat. cbn [nth length fst snd].
      repeat split; try lia.
      * intros [| j] Hj; [lia | apply Hall; lia].
    + exists (S k). cbn [nth length].
      repeat split; try lia.
      * intros [| j] Hj; [lia | apply Hlow; lia].
      * intros [| j] Hj; [lia | apply Hfirst; lia].
  - intros [[-> Hall] | (k & (Hk & Hlow & Hfirst) & Hlt & ->)].
    + left. split; [reflexivity |].
      intros [| j] Hj; cbn [nth]; [lia | apply Hall; simpl in Hj; lia].
    + right. exists (S k). cbn [nth length].
      repeat split; try lia.
      * intros [| j] Hj; [lia | apply Hlow; lia].
      * intros [| j] Hj; [lia | apply Hfirst; lia].
Qed.

(** What an update of the state or a call of the hardware, the ADC
    apart, has to show of the samples and the offsets. *)
Ltac cal_leaf :=
  intros; cbn [fst snd];
  try match goal with
      | E : failed ?rc = _ |- context [failed ?rc] => rewrite E
      end;
  unfold on_cal in *;
  cbn in *; cbv beta delta [record] in *; cbn in *;
  first [ assumption | exact I | tauto | left; reflexivity
        | intuition (subst; auto; fail) ].

Section Calibration.

Variable env : nat -> hw_op -> Z.

Section Cal_neutral.

Context (P : list Z -> Z -> option Z -> option Z -> Prop)
        (Qr : rfidr_error_t -> world -> Prop).

Ltac never c := fail.
Ltac walk := mid_walk (on_cal env P) (on_cal env P) never no_site cal_leaf.

Lemma cal_send_full_segments (s seg : string) (counter : Z) :
  triple (on_cal env P) (fun _ => on_cal env P) Qr (fun _ => True)
         (send_full_segments env s seg counter).
Proof.
  revert seg counter. induction s as [| ch s IH]; intros seg counter; simpl.
  - walk.
  - mid_walk (on_cal env P) (on_cal env P) never ltac:(idtac; apply IH)
             cal_leaf.
Qed.

Lemma cal_rfidr_error_complete_message_send (s : string) :
  triple (on_cal env P) (fun _ => on_cal env P) Qr (fun _ => True)
         (rfidr_error_complete_message_send env s).
Proof.
  unfold rfidr_error_complete_message_send.
  mid_walk (on_cal env P) (on_cal env P) never
           ltac:(idtac; apply cal_send_full_segments) cal_leaf.
Qed.

Lemma cal_handle_error (outer inner : string) (rc : rfidr_error_t) :
  triple (on_cal env P) (fun _ => on_cal env P) Qr (fun _ => True)
         (handle_error env outer inner rc).
Proof.
  unfold handle_error.
  mid_walk (on_cal env P) (on_cal env P) never
           ltac:(idtac; apply cal_rfidr_error_complete_message_send) cal_leaf.
Qed.

End Cal_neutral.

Section Scan.

Variable base : list Z.

(** Before and after the sample of a cell. *)
Let before : world -> Prop := on_cal env (fun ss _ _ _ => ss = base).
Let after : world -> Prop := on_cal env (fun ss x _ _ => ss = base ++ [x]).

Ltac never c := fail.

Ltac scan_leaf :=
  first [ cal_leaf | intros; right; cal_leaf | intros; left; assumption ].

Ltac cal_walk := mid_walk after before never cal_site scan_leaf
with cal_site :=
  idtac;
  lazymatch goal with
  | |- triple ?I (fun _ => ?J) _ _ (handle_error _ _ _ _) =>
      constr_eq I J; apply cal_handle_error
  | |- triple _ _ _ _ (if failed ?rc then _ else _) =>
      let E := fresh "E" in
      destruct (failed rc) eqn:E; cal_walk
  | |- triple _ _ _ _ (bind (ask _ Ev_wait_adc_returned) _) =>
      apply (triple_seq _ (fun sample =>
                             on_cal env (fun ss _ _ _ =>
                                           ss = base
                                                ++ [Z.land sample 0xFFFF])));
      [ let w := fresh "w" in
        let H := fresh "H" in
        intros w H; apply wp_ask; unfold on_cal in *; cbn in *;
        rewrite H; reflexivity
      | intro; cal_walk ]
  end.

(** One cell: the sample taken is the one the scan then compares. *)
Lemma cal_tx_offset_calibration_core (Qr : rfidr_error_t -> world -> Prop)
      (sdm zgn : Z) :
  triple before
         (fun rc => on_cal env (fun ss x _ _ =>
                                  failed rc = true \/ ss = base ++ [x]))
         Qr (fun _ => True) (tx_offset_calibration_core env sdm zgn).
Proof.
  unfold tx_offset_calibration_core. apply triple_fn. cal_walk.
Qed.

End Scan.

Ltac never c := fail.

(** The scan of the cells: one sample for each cell, and the best of
    them kept. *)
Lemma cal_tx_cal_scan (cells : list (Z * Z)) :
  forall (base : list Z) (best : cal_best),
    triple (on_cal env (fun ss _ _ _ => ss = base))
           (fun best' =>
              on_cal env (fun ss _ _ _ =>
                            exists new,
                              ss = base ++ new
                              /\ length new = length cells
                              /\ scan_picks cells new best best'))
           (fun rc _ => failed rc = true) (fun _ => True)
           (tx_cal_scan env cells best).
Proof.
  induction cells as [| [sdm zgn] cells IH]; intros base best; simpl.
  - apply triple_ret. intros w H. exists []. rewrite app_nil_r.
    split; [exact H |]. split; [reflexivity | apply scan_picks_nil].
  - eapply triple_seq; [apply (cal_tx_offset_calibration_core base) |].
    intro rc. destruct (failed rc) eqn:E.
    + apply (triple_seq _ (fun _ _ => False)); [| intros _ w []].
      apply (triple_seq _ (fun _ _ => True)).
      * intros w _. apply (cal_handle_error (fun _ _ _ _ => True)). exact I.
      * intros _. apply triple_return. intros w _. exact E.
    + apply (triple_seq _ (fun _ => on_cal env (fun ss x _ _ =>
                                                 ss = base ++ [x]))).
      { apply triple_ret. unfold on_cal. intros w [H | H]; [congruence | exact H]. }
      intros _.
      apply (triple_seq _ (fun w0 =>
                             on_cal env (fun ss _ _ _ =>
                                           ss = base ++ [m_last_adc_sample w0]))).
      { apply triple_get. intros w H. exact H. }
      intros w0.
      eapply triple_conseq;
        [ apply (IH (base ++ [m_last_adc_sample w0])) | auto | | auto | auto ].
      intros best' w (new & Hss & Hlen & Hpick).
      exists (m_last_adc_sample w0 :: new).
      split; [rewrite Hss, <- app_assoc; reflexivity |].
      split; [simpl; lia |].
      apply scan_picks_cons. exact Hpick.
Qed.

(** The whole calibration: the offsets written at the end are those the
    scan has kept. *)
Lemma cal_tx_offset_calibration_brute_force
      (Qr : rfidr_error_t -> world -> Prop) (base : list Z) :
  triple (on_cal env (fun ss _ _ _ => ss = base))
         (fun rc =>
            on_cal env (fun ss _ sd zg =>
                          failed rc = true
                          \/ exists new best',
                               ss = base ++ new
                               /\ length new = length tx_cal_grid
                               /\ scan_picks tx_cal_grid new
                                             (mk_cal_best 8 8 9999) best'
                               /\ sd = Some (sdm_offset_best best')
                               /\ zg = Some (zgn_offset_best best')))
         Qr (fun _ => True) (tx_offset_calibration_brute_force env).
Proof.
  unfold tx_offset_calibration_brute_force.
  generalize tx_cal_grid. intro cells. apply triple_fn.
  set (I0 := on_cal env (fun ss _ _ _ => ss = base)).
  set (Q := fun rc : rfidr_error_t => on_cal env _).
  assert (Hfail : forall rc w, failed rc = true -> Q rc w).
  { intros rc w H. left. exact H. }
  assert (Hbail : forall (I : world -> Prop) P outer rc,
             I = on_cal env P ->
             triple I (fun _ => I) Q (fun _ => True)
                    (if failed rc
                     then handle_error env outer "" rc ;; return_ rc
                     else ret tt)).
  { intros I P outer rc ->. destruct (failed rc) eqn:E.
    - apply (triple_seq _ (fun _ _ => True)).
      + intros w _. apply (cal_handle_error (fun _ _ _ _ => True)). exact I.
      + intros _. apply triple_return. intros w _. apply Hfail, E.
    - apply triple_ret. auto. }
  apply (triple_seq _ (fun _ => I0)).
  { let i := eval unfold I0 in I0 in mid_walk i i never no_site cal_leaf. }
  intro r.
  apply (triple_seq _ (fun _ => I0)).
  { unfold I0. apply triple_modify. cal_leaf. }
  intros _.
  apply (triple_seq _ (fun _ => I0)); [eapply Hbail; reflexivity |].
  intros _.
  apply (triple_seq _ (fun _ => I0)).
  { let i := eval unfold I0 in I0 in mid_walk i i never no_site cal_leaf. }
  intros _.
  eapply triple_seq.
  { eapply triple_conseq; [apply (cal_tx_cal_scan cells base) | .. ];
      [auto | intros a w H; exact H | | auto].
    intros rc w H. apply Hfail, H. }
  intro best'. cbv beta.
  set (J := on_cal env (fun ss _ _ _ => exists new, _)).
  apply (triple_seq _ (fun _ => J)).
  { let j := eval unfold J in J in mid_walk j j never no_site cal_leaf. }
  intros _.
  set (J1 := on_cal env (fun ss _ sd _ =>
                           (exists new,
                               ss = base ++ new
                               /\ length new = length cells
                               /\ scan_picks cells new
                                             (mk_cal_best 8 8 9999) best')
                           /\ sd = Some (sdm_offset_best best'))).
  apply (triple_seq _ (fun _ => J1)).
  { let j := eval unfold J in J in
    let j1 := eval unfold J1 in J1 in
    unfold J, J1; mid_walk j1 j never no_site cal_leaf. }
  intro rc1.
  apply (triple_seq _ (fun _ => J1)); [eapply Hbail; reflexivity |].
  intros _.
  set (J2 := on_cal env (fun ss _ sd zg =>
                           (exists new,
                               ss = base ++ new
                               /\ length new = length cells
                               /\ scan_picks cells new
                                             (mk_cal_best 8 8 9999) best')
                           /\ sd = Some (sdm_offset_best best')
                           /\ zg = Some (zgn_offset_best best'))).
  apply (triple_seq _ (fun _ => J2)).
  { let j1 := eval unfold J1 in J1 in
    let j2 := eval unfold J2 in J2 in
    unfold J1, J2; mid_walk j2 j1 never no_site cal_leaf. }
  intro rc2.
  apply (triple_seq _ (fun _ => J2)); [eapply Hbail; reflexivity |].
  intros _.
  apply (triple_seq _ (fun _ => J2)).
  { unfold send_short_message.
    apply (triple_seq _ (fun _ => J2));
      [apply cal_rfidr_error_complete_message_send | intro; apply triple_ret; auto]. }
  intros _. apply triple_ret.
  intros w ((new & Hss & Hlen & Hpick) & Hsd & Hzg).
  right. exists new, best'. auto.
Qed.

End Calibration.

Lemma tx_cal_grid_nth (k : nat) :
  (k < 256)%nat ->
  nth k tx_cal_grid (0, 0) = (Z.of_nat k / 16, Z.of_nat k mod 16).
Proof.
  intros Hk.
  assert (H : forallb (fun k => let c := nth k tx_cal_grid (0, 0) in
                               (fst c =? Z.of_nat k / 16)
                               && (snd c =? Z.of_nat k mod 16))
                      (seq 0 256) = true) by (vm_compute; reflexivity).
  rewrite forallb_forall in H.
  specialize (H k ltac:(apply in_seq; lia)). cbv zeta in H.
  apply andb_true_iff in H. destruct H as [H1 H2].
  apply Z.eqb_eq in H1, H2.
  destruct (nth k tx_cal_grid (0, 0)) as [a b]. cbn [fst snd] in *.
  congruence.
Qed.

(** When tx_offset_calibration_brute_force succeeds it has taken 256 ADC
    samples, one for each pair of offsets, the SDM offset counting 0 to 15
    and for each of its values the ZGN offset counting 0 to 15; and the
    offsets it has written last to the FPGA are those of the lowest
    sample, the first of them when several samples are as low.  When no
    sample is below 9999 it has written the offsets 8 and 8 instead. *)
Theorem calibration_keeps_the_lowest_power :
  forall (env : nat -> hw_op -> Z) (w : world),
    result (tx_offset_calibration_brute_force env) w = Normal RFIDR_SUCCESS ->
    let w' := exec (tx_offset_calibration_brute_force env) w in
    exists samples : list Z,
      adc_samples env (w_trace w') = adc_samples env (w_trace w) ++ samples
      /\ length samples = 256%nat
      /\ ((forall j, (j < 256)%nat -> 9999 <= nth j samples 0)
           /\ last_tx_sdm_offset (w_trace w') = Some 8
           /\ last_tx_zgn_offset (w_trace w') = Some 8
          \/ exists k,
               lowest_first samples k
               /\ nth k samples 0 < 9999
               /\ last_tx_sdm_offset (w_trace w') = Some (Z.of_nat k / 16)
               /\ last_tx_zgn_offset (w_trace w')
                  = Some (Z.of_nat k mod 16)).
Proof.
  intros env w Hres w'.
  pose proof (cal_tx_offset_calibration_brute_force env (fun _ _ => True)
                (adc_samples env (w_trace w)) w eq_refl) as H.
  unfold wp in H. rewrite Hres in H. cbn [post] in H. fold w' in H.
  unfold on_cal in H.
  destruct H as [H | (new & best' & Hss & Hlen & Hpick & Hsd & Hzg)];
    [discriminate H |].
  change (length tx_cal_grid) with 256%nat in Hlen.
  exists new. split; [exact Hss |]. split; [exact Hlen |].
  destruct Hpick as [[-> Hall] | (k & Hlow & Hlt & ->)].
  - left. rewrite Hlen in Hall. auto.
  - right. exists k. cbn [sdm_offset_best zgn_offset_best] in Hsd, Hzg.
    assert (Hk : (k < 256)%nat) by (rewrite <- Hlen; apply Hlow).
    rewrite (tx_cal_grid_nth k Hk) in Hsd, Hzg. cbn [fst snd] in Hsd, Hzg.
    auto.
Qed.

Lemma calibration_keeps_the_lowest_power_witness :
  exists samples : list Z,
    adc_samples env_ok
      (w_trace (exec (tx_offset_calibration_brute_force env_ok) world_init))
    = adc_samples env_ok (w_trace world_init) ++ samples
    /\ length samples = 256%nat.
Proof.
  assert (Hr : result (tx_offset_calibration_brute_force env_ok) world_init
               = Normal RFIDR_SUCCESS) by (vm_compute; reflexivity).
  destruct (calibration_keeps_the_lowest_power env_ok world_init Hr)
    as (samples & H1 & H2 & _).
  exists samples. split; [exact H1 | exact H2].
Defined.


(** ** The read-back check after programming *)

Lemma lor_disjoint_add (hi lo n : Z) :
  0 <= n -> 0 <= lo < 2 ^ n -> Z.lor (hi * 2 ^ n) lo = hi * 2 ^ n + lo.
Proof.
  intros Hn Hlo.
  assert (Hl : Z.land (hi * 2 ^ n) lo = 0).
  { apply Z.bits_inj'. intros i Hi. rewrite Z.land_spec, Z.bits_0.
    destruct (Z.lt_ge_cases i n) as [H | H].
    - rewrite Z.mul_pow2_bits_low by lia. reflexivity.
    - destruct (Z.eq_dec lo 0) as [-> | Hne];
        [rewrite Z.bits_0; apply andb_false_r |].
      rewrite (Z.bits_above_log2 lo i); [apply andb_false_r | lia |].
      apply Z.log2_lt_pow2; [lia |].
      apply Z.lt_le_trans with (2 ^ n); [lia |].
      apply Z.pow_le_mono_r; lia. }
  rewrite <- Z.lxor_lor by exact Hl.
  symmetry. apply Z.add_nocarry_lxor. exact Hl.
Qed.

Lemma lor_add_low (acc lo n : Z) :
  0 <= n -> acc mod 2 ^ n = 0 -> 0 <= lo < 2 ^ n -> Z.lor acc lo = acc + lo.
Proof.
  intros Hn Hacc Hlo.
  assert (Hp : 0 < 2 ^ n) by (apply Z.pow_pos_nonneg; lia).
  rewrite (Z.div_mod acc (2 ^ n)) by lia.
  rewrite Hacc, Z.add_0_r, (Z.mul_comm (2 ^ n)).
  apply lor_disjoint_add; assumption.
Qed.

(** Closed powers of two, as numbers. *)
Ltac norm_pow :=
  repeat match goal with
         | |- context [2 ^ ?n] =>
             let v := eval vm_compute in (2 ^ n) in
             progress change (2 ^ n) with v
         end.

Ltac is_pos p :=
  lazymatch p with
  | xH => idtac
  | xI ?q => is_pos q
  | xO ?q => is_pos q
  end.

Ltac is_num z :=
  lazymatch z with
  | Z0 => idtac
  | Zpos ?p => is_pos p
  | Zneg ?p => is_pos p
  end.

(** [m] divides a sum of numbers and of products by numbers that are
    multiples of [m]. *)
Ltac divides :=
  repeat apply Z.divide_add_r;
  lazymatch goal with
  | |- (?m | ?x * ?c) =>
      let q := eval vm_compute in (c / m) in
      exists (x * q); lia
  | |- (?m | ?c) =>
      is_num c;
      let q := eval vm_compute in (c / m) in
      exists q; reflexivity
  end.

(** Adds to the word under construction a part that lies below it. *)
Ltac add_low n :=
  match goal with
  | |- context [Z.lor ?a ?lo] =>
      lazymatch a with
      | context [Z.lor] => fail
      | _ =>
          rewrite (lor_add_low a lo n);
          [ | lia | norm_pow; apply Z.mod_divide; [lia | divides]
            | norm_pow; lia ]
      end
  end.

(** Names the bounds of the bytes the goal mentions. *)
Ltac byte_bounds Hb b :=
  repeat match goal with
         | |- context [b ?k] =>
             lazymatch goal with
             | H : 0 <= b k < 256 |- _ => fail
             | |- _ => pose proof (Hb k)
             end
         end.

(** Turns masks and shifts by constants into [mod], [/] and [*]. *)
Ltac to_arith :=
  change 127 with (Z.ones 7); change 255 with (Z.ones 8);
  rewrite ?Z.land_ones by lia;
  change (Z.land ?x 1) with (Z.land x (Z.ones 1));
  rewrite ?Z.land_ones by lia;
  repeat match goal with
         | |- context [Z.shiftl (Z.pos ?p) 3] =>
             let v := eval vm_compute in (Z.shiftl (Z.pos p) 3) in
             change (Z.shiftl (Z.pos p) 3) with v
         | |- context [Z.shiftl 0 3] => change (Z.shiftl 0 3) with 0
         | |- context [?a - ?c] =>
             let v := eval vm_compute in (a - c) in
             progress change (a - c) with v
         end;
  rewrite ?Z.shiftl_mul_pow2, ?Z.shiftr_div_pow2 by lia;
  norm_pow.

Lemma u64_small (x : Z) : 0 <= x < 2 ^ 64 -> u64 x = x.
Proof. intros H. unfold u64. apply Z.mod_small. exact H. Qed.

Lemma u32_small (x : Z) : 0 <= x < 2 ^ 32 -> u32 x = x.
Proof. intros H. unfold u32. apply Z.mod_small. norm_pow. lia. Qed.

Lemma top_bit (x : Z) : 0 <= x < 256 -> (x / 128) mod 2 = x / 128.
Proof.
  intros H. apply Z.mod_small.
  split; [apply Z.div_pos; lia | apply Z.div_lt_upper_bound; lia].
Qed.

(** The 64-bit word is the sum of the parts shifted into it. *)
Lemma assembled_msb_sum (b : nat -> Z) :
  (forall k, 0 <= b k < 256) ->
  assembled_msb b
  = b 0%nat mod 128 * 2 ^ 57 + b 1%nat * 2 ^ 49 + b 2%nat * 2 ^ 41
    + b 3%nat * 2 ^ 33 + b 4%nat * 2 ^ 25 + b 5%nat * 2 ^ 17
    + b 6%nat * 2 ^ 9 + b 7%nat * 2 + b 8%nat / 128.
Proof.
  intros Hb.
  unfold assembled_msb. cbv zeta.
  cbn [seq fold_left Nat.add Z.of_nat].
  byte_bounds Hb b.
  pose proof (Z.mod_pos_bound (b 0%nat) 128 ltac:(lia)).
  assert (0 <= b 8%nat / 128 < 2)
    by (split; [apply Z.div_pos; lia | apply Z.div_lt_upper_bound; lia]).
  to_arith.
  rewrite !(Z.mod_small (b _) 256) by lia.
  rewrite top_bit by lia.
  rewrite !u64_small by (norm_pow; lia).
  rewrite Z.lor_0_l.
  add_low 57. add_low 49. add_low 41. add_low 33. add_low 25. add_low 17.
  add_low 9. add_low 1.
  reflexivity.
Qed.

(** So is the 32-bit word. *)
Lemma assembled_lsb_sum (b : nat -> Z) :
  (forall k, 0 <= b k < 256) ->
  assembled_lsb b
  = b 8%nat mod 128 * 2 ^ 25 + b 9%nat * 2 ^ 17 + b 10%nat * 2 ^ 9
    + b 11%nat * 2 + b 12%nat / 128.
Proof.
  intros Hb.
  unfold assembled_lsb. cbv zeta.
  cbn [seq fold_left Nat.add Z.of_nat].
  byte_bounds Hb b.
  pose proof (Z.mod_pos_bound (b 8%nat) 128 ltac:(lia)).
  assert (0 <= b 12%nat / 128 < 2)
    by (split; [apply Z.div_pos; lia | apply Z.div_lt_upper_bound; lia]).
  to_arith.
  rewrite !(Z.mod_small (b _) 256) by lia.
  rewrite top_bit by lia.
  rewrite !u32_small by (norm_pow; lia).
  rewrite Z.lor_0_l.
  add_low 25. add_low 17. add_low 9. add_low 1.
  reflexivity.
Qed.

(** The 64-bit and the 32-bit word put together bit by bit hold the
    bytes read, moved up by one bit. *)
Lemma assembled_is_realigned (b : nat -> Z) :
  (forall k, 0 <= b k < 256) ->
  assembled_epc_bytes b = realigned b.
Proof.
  intros Hb.
  unfold assembled_epc_bytes, realigned.
  rewrite (assembled_msb_sum b Hb), (assembled_lsb_sum b Hb).
  cbn [seq map app Nat.add].
  byte_bounds Hb b.
  to_arith. unfold u8.
  repeat match goal with |- _ :: _ = _ :: _ => f_equal end;
    Z.div_mod_to_equations; lia.
Qed.

Lemma read_check_run (env : nat -> hw_op -> Z)
      (app_specd_program_epc last_inv_epc : list Z)
      (target : rfidr_target_epc_t) (w : world) :
  let check :=
    Rxradio.rfidr_pull_and_check_read_data env app_specd_program_epc
                                           last_inv_epc target in
  result check w
  = Normal (if memcmp (assembled_epc_bytes (rxram_byte env w 81))
                      (original_epc app_specd_program_epc last_inv_epc target)
                      12
            then RFIDR_ERROR_READ_CHECK else RFIDR_SUCCESS)
  /\ w_trace (exec check w)
     = map Ev_spi_rxram_read [93; 92; 91; 90; 89; 88; 87; 86; 85; 84; 83; 82; 81]
       ++ w_trace w.
Proof.
  intros check. unfold check, result, exec.
  unfold assembled_epc_bytes, assembled_msb, assembled_lsb, rxram_byte.
  cbn [seq fold_left Nat.add].
  repeat match goal with
         | |- context [(length (w_trace w) + ?k)%nat] =>
             replace (length (w_trace w) + k)%nat
               with (k + length (w_trace w))%nat by apply Nat.add_comm
         end.
  cbn [Nat.add].
  unfold Rxradio.rfidr_pull_and_check_read_data.
  cbv [for_acc bind ret rxram_read ask].
  cbn [record set_w_trace w_trace length].
split.
  - match goal with
    | |- fst ((if ?c then _ else _) _) = Normal (if ?d then _ else _) =>
        change d with c; destruct c; reflexivity
    end.
  - match goal with
    | |- context [if ?c then _ else _] => destruct c
    end; reflexivity.
Qed.

Lemma memcmp_false (a b : list Z) (n : nat) :
  memcmp a b n = false <-> forall k, (k < n)%nat -> nth k a 0 = nth k b 0.
Proof.
  unfold memcmp. rewrite negb_false_iff, forallb_forall.
  split.
  - intros H k Hk. apply Z.eqb_eq, H, in_seq. lia.
  - intros H k Hk. apply in_seq in Hk. apply Z.eqb_eq, H. lia.
Qed.

Lemma realigned_nth (b : nat -> Z) (k : nat) :
  (k < 12)%nat -> nth k (realigned b) 0 = b k mod 128 * 2 + b (S k) / 128.
Proof.
  intros Hk. unfold realigned.
  do 12 (destruct k as [|k]; [reflexivity|]). lia.
Qed.

(** The read-back check of rfidr_pull_and_check_read_data reads the
    thirteen bytes of the RX RAM at 5 * 16 + 1 = 81 and following, once
    each and in rising order, and nothing else; it answers RFIDR_SUCCESS
    or RFIDR_ERROR_READ_CHECK; and it answers RFIDR_SUCCESS exactly when
    each of the twelve bytes of the EPC it compares with (the last
    inventoried one for TARGET_LAST_INV_EPC, the application's otherwise)
    is made of the low seven bits of the byte read at the same place,
    moved up by one, and the top bit of the byte read next: the 64-bit and
    32-bit words the code shifts the bytes into drop the 1-bit header of
    the reply and lose no other bit. *)
Theorem read_check_drops_the_header_bit :
  forall (env : nat -> hw_op -> Z)
         (app_specd_program_epc last_inv_epc : list Z)
         (target : rfidr_target_epc_t) (w : world),
    let check :=
      Rxradio.rfidr_pull_and_check_read_data env app_specd_program_epc
                                             last_inv_epc target in
    let b := rxram_byte env w 81 in
    let original :=
      original_epc app_specd_program_epc last_inv_epc target in
    (result check w = Normal RFIDR_SUCCESS
     \/ result check w = Normal RFIDR_ERROR_READ_CHECK)
    /\ (result check w = Normal RFIDR_SUCCESS
        <-> forall k, (k < 12)%nat ->
                      nth k original 0 = b k mod 128 * 2 + b (S k) / 128)
    /\ w_trace (exec check w)
       = map Ev_spi_rxram_read
             [93; 92; 91; 90; 89; 88; 87; 86; 85; 84; 83; 82; 81]
         ++ w_trace w.
Proof.
  intros env app_specd_program_epc last_inv_epc target w check b original.
  destruct (read_check_run env app_specd_program_epc last_inv_epc target w)
    as [Hr Ht].
  fold check in Hr, Ht. fold original in Hr.
  rewrite assembled_is_realigned in Hr
    by (intro k; apply rxram_byte_range).
  fold b in Hr.
  split; [|split].
  - rewrite Hr. destruct (memcmp _ _ _); auto.
  - rewrite Hr. destruct (memcmp _ _ _) eqn:E.
    + split; [discriminate|].
      intros H. exfalso.
      assert (E' : memcmp (realigned b) original 12 = false).
      { apply memcmp_false. intros k Hk.
        rewrite realigned_nth, H by exact Hk. reflexivity. }
      congruence.
    + split; [|reflexivity].
      intros _ k Hk. apply memcmp_false with (k := k) in E; [|exact Hk].
      rewrite <- E. apply realigned_nth. exact Hk.
  - exact Ht.
Qed.

(** ** The SPI link to the FPGA *)

(** Evaluates the shifts, ors and differences of numbers. *)
Ltac eval_closed :=
  repeat match goal with
         | |- context [Z.shiftl ?a ?b] =>
             is_num a; is_num b;
             let v := eval vm_compute in (Z.shiftl a b) in
             change (Z.shiftl a b) with v
         | |- context [Z.lor ?a ?b] =>
             is_num a; is_num b;
             let v := eval vm_compute in (Z.lor a b) in
             change (Z.lor a b) with v
         | |- context [?a - ?b] =>
             is_num a; is_num b;
             let v := eval vm_compute in (a - b) in
             change (a - b) with v
         end.

Ltac norm_pow_in H :=
  repeat match type of H with
         | context [2 ^ ?n] =>
             let v := eval vm_compute in (2 ^ n) in
             progress change (2 ^ n) with v in H
         end.

Lemma is_write_range (wr : spi_wr_t) : 0 <= is_write wr <= 1.
Proof. destruct wr; cbn; lia. Qed.

Lemma is_rxram_range (rxntx : spi_rxntx_ram_t) : 0 <= is_rxram rxntx <= 1.
Proof. destruct rxntx; cbn; lia. Qed.

Lemma packet_word_range (spi_mem : spi_mem_t) (wr : spi_wr_t)
      (rxntx : spi_rxntx_ram_t) (addr data : Z) :
  exists y, packet_word (carried spi_mem wr rxntx addr data) = y * 512
            /\ 0 <= y < 2 ^ 23.
Proof.
  unfold packet_word, carried.
  pose proof (is_write_range wr). pose proof (is_rxram_range rxntx).
  pose proof (Z.mod_pos_bound data 256 ltac:(lia)).
  destruct spi_mem; cbn [addr_bits mem_select];
    match goal with
    | |- context [addr mod ?m] =>
        pose proof (Z.mod_pos_bound addr m ltac:(norm_pow; lia));
        generalize dependent (addr mod m)
    end;
    generalize dependent (data mod 256);
    generalize dependent (is_write wr);
    generalize dependent (is_rxram rxntx);
    intros r Hr w Hw d Hd a Ha; norm_pow; norm_pow_in Ha;
    match goal with
    | |- exists y, ?w' * _ + ?s * _ + ?r' * _ + _ + _ = _ /\ _ =>
        exists (w' * 4194304 + s * 262144 + r' * 131072 + a * 256 + d)
    end; lia.
Qed.

(** The bytes of the TX buffer are those of the word. *)
Lemma tx_packet_bytes (spi_mem : spi_mem_t) (wr : spi_wr_t)
      (rxntx : spi_rxntx_ram_t) (addr data : Z) :
  let W := packet_word (carried spi_mem wr rxntx addr data) in
  tx_packet spi_mem wr rxntx addr data
  = [W / 2 ^ 24; (W / 2 ^ 16) mod 256; (W / 2 ^ 8) mod 256; 0].
Proof.
  intros W. unfold W, packet_word, carried, tx_packet, u16.
  cbv zeta.
  assert (Hd : u8 data = data mod 256) by reflexivity.
  rewrite Hd. clear Hd.
  pose proof (Z.mod_pos_bound data 256 ltac:(lia)) as Hd.
  generalize dependent (data mod 256). intros d Hd.
  destruct spi_mem, wr, rxntx; cbn [addr_bits mem_select is_write is_rxram];
    eval_closed.
  all: match goal with
       | |- context [Z.land (?x mod 65536) ?m] =>
           let k := eval vm_compute in (Z.log2 (m + 1)) in
           change m with (Z.ones k);
           rewrite (Z.land_ones _ k) by lia;
           rewrite (Z.mod_mod_divide x 65536 (2 ^ k))
             by (exists (2 ^ (16 - k)); reflexivity);
           let Ha := fresh "Ha" in
           pose proof (Z.mod_pos_bound x (2 ^ k) ltac:(norm_pow; lia)) as Ha;
           generalize dependent (x mod 2 ^ k); intros a Ha;
           norm_pow_in Ha
       end.
  all: rewrite (Z.land_comm 255); change 255 with (Z.ones 8);
    rewrite !Z.land_ones by lia.
  all: rewrite (Z.mod_small d (2 ^ 8)) by (norm_pow; lia).
  all: rewrite !Z.shiftl_mul_pow2, !Z.shiftr_div_pow2 by lia; norm_pow.
all: match goal with
       | Ha : 0 <= _ < ?B |- context [Z.lor (Z.lor _ _) _] =>
           let n := eval vm_compute in (Z.log2 B + 8) in
           add_low n
       end.
  all: add_low 8.
  all: rewrite u32_small by (norm_pow; lia).
  all: unfold u8.
  all: repeat match goal with |- _ :: _ = _ :: _ => f_equal end;
    Z.div_mod_to_equations; lia.
Qed.

Lemma packet_word_of_bytes (W : Z) :
  (exists y, W = y * 512 /\ 0 <= y < 2 ^ 23) ->
  0 <= W / 2 ^ 24 < 256
  /\ be32 (W / 2 ^ 24) ((W / 2 ^ 16) mod 256) ((W / 2 ^ 8) mod 256) 0 = W.
Proof.
  intros [y [-> Hy]]. unfold be32. norm_pow. norm_pow_in Hy.
  Z.div_mod_to_equations. lia.
Qed.

Lemma packet_word_inj (m m' : spi_mem_t) (wr wr' : spi_wr_t)
      (rx rx' : spi_rxntx_ram_t) (addr addr' data data' : Z) :
  packet_word (carried m wr rx addr data)
  = packet_word (carried m' wr' rx' addr' data') ->
  carried m wr rx addr data = carried m' wr' rx' addr' data'.
Proof.
  unfold packet_word, carried.
  pose proof (is_write_range wr). pose proof (is_rxram_range rx).
  pose proof (is_write_range wr'). pose proof (is_rxram_range rx').
  pose proof (Z.mod_pos_bound data 256 ltac:(lia)).
  pose proof (Z.mod_pos_bound data' 256 ltac:(lia)).
  pose proof (Z.mod_pos_bound addr (2 ^ addr_bits m)
                              ltac:(destruct m; cbn; lia)) as Ha.
  pose proof (Z.mod_pos_bound addr' (2 ^ addr_bits m')
                              ltac:(destruct m'; cbn; lia)) as Ha'.
  generalize dependent (addr mod 2 ^ addr_bits m).
  generalize dependent (addr' mod 2 ^ addr_bits m').
  generalize dependent (data mod 256).
  generalize dependent (data' mod 256).
  generalize dependent (is_write wr). generalize dependent (is_write wr').
  generalize dependent (is_rxram rx). generalize dependent (is_rxram rx').
  intros r' Hr' r Hr w' Hw' w Hw d' Hd' d Hd a' Ha' a Ha.
  destruct m, m'; cbn [addr_bits mem_select] in *;
    norm_pow; norm_pow_in Ha; norm_pow_in Ha'; intros E;
    try (exfalso; lia);
    repeat match goal with
           | |- (_, _) = (_, _) => f_equal
           end; lia.
Qed.

(** The packet that spi_cntrlr_set_tx builds holds the request and
    nothing else.  Its four bytes, read as one 32-bit number with the
    first byte highest, have the write flag in bit 31, the memory in bits
    30 (waveform), 29 (radio), 28 (TX cancel) and 27 (user), the RX/TX
    flag in bit 26, the address from bit 17 up and the data byte in bits
    9 to 16, and the last byte is always 0.  Two requests give the same
    packet exactly when they agree on the memory, on the data byte, on
    the low 13, 9, 10 or 3 bits of the address (for the waveform, radio,
    TX cancel and user memory), on the write flag unless the memory is
    the waveform memory - whose packets never carry it - and on the RX/TX
    flag if the memory is the radio memory. *)
Theorem packet_carries_the_request :
  forall (spi_mem : spi_mem_t) (wr : spi_wr_t) (rxntx : spi_rxntx_ram_t)
         (addr data : Z),
    (exists b0 b1 b2,
        tx_packet spi_mem wr rxntx addr data = [b0; b1; b2; 0]
        /\ 0 <= b0 < 256 /\ 0 <= b1 < 256 /\ 0 <= b2 < 256
        /\ be32 b0 b1 b2 0
           = packet_word (carried spi_mem wr rxntx addr data))
    /\ forall (spi_mem' : spi_mem_t) (wr' : spi_wr_t)
              (rxntx' : spi_rxntx_ram_t) (addr' data' : Z),
        tx_packet spi_mem wr rxntx addr data
        = tx_packet spi_mem' wr' rxntx' addr' data'
        <-> carried spi_mem wr rxntx addr data
            = carried spi_mem' wr' rxntx' addr' data'.
Proof.
  intros spi_mem wr rxntx addr data.
  pose proof (tx_packet_bytes spi_mem wr rxntx addr data) as Hb.
  cbv zeta in Hb.
  destruct (packet_word_of_bytes _ (packet_word_range spi_mem wr rxntx addr
                                                      data)) as [H0 HW].
  split.
  - eexists _, _, _. split; [exact Hb|].
    repeat split; try apply Z.mod_pos_bound; try lia; exact HW.
  - intros spi_mem' wr' rxntx' addr' data'.
    pose proof (tx_packet_bytes spi_mem' wr' rxntx' addr' data') as Hb'.
    cbv zeta in Hb'.
    destruct (packet_word_of_bytes _ (packet_word_range spi_mem' wr' rxntx'
                                                        addr' data'))
      as [_ HW'].
    split.
    + intros E. apply packet_word_inj.
      rewrite Hb, Hb' in E.
      generalize dependent (packet_word
                              (carried spi_mem wr rxntx addr data)).
      generalize dependent (packet_word
                              (carried spi_mem' wr' rxntx' addr' data')).
      intros W' _ HW' W _ _ HW E.
      injection E as E0 E1 E2.
      rewrite <- HW, <- HW'.
      f_equal; [exact E0 | exact E1 | exact E2].
    + intros E. rewrite Hb, Hb', E. reflexivity.
Qed.

Lemma tx_packet_u8 (spi_mem : spi_mem_t) (wr : spi_wr_t)
      (rxntx : spi_rxntx_ram_t) (addr data : Z) :
  tx_packet spi_mem wr rxntx addr (u8 data)
  = tx_packet spi_mem wr rxntx addr data.
Proof.
  unfold tx_packet. cbv zeta.
  replace (u8 (u8 data)) with (u8 data); [reflexivity|].
  unfold u8. rewrite Z.mod_mod by lia. reflexivity.
Qed.

Lemma sent_app (s s' : Spi.bus) (l : list (list Z)) :
  Spi.transfers s' = l ++ Spi.transfers s -> Spi.sent s s' = rev l.
Proof.
  intros E. unfold Spi.sent. rewrite E, length_app.
  replace (length l + length (Spi.transfers s) - length (Spi.transfers s))%nat
    with (length l) by lia.
  rewrite firstn_app, Nat.sub_diag, firstn_all, firstn_O, app_nil_r.
  reflexivity.
Qed.

(** Numbers and what the code makes of them. *)
Ltac is_closed z :=
  lazymatch z with
  | ?a + ?b => is_closed a; is_closed b
  | u8 ?a => is_closed a
  | NRF_SUCCESS => idtac
  | _ => is_num z
  end.

Ltac closed_tests E :=
  repeat match type of E with
         | context [?a <? ?b] =>
             is_closed a; is_closed b;
             let v := eval vm_compute in (a <? b) in
             change (a <? b) with v in E
         | context [?a >? ?b] =>
             is_closed a; is_closed b;
             let v := eval vm_compute in (a >? b) in
             change (a >? b) with v in E
         | context [?a =? ?b] =>
             is_closed a; is_closed b;
             let v := eval vm_compute in (a =? b) in
             change (a =? b) with v in E
         end.

(** Runs the code of the controller on a bus, as far as the answers of
    the FPGA are not asked for; [E] says what the run gives. *)
Ltac spi_run E :=
  repeat (progress
            (cbv beta delta
                 [Spi.spi_cntrlr_write_tx_robust
                  Spi.spi_cntrlr_write_sx1257_robust
                  Spi.spi_cntrlr_read_sx1257_robust Spi.poll_done Spi.fn
                  Spi.bind Spi.ret Spi.return_ Spi.get Spi.hang
                  Spi.system_reset Spi.spi_cntrlr_set_tx
                  Spi.spi_cntrlr_send_recv Spi.spi_cntrlr_read_rx
                  Spi.APP_ERROR_CHECK TX_RX_MSG_LENGTH] in E;
             cbn [Spi.while Spi.forever Spi.m_tx_data_spi Spi.m_rx_data_spi
                  Spi.transfers length nth map seq negb fst snd] in E;
             closed_tests E)).

(** Asks for the next answer of the FPGA that the run depends on. *)
Ltac spi_case E :=
  match type of E with
  | context [if ?c then _ else _] => destruct c eqn:?
  end; spi_run E.

(** Names what the run gives on [s], and runs it. *)
Ltac spi_start run s r E :=
  unfold Spi.exec, Spi.result;
  remember (run s) as r eqn:E;
  unfold run in E; spi_run E.

(** spi_cntrlr_write_tx_robust returns after one, two or three
    attempts.  Each attempt clocks out the write packet and then the read
    packet for the same address; the attempts stop at the first one whose
    read brings back the data byte, and the answer is then RFIDR_SUCCESS;
    when none of three does, the answer is RFIDR_ERROR_SPI_WRITE_TX.  So
    the function makes two, four or six transfers and no other. *)
Theorem write_tx_robust_tries_three_times :
  forall (spi_cntrlr_tx_rx : nat -> list Z -> list Z) (fuel : nat)
         (spi_mem : spi_mem_t) (rxntx : spi_rxntx_ram_t) (addr data : Z)
         (s : Spi.bus),
    (4 <= fuel)%nat ->
    let run :=
      Spi.spi_cntrlr_write_tx_robust spi_cntrlr_tx_rx fuel spi_mem rxntx
                                     addr data in
    let wr := tx_packet spi_mem RFIDR_SPI_WRITE rxntx addr data in
    let rd := tx_packet spi_mem RFIDR_SPI_READ rxntx addr 0 in
    let back j :=
      u8 (nth 3 (spi_cntrlr_tx_rx
                   (2 * j + 1 + length (Spi.transfers s))%nat rd) 0) in
    exists n,
      (1 <= n <= 3)%nat
      /\ Spi.sent s (Spi.exec run s) = concat (repeat [wr; rd] n)
      /\ (forall j, (j + 1 < n)%nat -> back j <> u8 data)
      /\ (Spi.result run s = Normal RFIDR_SUCCESS
          /\ back (n - 1)%nat = u8 data
          \/ Spi.result run s = Normal RFIDR_ERROR_SPI_WRITE_TX
             /\ n = 3%nat /\ back 2%nat <> u8 data).
Proof.
  intros spi_cntrlr_tx_rx fuel spi_mem rxntx addr data s Hfuel run wr rd back.
  do 4 (destruct fuel as [|fuel]; [lia|]). clear Hfuel.
  spi_start run s r E. rewrite !tx_packet_u8 in E. fold wr rd in E.
  spi_case E; [|spi_case E; [|spi_case E]]; subst r; cbn [fst snd].
  - exists 1%nat. split; [lia|]. split; [|split].
    + apply (sent_app s _ [rd; wr]). reflexivity.
    + intros j Hj. lia.
    + left. split; [reflexivity|]. apply Z.eqb_eq. assumption.
  - exists 2%nat. split; [lia|]. split; [|split].
    + apply (sent_app s _ [rd; wr; rd; wr]). reflexivity.
    + intros j Hj. assert (j = 0%nat) as -> by lia.
      apply Z.eqb_neq. assumption.
    + left. split; [reflexivity|]. apply Z.eqb_eq. assumption.
  - exists 3%nat. split; [lia|]. split; [|split].
    + apply (sent_app s _ [rd; wr; rd; wr; rd; wr]). reflexivity.
    + intros j Hj.
      assert (j = 0 \/ j = 1)%nat as [-> | ->] by lia;
        apply Z.eqb_neq; assumption.
    + left. split; [reflexivity|]. apply Z.eqb_eq. assumption.
  - exists 3%nat. split; [lia|]. split; [|split].
    + apply (sent_app s _ [rd; wr; rd; wr; rd; wr]). reflexivity.
    + intros j Hj.
      assert (j = 0 \/ j = 1)%nat as [-> | ->] by lia;
        apply Z.eqb_neq; assumption.
    + right. split; [reflexivity|]. split; [reflexivity|].
      apply Z.eqb_neq. assumption.
Qed.

Lemma write_tx_robust_tries_three_times_witness :
  exists n,
    (1 <= n <= 3)%nat
    /\ Spi.sent (Spi.mk_bus [] [] [])
                (Spi.exec (Spi.spi_cntrlr_write_tx_robust
                             (fun n _ => [0; 0; 0; Z.of_nat n]) 4
                             RFIDR_USER_MEM RFIDR_SPI_TXRAM 7 3)
                          (Spi.mk_bus [] [] []))
       = concat (repeat [tx_packet RFIDR_USER_MEM RFIDR_SPI_WRITE
                                   RFIDR_SPI_TXRAM 7 3;
                         tx_packet RFIDR_USER_MEM RFIDR_SPI_READ
                                   RFIDR_SPI_TXRAM 7 0] n).
Proof.
  assert (Hfuel : (4 <= 4)%nat) by lia.
  destruct (write_tx_robust_tries_three_times
              (fun n _ => [0; 0; 0; Z.of_nat n]) 4 RFIDR_USER_MEM
              RFIDR_SPI_TXRAM 7 3 (Spi.mk_bus [] [] []) Hfuel)
    as (n & Hn & Hs & _).
  exists n. split; [exact Hn | exact Hs].
Defined.


Lemma sent_is (s s' : Spi.bus) (l : list (list Z)) :
  Spi.transfers s' = rev l ++ Spi.transfers s -> Spi.sent s s' = l.
Proof. intros E. rewrite (sent_app s s' (rev l) E). apply rev_involutive. Qed.

Lemma write_bit (x : Z) : u8 (Z.lor (Z.land x 127) 128) = Z.land x 127 + 128.
Proof.
  change 127 with (Z.ones 7). rewrite Z.land_ones by lia.
  pose proof (Z.mod_pos_bound x (2 ^ 7) ltac:(lia)) as H. norm_pow_in H.
  rewrite Z.lor_comm, (lor_add_low 128 _ 7) by (norm_pow; lia || reflexivity).
  unfold u8. norm_pow. rewrite Z.mod_small by lia. lia.
Qed.

(** One of the first polls, which one is not known. *)
Ltac poll_cases j H :=
  do 3 (destruct j as [|j]; [first [assumption | lia]|]); lia.

(** What has been clocked out, how much of it, and the answer. *)
Ltac sent_and_count :=
  lazymatch goal with
  | |- Spi.sent ?s ?s' = ?l /\ _ =>
      let Hs := fresh "Hs" in
      assert (Hs : Spi.sent s s' = l) by (apply sent_is; reflexivity);
      split; [exact Hs|];
      split; [rewrite Hs; reflexivity | reflexivity]
  end.

(** spi_cntrlr_read_sx1257_robust always returns, after six to nine
    transfers.  It clocks out the address with its top bit cleared, a
    data byte of 0 and the go bit, then reads the status until bit 5 of
    the byte that comes back is set.  At the fourth read that finds the
    bit clear it gives up: the answer is RFIDR_ERROR_SPI_WRITE_SX1257_3,
    seven transfers have been made and no byte is handed back.  If read
    number k of the first four is the first to find the bit set, it
    clears the go bit, reads the return register, and answers
    RFIDR_SUCCESS with the byte this last transfer brought back, after
    5 + k transfers: six when the first read finds the bit set, nine
    when the fourth does. *)
Theorem bridge_read_gives_up_at_the_fourth_poll :
  forall (spi_cntrlr_tx_rx : nat -> list Z -> list Z) (fuel : nat)
         (sx1257_addr : Z) (s : Spi.bus),
    (4 <= fuel)%nat ->
    let run :=
      Spi.spi_cntrlr_read_sx1257_robust spi_cntrlr_tx_rx fuel sx1257_addr in
    let seen j :=
      done_bit spi_cntrlr_tx_rx (3 + j + length (Spi.transfers s))%nat
               (user_read 2) in
    exists k,
      (1 <= k <= 4)%nat
      /\ (forall j, (j + 1 < k)%nat -> seen j = false)
      /\ (seen (k - 1)%nat = true
          /\ Spi.sent s (Spi.exec run s) = read_script sx1257_addr k
          /\ length (Spi.sent s (Spi.exec run s)) = (5 + k)%nat
          /\ Spi.result run s
             = Normal (RFIDR_SUCCESS,
                       Some (u8 (nth 3 (spi_cntrlr_tx_rx
                                          (4 + k + length (Spi.transfers s))%nat
                                          (user_read 5)) 0)))
          \/ k = 4%nat
             /\ seen 3%nat = false
             /\ Spi.sent s (Spi.exec run s)
                = firstn 7 (read_script sx1257_addr 4)
             /\ length (Spi.sent s (Spi.exec run s)) = 7%nat
             /\ Spi.result run s
                = Normal (RFIDR_ERROR_SPI_WRITE_SX1257_3, None)).
Proof.
  intros spi_cntrlr_tx_rx fuel sx1257_addr s Hfuel run seen.
  do 4 (destruct fuel as [|fuel]; [lia|]). clear Hfuel.
  spi_start run s r E.
  spi_case E; [|spi_case E; [|spi_case E; [|spi_case E]]];
    subst r; cbn [fst snd].
  - exists 1%nat. split; [lia|]. split; [intros j Hj; lia|].
    left. split; [assumption|]. sent_and_count.
  - exists 2%nat. split; [lia|]. split; [intros j Hj; poll_cases j Hj|].
    left. split; [assumption|]. sent_and_count.
  - exists 3%nat. split; [lia|]. split; [intros j Hj; poll_cases j Hj|].
    left. split; [assumption|]. sent_and_count.
  - exists 4%nat. split; [lia|]. split; [intros j Hj; poll_cases j Hj|].
    left. split; [assumption|]. sent_and_count.
  - exists 4%nat. split; [lia|]. split; [intros j Hj; poll_cases j Hj|].
    right. split; [reflexivity|]. split; [assumption|]. sent_and_count.
Qed.

Lemma bridge_read_gives_up_at_the_fourth_poll_witness :
  exists k,
    (1 <= k <= 4)%nat
    /\ forall j, (j + 1 < k)%nat ->
                 done_bit (fun n _ => [0; 0; 0; 8 * Z.of_nat n])
                          (3 + j + 0)%nat (user_read 2) = false.
Proof.
  assert (Hfuel : (4 <= 4)%nat) by lia.
  destruct (bridge_read_gives_up_at_the_fourth_poll
              (fun n _ => [0; 0; 0; 8 * Z.of_nat n]) 4 16
              (Spi.mk_bus [] [] []) Hfuel)
    as (k & Hk & Hj & _).
  exists k. split; [exact Hk | exact Hj].
Defined.


Ltac ends_at_leaf :=
  split; [let j := fresh "j" in
          let Hj := fresh "Hj" in
          intros j Hj; poll_cases j Hj
         | assumption].

Ltac gives_up_leaf :=
  let j := fresh "j" in
  let Hj := fresh "Hj" in
  intros j Hj; do 4 (destruct j as [|j]; [assumption|]); lia.

(** The end of a run of spi_cntrlr_write_sx1257_robust whose polls took
    [k1] and [k2] reads. *)
Ltac write_leaf k1 k2 :=
  first
    [ exists RFIDR_ERROR_SPI_WRITE_SX1257_1, 1%nat, 1%nat, 1%nat;
      split; [reflexivity|]; split; [apply sent_is; reflexivity|];
      split; [lia|]; split; [lia|];
      left; split; [assumption|]; split; reflexivity
    | exists RFIDR_ERROR_SPI_WRITE_SX1257_2, 4%nat, 1%nat, 8%nat;
      split; [reflexivity|]; split; [apply sent_is; reflexivity|];
      split; [lia|]; split; [lia|];
      right; left; split; [assumption|];
      split; [gives_up_leaf|]; split; reflexivity
    | exists RFIDR_ERROR_SPI_WRITE_SX1257_3, k1, 4%nat, (12 + k1)%nat;
      split; [reflexivity|]; split; [apply sent_is; reflexivity|];
      split; [lia|]; split; [lia|];
      right; right; left; split; [assumption|];
      split; [ends_at_leaf|];
      split; [gives_up_leaf|]; split; reflexivity
    | exists RFIDR_ERROR_SPI_WRITE_SX1257_4, k1, k2, (10 + k1 + k2)%nat;
      split; [reflexivity|]; split; [apply sent_is; reflexivity|];
      split; [lia|]; split; [lia|];
      right; right; right; split; [assumption|];
      split; [ends_at_leaf|]; split; [ends_at_leaf|];
      split; [reflexivity|];
      right; split; [reflexivity|];
      apply Z.eqb_neq, negb_true_iff; assumption
    | exists RFIDR_SUCCESS, k1, k2, (10 + k1 + k2)%nat;
      split; [reflexivity|]; split; [apply sent_is; reflexivity|];
      split; [lia|]; split; [lia|];
      right; right; right; split; [assumption|];
      split; [ends_at_leaf|]; split; [ends_at_leaf|];
      split; [reflexivity|];
      left; split; [reflexivity|];
      apply Z.eqb_eq, negb_false_iff; assumption ].

Ltac write_leaves :=
  first [ write_leaf 1%nat 1%nat | write_leaf 1%nat 2%nat
        | write_leaf 1%nat 3%nat | write_leaf 1%nat 4%nat
        | write_leaf 2%nat 1%nat | write_leaf 2%nat 2%nat
        | write_leaf 2%nat 3%nat | write_leaf 2%nat 4%nat
        | write_leaf 3%nat 1%nat | write_leaf 3%nat 2%nat
        | write_leaf 3%nat 3%nat | write_leaf 3%nat 4%nat
        | write_leaf 4%nat 1%nat | write_leaf 4%nat 2%nat
        | write_leaf 4%nat 3%nat | write_leaf 4%nat 4%nat ].

(** spi_cntrlr_write_sx1257_robust makes one attempt and no second: it
    always returns, never with RFIDR_ERROR_SPI_WRITE_SX1257_5, and what
    it clocks out is the beginning of one script - the status read, the
    address with its top bit set, the data and the go bit, reads of the
    status, the go bit cleared, the address with its top bit clear, the
    data and the go bit again, reads of the status, the go bit cleared,
    and a read of the return register.  It stops after the first
    transfer with RFIDR_ERROR_SPI_WRITE_SX1257_1 when bit 5 or 6 of the
    status is set; after four reads of the status that find bit 5 clear
    with RFIDR_ERROR_SPI_WRITE_SX1257_2 in the first poll and
    RFIDR_ERROR_SPI_WRITE_SX1257_3 in the second; and it runs the script
    to its end otherwise, each poll ending at the first read that finds
    bit 5 set, and answers RFIDR_SUCCESS when the last transfer brings
    back the data byte and RFIDR_ERROR_SPI_WRITE_SX1257_4 when not.  It
    makes at most 18 transfers. *)
Theorem bridge_write_makes_one_attempt :
  forall (spi_cntrlr_tx_rx : nat -> list Z -> list Z) (fuel : nat)
         (sx1257_addr sx1257_data : Z) (s : Spi.bus),
    (4 <= fuel)%nat ->
    let run :=
      Spi.spi_cntrlr_write_sx1257_robust spi_cntrlr_tx_rx fuel sx1257_addr
                                         sx1257_data in
    let len := length (Spi.transfers s) in
    let busy :=
      negb (Z.land (Z.shiftr (u8 (nth 3 (spi_cntrlr_tx_rx len (user_read 2))
                                      0)) 5) 3 =? 0) in
    let seen1 j :=
      done_bit spi_cntrlr_tx_rx (4 + j + len)%nat (user_read 2) in
    let seen2 k1 j :=
      done_bit spi_cntrlr_tx_rx (8 + k1 + j + len)%nat (user_read 2) in
    let back k1 k2 :=
      u8 (nth 3 (spi_cntrlr_tx_rx (9 + k1 + k2 + len)%nat (user_read 5)) 0) in
    exists rc k1 k2 n,
      Spi.result run s = Normal rc
      /\ Spi.sent s (Spi.exec run s)
         = firstn n (write_script sx1257_addr sx1257_data k1 k2)
      /\ (1 <= k1 <= 4)%nat /\ (1 <= k2 <= 4)%nat
      /\ (busy = true
          /\ rc = RFIDR_ERROR_SPI_WRITE_SX1257_1 /\ n = 1%nat
          \/ busy = false /\ gives_up seen1
             /\ rc = RFIDR_ERROR_SPI_WRITE_SX1257_2 /\ n = 8%nat
          \/ busy = false /\ ends_at seen1 k1 /\ gives_up (seen2 k1)
             /\ rc = RFIDR_ERROR_SPI_WRITE_SX1257_3 /\ n = (12 + k1)%nat
          \/ busy = false /\ ends_at seen1 k1 /\ ends_at (seen2 k1) k2
             /\ n = (10 + k1 + k2)%nat
             /\ (rc = RFIDR_SUCCESS /\ back k1 k2 = u8 sx1257_data
                 \/ rc = RFIDR_ERROR_SPI_WRITE_SX1257_4
                    /\ back k1 k2 <> u8 sx1257_data)).
Proof.
  intros spi_cntrlr_tx_rx fuel sx1257_addr sx1257_data s Hfuel run len busy
         seen1 seen2 back.
  do 4 (destruct fuel as [|fuel]; [lia|]). clear Hfuel.
  spi_start run s r E.
  rewrite !write_bit, !tx_packet_u8 in E.
  repeat spi_case E; subst r; cbn [fst snd].
  all: write_leaves.
Qed.

Lemma bridge_write_makes_one_attempt_witness :
  exists rc k1 k2 n,
    Spi.result (Spi.spi_cntrlr_write_sx1257_robust
                  (fun n _ => [0; 0; 0; 8 * Z.of_nat n]) 4 1 108)
               (Spi.mk_bus [] [] [])
    = Normal rc
    /\ Spi.sent (Spi.mk_bus [] [] [])
                (Spi.exec (Spi.spi_cntrlr_write_sx1257_robust
                             (fun n _ => [0; 0; 0; 8 * Z.of_nat n]) 4 1 108)
                          (Spi.mk_bus [] [] []))
       = firstn n (write_script 1 108 k1 k2).
Proof.
  assert (Hfuel : (4 <= 4)%nat) by lia.
  destruct (bridge_write_makes_one_attempt
              (fun n _ => [0; 0; 0; 8 * Z.of_nat n]) 4 1 108
              (Spi.mk_bus [] [] []) Hfuel)
    as (rc & k1 & k2 & n & Hr & Hs & _).
  exists rc, k1, k2, n. split; [exact Hr | exact Hs].
Defined.


(** ** The TX offsets in the user memory *)

Lemma u8_range (x : Z) : 0 <= u8 x < Z.of_nat 256.
Proof. unfold u8. change (Z.of_nat 256) with 256. apply Z.mod_pos_bound. lia. Qed.

(** The nibbles of a byte, by trying all bytes. *)
Lemma nibbles (x y : Z) :
  u8 (Z.lor (u8 (Z.land (u8 x) 15)) (Z.land (Z.shiftl (u8 y) 4) 240))
  = 16 * (u8 y mod 16) + u8 x mod 16
  /\ u8 (Z.lor (u8 (Z.land (u8 x) 240)) (Z.land (Z.shiftl (u8 y) 0) 15))
     = 16 * (u8 x / 16) + u8 y mod 16
  /\ Z.land (Z.shiftr (u8 x) 4) 15 = u8 x / 16
  /\ Z.land (Z.shiftr (u8 x) 0) 15 = u8 x mod 16.
Proof.
  assert (H : all_below 256
                (fun b =>
                   all_below 256
                     (fun o =>
                        (u8 (Z.lor (u8 (Z.land b 15))
                                   (Z.land (Z.shiftl o 4) 240))
                         =? 16 * (o mod 16) + b mod 16)
                        && (u8 (Z.lor (u8 (Z.land b 240))
                                      (Z.land (Z.shiftl o 0) 15))
                            =? 16 * (b / 16) + o mod 16)
                        && (Z.land (Z.shiftr b 4) 15 =? b / 16)
                        && (Z.land (Z.shiftr b 0) 15 =? b mod 16)))
              = true) by (vm_compute; reflexivity).
  pose proof (all_below_spec _ _ (all_below_spec _ _ H _ (u8_range x)) _
                             (u8_range y)) as E.
  cbv beta in E.
  apply andb_prop in E as [E E4]. apply andb_prop in E as [E E3].
  apply andb_prop in E as [E1 E2].
  apply Z.eqb_eq in E1, E2, E3, E4. auto.
Qed.

(** set_tx_sdm_offset and set_tx_zgn_offset share byte 7 of the user
    memory.  Each makes three transfers: it reads the byte, writes it
    back with its own nibble - the high one for the SDM offset, the low
    one for the ZGN offset - replaced by the low four bits of the offset
    and the other nibble as it was read, and reads the byte again; it
    answers RFIDR_SUCCESS when its nibble of the byte read last equals
    the offset, and RFIDR_ERROR_USER_MEM when not.  So an offset of 16 or
    more is always answered with RFIDR_ERROR_USER_MEM, after its low four
    bits have been written. *)
Theorem offsets_share_one_byte :
  forall (spi_cntrlr_tx_rx : nat -> list Z -> list Z) (offset : Z)
         (s : Spi.bus),
    let len := length (Spi.transfers s) in
    let b := brought_back spi_cntrlr_tx_rx len (user_read 7) in
    let b' := brought_back spi_cntrlr_tx_rx (2 + len)%nat (user_read 7) in
    let o := u8 offset in
    let sdm := User.set_tx_sdm_offset spi_cntrlr_tx_rx offset in
    let zgn := User.set_tx_zgn_offset spi_cntrlr_tx_rx offset in
    (Spi.sent s (Spi.exec sdm s)
     = [user_read 7; user_write 7 (16 * (o mod 16) + b mod 16); user_read 7]
     /\ Spi.result sdm s
        = Normal (if b' / 16 =? o then RFIDR_SUCCESS
                  else RFIDR_ERROR_USER_MEM)
     /\ (16 <= o -> Spi.result sdm s = Normal RFIDR_ERROR_USER_MEM))
    /\ (Spi.sent s (Spi.exec zgn s)
        = [user_read 7; user_write 7 (16 * (b / 16) + o mod 16); user_read 7]
        /\ Spi.result zgn s
           = Normal (if b' mod 16 =? o then RFIDR_SUCCESS
                     else RFIDR_ERROR_USER_MEM)
        /\ (16 <= o -> Spi.result zgn s = Normal RFIDR_ERROR_USER_MEM)).
Proof.
  intros spi_cntrlr_tx_rx offset s len b b' o sdm zgn.
  assert (Hb' : 0 <= b' < 256) by apply u8_range.
  split.
  - spi_start sdm s r E. unfold User.set_tx_sdm_offset in E. spi_run E.
    destruct (nibbles (nth 3 (spi_cntrlr_tx_rx len (user_read 7)) 0) offset)
      as (E1 & _ & _ & _).
    destruct (nibbles (nth 3 (spi_cntrlr_tx_rx (2 + len)%nat (user_read 7)) 0)
                      0) as (_ & _ & E3 & _).
    fold (brought_back spi_cntrlr_tx_rx len (user_read 7)) in E1.
    fold (brought_back spi_cntrlr_tx_rx (2 + len)%nat (user_read 7)) in E3.
    fold b o in E1. fold b' in E3.
    change (u8 (Z.lor _ _)) with
      (u8 (Z.lor (u8 (Z.land b 15)) (Z.land (Z.shiftl o 4) 240))) in E.
    rewrite E1 in E.
    change (Z.land (Z.shiftr _ 4) 15) with (Z.land (Z.shiftr b' 4) 15) in E.
    rewrite E3 in E. fold o in E.
    assert (Hr : fst r = Normal (if b' / 16 =? o then RFIDR_SUCCESS
                                 else RFIDR_ERROR_USER_MEM))
      by (rewrite E; destruct (b' / 16 =? o); reflexivity).
    split; [|split].
    + apply sent_is. rewrite E. destruct (b' / 16 =? o); reflexivity.
    + exact Hr.
    + intros Ho. rewrite Hr.
      destruct (Z.eqb_spec (b' / 16) o) as [Eo|]; [|reflexivity].
      exfalso. Z.div_mod_to_equations. lia.
  - spi_start zgn s r E. unfold User.set_tx_zgn_offset in E. spi_run E.
    destruct (nibbles (nth 3 (spi_cntrlr_tx_rx len (user_read 7)) 0) offset)
      as (_ & E2 & _ & _).
    destruct (nibbles (nth 3 (spi_cntrlr_tx_rx (2 + len)%nat (user_read 7)) 0)
                      0) as (_ & _ & _ & E4).
    fold (brought_back spi_cntrlr_tx_rx len (user_read 7)) in E2.
    fold (brought_back spi_cntrlr_tx_rx (2 + len)%nat (user_read 7)) in E4.
    fold b o in E2. fold b' in E4.
    change (u8 (Z.lor _ _)) with
      (u8 (Z.lor (u8 (Z.land b 240)) (Z.land (Z.shiftl o 0) 15))) in E.
    rewrite E2 in E.
    change (Z.land (Z.shiftr _ 0) 15) with (Z.land (Z.shiftr b' 0) 15) in E.
    rewrite E4 in E. fold o in E.
    assert (Hr : fst r = Normal (if b' mod 16 =? o then RFIDR_SUCCESS
                                 else RFIDR_ERROR_USER_MEM))
      by (rewrite E; destruct (b' mod 16 =? o); reflexivity).
    split; [|split].
    + apply sent_is. rewrite E. destruct (b' mod 16 =? o); reflexivity.
    + exact Hr.
    + intros Ho. rewrite Hr.
      destruct (Z.eqb_spec (b' mod 16) o) as [Eo|]; [|reflexivity].
      exfalso. Z.div_mod_to_equations. lia.
Qed.


(** ** The slot kept by the driver and the registers of the SX1257 *)

Lemma tuned_after_tuning (slot : Z) (tr : list hw_op) :
  let b k := u8 (Z.land (Z.shiftr (sx1257_frequency_decode slot) k) 255) in
  tuned_to slot
    (tuning_trace RFIDR_SUCCESS 6 (b 16) (b 8) (b 0) ++ tr).
Proof.
  intros b.
  destruct (slots_are_24_bit slot) as [Hlo Hhi].
  destruct (tuning_word_bytes (sx1257_frequency_decode slot) (conj Hlo Hhi))
    as (Hw & _).
  exists (b 16), (b 8), (b 0). split; [exact Hw|].
  repeat split; reflexivity.
Qed.

(** What has been put in front of [t] to make [l]. *)
Ltac prefix_of l t :=
  lazymatch l with
  | t => constr:(@nil hw_op)
  | ?e :: ?l' => let r := prefix_of l' t in constr:(e :: r)
  end.

(** No write before the last one sets bit 3 of register 0. *)
Ltac pa_driver_last :=
  let i := fresh "i" in
  let d := fresh "d" in
  let Hi := fresh "Hi" in
  let Hd := fresh "Hd" in
  intros i d Hi Hd;
  cbv [sx1257_writes rev app flat_map] in Hi;
  do 19 (destruct i as [|i];
         [ cbn [nth_error] in Hi;
           first [discriminate Hi | injection Hi as <-];
           first [reflexivity | vm_compute in Hd; discriminate Hd] |
           cbn [nth_error] in Hi ]);
  destruct i; discriminate Hi.

Lemma load_sx1257_default_run (env : nat -> hw_op -> Z) (w : world) :
  wp (load_sx1257_default env)
     (fun o w' =>
        exists rc added,
          o = Normal rc
          /\ m_sx1257_frequency_slot w' = 12
          /\ w_trace w' = added ++ w_trace w
          /\ (rc = RFIDR_SUCCESS ->
              tuned_to 12 (w_trace w') /\ last_write 0 (w_trace w') = Some 15
              /\ length (sx1257_writes added) = 19%nat)
          /\ (forall i d,
                 nth_error (sx1257_writes added) i = Some (0, d) ->
                 Z.testbit d 3 = true -> i = 18%nat))
     w.
Proof.
  repeat wp_step wp_forget wp_none wp_none wp_none.
  all: cbv beta; cbn [w_trace record set_w_trace set_m_sx1257_frequency_slot].
  all: match goal with
       | |- exists rc added, Normal ?r = _ /\ _ /\ ?l = _ ++ ?t /\ _ =>
           let pre := prefix_of l t in exists r, pre
       end.
  all: split; [reflexivity|]; split; [reflexivity|]; split; [reflexivity|].
  all: split; [|pa_driver_last].
  all: try (intros Hs;
            match goal with
            | H : failed _ = true |- _ => rewrite Hs in H; discriminate H
            end).
  intros _. split; [|split; reflexivity].
  exists 203, 85, 85. repeat split; reflexivity.
Qed.

(** load_sx1257_default and hop_sx1257_frequency leave the SX1257 tuned
    to the slot they store in the driver whenever they answer
    RFIDR_SUCCESS: the values written last to the receive registers 1, 2,
    3 and to the transmit registers 4, 5, 6 are then the three bytes of
    the tuning word of that slot - slot 12 after load_sx1257_default,
    which stores it before its first write and so keeps it whatever the
    answer.  set_sx1257_frequency tunes the registers to its argument and
    leaves the slot of the driver as it was.  load_sx1257_default, when
    it succeeds, has made 19 register writes and left 0x0F in the mode
    register 0; and in every run, also one that fails, a write that sets
    bit 3 of the mode register (the PA driver) can only be write number
    19, the one after all the others. *)
Theorem registers_follow_the_slot_kept :
  forall (env : nat -> hw_op -> Z) (w : world),
    (exists rc added,
        let w' := exec (load_sx1257_default env) w in
        result (load_sx1257_default env) w = Normal rc
        /\ m_sx1257_frequency_slot w' = 12
        /\ w_trace w' = added ++ w_trace w
        /\ (rc = RFIDR_SUCCESS ->
            tuned_to 12 (w_trace w') /\ last_write 0 (w_trace w') = Some 15
            /\ length (sx1257_writes added) = 19%nat)
        /\ (forall i d,
               nth_error (sx1257_writes added) i = Some (0, d) ->
               Z.testbit d 3 = true -> i = 18%nat))
    /\ (exists rc,
           let w' := exec (hop_sx1257_frequency env) w in
           result (hop_sx1257_frequency env) w
           = Normal (rc, m_sx1257_frequency_slot w')
           /\ m_sx1257_frequency_slot w'
              = hop_slot (m_sx1257_frequency_slot w)
           /\ (rc = RFIDR_SUCCESS ->
               tuned_to (m_sx1257_frequency_slot w') (w_trace w')))
    /\ (forall slot,
           let w' := exec (set_sx1257_frequency env slot) w in
           result (set_sx1257_frequency env slot) w = Normal RFIDR_SUCCESS ->
           tuned_to slot (w_trace w')
           /\ m_sx1257_frequency_slot w' = m_sx1257_frequency_slot w).
Proof.
  intros env w. split; [|split].
  - pose proof (load_sx1257_default_run env w) as H. unfold wp in H.
    destruct H as (rc & added & H). exists rc, added. exact H.
  - destruct (tuning_writes env
                (sx1257_frequency_decode
                   (hop_slot (m_sx1257_frequency_slot w)))
                (set_m_sx1257_frequency_slot
                   (hop_slot (m_sx1257_frequency_slot w))
                   (record Ev_enter_hop_sx1257_frequency w)))
      as (rc & n & Hres & Hn & Hall & Hex).
    exists rc. unfold result, exec in *. rewrite hop_sx1257_frequency_run.
    cbv zeta. destruct (fn _ _) as [o w1].
    cbn [fst snd] in *. subst o w1.
    split; [reflexivity|]. split; [reflexivity|].
    intros ->. rewrite (Hall eq_refl).
    cbn [m_sx1257_frequency_slot set_w_trace set_m_sx1257_frequency_slot
         w_trace].
    apply tuned_after_tuning.
  - intros slot w' Hs. subst w'.
    destruct (tuning_writes env (sx1257_frequency_decode slot)
                (exec (emit (Ev_enter_set_sx1257_frequency slot)) w))
      as (rc & n & Hres & Hn & Hall & Hex).
    unfold set_sx1257_frequency in *.
    rewrite result_bind in Hs. rewrite exec_bind.
    change (result (emit (Ev_enter_set_sx1257_frequency slot)) w)
      with (@Normal unit tt) in *.
    cbv iota in *. rewrite Hres in Hs. injection Hs as ->.
    rewrite Hex, (Hall eq_refl).
    split; [|reflexivity].
    cbn [set_w_trace w_trace]. apply tuned_after_tuning.
Qed.


(** ** The gain button *)

Lemma gain_cycle_checked :
  all_below 7 (fun lna =>
                 all_below 5 (fun bba =>
                                (lna =? 0) || (bba =? 0)
                                || gain_cycle_ok lna bba))
  = true.
Proof. vm_compute. reflexivity. Qed.

(** Outside TESTING_DTC the power-toggle button steps through the twelve
    gain settings of the SX1257 and comes back: from any state with the
    LNA variable in 1..6 and the baseband variable in 1..4 (they start at
    1 and 1), one press leaves them in these ranges and sets the gain
    byte 32 * LNA + 10 * (baseband mod 2) + 20; twelve presses in a row
    bring both variables back to where they were, and the twelve bytes
    they set are all the bytes 32 * l + 10 * p + 20 with l in 1..6 and p
    in 0..1, each once. *)
Theorem gain_button_steps_through_twelve_settings :
  forall lna bba : Z,
    1 <= lna <= 6 -> 1 <= bba <= 4 ->
    (let '(lna', bba', gain) := pwr_togl_gain (lna, bba) in
     1 <= lna' <= 6 /\ 1 <= bba' <= 4
     /\ gain = 32 * lna' + 10 * (bba' mod 2) + 20)
    /\ snd (presses 12 (lna, bba)) = (lna, bba)
    /\ length (fst (presses 12 (lna, bba))) = 12%nat
    /\ forall l p, 1 <= l <= 6 -> 0 <= p <= 1 ->
                   In (32 * l + 10 * p + 20) (fst (presses 12 (lna, bba))).
Proof.
  intros lna bba Hl Hb.
  pose proof (all_below_spec _ _ (all_below_spec _ _ gain_cycle_checked lna
                                                 ltac:(lia)) bba ltac:(lia))
    as H.
  cbv beta in H.
  destruct (Z.eqb_spec lna 0); [lia|]. destruct (Z.eqb_spec bba 0); [lia|].
  cbn [orb] in H. unfold gain_cycle_ok in H.
  destruct (pwr_togl_gain (lna, bba)) as [[lna' bba'] gain].
  destruct (presses 12 (lna, bba)) as [gains [lna2 bba2]].
  cbn [fst snd] in *.
  repeat match type of H with
         | _ && _ = true => apply andb_prop in H; destruct H as [H ?]
         end.
  repeat match goal with
         | E : (_ <=? _) = true |- _ => apply Z.leb_le in E
         | E : (_ =? _) = true |- _ => apply Z.eqb_eq in E
         | E : (_ =? _)%nat = true |- _ => apply Nat.eqb_eq in E
         end.
  split; [repeat split; assumption|].
  split; [congruence|]. split; [assumption|].
  intros l p Hl' Hp.
  match goal with
  | E : forallb _ _ = true |- _ => rewrite forallb_forall in E;
      assert (Hin : In l [1; 2; 3; 4; 5; 6]) by (cbn; lia);
      specialize (E l Hin); rewrite forallb_forall in E;
      assert (Hp' : In p [0; 1]) by (cbn; lia);
      specialize (E p Hp'); apply existsb_exists in E;
      destruct E as (x & Hx & Ex); apply Z.eqb_eq in Ex; subst x; exact Hx
  end.
Qed.

Lemma gain_button_steps_through_twelve_settings_witness :
  snd (presses 12 (1, 1)) = (1, 1)
  /\ length (fst (presses 12 (1, 1))) = 12%nat.
Proof.
  assert (Hl : 1 <= 1 <= 6) by lia.
  assert (Hb : 1 <= 1 <= 4) by lia.
  destruct (gain_button_steps_through_twelve_settings 1 1 Hl Hb)
    as (_ & Hs & Hn & _).
  split; [exact Hs | exact Hn].
Defined.


(** ** The exchanges of search_core and their verdicts *)

Lemma triple_given {A B : Type} (F : B -> Prop) (I : B -> world -> Prop)
      (Qn : A -> world -> Prop) (Qr : rfidr_error_t -> world -> Prop)
      (Qd : world -> Prop) (c : M A) :
  (forall b, F b -> triple (I b) Qn Qr Qd c) ->
  triple (fun w => exists b, F b /\ I b w) Qn Qr Qd c.
Proof. intros H w (b & HF & HI). exact (H b HF w HI). Qed.

(** What an update of the state or a call of the hardware, the read of
    the exit code apart, has to show of the verdicts and the flags. *)
Ltac verdict_leaf :=
  intros; cbn [fst snd];
  try match goal with
      | E : failed ?rc = _ |- context [failed ?rc] => rewrite E
      end;
  unfold search_stage, on_verdict in *;
  cbn in *; cbv beta delta [record] in *; cbn in *;
  first [ assumption | exact I | tauto | intuition (subst; auto; fail) ].

Ltac unsealed c := fail.

(** A walk under a condition that no statement breaks. *)
Ltac neutral_walk site :=
  lazymatch goal with
  | |- triple ?I _ _ _ _ => mid_walk I I unsealed site verdict_leaf
  end.

Section Verdict.

Variable env : nat -> hw_op -> Z.

Section Verdict_neutral.

Context (P : list (option iq_path * Z) -> option iq_path -> bool -> bool
             -> Prop)
        (Qr : rfidr_error_t -> world -> Prop).

Lemma verdict_send_full_segments (p : return_ptr) (s seg : string)
      (counter : Z) :
  triple (on_verdict env p P) (fun _ => on_verdict env p P) Qr (fun _ => True)
         (send_full_segments env s seg counter).
Proof.
  destruct p; revert seg counter;
    induction s as [| ch s IH]; intros seg counter; simpl;
    neutral_walk ltac:(idtac; apply IH).
Qed.

Lemma verdict_read_bytes (p : return_ptr) (n : nat) (addr : Z) :
  triple (on_verdict env p P) (fun _ => on_verdict env p P) Qr (fun _ => True)
         (read_bytes env n addr).
Proof.
  destruct p; revert addr; induction n as [| n IH]; intros addr; simpl;
    neutral_walk ltac:(idtac; apply IH).
Qed.

Lemma verdict_handle_error (p : return_ptr) (outer inner : string)
      (rc : rfidr_error_t) :
  triple (on_verdict env p P) (fun _ => on_verdict env p P) Qr (fun _ => True)
         (handle_error env outer inner rc).
Proof.
  destruct p; unfold handle_error.
  - neutral_walk ltac:(idtac; apply verdict_send_full_segments).
  - neutral_walk ltac:(idtac; apply verdict_send_full_segments).
Qed.

Lemma verdict_send_short_message (p : return_ptr) (s : string) :
  triple (on_verdict env p P) (fun _ => on_verdict env p P) Qr (fun _ => True)
         (send_short_message env s).
Proof.
  destruct p; unfold send_short_message.
  - neutral_walk ltac:(idtac; apply verdict_send_full_segments).
  - neutral_walk ltac:(idtac; apply verdict_send_full_segments).
Qed.

End Verdict_neutral.

Section Verdict_record.

Context (P : list (option iq_path * Z) -> option iq_path -> bool -> bool
             -> Prop).

Ltac record_site :=
  idtac;
  lazymatch goal with
  | |- triple _ _ _ _ (handle_error _ _ _ _) => apply verdict_handle_error
  | |- triple _ _ _ _ (send_short_message _ _) =>
      apply verdict_send_short_message
  | |- triple _ _ _ _ (read_bytes _ _ _) => apply verdict_read_bytes
  end.

(** Reading the fields of a path back leaves the verdicts and the pass
    flags alone. *)
Lemma verdict_search_record_i (p : return_ptr) (error_info : string)
      (target : rfidr_target_epc_t) (re : return_epc_t) (rm : return_mag_t)
      (rl : return_lna_gain_t) :
  triple (on_verdict env p P) (fun _ => on_verdict env p P)
         (fun _ => on_verdict env p P) (fun _ => True)
         (search_record_i env error_info target re rm rl p).
Proof.
  destruct p; unfold search_record_i.
  - neutral_walk record_site.
  - neutral_walk record_site.
Qed.

Lemma verdict_search_record_q (p : return_ptr) (error_info : string)
      (target : rfidr_target_epc_t) (re : return_epc_t) (rm : return_mag_t)
      (rl : return_lna_gain_t) :
  triple (on_verdict env p P) (fun _ => on_verdict env p P)
         (fun _ => on_verdict env p P) (fun _ => True)
         (search_record_q env error_info target re rm rl p).
Proof.
  destruct p; unfold search_record_q.
  - neutral_walk record_site.
  - neutral_walk record_site.
Qed.

End Verdict_record.

Section Verdict_search.

Variable base : list (option iq_path * Z).
Variable target : rfidr_target_epc_t.
Hypothesis Htarget : is_pll target = false.

Lemma follows_before (p : return_ptr) (use : option iq_path) (w : world) :
  search_stage env p base [] use false false w ->
  flags_follow_the_verdicts env p base w.
Proof.
  unfold search_stage, flags_follow_the_verdicts, on_verdict,
    exchange_succeeded.
  intros (Hvs & _ & -> & ->). exists []. split; [exact Hvs |].
  cbn [In]. split; split; (discriminate || tauto).
Qed.

Lemma follows_i (p : return_ptr) (use : option iq_path) (c : Z) (w : world) :
  search_stage env p base [(Some USE_I, c)] use (c =? 0) false w ->
  flags_follow_the_verdicts env p base w.
Proof.
  unfold search_stage, flags_follow_the_verdicts, on_verdict,
    exchange_succeeded.
  intros (Hvs & _ & -> & ->). exists [(Some USE_I, c)].
  split; [exact Hvs |]. cbn [In]. rewrite Z.eqb_eq.
  split; split; try (discriminate || tauto).
  - intros ->. left. reflexivity.
  - intros [H | []]. congruence.
  - intros [H | []]. discriminate H.
Qed.

Lemma follows_iq (p : return_ptr) (use : option iq_path) (c d : Z)
      (w : world) :
  search_stage env p base [(Some USE_I, c); (Some USE_Q, d)] use
               (c =? 0) (d =? 0) w ->
  flags_follow_the_verdicts env p base w.
Proof.
  unfold search_stage, flags_follow_the_verdicts, on_verdict,
    exchange_succeeded.
  intros (Hvs & _ & -> & ->). exists [(Some USE_I, c); (Some USE_Q, d)].
  split; [exact Hvs |]. cbn [In]. rewrite !Z.eqb_eq.
  split; split.
  - intros ->. left. reflexivity.
  - intros [H | [H | []]]; [congruence | discriminate H].
  - intros ->. right. left. reflexivity.
  - intros [H | [H | []]]; [discriminate H | congruence].
Qed.

(** The read of the exit code adds a verdict for the path in use. *)
Lemma exit_code_is_a_verdict (p : return_ptr) (path : iq_path)
      (new : list (option iq_path * Z)) (fi fq : bool)
      (Qr : rfidr_error_t -> world -> Prop) :
  triple (search_stage env p base new (Some path) fi fq)
         (fun code =>
            search_stage env p base (new ++ [(Some path, code)]) None fi fq)
         Qr (fun _ => True) (read_radio_exit_code env).
Proof.
  intros w (Hvs & Hu & Hi & Hq). unfold wp, read_radio_exit_code.
  destruct p; cbn; unfold search_stage, on_verdict; cbn;
    rewrite Hvs, Hu, app_assoc; auto.
Qed.

(** The exchange of one path, for a target other than TARGET_PLL_EPC:
    when it comes to its verdict, the exit code has been read once, with
    the path of this turn in use, and the verdict is whether that code
    was 0; when it ends by an error, no exit code has been read. *)
Lemma verdict_search_exchange (p : return_ptr) (error_info : string)
      (loop_iq : Z) (path : iq_path) (new : list (option iq_path * Z))
      (fi fq : bool) :
  (loop_iq = 0 /\ path = USE_I) \/ (loop_iq = 1 /\ path = USE_Q) ->
  triple (search_stage env p base new None fi fq)
         (fun success w =>
            exists c,
              success = (c =? 0)
              /\ search_stage env p base (new ++ [(Some path, c)]) None
                              fi fq w)
         (fun _ => search_stage env p base new None fi fq)
         (fun _ => True)
         (search_exchange env error_info target loop_iq).
Proof.
  intros Hpath. unfold search_exchange. rewrite Htarget.
  destruct Hpath as [[-> Hpath] | [-> Hpath]];
    [ change (0 mod 2 =? 0) with true | change (1 mod 2 =? 0) with false ];
    cbv iota.
  all: destruct p.
  all: lazymatch goal with
       | |- triple (search_stage ?e ?p ?b ?n None ?i ?q) _ _ _ _ =>
           mid_walk (search_stage e p b n (Some path) i q)
                    (search_stage e p b n None i q) unsealed
                    ltac:(idtac;
                          lazymatch goal with
                          | |- triple _ _ _ _ (handle_error _ _ _ _) =>
                              unfold search_stage; apply verdict_handle_error
                          | |- triple _ _ _ _
                                      (bind (read_radio_exit_code _) _) =>
                              apply (triple_seq _
                                       (fun code =>
                                          search_stage e p b
                                            (n ++ [(Some path, code)]) None
                                            i q));
                              [ apply exit_code_is_a_verdict
                              | let w := fresh "w" in
                                let H := fresh "H" in
                                intro code; apply triple_ret; intros w H;
                                exists code; split; [reflexivity | exact H] ]
                          end)
                    verdict_leaf
       end.
Qed.

(** The turn of the I path: its pass flag is set when the verdict of its
    exchange is a success, and only then. *)
Lemma verdict_search_core_path_i (p : return_ptr) (error_info : string)
      (re : return_epc_t) (rm : return_mag_t) (rl : return_lna_gain_t) :
  triple (search_stage env p base [] None false false)
         (fun _ w =>
            exists c,
              True /\ search_stage env p base [(Some USE_I, c)] None
                                   (c =? 0) false w)
         (fun _ => flags_follow_the_verdicts env p base)
         (fun _ => True)
         (search_core_path env error_info target re rm rl p 0).
Proof.
  unfold search_core_path.
  eapply triple_seq.
  { eapply triple_conseq;
      [ apply (verdict_search_exchange p error_info 0 USE_I [] false false);
        left; split; reflexivity
      | intros w H; exact H | intros a w H; exact H
      | intros rc w H; exact (follows_before p None w H) | auto ]. }
  intro success. apply triple_given. intros c ->. cbn [app].
  change (0 =? 0) with true. cbv iota.
  apply (triple_seq _ (fun _ =>
                         search_stage env p base [(Some USE_I, c)] None
                                      (c =? 0) false)).
  2: { intros _. apply triple_ret. intros w H. exists c. split; [exact I | exact H]. }
  destruct (c =? 0) eqn:Ec.
  - apply (triple_seq _ (fun _ =>
                           search_stage env p base [(Some USE_I, c)] None
                                        false false)).
    { unfold search_stage. apply verdict_send_short_message. }
    intros _.
    apply (triple_seq _ (fun _ =>
                           search_stage env p base [(Some USE_I, c)] None
                                        true false)).
    { unfold modify_return. apply triple_modify.
      destruct p; verdict_leaf. }
    intros _.
    set (S := search_stage env p base [(Some USE_I, c)] None true false).
    apply (triple_conseq _ S _ (fun _ => S) _ (fun _ => S) _ (fun _ => True));
      [ unfold S, search_stage; apply verdict_search_record_i
      | intros w H; exact H | intros a w H; exact H | | auto ].
    intros rc w H. apply (follows_i p None c). rewrite Ec. exact H.
  - unfold search_stage. apply verdict_send_short_message.
Qed.

(** The turn of the Q path. *)
Lemma verdict_search_core_path_q (p : return_ptr) (error_info : string)
      (re : return_epc_t) (rm : return_mag_t) (rl : return_lna_gain_t)
      (c : Z) :
  triple (search_stage env p base [(Some USE_I, c)] None (c =? 0) false)
         (fun _ w =>
            exists d,
              True /\ search_stage env p base
                                   [(Some USE_I, c); (Some USE_Q, d)] None
                                   (c =? 0) (d =? 0) w)
         (fun _ => flags_follow_the_verdicts env p base)
         (fun _ => True)
         (search_core_path env error_info target re rm rl p 1).
Proof.
  unfold search_core_path.
  eapply triple_seq.
  { eapply triple_conseq;
      [ apply (verdict_search_exchange p error_info 1 USE_Q
                 [(Some USE_I, c)] (c =? 0) false);
        right; split; reflexivity
      | intros w H; exact H | intros a w H; exact H
      | intros rc w H; exact (follows_i p None c w H) | auto ]. }
  intro success. apply triple_given. intros d ->. cbn [app].
  change (1 =? 0) with false. cbv iota.
  apply (triple_seq _ (fun _ =>
                         search_stage env p base
                                      [(Some USE_I, c); (Some USE_Q, d)] None
                                      (c =? 0) (d =? 0))).
  2: { intros _. apply triple_ret. intros w H. exists d. split; [exact I | exact H]. }
  destruct (d =? 0) eqn:Ed.
  - apply (triple_seq _ (fun _ =>
                           search_stage env p base
                                        [(Some USE_I, c); (Some USE_Q, d)]
                                        None (c =? 0) false)).
    { unfold search_stage. apply verdict_send_short_message. }
    intros _.
    apply (triple_seq _ (fun _ =>
                           search_stage env p base
                                        [(Some USE_I, c); (Some USE_Q, d)]
                                        None (c =? 0) true)).
    { unfold modify_return. apply triple_modify.
      destruct p; verdict_leaf. }
    intros _.
    set (S := search_stage env p base [(Some USE_I, c); (Some USE_Q, d)]
                           None (c =? 0) true).
    apply (triple_conseq _ S _ (fun _ => S) _ (fun _ => S) _ (fun _ => True));
      [ unfold S, search_stage; apply verdict_search_record_q
      | intros w H; exact H | intros a w H; exact H | | auto ].
    intros rc w H. apply (follows_iq p None c d). rewrite Ed. exact H.
  - unfold search_stage. apply verdict_send_short_message.
Qed.

(** The two turns of the loop. *)
Lemma verdict_search_paths (p : return_ptr) (error_info : string)
      (re : return_epc_t) (rm : return_mag_t) (rl : return_lna_gain_t) :
  triple (search_stage env p base [] None false false)
         (fun _ => flags_follow_the_verdicts env p base)
         (fun _ => flags_follow_the_verdicts env p base)
         (fun _ => True)
         (for_loop 2 0 (search_core_path env error_info target re rm rl p)).
Proof.
  cbn [for_loop].
  eapply triple_seq; [apply verdict_search_core_path_i |].
  intros stop. apply triple_given. intros c _.
  destruct stop.
  { apply triple_ret. intros w H. exact (follows_i p None c w H). }
  change (0 + 1) with 1.
  eapply triple_seq; [apply verdict_search_core_path_q |].
  intros stop. apply triple_given. intros d _.
  destruct stop; apply triple_ret; intros w H;
    exact (follows_iq p None c d w H).
Qed.

(** search_core once the result structure holds its defaults. *)
Lemma verdict_search_core_exchanges (p : return_ptr) (error_info : string)
      (session : rfidr_query_session_t) (re : return_epc_t)
      (rm : return_mag_t) (rl : return_lna_gain_t) :
  triple (search_stage env p base [] None false false)
         (fun _ => flags_follow_the_verdicts env p base)
         (fun _ => flags_follow_the_verdicts env p base)
         (fun _ => True)
         (search_core_exchanges env error_info session target re rm rl p).
Proof.
  unfold search_core_exchanges. rewrite Htarget. cbv iota.
  destruct p.
  all: triple_walk
         ltac:(idtac;
               lazymatch goal with
               | |- triple _ _ _ _ (handle_error _ _ _ _) =>
                   unfold search_stage; apply verdict_handle_error
               | |- triple _ _ _ _ (bind (for_loop _ _ _) _) =>
                   eapply triple_seq; [ apply verdict_search_paths | intro ]
               end)
         ltac:(first [ verdict_leaf
                     | intros; eapply follows_before; eassumption ]).
  all: cbv beta; apply triple_bind;
    [ apply triple_ret; auto | intro; apply triple_ret; auto ].
Qed.

End Verdict_search.

(** A call of search_core that returns, for a target other than
    TARGET_PLL_EPC: the pass flags tell which exchanges have succeeded. *)
Lemma search_core_flags_follow (target : rfidr_target_epc_t)
      (error_info : string) (session : rfidr_query_session_t)
      (re : return_epc_t) (rm : return_mag_t) (rl : return_lna_gain_t)
      (p : return_ptr) (w : world) (rc : rfidr_error_t) :
  is_pll target = false ->
  result (search_core env error_info session target re rm rl p) w
  = Normal rc ->
  flags_follow_the_verdicts env p (exchange_verdicts env (w_trace w))
    (exec (search_core env error_info session target re rm rl p) w).
Proof.
  intros Htarget Hres.
  assert (Hstart : search_stage env p (exchange_verdicts env (w_trace w)) []
                                None false false
                                (store_return p default_return w)).
  { unfold search_stage, on_verdict. rewrite app_nil_r.
    destruct p; repeat split; reflexivity. }
  pose proof (verdict_search_core_exchanges
                (exchange_verdicts env (w_trace w)) target Htarget p
                error_info session re rm rl _ Hstart) as H.
  unfold wp in H. revert Hres H. unfold result, exec.
  rewrite search_core_run. unfold fn.
  destruct (search_core_exchanges _ _ _ _ _ _ _ _ _) as [[a | a | |] w1];
    cbn [fst snd post]; intros Hres H; (discriminate Hres || exact H).
Qed.

End Verdict.

Lemma not_pll (target : rfidr_target_epc_t) :
  target <> TARGET_PLL_EPC -> is_pll target = false.
Proof. destruct target; (reflexivity || congruence). Qed.

(** C9.  On every call search_core first puts every field of the result
    structure back to its default (pass flags false, EPC bytes zero, LNA
    gains 0xD4, magnitudes zero), so that what the structure held before
    the call has no influence on the run, and a field is written
    afterwards only in the pass branch of its path, after that path's pass
    flag: after a call, however it ends, a path whose pass flag is false
    holds the defaults in all its fields.  For every target the firmware
    passes (all but TARGET_PLL_EPC, whose only call is compiled out) the
    pass flag of a path is set exactly when the exchange of that path has
    succeeded, that is when the exit code 0 was read while the path was in
    use.  Therefore, after a call in which the exchange of a path fails or
    is never reached, the pass flag of that path is false and all its
    fields equal the defaults; when every exchange fails the whole
    structure equals the defaults. *)
Theorem search_result_has_no_stale_data :
  forall (env : nat -> hw_op -> Z) (error_info : string)
         (session : rfidr_query_session_t) (target : rfidr_target_epc_t)
         (re : return_epc_t) (rm : return_mag_t) (rl : return_lna_gain_t)
         (p : return_ptr) (w : world),
    let run := search_core env error_info session target re rm rl p in
    let r := load_return p (exec run w) in
    load_return p (exec (reset_return_struct p) w) = default_return
    /\ (forall stale, run (store_return p stale w) = run w)
    /\ no_stale_data r
    /\ (target <> TARGET_PLL_EPC ->
        (every_exchange_fails env -> r = default_return)
        /\ forall rc,
            result run w = Normal rc ->
            exists new,
              exchange_verdicts env (w_trace (exec run w))
              = exchange_verdicts env (w_trace w) ++ new
              /\ (i_pass r = true <-> exchange_succeeded USE_I new)
              /\ (q_pass r = true <-> exchange_succeeded USE_Q new)
              /\ (~ exchange_succeeded USE_I new ->
                  i_pass r = false /\ i_fields_default r)
              /\ (~ exchange_succeeded USE_Q new ->
                  q_pass r = false /\ q_fields_default r)).
Proof.
  intros env error_info session target re rm rl p w run r.
  assert (Hrun : forall w0, exec run w0
                 = exec (search_core_exchanges env error_info session target
                           re rm rl p) (store_return p default_return w0)).
  { intro w0. unfold run, exec. rewrite search_core_run.
    unfold fn. destruct (search_core_exchanges _ _ _ _ _ _ _ _ _)
      as [[rc | rc | |] w1]; reflexivity. }
  assert (Hdef : load_return p (store_return p default_return w)
                 = default_return) by (destruct p; reflexivity).
  assert (Hstale : no_stale_data r).
  { unfold r. rewrite Hrun.
    apply (search_core_exchanges_keep env error_info session target re rm rl p).
    unfold on_result. rewrite Hdef.
    split; intros _; repeat split. }
  split; [| split; [| split; [exact Hstale |]]].
  - unfold exec. rewrite reset_return_struct_run. exact Hdef.
  - intro stale. unfold run. rewrite !search_core_run, store_return_twice.
    reflexivity.
  - intros Htarget. split.
    + intros Hfail. unfold r. rewrite Hrun.
      apply (search_core_exchanges_fail env Hfail target Htarget error_info
               session re rm rl p (fun r => r = default_return)).
      exact Hdef.
    + intros rc Hres.
      destruct (search_core_flags_follow env target error_info session re rm
                  rl p w rc (not_pll target Htarget) Hres)
        as (new & Hvs & Hi & Hq).
      fold run r in Hvs, Hi, Hq.
      exists new. split; [exact Hvs |]. split; [exact Hi |].
      split; [exact Hq |].
      destruct Hstale as [Hsi Hsq]. split; intro Hno.
      * assert (E : i_pass r = false)
          by (destruct (i_pass r); [exfalso; apply Hno, Hi |]; reflexivity).
        split; [exact E | exact (Hsi E)].
      * assert (E : q_pass r = false)
          by (destruct (q_pass r); [exfalso; apply Hno, Hq |]; reflexivity).
        split; [exact E | exact (Hsq E)].
Qed.

Lemma search_result_has_no_stale_data_witness :
  let r := load_return P_return_struct_cal
             (exec (search_core (env_fails_from 30) "searching" SESSION_S0
                      TARGET_APP_SPECD_EPC RETURN_EPC_YES RETURN_MAG_YES
                      RETURN_LNA_GAIN_YES P_return_struct_cal)
                   (store_return P_return_struct_cal both_passed_q_stronger
                      (world_in SEARCHING_APP_SPECD_TAG))) in
  i_pass r = true /\ i_main_mag r = 0x01010101
  /\ q_pass r = false /\ q_fields_default r.
Proof.
  intro r.
  destruct (search_result_has_no_stale_data (env_fails_from 30) "searching"
              SESSION_S0 TARGET_APP_SPECD_EPC RETURN_EPC_YES RETURN_MAG_YES
              RETURN_LNA_GAIN_YES P_return_struct_cal
              (store_return P_return_struct_cal both_passed_q_stronger
                 (world_in SEARCHING_APP_SPECD_TAG)))
    as (_ & _ & _ & H).
  assert (Htarget : TARGET_APP_SPECD_EPC <> TARGET_PLL_EPC) by discriminate.
  destruct (H Htarget) as [_ H1].
  destruct (H1 RFIDR_SUCCESS ltac:(vm_compute; reflexivity))
    as (new & Hvs & Hi & _ & _ & Hq).
  fold r in Hi, Hq.
  assert (Hnew : new = [(Some USE_I, 0); (Some USE_Q, 7)]).
  { vm_compute in Hvs. symmetry. exact Hvs. }
  subst new.
  assert (Hyes : exchange_succeeded USE_I [(Some USE_I, 0); (Some USE_Q, 7)])
    by (left; reflexivity).
  assert (Hno : ~ exchange_succeeded USE_Q [(Some USE_I, 0); (Some USE_Q, 7)])
    by (intros [E | [E | []]]; discriminate E).
  split; [exact (proj2 Hi Hyes) |].
  split; [vm_compute; reflexivity |].
  exact (Hq Hno).
Defined.
